(* ===== verification/_CoqProject ===== *)
-Q . S2P
Prelude.v
Text.v
Chain.v
Keccak.v
IndexerDb.v
IndexerHandlers.v
IndexerSpec.v
IndexerLoop.v
IndexerProps.v
IndexerRun.v
IndexerTestbed.v
IndexerTests.v
IndexerTestsProps.v
Market.v
MarketInfra.v
MarketStreams.v
OperatorLedger.v
MarketProps.v
MarketOpening.v
MarketCloud.v
MarketFleet.v
MarketTestbed.v
MarketRef.v
MarketTests.v
MarketTestsProps.v
ByteOrder.v
Io.v
RawProxy.v
RawProxyProps.v
Scallop.v
ScallopStream.v
ScallopHandshake.v
ScallopRun.v
ScallopToy.v
ScallopProps.v
NitroGuest.v
NitroHost.v
NitroLayout.v
NitroDocument.v
NitroGuestProps.v
Async.v
ExecState.v
ExecWorkerd.v
ExecJob.v
ExecTxn.v
ExecEvents.v
ExecNode.v
ExecAccount.v
ExecGuard.v
ExecToy.v
ExecProps.v
Attestation.v
AttestationProps.v
Verifier.v
VerifierProps.v
Keys.v
KeysProps.v
Aws.v
AwsHost.v
Maintenance.v
AwsProvider.v
AwsTrace.v
AwsVetting.v
AwsAccount.v
AwsOps.v
AwsToy.v
AwsProps.v
ServerTests.v
Startup.v
ExecTestbed.v
ExecTests.v
ExecJobTests.v
VsockAddr.v
TcpProxy.v
TcpProxyProps.v
Initialization.v
InitProps.v
Quota.v
AttServers.v
AttServersProps.v
