(* ===== verification/Prelude.v ===== *)
(** * Oyster: a verification library for the Oyster monorepo

    Oyster rents out enclaves.  A user opens a job on the market contract; an
    operator's control plane watches the jobs of its provider and keeps an EC2
    instance with an enclave running for each; an indexer mirrors the market
    into a database; proxies carry the traffic of the enclave over vsock;
    attestation documents let others check what runs inside, and Scallop is a
    transport that authenticates by them; a serverless executor runs user code
    in such an enclave.  This library models the Rust code of these programs,
    by translation into definitions that evaluate, and proves what makes them
    correct.  All paths below are under src/.

    ** The parts, their files and their code

    Shared: this file (record update, outcomes, machine integers, bytes, lists
    and strings, the tactics [inv_ok] and [lengths]); [Text] (strings and
    numbers of the standard library); [ByteOrder]; [Io] (computations over an
    explicit world); [Async] (tokio tasks as trees of awaits, locks, spawns and
    sleeps, their interleavings, and two program logics: ownership of pooled
    resources and rely-guarantee); [Keccak] (Keccak-256, hexadecimal and the
    contract ABI computed, an instance of [ChainApi] with its round trips).

    - Indexer, contracts/indexer.  [Chain]: logs and the codecs of alloy, the
      class [ChainApi].  [IndexerDb]: the tables of schema.rs as finite maps
      and every SQL statement.  [IndexerHandlers]: one definition per file of
      handlers/.  [IndexerLoop]: event_loop and start_from of lib.rs.
      [IndexerRun]: run of main.rs, and restarts.  [IndexerSpec]: events
      without SQL, and the refinement.  [IndexerProps]: the theorems.
      [IndexerTestbed], [IndexerTests], [IndexerTestsProps]: the database of
      test_db.rs, with statements that commit one by one as the tests run
      them, the unit tests of handlers/, and that they pass.
    - Control plane, operator/control-plane.  [Market]: JobState and
      process_log of market.rs.  [MarketInfra]: change_infra and the job loop
      with its biased select.  [MarketStreams]: the log streams and the job
      spawner.  [MarketRef]: a provider behind a mutable reference.
      [MarketProps], [MarketOpening] (the decision on a new job),
      [MarketCloud], [MarketFleet]: the theorems, the last two against clouds
      that keep the contracts [Cloud], of one instance for each job, and
      [Fleet], of any number.  [OperatorLedger]: the control
      plane and the indexer over the same chain.  [Startup]: run of main.rs.
      [MarketTestbed], [MarketTests], [MarketTestsProps]: the provider of
      test.rs with its hashes, run_test on a paused clock, the unit tests of
      market.rs, and that they pass.
    - The AWS provider, aws.rs and server.rs of the control plane.  [Aws]: keys,
      images, instances, addresses; [AwsHost]: what is run over ssh;
      [AwsProvider]: the provider as an [InfraProvider], and the address
      server.  Programs run in the history of their requests and [AwsApi]
      answers each.  [AwsTrace], [AwsVetting], [AwsAccount], [AwsOps]: which
      requests are made, and what they do to an account that obeys EC2's
      contract (classes [Ec2Requests] and [Ec2]); [AwsToy]: such an account; [AwsProps]: the
      theorems.  [ServerTests]: the unit tests of server.rs.  [Maintenance]:
      ami.rs and enclaver.rs.
    - Raw proxies, networking/raw-proxy.  [RawProxy]: the four binaries and
      lib.rs; [RawProxyProps].
    - TCP proxies, networking/tcp-proxy.  [VsockAddr]: the parsers of addresses
      (also of the raw proxies and the init server); [TcpProxy]: addr_info.rs
      and the five binaries; [TcpProxyProps].
    - Initialization, initialization/init-server and vet.  [Initialization],
      [InitProps].
    - Scallop, sdks/rs/src/scallop.rs.  [Scallop]: handshake and stream;
      [ScallopHandshake], [ScallopRun]: running the two sides together;
      [ScallopStream]: what a stream delivers; [ScallopToy]: a noise library;
      [ScallopProps].
    - Attestation documents.  [Attestation], [AttestationProps]: the SDK,
      sdks/rs/src/attestation.rs.  [Verifier], [VerifierProps]: the verifier
      service, attestation/verifier/src/handler.rs.  [AttServers],
      [AttServersProps]: attestation/server, server-custom, the handlers of
      server-custom-mock, and the two command lines.  [NitroGuest],
      [NitroLayout], [NitroDocument], [NitroGuestProps]: the guest of
      attestation/verifier-risczero, the documents of server-custom-mock and
      those the guest accepts;
      [NitroHost]: the host that has the guest proved.
    - Serverless executor, serverless/executor.  [ExecState] (utils.rs,
      cgroups.rs), [ExecWorkerd] (workerd.rs), [ExecJob] (job_handler.rs,
      timeout_handler.rs), [ExecTxn] (sending transactions), [ExecEvents]
      (event_handler.rs), [ExecNode] (node_handler.rs, and the state main.rs
      starts with); [ExecAccount], [ExecGuard]: the two invariants through
      every function; [ExecToy], [ExecProps].  [ExecTestbed], [ExecTests],
      [ExecJobTests]: nine of the thirteen unit tests of tests.rs, those that
      run no user code, and that they pass.
    - Keys, initialization/keygen and the programs that load them.  [Keys],
      [KeysProps].
    - Quota monitor, operator/quota-monitor-aws.  [Quota].

    ** How they interact

    The indexer and the control plane read the same logs ([Chain]).  The job
    loop is written against the class [InfraProvider] (the trait of that name)
    and its theorems against [Cloud] and [Fleet]; the AWS provider is an
    instance of the first and has, over an account that keeps [Ec2Requests]
    and whose listings are current, a theorem like that of [Fleet].  The lists that [Startup] reads are those [AwsVetting] enforces.
    The address the init server tells is the one the raw proxies filter by
    ([InitProps]).  The documents of the attestation servers are those the
    verifier service, the guest and the SDK read.  The key pairs of keygen are
    those the verifier service and the executor start with ([KeysProps]).

    ** What the theorems show

    - Indexer: the loop applies every block once and in order, for any range
      size, any stop and any number of restarts, and catches up with the node;
      each handler does what its event means; balances are the ledger less the
      settlements; a closed job is final; the rows keep their types; the unit
      tests of the handlers pass, whatever the clock.
    - Control plane: the decision on a new job and the time of insolvency are
      exact; no log is lost or seen twice by a job, and no job is spawned
      twice; a change of infrastructure leaves the wanted instance and nothing
      else, in an abstract cloud and, if what it is shown is current, in the
      EC2 account; the loop ends only
      without a live instance, or where it says it does; the operator's
      balance is the indexer's; only listed images are started; a failed
      launch leaves nothing; the unit tests pass from every start of the clock.
    - Networking: the raw tunnel delivers whole packets, in order, exactly the
      permitted ones, until the raw socket refuses one; the transparent TCP proxies connect to the dialled
      address and deliver prefixes, and everything at an orderly end.
    - Scallop: two honest sides finish in every interleaving; whoever is
      accepted is authenticated; a reader reads what was written.
    - Attestation: the SDK accepts exactly the genuine documents (a relational
      specification), the service signs exactly those, under the digest of the
      contract, which with Keccak-256 is the EIP-712 digest of its comments,
      the guest accepts only documents with a valid chain and
      signature and all readable mock documents; a key asked for in an enclave
      ends in a signature over that key.
    - Executor: cgroups are exclusive and come back; there is one listener;
      queued messages are signed and well formed; deployed code is the code
      that runs; the endpoints answer as their tests say.
    - Some theorems show what the code does where it does not do what it means
      to; they are named after it (a panic, a lost result, the oldest request).

    ** Conventions

    A fallible function returns [outcome]: [Ok], [Err] or [Panic].  A w-bit
    integer is a [Z]; arithmetic that can leave the width says so ([wrap] for
    release builds, [Panic] where the library checks).  A function that never
    returns has an empty result type.  Third-party code is a parameter, a
    class per library, and what is relied on of it is a class of laws or a
    named hypothesis; each has a concrete instance, on which the theorems are
    evaluated by the lemmas whose names end in _witness.

    Fuel.  A loop that runs until an error or for ever takes fuel, and running
    out is a result of its own ([None], or a task that ends): the theorems
    about such a loop hold for every fuel, and where a result is promised the
    fuel that is enough is part of the statement ([n - b] turns to index [n]
    blocks from block [b]; one more than the number of connections for a
    proxy; one more than the bytes to send, for a send loop whose sends take
    at least a byte each).  The tests of the job loop get 1000 turns of the
    paused clock, and finish.  Interleavings are relations and take no fuel.

    Tests.  A unit test is translated with its set-up, logs and assertions; it
    is a program or a record that evaluates, and passes when every assertion
    holds.  The test of a clock that is read is stated for every clock in the
    range of the program's integers.

    ** Not modelled

    Command lines, logging and the serving of http; the configuration record
    of the executor, which one call of a library fills.  Of the tests: those that run user code in workerd or need a
    signed document (serverless/executor, the handlers of
    attestation/verifier), and the two of market.rs that parse the rate files.  Examples and build
    scripts.  Code that is commented out (scheduled_tasks.rs).  The Go SDK, the
    Pulumi and Nix files, the kernels and the contracts in other languages. *)


From stdpp Require Export base option list list_numbers strings gmap numbers fin_maps relations.
From Stdlib Require Export ZArith Lia.

#[global] Open Scope Z_scope.
#[global] Set Default Proof Using "Type".

(** ** Functional record update

    [Settable R] gives the eta-expansion of a record type; the setter of a
    field is read off it by abstracting the projection. *)

Class Settable (R : Type) : Type := eta_of : R -> R.

Class Setter {R T : Type} (proj : R -> T) : Type := over : (T -> T) -> R -> R.
Arguments over {R T} proj {Setter} f r /.

Ltac derive_setter R proj :=
  let inst := constr:(_ : Settable R) in
  let e := eval red in inst in
  match eval pattern proj in e with
  | ?g _ =>
      let s := constr:(fun f => g (fun r => f (proj r))) in
      let s := eval cbv beta in s in exact s
  end.

#[export] Hint Extern 0 (@Setter ?R _ ?proj) => derive_setter R proj : typeclass_instances.

Declare Scope oyster_scope.
Delimit Scope oyster_scope with oyster.
#[global] Open Scope oyster_scope.

Notation "r <| f := v |>" := (over f (fun _ => v) r)
  (at level 12, left associativity, f at level 9, v at level 200) : oyster_scope.

(** ** Outcomes of Rust computations

    [Ok] and [Err] are the two constructors of [Result]; [Panic] is an
    unwinding panic (failed index, [unwrap] on [None], assertion, overflow of
    a checked standard-library operation). *)

Inductive outcome (E A : Type) : Type :=
| Ok (a : A)
| Err (e : E)
| Panic.
Arguments Ok {E A} a.
Arguments Err {E A} e.
Arguments Panic {E A}.

#[export] Instance outcome_ret {E} : MRet (outcome E) := fun A a => Ok a.
#[export] Instance outcome_bind {E} : MBind (outcome E) := fun A B f m =>
  match m with Ok a => f a | Err e => Err e | Panic => Panic end.
#[export] Instance outcome_fmap {E} : FMap (outcome E) := fun A B f m =>
  match m with Ok a => Ok (f a) | Err e => Err e | Panic => Panic end.

Definition ok_or {E A} (e : E) (o : option A) : outcome E A :=
  match o with Some a => Ok a | None => Err e end.

Definition unwrap {E A} (o : option A) : outcome E A :=
  match o with Some a => Ok a | None => Panic end.

Definition assert_that {E} (b : bool) : outcome E unit := if b then Ok tt else Panic.

Definition map_err {E F A} (f : E -> F) (m : outcome E A) : outcome F A :=
  match m with Ok a => Ok a | Err e => Err (f e) | Panic => Panic end.

Definition is_ok {E A} (m : outcome E A) : bool :=
  match m with Ok _ => true | _ => false end.

(** ** Machine integers: a w-bit unsigned integer is a [Z] in [0, 2^w) *)

Definition wrap (w z : Z) : Z := z mod 2 ^ w.
Definition umax (w : Z) : Z := 2 ^ w - 1.
Definition in_width (w z : Z) : bool := (0 <=? z) && (z <? 2 ^ w).

Definition u64_MAX : Z := umax 64.
Definition u256_MAX : Z := umax 256.
Definition i32_MAX : Z := 2 ^ 31 - 1.
Definition i64_MAX : Z := 2 ^ 63 - 1.

(** A cast to a signed w-bit integer keeps the low w bits. *)
Definition to_signed (w z : Z) : Z :=
  let r := wrap w z in if r <? 2 ^ (w - 1) then r else r - 2 ^ w.

(** [U256] operators wrap; the [saturating_*] methods clamp. *)
Definition u256_add (a b : Z) : Z := wrap 256 (a + b).
Definition u256_sub (a b : Z) : Z := wrap 256 (a - b).
Definition u256_mul (a b : Z) : Z := wrap 256 (a * b).
Definition u256_saturating_mul (a b : Z) : Z := Z.min (a * b) u256_MAX.
Definition saturating_to_u64 (a : Z) : Z := Z.min a u64_MAX.
Definition saturating_sub (a b : Z) : Z := Z.max 0 (a - b).

(** ** Bytes *)

Abbreviation bytes := (list Z).
Definition is_byte (b : Z) : bool := in_width 8 b.

(** [to_be_bytes] and [from_be_bytes] for an n-byte integer. *)
Fixpoint be_bytes (n : nat) (z : Z) : bytes :=
  match n with
  | O => []
  | S n' => wrap 8 (Z.shiftr z (8 * Z.of_nat n')) :: be_bytes n' z
  end.

Definition from_be (l : bytes) : Z := foldl (fun acc b => 256 * acc + b) 0 l.

(** [&l[a..b]]: panics unless [a <= b <= l.len()]. *)
Definition slice {A} (l : list A) (a b : nat) : option (list A) :=
  if decide (a <= b /\ b <= length l)%nat then Some (take (b - a) (drop a l)) else None.

(** [&mut buf[off..off + len]] filled with [l]. *)
Definition write_at (buf : bytes) (off : nat) (l : bytes) : bytes :=
  take off buf ++ l ++ drop (off + length l) buf.

(** The bytes of a string or byte-string literal. *)
Fixpoint bytes_of_string (s : string) : bytes :=
  match s with
  | EmptyString => []
  | String c s' => Z.of_N (Ascii.N_of_ascii c) :: bytes_of_string s'
  end.

Definition list_eqb (a b : bytes) : bool := bool_decide (a = b).

(** [str::contains] *)
Definition contains (sub s : string) : bool :=
  match String.index 0 sub s with Some _ => true | None => false end.

(** ** Lemmas on buffers *)

Create HintDb lengths.
#[export] Hint Rewrite @length_app @length_take @length_drop @length_replicate : lengths.

(** Arithmetic on the lengths of pieces of buffers. *)
Ltac lengths := autorewrite with lengths; lia.

Lemma length_write_at buf off l : (off + length l <= length buf)%nat -> length (write_at buf off l) = length buf.
Proof. intros H. unfold write_at. lengths. Qed.

Lemma take_write_at_0 buf l : take (length l) (write_at buf 0 l) = l.
Proof. unfold write_at. rewrite take_0. cbn [app]. by rewrite take_app_length. Qed.

Lemma slice_prefix {A} (l r : list A) n : n = length l -> slice (l ++ r) 0 n = Some l.
Proof.
  intros ->. unfold slice. rewrite decide_True by lengths.
  by rewrite drop_0, Nat.sub_0_r, take_app_length.
Qed.

(** ** Lemmas on strings *)

Lemma prefix_append a b : String.prefix a (a +:+ b) = true.
Proof.
  induction a as [| c a IH]; [by destruct b |].
  change ((if Ascii.ascii_dec c c then String.prefix a (a +:+ b) else false) = true). by destruct (Ascii.ascii_dec c c).
Qed.

Lemma length_append a b : String.length (a +:+ b) = (String.length a + String.length b)%nat.
Proof. induction a as [| c a IH]; [done |]. change (S (String.length (a +:+ b)) = S (String.length a + String.length b)). by rewrite IH. Qed.

Lemma append_assoc (a b c : string) : (a +:+ b) +:+ c = a +:+ (b +:+ c).
Proof. induction a as [| x a IH]; [done |]. change (String x ((a +:+ b) +:+ c) = String x (a +:+ (b +:+ c))). by rewrite IH. Qed.

Lemma substring_all b : String.substring 0 (String.length b) b = b.
Proof. induction b as [| c b IH]; [done |]. change (String c (String.substring 0 (String.length b) b) = String c b). by rewrite IH. Qed.

Lemma substring_append a b : String.substring (String.length a) (String.length b) (a +:+ b) = b.
Proof. induction a as [| c a IH]; [apply substring_all | exact IH]. Qed.

Lemma get_append a b : String.get (String.length a) (a +:+ b) = String.get 0 b.
Proof. induction a as [| c a IH]; [done | exact IH]. Qed.

(** ** Lemmas on big-endian numbers *)

Lemma from_be_snoc l b : from_be (l ++ [b]) = 256 * from_be l + b.
Proof. unfold from_be. by rewrite foldl_app. Qed.

Lemma from_be_cons b l : from_be (b :: l) = b * 256 ^ Z.of_nat (length l) + from_be l.
Proof.
  induction l as [| c l IH] using rev_ind; [unfold from_be; simpl; lia |].
  rewrite app_comm_cons, !from_be_snoc, IH, length_app. change (length [c]) with 1%nat.
  rewrite Nat2Z.inj_add, Z.pow_add_r by lia. change (256 ^ Z.of_nat 1) with 256. lia.
Qed.

Lemma length_be_bytes n z : length (be_bytes n z) = n.
Proof. induction n as [| n IH]; [done |]. cbn [be_bytes length]. by rewrite IH. Qed.

#[export] Hint Rewrite length_be_bytes : lengths.

Lemma from_be_be_bytes n z : from_be (be_bytes n z) = z mod 256 ^ Z.of_nat n.
Proof.
  induction n as [| n IH]; cbn [be_bytes]; [by rewrite Z.mod_1_r |].
  rewrite from_be_cons, length_be_bytes, IH. unfold wrap.
  rewrite Z.shiftr_div_pow2, Z.pow_mul_r by lia. change (2 ^ 8) with 256.
  rewrite Nat2Z.inj_succ, Z.pow_succ_r, (Z.mul_comm 256) by lia.
  assert (0 < 256 ^ Z.of_nat n) by (apply Z.pow_pos_nonneg; lia).
  rewrite Z.rem_mul_r by lia. lia.
Qed.

(** ** Lemmas on outcomes *)

Lemma bind_Ok {E A B} (m : outcome E A) (f : A -> outcome E B) b :
  m ≫= f = Ok b <-> exists a, m = Ok a /\ f a = Ok b.
Proof.
  split; [| by intros (a & -> & ?)].
  destruct m as [a | |]; cbn; intros Hm; [eauto | discriminate | discriminate].
Qed.

Lemma ok_or_Ok {E A} (e : E) (o : option A) a : ok_or e o = Ok a <-> o = Some a.
Proof. destruct o; cbn; split; congruence. Qed.

Lemma unwrap_Ok {E A} (o : option A) a : @unwrap E A o = Ok a <-> o = Some a.
Proof. destruct o; cbn; split; congruence. Qed.

(** Decompose an [Ok] result into the results of its binds, and an option
    bind likewise. *)
Ltac inv_ok :=
  repeat match goal with
  | H : _ ≫= _ = Ok _ |- _ => apply bind_Ok in H as (? & ? & ?)
  | H : ok_or _ _ = Ok _ |- _ => apply ok_or_Ok in H
  | H : unwrap _ = Ok _ |- _ => apply unwrap_Ok in H
  | H : mret _ = Ok _ |- _ => injection H as H
  | H : Ok _ = Ok _ |- _ => injection H as H
  | H : Err _ = Ok _ |- _ => discriminate H
  | H : Panic = Ok _ |- _ => discriminate H
  | H : _ ≫= _ = Some _ |- _ => apply bind_Some in H as (? & ? & ?)
  | H : mret _ = Some _ |- _ => injection H as H
  | H : Some _ = Some _ |- _ => injection H as H
  | H : None = Some _ |- _ => discriminate H
  | x : _ * _ |- _ => destruct x
  end; simplify_eq/=.
