(* ===== verification/Text.v ===== *)
(** * Text: the functions on strings that the programs use

    Of the standard library of Rust: splitting, trimming and lower case, with
    the white space and case of ASCII, and the parsing of unsigned decimal
    numbers, which reads back what is printed. *)

From stdpp Require Import pretty.
From S2P Require Import Prelude.

(** ** Splitting and trimming *)

Definition quote : string := String (Ascii.ascii_of_nat 34) EmptyString.
Definition newline : string := String (Ascii.ascii_of_nat 10) EmptyString.
Definition is_empty (s : string) : bool := String.eqb s EmptyString.

Definition is_space (c : Ascii.ascii) : bool :=
  let n := Ascii.nat_of_ascii c in ((9 <=? n) && (n <=? 13) || (n =? 32))%nat.

Definition push_char (c : Ascii.ascii) (words : list string) : list string :=
  match words with [] => [String c EmptyString] | w :: ws => String c w :: ws end.

(** [s.split(c)]: never empty. *)
Fixpoint split_on (c : Ascii.ascii) (s : string) : list string :=
  match s with
  | EmptyString => [EmptyString]
  | String d s => if Ascii.eqb d c then EmptyString :: split_on c s else push_char d (split_on c s)
  end.
Definition lines (s : string) : list string := split_on (Ascii.ascii_of_nat 10) s.

(** [s.split_whitespace()] *)
Fixpoint split_words (s : string) : list string :=
  match s with
  | EmptyString => [EmptyString]
  | String d s => if is_space d then EmptyString :: split_words s else push_char d (split_words s)
  end.
Definition split_whitespace (s : string) : list string := filter (fun w => is_empty w = false) (split_words s).

(** [s.trim()] *)
Fixpoint trim_start (s : string) : string :=
  match s with
  | EmptyString => EmptyString
  | String c t => if is_space c then trim_start t else s
  end.
Fixpoint trim_end (s : string) : string :=
  match s with
  | EmptyString => EmptyString
  | String c t => let t := trim_end t in if is_space c && is_empty t then EmptyString else String c t
  end.
Definition trim (s : string) : string := trim_end (trim_start s).

Definition lower (c : Ascii.ascii) : Ascii.ascii :=
  let n := Ascii.nat_of_ascii c in
  if ((65 <=? n) && (n <=? 90))%nat then Ascii.ascii_of_nat (n + 32) else c.
Fixpoint to_lowercase (s : string) : string :=
  match s with EmptyString => EmptyString | String c s => String (lower c) (to_lowercase s) end.

(** [s.split_once(c)] *)
Fixpoint split_once (c : Ascii.ascii) (s : string) : option (string * string) :=
  match s with
  | EmptyString => None
  | String d s =>
      if Ascii.eqb d c then Some (EmptyString, s)
      else '(a, b) ← split_once c s; Some (String d a, b)
  end.

(** ** Numbers *)

Definition digit_of (c : Ascii.ascii) : option Z :=
  let n := Z.of_N (Ascii.N_of_ascii c) in if (48 <=? n) && (n <=? 57) then Some (n - 48) else None.

Fixpoint parse_digits (w acc : Z) (s : string) : option Z :=
  match s with
  | EmptyString => Some acc
  | String c s =>
      d ← digit_of c;
      let acc := 10 * acc + d in
      if acc <? 2 ^ w then parse_digits w acc s else None
  end.

(** [s.parse()] for an unsigned integer of [w] bits: an optional plus, then
    digits, in range. *)
Definition parse_unsigned (w : Z) (s : string) : option Z :=
  let s := match s with
           | String c t => if Ascii.eqb c (Ascii.ascii_of_nat 43) then t else s
           | EmptyString => s
           end in
  match s with EmptyString => None | _ => parse_digits w 0 s end.

(** ** Printed numbers are read back *)

Fixpoint digits (s : string) : bool :=
  match s with EmptyString => true | String c s => bool_decide (is_Some (digit_of c)) && digits s end.

Lemma digit_of_char d : (d < 10)%N -> digit_of (pretty_N_char d) = Some (Z.of_N d).
Proof.
  intros H. assert (d = 0 \/ d = 1 \/ d = 2 \/ d = 3 \/ d = 4 \/ d = 5 \/ d = 6 \/ d = 7 \/ d = 8 \/ d = 9)%N
    as Hd by lia.
  repeat destruct Hd as [-> | Hd]; try done. by subst.
Qed.

(** A numeral is read to its value, unless some prefix of it is out of
    range, which is so exactly when the whole is. *)
Lemma parse_digits_go w x s : 0 < 2 ^ w ->
  parse_digits w 0 (pretty_N_go x s) = if Z.of_N x <? 2 ^ w then parse_digits w (Z.of_N x) s else None.
Proof.
  intros Hw. revert s. induction (N.lt_wf_0 x) as [x _ IH]. intros s. destruct (decide (x = 0%N)) as [-> | Hx].
  { rewrite pretty_N_go_0. change (Z.of_N 0) with 0. by rewrite (proj2 (Z.ltb_lt _ _) Hw). }
  rewrite pretty_N_go_step, IH by (try apply N.div_lt; lia).
  assert (Hdm : 10 * Z.of_N (x / 10) + Z.of_N (x mod 10) = Z.of_N x)
    by (rewrite N2Z.inj_div, N2Z.inj_mod; symmetry; by apply Z.div_mod).
  pose proof (N2Z.is_nonneg (x / 10)) as Hq. pose proof (N2Z.is_nonneg (x mod 10)) as Hr.
  destruct (Z.ltb_spec (Z.of_N (x / 10)) (2 ^ w)) as [Hlt | Hge].
  - cbn [parse_digits]. rewrite digit_of_char by by apply N.mod_lt. cbn [mbind option_bind]. cbn zeta. by rewrite Hdm.
  - destruct (Z.ltb_spec (Z.of_N x) (2 ^ w)) as [Hlt' |]; [| done]. exfalso.
    clear -Hdm Hq Hr Hge Hlt'. generalize dependent (x / 10)%N. generalize dependent (2 ^ w). lia.
Qed.

Lemma digits_go x s : digits (pretty_N_go x s) = digits s.
Proof.
  revert s. induction (N.lt_wf_0 x) as [x _ IH]. intros s. destruct (decide (x = 0%N)) as [-> | Hx]; [done |].
  rewrite pretty_N_go_step, IH by (try apply N.div_lt; lia). cbn [digits].
  rewrite digit_of_char by by apply N.mod_lt. by rewrite bool_decide_true by by eexists.
Qed.

Lemma digits_pretty (n : N) : digits (pretty n) = true.
Proof. unfold pretty, pretty_N. destruct (decide (n = 0%N)); [done |]. by rewrite digits_go. Qed.

Lemma pretty_ne_empty (n : N) : pretty n <> EmptyString.
Proof.
  unfold pretty, pretty_N. destruct (decide (n = 0%N)) as [| Hn]; [done |]. intros H.
  pose proof (parse_digits_go 64 n EmptyString ltac:(lia)) as Hp. rewrite H in Hp. cbn in Hp.
  destruct (Z.of_N n <? _); [| done]. injection Hp as Hp. lia.
Qed.

(** [parse] of a printed number: its value, or the overflow error. *)
Lemma parse_unsigned_pretty w (n : N) : 0 < w ->
  parse_unsigned w (pretty n) = if Z.of_N n <? 2 ^ w then Some (Z.of_N n) else None.
Proof.
  intros Hw. assert (Hpow : 0 < 2 ^ w) by (apply Z.pow_pos_nonneg; lia).
  assert (Hp : parse_digits w 0 (pretty n) = if Z.of_N n <? 2 ^ w then Some (Z.of_N n) else None).
  { unfold pretty, pretty_N. destruct (decide (n = 0%N)) as [-> | Hn]; [| by rewrite parse_digits_go].
    change (parse_digits w 0 "0") with (if 0 <? 2 ^ w then Some 0 else None). change (Z.of_N 0) with 0.
    by rewrite (proj2 (Z.ltb_lt _ _) Hpow). }
  unfold parse_unsigned. pose proof (digits_pretty n) as Hd. pose proof (pretty_ne_empty n) as Hne.
  destruct (pretty n) as [| c s]; [done |]. cbn [digits] in Hd. apply andb_true_iff in Hd as [Hc _].
  destruct (Ascii.eqb_spec c (Ascii.ascii_of_nat 43)) as [-> | _]; [done | exact Hp].
Qed.

(** Splitting after a numeral, at something that is not a digit. *)
Lemma split_once_digits c s t : digit_of c = None -> digits s = true -> split_once c (s +:+ String c t) = Some (s, t).
Proof.
  intros Hc. induction s as [| d s IH]; intros H; cbn [digits] in *.
  - change (EmptyString +:+ String c t) with (String c t). cbn [split_once]. by rewrite Ascii.eqb_refl.
  - apply andb_true_iff in H as [Hd%bool_decide_eq_true Hs].
    change (String d s +:+ String c t) with (String d (s +:+ String c t)). cbn [split_once]. rewrite IH by done.
    destruct (Ascii.eqb_spec d c) as [-> |]; [| done]. rewrite Hc in Hd. by destruct Hd.
Qed.

(** ** Trimming *)

Lemma trim_end_app s t : trim_end t <> EmptyString -> trim_end (s +:+ t) = s +:+ trim_end t.
Proof.
  intros Ht. induction s as [| c s IH]; [done |]. change (String c s +:+ t) with (String c (s +:+ t)).
  cbn [trim_end]. rewrite IH. change (String c s +:+ trim_end t) with (String c (s +:+ trim_end t)).
  assert (is_empty (s +:+ trim_end t) = false) as -> by (destruct s; [by destruct (trim_end t) | done]).
  by rewrite andb_false_r.
Qed.

Lemma trim_start_app s t : s <> EmptyString -> trim_start s = s -> trim_start (s +:+ t) = s +:+ t.
Proof.
  destruct s as [| c s]; [done |]. intros _. cbn [trim_start]. change (String c s +:+ t) with (String c (s +:+ t)).
  cbn [trim_start]. destruct (is_space c); [| done]. intros H. exfalso.
  assert (Hlen : (String.length (trim_start s) <= String.length s)%nat).
  { clear. induction s as [| c s IH]; [done |]. cbn [trim_start]. destruct (is_space c); cbn [String.length]; lia. }
  rewrite H in Hlen. cbn in Hlen. lia.
Qed.
