(* ===== verification/Chain.v ===== *)
(** * The chain interface: event logs and the codecs of the [alloy] crate

    The indexer and the control plane consume the same contract logs.  The
    record [Log] is the part of an RPC log they read; hashing, hex printing
    and ABI decoding belong to third-party crates and are the operations of
    the class [ChainApi].  [ToyChain] is a concrete instance used by the
    witnesses. *)

From S2P Require Import Prelude.

(** A 32-byte word (topic, hash, job id). *)
Abbreviation B256 := Z.

Record Log := mkLog {
  topics : list B256;
  data : bytes;
  block_number : option Z;
  log_index : option Z;
  transaction_hash : option B256;
  removed : bool
}.

Class ChainApi := {
  (* keccak256 of a string literal *)
  keccak256 : string -> B256;
  (* B256::encode_hex_with_prefix *)
  encode_hex_with_prefix : B256 -> string;
  (* Address::from_word(w).to_checksum(None) *)
  checksum_address : B256 -> string;
  (* <(String, U256, U256, U256)>::abi_decode_sequence(data, true) *)
  abi_decode_opened : bytes -> option (string * Z * Z * Z);
  (* <(U256, U256)>::abi_decode_sequence(data, true) *)
  abi_decode_u256_pair : bytes -> option (Z * Z);
  (* U256::abi_decode(data, true) *)
  abi_decode_u256 : bytes -> option Z;
  (* String::abi_decode(data, true) *)
  abi_decode_string : bytes -> option string
}.

(** [log.topics()[i]]: an index panics when the topic is missing. *)
Definition topic {E} (log : Log) (i : nat) : outcome E B256 := unwrap (topics log !! i).

(** [log.topic0()]: the first topic, if any. *)
Definition topic0 (log : Log) : option B256 := topics log !! 0%nat.

(** ** A toy instance: words are decoded positionally from the data *)
Module ToyChain.

Fixpoint string_of_codes (l : list Z) : string :=
  match l with
  | [] => EmptyString
  | c :: l' => String (Ascii.ascii_of_N (Z.to_N c)) (string_of_codes l')
  end.

Fixpoint codes_of_string (s : string) : list Z :=
  match s with
  | EmptyString => []
  | String c s' => Z.of_N (Ascii.N_of_ascii c) :: codes_of_string s'
  end.

(** An injective stand-in for a hash: the string read in base 256. *)
Definition hash (s : string) : B256 := from_be (1 :: codes_of_string s).

Definition digit (d : Z) : Z := if d <? 10 then 48 + d else 87 + d.
Fixpoint hex (n : nat) (z : Z) (acc : string) : string :=
  match n with
  | O => acc
  | S n' => hex n' (z / 16) (String (Ascii.ascii_of_N (Z.to_N (digit (z mod 16)))) acc)
  end.

#[export] Instance toy_chain : ChainApi := {|
  keccak256 := hash;
  encode_hex_with_prefix w := ("0x" ++ hex 64 w "")%string;
  checksum_address w := ("0x" ++ hex 40 w "")%string;
  abi_decode_opened d :=
    match d with
    | rate :: balance :: ts :: meta => Some (string_of_codes meta, rate, balance, ts)
    | _ => None
    end;
  abi_decode_u256_pair d := match d with [a; b] => Some (a, b) | _ => None end;
  abi_decode_u256 d := match d with [a] => Some a | _ => None end;
  abi_decode_string d := Some (string_of_codes d)
|}.

End ToyChain.
