(* ===== verification/Keccak.v ===== *)
(** * A concrete chain interface: Keccak-256, EIP-55 and the contract ABI

    The codecs of the [alloy] crate are parameters of the development
    ([ChainApi]).  This instance computes them as their published
    specifications define them: the sponge of Keccak-256, the mixed-case check
    sum of an address, and the head and tail encoding of the contract ABI, with
    its round trips.  The unit tests of the programs are run with it. *)

From S2P Require Import Prelude Chain.

(** ** Keccak-f[1600] on a list of 25 lanes of 64 bits, lane [x + 5 * y] *)

Definition lane (a : list Z) (x y : nat) : Z := nth (x mod 5 + 5 * (y mod 5)) a 0.

Definition lanes (f : nat -> nat -> Z) : list Z := map (fun i => f (i mod 5)%nat (i / 5)%nat) (seq 0 25).

Definition rotl (n x : Z) : Z := Z.land (Z.lor (Z.shiftl x n) (Z.shiftr x (64 - n))) (Z.ones 64).

Definition rotations : list Z :=
  [0; 1; 62; 28; 27; 36; 44; 6; 55; 20; 3; 10; 43; 25; 39; 41; 45; 15; 21; 8; 18; 2; 61; 56; 14].

Definition round_constants : list Z :=
  [0x0000000000000001; 0x0000000000008082; 0x800000000000808a; 0x8000000080008000;
   0x000000000000808b; 0x0000000080000001; 0x8000000080008081; 0x8000000000008009;
   0x000000000000008a; 0x0000000000000088; 0x0000000080008009; 0x000000008000000a;
   0x000000008000808b; 0x800000000000008b; 0x8000000000008089; 0x8000000000008003;
   0x8000000000008002; 0x8000000000000080; 0x000000000000800a; 0x800000008000000a;
   0x8000000080008081; 0x8000000000008080; 0x0000000080000001; 0x8000000080008008].

Definition theta (a : list Z) : list Z :=
  let c := map (fun x => foldl Z.lxor 0 (map (lane a x) (seq 0 5))) (seq 0 5) in
  let column x := nth (x mod 5) c 0 in
  lanes (fun x y => Z.lxor (lane a x y) (Z.lxor (column (x + 4)) (rotl 1 (column (x + 1)))))%nat.

Definition rho (a : list Z) : list Z := zip_with rotl rotations a.

Definition pi (a : list Z) : list Z := lanes (fun x y => lane a (x + 3 * y) x)%nat.

Definition chi (a : list Z) : list Z :=
  lanes (fun x y => Z.lxor (lane a x y) (Z.land (Z.lxor (lane a (x + 1) y) (Z.ones 64)) (lane a (x + 2) y)))%nat.

Definition iota (rc : Z) (a : list Z) : list Z := match a with x :: l => Z.lxor x rc :: l | [] => [] end.

Definition keccak_f (a : list Z) : list Z :=
  foldl (fun a rc => iota rc (chi (pi (rho (theta a))))) a round_constants.

(** ** The sponge, with the padding of Keccak and a rate of 136 bytes *)

Fixpoint from_le (l : bytes) : Z := match l with [] => 0 | b :: l => b + 256 * from_le l end.
Fixpoint le_bytes (n : nat) (z : Z) : bytes :=
  match n with O => [] | S n => z mod 256 :: le_bytes n (z / 256) end.

Fixpoint chunks (size n : nat) (l : bytes) : list bytes :=
  match n with O => [] | S n => take size l :: chunks size n (drop size l) end.

Definition pad (m : bytes) : bytes :=
  let q := (136 - length m mod 136)%nat in
  m ++ (if Nat.eqb q 1 then [0x81] else 1 :: repeat 0 (q - 2) ++ [0x80]).

Definition absorb (a : list Z) (block : bytes) : list Z :=
  keccak_f (zip_with Z.lxor a (map from_le (chunks 8 17 block) ++ repeat 0 8)).

Definition keccak (m : bytes) : bytes :=
  let p := pad m in
  take 32 (flat_map (le_bytes 8) (foldl absorb (repeat 0 25) (chunks 136 (length p / 136) p))).

(** The hash of the empty string is the known one. *)
Example keccak_empty :
  from_be (keccak []) = 0xc5d2460186f7233c927e7db2dcc703c0e500b653ca82273b7bfad8045d85a470.
Proof. vm_compute. reflexivity. Qed.

(** ** Hexadecimal text *)

Definition digit_value (c : Ascii.ascii) : option Z :=
  let n := Z.of_nat (Ascii.nat_of_ascii c) in
  if (48 <=? n) && (n <=? 57) then Some (n - 48)
  else if (97 <=? n) && (n <=? 102) then Some (n - 87)
  else if (65 <=? n) && (n <=? 70) then Some (n - 55)
  else None.

Fixpoint parse_digits (acc : Z) (s : string) : option Z :=
  match s with
  | EmptyString => Some acc
  | String c s => d ← digit_value c; parse_digits (16 * acc + d) s
  end.

(** [FixedBytes<N>::from_str] of [0x] and [n] digits. *)
Definition parse_fixed (n : nat) (s : string) : option Z :=
  match s with
  | String z (String x digits) =>
      if String.eqb (String z (String x EmptyString)) "0x" && Nat.eqb (String.length digits) n
      then parse_digits 0 digits else None
  | _ => None
  end.

Definition print_hex (n : nat) (z : Z) : string := ToyChain.hex n z EmptyString.

(** The text of a 32-byte word: [0x] and 64 digits in lower case. *)
Definition is_lower_hex (c : Ascii.ascii) : bool :=
  let n := Ascii.nat_of_ascii c in ((48 <=? n) && (n <=? 57) || (97 <=? n) && (n <=? 102))%nat.

Fixpoint string_all (p : Ascii.ascii -> bool) (s : string) : bool :=
  match s with EmptyString => true | String c s => p c && string_all p s end.

Definition canonical_word (s : string) : bool :=
  match s with
  | String z (String x digits) =>
      String.eqb (String z (String x EmptyString)) "0x" && Nat.eqb (String.length digits) 64 &&
      string_all is_lower_hex digits
  | _ => false
  end.

(** EIP-55: a letter is in upper case when the digit of the hash of the lower
    case text at its place is at least 8. *)
Definition upper (c : Ascii.ascii) : Ascii.ascii :=
  let n := Ascii.nat_of_ascii c in
  if ((97 <=? n) && (n <=? 122))%nat then Ascii.ascii_of_nat (n - 32) else c.

Fixpoint mix_case (text hash : string) : string :=
  match text, hash with
  | String c text, String h hash =>
      String (match digit_value h with Some d => if 8 <=? d then upper c else c | None => c end)
        (mix_case text hash)
  | _, _ => text
  end.

Definition checksum (w : B256) : string :=
  let text := print_hex 40 w in
  "0x" +:+ mix_case text (print_hex 64 (from_be (keccak (bytes_of_string text)))).

(** ** The ABI *)

Definition abi_word (z : Z) : bytes := be_bytes 32 z.
Definition abi_tail (s : string) : bytes :=
  let b := bytes_of_string s in
  abi_word (Z.of_nat (length b)) ++ b ++ repeat 0 ((32 - length b mod 32) mod 32)%nat.

Definition encode_int (z : Z) : bytes := abi_word z.
Definition encode_pair (a b : Z) : bytes := abi_word a ++ abi_word b.
Definition encode_str (s : string) : bytes := abi_word 32 ++ abi_tail s.
Definition encode_opened (s : string) (a b c : Z) : bytes :=
  abi_word 128 ++ abi_word a ++ abi_word b ++ abi_word c ++ abi_tail s.

Definition word_at (d : bytes) (i : nat) : Z := from_be (take 32 (drop (32 * i) d)).
Definition string_at (d : bytes) (i : nat) : string :=
  ToyChain.string_of_codes (take (Z.to_nat (word_at d i)) (drop (32 * S i) d)).

(** Decoding with validation: what is read must encode to the data. *)
Definition validated {A} (encode : A -> bytes) (read : bytes -> A) (d : bytes) : option A :=
  if list_eqb (encode (read d)) d then Some (read d) else None.

(** The hashes of the event signatures, computed once. *)
Definition known_hashes : list (string * Z) :=
  [("ProviderAdded(address,string)"%string,
    0x685b3f0c2702c8946b2f7fcfbc7ad4802d34b86a128adc5b5fb99570d27f5357);
   ("ProviderRemoved(address)"%string,
    0x1589f8555933761a3cff8aa925061be3b46e2dd43f621322ab611d300f62b1d9);
   ("ProviderUpdatedWithCp(address,string)"%string,
    0x16aa293866804eb57e17688cdf865583ca3ea47890988b4854569cc4e8d62b5b);
   ("JobOpened(bytes32,string,address,address,uint256,uint256,uint256)"%string,
    0xcaf4e46d4e6467895056ca2f41d879c0cd4f68875400a55b8e9b24c9904931b4);
   ("JobSettled(bytes32,uint256,uint256)"%string,
    0xd279a21adfe210809eb47e25b172b6b8c49f3c909ca3fe860c28ad1670ed6680);
   ("JobClosed(bytes32)"%string,
    0x87c6cc8269aa1e8b05794139b53e072d0cdd15e8bc266fb1fca4028003a7d98c);
   ("JobDeposited(bytes32,address,uint256)"%string,
    0x0ce27c5acd9cfe158836bbbf9751706ebe58afef872149bdf8594627924c32e3);
   ("JobWithdrew(bytes32,address,uint256)"%string,
    0xba29401019042047f1847a0cb0610d75686cdf6011b49edd68ffc3320c25dca8);
   ("JobReviseRateInitiated(bytes32,uint256)"%string,
    0x822e25a49fe523e2b8907a877a478c4b2686dfa71bfa434360ae0df1f2d05b60);
   ("JobReviseRateCancelled(bytes32)"%string,
    0x868233d4ed22058a3e695c5799cb9cb0f61713f6314a69099b56fac0c7aef362);
   ("JobReviseRateFinalized(bytes32,uint256)"%string,
    0x0e4af7f97161d5d3cc661d796f0d9649d696a298c6cd356d3d5ac9fad59bdeb3);
   ("JobMetadataUpdated(bytes32,string)"%string,
    0xa24ecd736bba25f4e473a4b5b4e2bb685cd0ccfc87ac332fc4079943e870d59b);
   ("LockCreated(bytes32,bytes32,uint256,uint256)"%string,
    0x0d858fafaaaabbcb3b2d1ecac6142eb509664ef8d0cae011942541e3273001d5);
   ("LockDeleted(bytes32,bytes32,uint256)"%string,
    0xdbe35a54268d79c0dfe35aa29c4972c87611267a6b4db6414ffa0c2ae78ac649);
   ("RATE_LOCK"%string,
    0xbb00c34f1a27e23493f1bd516e88ec0af9b091cc990f207e765f5bd5af012243);
   ("OTHER_LOCK"%string,
    0x07abeaa280b112dad299f4feb75eabf9b1b992f9912735cb15507bf7f2a2bcce)].

Definition known_hash (s : string) : option Z :=
  snd <$> find (fun e => String.eqb (fst e) s) known_hashes.

Definition keccak_string (s : string) : B256 :=
  match known_hash s with Some z => z | None => from_be (keccak (bytes_of_string s)) end.

Lemma known_hashes_correct :
  forallb (fun e => from_be (keccak (bytes_of_string (fst e))) =? snd e) known_hashes = true.
Proof. vm_compute. reflexivity. Qed.

(** The table changes nothing. *)
Lemma keccak_string_eq s : keccak_string s = from_be (keccak (bytes_of_string s)).
Proof.
  unfold keccak_string, known_hash. destruct (find _ known_hashes) as [[s' z] |] eqn:Hf; [| done].
  apply find_some in Hf as [Hin He]. apply String.eqb_eq in He. simpl in He. subst s'.
  pose proof (proj1 (forallb_forall _ _) known_hashes_correct _ Hin) as Hk. cbv beta in Hk.
  symmetry. by apply Z.eqb_eq in Hk.
Qed.

#[export] Instance keccak_chain : ChainApi := {|
  keccak256 := keccak_string;
  encode_hex_with_prefix w := "0x" +:+ print_hex 64 w;
  checksum_address := checksum;
  abi_decode_opened := validated (fun v => let '(s, a, b, c) := v in encode_opened s a b c)
    (fun d => (string_at d 4, word_at d 1, word_at d 2, word_at d 3));
  abi_decode_u256_pair := validated (uncurry encode_pair) (fun d => (word_at d 0, word_at d 1));
  abi_decode_u256 := validated encode_int (fun d => word_at d 0);
  abi_decode_string := validated encode_str (fun d => string_at d 1)
|}.

(** ** Round trips *)

Lemma validated_encode {A} (encode : A -> bytes) read v :
  read (encode v) = v -> validated encode read (encode v) = Some v.
Proof. intros Hv. unfold validated, list_eqb. by rewrite Hv, bool_decide_eq_true_2. Qed.

Lemma hex_snoc n : forall z acc,
  ToyChain.hex (S n) z acc =
  String (Ascii.ascii_of_N (Z.to_N (ToyChain.digit (z / 16 ^ Z.of_nat n mod 16)))) (ToyChain.hex n z acc).
Proof.
  induction n as [| n IH]; intros z acc.
  - cbn [ToyChain.hex]. by rewrite Z.pow_0_r, Z.div_1_r.
  - cbn [ToyChain.hex] in IH |- *. rewrite IH. f_equal. do 4 f_equal.
    rewrite Z.div_div by lia. f_equal. rewrite Nat2Z.inj_succ, Z.pow_succ_r by lia. done.
Qed.

Lemma lower_digit c : is_lower_hex c = true ->
  exists d, digit_value c = Some d /\ 0 <= d < 16 /\ Ascii.ascii_of_N (Z.to_N (ToyChain.digit d)) = c.
Proof.
  destruct c as [[] [] [] [] [] [] [] []]; vm_compute; intros Hc; try discriminate Hc;
    eexists; (split; [reflexivity | split; [split; [discriminate | reflexivity] | reflexivity]]).
Qed.

(** Lower case digits are printed back, whatever precedes them. *)
Lemma print_parsed s : string_all is_lower_hex s = true -> forall acc,
  exists z, parse_digits acc s = Some z /\ z / 16 ^ Z.of_nat (String.length s) = acc /\
    ToyChain.hex (String.length s) z EmptyString = s.
Proof.
  induction s as [| c s IH]; intros Hs acc.
  - exists acc. cbn. by rewrite Z.div_1_r.
  - cbn [string_all] in Hs. apply andb_true_iff in Hs as [(d & Hd & Hr & Hp)%lower_digit Hs].
    destruct (IH Hs (16 * acc + d)) as (z & Hz & Hq & Hprint). exists z.
    cbn [parse_digits String.length]. rewrite Hd. split; [exact Hz |]. split.
    + rewrite Nat2Z.inj_succ, Z.pow_succ_r, Z.mul_comm, <- Z.div_div, Hq by lia.
      rewrite Z.mul_comm, Z.div_add_l, Z.div_small by lia. lia.
    + rewrite hex_snoc, Hq, Hprint. f_equal.
      by rewrite Z.mul_comm, Z.add_comm, Z.mod_add, Z.mod_small by lia.
Qed.

Lemma word_at_head z d : 0 <= z <= u64_MAX -> word_at (abi_word z ++ d) 0 = z.
Proof.
  intros Hz. unfold word_at, abi_word. rewrite drop_0.
  rewrite take_app_length' by (by rewrite length_be_bytes).
  rewrite from_be_be_bytes, Z.mod_small; [done |]. unfold u64_MAX, umax in Hz.
  assert (2 ^ 64 - 1 < 256 ^ Z.of_nat 32) by reflexivity. lia.
Qed.

Lemma word_at_cons w d i : length w = 32%nat -> word_at (w ++ d) (S i) = word_at d i.
Proof. intros Hw. unfold word_at. rewrite drop_app_ge, Hw by lia. do 3 f_equal. lia. Qed.

Lemma string_at_cons w d i : length w = 32%nat -> string_at (w ++ d) (S i) = string_at d i.
Proof.
  intros Hw. unfold string_at. rewrite word_at_cons, drop_app_ge, Hw by lia. do 3 f_equal. lia.
Qed.

Lemma string_of_bytes s : ToyChain.string_of_codes (bytes_of_string s) = s.
Proof.
  induction s as [| c s IH]; [done |]. cbn [bytes_of_string ToyChain.string_of_codes].
  by rewrite IH, N2Z.id, Ascii.ascii_N_embedding.
Qed.

Lemma length_bytes_of_string s : length (bytes_of_string s) = String.length s.
Proof. induction s; cbn; congruence. Qed.

Lemma length_abi_word z : length (abi_word z) = 32%nat.
Proof. apply length_be_bytes. Qed.

Lemma string_at_tail s : Z.of_nat (String.length s) <= u64_MAX -> string_at (abi_tail s) 0 = s.
Proof.
  intros Hs. unfold string_at, abi_tail. rewrite length_bytes_of_string, word_at_head by lia.
  rewrite Nat2Z.id, drop_app_length' by (rewrite length_abi_word; lia).
  rewrite take_app_length' by (by rewrite length_bytes_of_string). apply string_of_bytes.
Qed.

Lemma word_at_only z : 0 <= z <= u64_MAX -> word_at (abi_word z) 0 = z.
Proof. intros Hz. rewrite <- (app_nil_r (abi_word z)). by apply word_at_head. Qed.

Lemma decode_encode_int n : 0 <= n <= u64_MAX -> abi_decode_u256 (encode_int n) = Some n.
Proof. intros Hn. apply (validated_encode encode_int). by apply word_at_only. Qed.

Lemma decode_encode_pair a b : 0 <= a <= u64_MAX -> 0 <= b <= u64_MAX ->
  abi_decode_u256_pair (encode_pair a b) = Some (a, b).
Proof.
  intros Ha Hb. apply (validated_encode (uncurry encode_pair) _ (a, b)). cbn [uncurry]. unfold encode_pair.
  by rewrite word_at_head, word_at_cons, word_at_only by (try apply length_abi_word; lia).
Qed.

Lemma decode_encode_str s : Z.of_nat (String.length s) <= u64_MAX ->
  abi_decode_string (encode_str s) = Some s.
Proof.
  intros Hs. apply (validated_encode encode_str). unfold encode_str.
  by rewrite string_at_cons, string_at_tail by (try apply length_abi_word; lia).
Qed.

Lemma decode_encode_opened s a b c : Z.of_nat (String.length s) <= u64_MAX ->
  0 <= a <= u64_MAX -> 0 <= b <= u64_MAX -> 0 <= c <= u64_MAX ->
  abi_decode_opened (encode_opened s a b c) = Some (s, a, b, c).
Proof.
  intros Hs Ha Hb Hc.
  apply (validated_encode (fun v => let '(s, a, b, c) := v in encode_opened s a b c) _ (s, a, b, c)).
  cbn beta iota. unfold encode_opened.
  rewrite !string_at_cons, string_at_tail by (try apply length_abi_word; lia).
  by rewrite !word_at_cons, !word_at_head by (try apply length_abi_word; lia).
Qed.

Lemma canonical_word_printed s : canonical_word s = true ->
  exists w, parse_fixed 64 s = Some w /\ encode_hex_with_prefix w = s.
Proof.
  intros Hs. unfold canonical_word in Hs. destruct s as [| z [| x s]]; try discriminate Hs.
  apply andb_true_iff in Hs as [Hs Hd]. apply andb_true_iff in Hs as [Hx Hl].
  destruct (print_parsed s Hd 0) as (w & Hw & _ & Hp). exists w.
  unfold parse_fixed. rewrite Hx, Hl. split; [exact Hw |].
  apply Nat.eqb_eq in Hl. apply String.eqb_eq in Hx. injection Hx as -> ->.
  cbn [encode_hex_with_prefix keccak_chain]. unfold print_hex. by rewrite <- Hl, Hp.
Qed.
