(* ===== verification/IndexerDb.v ===== *)
(** * Indexer: the database schema and its SQL statements

    The tables of [contracts/indexer/src/schema.rs] (and the constraints of
    the migrations they are generated from) as finite maps keyed by their
    primary keys, and the statements the handlers issue as the type
    [statement], executed by [execute]. *)

From S2P Require Import Prelude Text Chain.

(** ** SQL over a table keyed by its primary key *)
Section sql.
Context {K V : Type} `{Countable K}.

(** UPDATE t SET f WHERE p, with the number of updated rows. *)
Definition sql_update (p : K -> V -> bool) (f : V -> V) (t : gmap K V) : gmap K V * nat :=
  (map_imap (fun k v => Some (if p k v then f v else v)) t,
   size (filter (fun kv => p kv.1 kv.2 = true) t)).

(** DELETE FROM t WHERE p. *)
Definition sql_delete (p : K -> V -> bool) (t : gmap K V) : gmap K V * nat :=
  (filter (fun kv => p kv.1 kv.2 = false) t,
   size (filter (fun kv => p kv.1 kv.2 = true) t)).

(** INSERT INTO t VALUES (k, v): a unique violation when k is taken. *)
Definition sql_insert (k : K) (v : V) (t : gmap K V) : option (gmap K V) :=
  match t !! k with Some _ => None | None => Some (<[k := v]> t) end.

(** INSERT .. ON CONFLICT (k) DO UPDATE SET f WHERE p. *)
Definition sql_upsert (k : K) (v : V) (p : V -> bool) (f : V -> V) (t : gmap K V) : gmap K V * nat :=
  match t !! k with
  | None => (<[k := v]> t, 1%nat)
  | Some v0 => if p v0 then (<[k := f v0]> t, 1%nat) else (t, 0%nat)
  end.

End sql.

(** ** Tables *)

Record Job := mkJob {
  metadata : string;
  owner : string;
  provider : string;
  rate : Z;
  balance : Z;
  last_settled : Z;
  created : Z;
  is_closed : bool
}.

Record Provider := mkProvider { cp : string; is_active : bool }.

Record ReviseRateRequest := mkRequest { value : Z; updates_at : Z }.

Record Transaction := mkTransaction {
  tx_hash : string;
  tx_job : string;
  amount : Z;
  is_deposit : bool
}.

(** The sync table holds the block numbers of its rows: a single row in
    every reachable state. *)
Record Db := mkDb {
  jobs : gmap string Job;
  providers : gmap string Provider;
  revise_rate_requests : gmap string ReviseRateRequest;
  transactions : gmap (Z * Z) Transaction;
  sync : list Z
}.

#[export] Instance eta_Job : Settable Job := fun r =>
  mkJob (metadata r) (owner r) (provider r) (rate r) (balance r) (last_settled r)
    (created r) (is_closed r).
#[export] Instance eta_Provider : Settable Provider := fun r => mkProvider (cp r) (is_active r).
#[export] Instance eta_Db : Settable Db := fun r =>
  mkDb (jobs r) (providers r) (revise_rate_requests r) (transactions r) (sync r).

(** The database after the migrations: every table empty, one sync row. *)
Definition initial_db : Db := mkDb ∅ ∅ ∅ ∅ [-1].

(** ** Statements *)

(** The SET clauses of the statements on an open job. *)
Inductive job_change :=
| SetClosed
| AddBalance (a : Z)
| SubBalance (a : Z)
| Settle (a : Z) (ts : Z)
| SetRate (r : Z)
| SetMetadata (m : string).

Definition change_job (c : job_change) (j : Job) : Job :=
  match c with
  | SetClosed => j <| is_closed := true |>
  | AddBalance a => j <| balance := balance j + a |>
  | SubBalance a => j <| balance := balance j - a |>
  | Settle a ts => j <| balance := balance j - a |> <| last_settled := ts |>
  | SetRate r => j <| rate := r |>
  | SetMetadata m => j <| metadata := m |>
  end.

Inductive statement :=
| UpsertProvider (id url : string)
| DeactivateProvider (id : string)
| SetProviderCp (id url : string)
| InsertJob (id : string) (j : Job)
| UpdateOpenJob (id : string) (c : job_change)
| InsertTransaction (block idx : Z) (t : Transaction)
| InsertRequestOfOpenJob (id : string) (r : ReviseRateRequest)
| DeleteRequest (id : string)
| SetSync (b : Z)
| RaiseSync (b : Z).

(** The statement's effect and row count; [None] is a constraint violation
    (unique or foreign key). *)
Definition execute (st : statement) (db : Db) : option (Db * nat) :=
  match st with
  | UpsertProvider id url =>
      let '(t, n) := sql_upsert id (mkProvider url true) (fun p => negb (is_active p))
                       (fun p => p <| is_active := true |> <| cp := url |>) (providers db) in
      Some (db <| providers := t |>, n)
  | DeactivateProvider id =>
      let '(t, n) := sql_update (fun k p => bool_decide (k = id) && is_active p)
                       (fun p => p <| is_active := false |>) (providers db) in
      Some (db <| providers := t |>, n)
  | SetProviderCp id url =>
      let '(t, n) := sql_update (fun k p => bool_decide (k = id) && is_active p)
                       (fun p => p <| cp := url |>) (providers db) in
      Some (db <| providers := t |>, n)
  | InsertJob id j =>
      t ← sql_insert id j (jobs db); Some (db <| jobs := t |>, 1%nat)
  | UpdateOpenJob id c =>
      let '(t, n) := sql_update (fun k j => bool_decide (k = id) && negb (is_closed j))
                       (change_job c) (jobs db) in
      Some (db <| jobs := t |>, n)
  | InsertTransaction block idx t =>
      (* job REFERENCES jobs (id) *)
      _ ← jobs db !! tx_job t;
      ts ← sql_insert (block, idx) t (transactions db);
      Some (db <| transactions := ts |>, 1%nat)
  | InsertRequestOfOpenJob id r =>
      (* INSERT .. SELECT FROM jobs WHERE is_closed = false AND id = .. *)
      match jobs db !! id with
      | Some j =>
          if is_closed j then Some (db, 0%nat) else
          t ← sql_insert id r (revise_rate_requests db);
          Some (db <| revise_rate_requests := t |>, 1%nat)
      | None => Some (db, 0%nat)
      end
  | DeleteRequest id =>
      let '(t, n) := sql_delete (fun k _ => bool_decide (k = id)) (revise_rate_requests db) in
      Some (db <| revise_rate_requests := t |>, n)
  | SetSync b => Some (db <| sync := (fun _ => b) <$> sync db |>, length (sync db))
  | RaiseSync b =>
      Some (db <| sync := (fun x => if x <? b then b else x) <$> sync db |>,
            length (filter (fun x => x < b) (sync db)))
  end.
#[global] Arguments execute : simpl never.

(** The server's message when [execute] is refused by a constraint: the
    unique index is checked before the foreign key. *)
Definition unique_violation (constraint : string) : string :=
  "duplicate key value violates unique constraint " +:+ quote +:+ constraint +:+ quote.

Definition foreign_key_violation (table constraint : string) : string :=
  "insert or update on table " +:+ quote +:+ table +:+ quote +:+
  " violates foreign key constraint " +:+ quote +:+ constraint +:+ quote.

Definition violation (st : statement) (db : Db) : string :=
  match st with
  | InsertJob _ _ => unique_violation "jobs_pkey"
  | InsertRequestOfOpenJob _ _ => unique_violation "revise_rate_requests_pkey"
  | InsertTransaction block idx _ =>
      match transactions db !! (block, idx) with
      | Some _ => unique_violation "transactions_pkey"
      | None => foreign_key_violation "transactions" "transactions_job_fkey"
      end
  | _ => EmptyString
  end.
