(* ===== verification/IndexerHandlers.v ===== *)
(** * Indexer: the log handlers of [contracts/indexer/src/handlers]

    One definition per handler file, in the order of the code: topics are
    indexed first, then the data is decoded, then the log position is read,
    then the statements run and their row counts are checked.  A handler is a
    computation on a connection ([Conn]), whose statements take effect one by
    one; [handle_log] is what the transaction of the sync loop makes of it. *)

From stdpp Require Import pretty.
From S2P Require Import Prelude Text Chain IndexerDb.

(** The database server can refuse a statement for reasons outside the
    schema (connection lost, unrepresentable value), with a message. *)
Class Postgres := { accepts : statement -> bool; refusal : statement -> string }.

Section handlers.
Context `{C : ChainApi, P : Postgres}.

(** An error is its debug text: the context and the cause it wraps. *)
Definition error_context (ctx cause : string) : string :=
  ctx +:+ newline +:+ newline +:+ "Caused by:" +:+ newline +:+ "    " +:+ cause.

(** [.execute(conn).context(ctx)?] *)
Definition run (ctx : string) (st : statement) (db : Db) : outcome string (Db * nat) :=
  if accepts st then ok_or (error_context ctx (violation st db)) (execute st db)
  else Err (error_context ctx (refusal st)).

(** [UNIX_EPOCH + Duration::from_secs(timestamp.into_limbs()[0])]: the low
    limb of the word; the addition panics past the range of the clock. *)
Definition system_time (word : Z) : outcome string Z :=
  let secs := wrap 64 word in if secs <=? i64_MAX then Ok secs else Panic.

(** A computation on a connection, [conn: &mut PgConnection]: the statements
    that ran before an error keep their effect, whatever the result. *)
Definition Conn (A : Type) : Type := Db -> Db * outcome string A.
#[export] Instance Conn_ret : MRet Conn := fun A a db => (db, Ok a).
#[export] Instance Conn_bind : MBind Conn := fun A B f m db =>
  let '(db, r) := m db in
  match r with Ok a => f a db | Err e => (db, Err e) | Panic => (db, Panic) end.

(** [expr?] on a result that does not involve the connection. *)
Definition try_ {A} (r : outcome string A) : Conn A := fun db => (db, r).

(** [let count = .execute(conn).context(ctx)?] *)
Definition execute_on (ctx : string) (st : statement) : Conn nat := fun db =>
  match run ctx st db with
  | Ok (db', count) => (db', Ok count)
  | Err e => (db, Err e)
  | Panic => (db, Panic)
  end.

(** [if count != 1 { return Err(..) }] *)
Definition check_one (e : string) (count : nat) : Conn unit :=
  if Nat.eqb count 1 then mret tt else try_ (Err e).

(** [anyhow!("count {count} should have been 1")] *)
Definition count_error (count : nat) : string := "count " +:+ pretty count +:+ " should have been 1".

(** The position of a log: block, index and transaction hash. *)
Definition log_position (log : Log) : outcome string (Z * Z * string) :=
  block ← ok_or "did not get block from log" (block_number log);
  idx ← ok_or "did not get index from log" (log_index log);
  tx ← ok_or "did not get tx hash from log" (transaction_hash log);
  mret (block, idx, encode_hex_with_prefix tx).

Definition handle_provider_added (log : Log) : Conn unit :=
  w ← try_ (topic log 1);
  url ← try_ (ok_or "abi" (abi_decode_string (data log)));
  count ← execute_on "failed to add provider" (UpsertProvider (checksum_address w) url);
  check_one "did not expect to find existing provider" count.

Definition handle_provider_removed (log : Log) : Conn unit :=
  w ← try_ (topic log 1);
  count ← execute_on "failed to remove provider" (DeactivateProvider (checksum_address w));
  check_one (count_error count) count.

Definition handle_provider_updated_with_cp (log : Log) : Conn unit :=
  w ← try_ (topic log 1);
  url ← try_ (ok_or "abi" (abi_decode_string (data log)));
  count ← execute_on "failed to update provider" (SetProviderCp (checksum_address w) url);
  check_one (count_error count) count.

Definition handle_job_opened (log : Log) : Conn unit :=
  w1 ← try_ (topic log 1);
  w2 ← try_ (topic log 2);
  w3 ← try_ (topic log 3);
  let id := encode_hex_with_prefix w1 in
  d ← try_ (ok_or "abi" (abi_decode_opened (data log)));
  let '(meta, rate, balance, word) := d in
  timestamp ← try_ (system_time word);
  pos ← try_ (log_position log);
  let '(block, idx, tx) := pos in
  _ ← execute_on "failed to create job"
         (InsertJob id (mkJob meta (checksum_address w2) (checksum_address w3)
                          rate balance timestamp timestamp false));
  _ ← execute_on "failed to create deposit"
         (InsertTransaction (to_signed 64 block) (to_signed 64 idx)
            (mkTransaction tx id balance true));
  mret tt.

Definition handle_job_settled (log : Log) : Conn unit :=
  w ← try_ (topic log 1);
  let id := encode_hex_with_prefix w in
  d ← try_ (ok_or "abi" (abi_decode_u256_pair (data log)));
  let '(amount, word) := d in
  timestamp ← try_ (system_time word);
  count ← execute_on "failed to update job" (UpdateOpenJob id (Settle amount timestamp));
  check_one "could not find job" count.

Definition handle_job_closed (log : Log) : Conn unit :=
  w ← try_ (topic log 1);
  count ← execute_on "failed to update job" (UpdateOpenJob (encode_hex_with_prefix w) SetClosed);
  check_one "could not find job" count.

Definition handle_job_deposited (log : Log) : Conn unit :=
  w ← try_ (topic log 1);
  let id := encode_hex_with_prefix w in
  amount ← try_ (ok_or "abi" (abi_decode_u256 (data log)));
  pos ← try_ (log_position log);
  let '(block, idx, tx) := pos in
  count ← execute_on "failed to update job" (UpdateOpenJob id (AddBalance amount));
  check_one "could not find job" count;;
  _ ← execute_on "failed to create deposit"
         (InsertTransaction (to_signed 64 block) (to_signed 64 idx)
            (mkTransaction tx id amount true));
  mret tt.

Definition handle_job_withdrew (log : Log) : Conn unit :=
  w ← try_ (topic log 1);
  let id := encode_hex_with_prefix w in
  amount ← try_ (ok_or "abi" (abi_decode_u256 (data log)));
  pos ← try_ (log_position log);
  let '(block, idx, tx) := pos in
  count ← execute_on "failed to update job" (UpdateOpenJob id (SubBalance amount));
  check_one "could not find job" count;;
  _ ← execute_on "failed to create withdraw"
         (InsertTransaction (to_signed 64 block) (to_signed 64 idx)
            (mkTransaction tx id amount false));
  mret tt.

Definition handle_job_revise_rate_initiated (log : Log) : Conn unit := mret tt.

Definition handle_job_revise_rate_cancelled (log : Log) : Conn unit := mret tt.

Definition handle_job_revise_rate_finalized (log : Log) : Conn unit :=
  w ← try_ (topic log 1);
  rate ← try_ (ok_or "abi" (abi_decode_u256 (data log)));
  count ← execute_on "failed to update job" (UpdateOpenJob (encode_hex_with_prefix w) (SetRate rate));
  check_one "could not find job" count.

Definition handle_job_metadata_updated (log : Log) : Conn unit :=
  w ← try_ (topic log 1);
  meta ← try_ (ok_or "abi" (abi_decode_string (data log)));
  count ← execute_on "failed to update job" (UpdateOpenJob (encode_hex_with_prefix w) (SetMetadata meta));
  check_one "could not find job" count.

Definition RATE_LOCK_SELECTOR : B256 := keccak256 "RATE_LOCK".

Definition handle_lock_created (log : Log) : Conn unit :=
  selector ← try_ (topic log 1);
  if negb (selector =? RATE_LOCK_SELECTOR) then mret tt else
  w ← try_ (topic log 2);
  let id := encode_hex_with_prefix w in
  d ← try_ (ok_or "abi" (abi_decode_u256_pair (data log)));
  let '(value, word) := d in
  timestamp ← try_ (system_time word);
  count ← execute_on "failed to create revise rate request"
             (InsertRequestOfOpenJob id (mkRequest value timestamp));
  check_one "did not expect to find a non existent request or closed job" count.

Definition handle_lock_deleted (log : Log) : Conn unit :=
  selector ← try_ (topic log 1);
  if negb (selector =? RATE_LOCK_SELECTOR) then mret tt else
  w ← try_ (topic log 2);
  _ ← execute_on "failed to delete revise rate request" (DeleteRequest (encode_hex_with_prefix w));
  mret tt.

(** ** Event signatures *)

Definition PROVIDER_ADDED : B256 := keccak256 "ProviderAdded(address,string)".
Definition PROVIDER_REMOVED : B256 := keccak256 "ProviderRemoved(address)".
Definition PROVIDER_UPDATED_WITH_CP : B256 := keccak256 "ProviderUpdatedWithCp(address,string)".
Definition JOB_OPENED : B256 :=
  keccak256 "JobOpened(bytes32,string,address,address,uint256,uint256,uint256)".
Definition JOB_SETTLED : B256 := keccak256 "JobSettled(bytes32,uint256,uint256)".
Definition JOB_CLOSED : B256 := keccak256 "JobClosed(bytes32)".
Definition JOB_DEPOSITED : B256 := keccak256 "JobDeposited(bytes32,address,uint256)".
Definition JOB_WITHDREW : B256 := keccak256 "JobWithdrew(bytes32,address,uint256)".
Definition JOB_REVISE_RATE_INITIATED : B256 := keccak256 "JobReviseRateInitiated(bytes32,uint256)".
Definition JOB_REVISE_RATE_CANCELLED : B256 := keccak256 "JobReviseRateCancelled(bytes32)".
Definition JOB_REVISE_RATE_FINALIZED : B256 := keccak256 "JobReviseRateFinalized(bytes32,uint256)".
Definition JOB_METADATA_UPDATED : B256 := keccak256 "JobMetadataUpdated(bytes32,string)".
Definition LOCK_CREATED : B256 := keccak256 "LockCreated(bytes32,bytes32,uint256,uint256)".
Definition LOCK_DELETED : B256 := keccak256 "LockDeleted(bytes32,bytes32,uint256)".

(** [handle_log(conn, log)]: the dispatch on the first topic; ignored and
    unknown log types leave the database alone. *)
Definition handle_log_on (log : Log) : Conn unit :=
  log_type ← try_ (ok_or "log does not have topic0, should never happen" (topic0 log));
  if log_type =? PROVIDER_ADDED then handle_provider_added log
  else if log_type =? PROVIDER_REMOVED then handle_provider_removed log
  else if log_type =? PROVIDER_UPDATED_WITH_CP then handle_provider_updated_with_cp log
  else if log_type =? JOB_OPENED then handle_job_opened log
  else if log_type =? JOB_SETTLED then handle_job_settled log
  else if log_type =? JOB_CLOSED then handle_job_closed log
  else if log_type =? JOB_DEPOSITED then handle_job_deposited log
  else if log_type =? JOB_WITHDREW then handle_job_withdrew log
  else if log_type =? JOB_REVISE_RATE_INITIATED then handle_job_revise_rate_initiated log
  else if log_type =? JOB_REVISE_RATE_CANCELLED then handle_job_revise_rate_cancelled log
  else if log_type =? JOB_REVISE_RATE_FINALIZED then handle_job_revise_rate_finalized log
  else if log_type =? JOB_METADATA_UPDATED then handle_job_metadata_updated log
  else if log_type =? LOCK_CREATED then handle_lock_created log
  else if log_type =? LOCK_DELETED then handle_lock_deleted log
  else mret tt.

(** What the transaction around a computation makes of it: the changes are
    committed when it returns [Ok] and rolled back otherwise. *)
Definition commit (r : Db * outcome string unit) : outcome string Db :=
  match r.2 with Ok _ => Ok r.1 | Err e => Err e | Panic => Panic end.

(** [handle_log] inside the transaction of the sync loop. *)
Definition handle_log (db : Db) (log : Log) : outcome string Db := commit (handle_log_on log db).

End handlers.
