(* ===== verification/IndexerSpec.v ===== *)
(** * Indexer: abstract specification and refinement

    A log denotes an abstract [event] ([decode_event]); an event acts on the
    tables through plain map operations ([apply_event]), with no SQL, row
    counts or statement order.  [handle_log] refines this specification, and
    the invariants of the database are proved on it. *)

From S2P Require Import Prelude Chain IndexerDb IndexerHandlers.

(** ** Abstract events *)

Inductive event :=
| EProviderAdded (id url : string)
| EProviderRemoved (id : string)
| EProviderUpdated (id url : string)
| EOpened (id : string) (j : Job) (key : Z * Z) (tx : string)
| EChanged (id : string) (c : job_change)
| EMoved (id : string) (amount : Z) (deposit : bool) (key : Z * Z) (tx : string)
| ERequested (id : string) (r : ReviseRateRequest)
| EUnlocked (id : string)
| ENothing.

(** The effect of an event; [None] when its precondition fails. *)
Definition change_open_job (id : string) (c : job_change) (db : Db) : option Db :=
  match jobs db !! id with
  | Some j => if is_closed j then None else Some (db <| jobs := <[id := change_job c j]> (jobs db) |>)
  | None => None
  end.

Definition add_transaction (key : Z * Z) (t : Transaction) (db : Db) : option Db :=
  match transactions db !! key with
  | Some _ => None
  | None => Some (db <| transactions := <[key := t]> (transactions db) |>)
  end.

Definition change_active_provider (id : string) (f : Provider -> Provider) (db : Db) : option Db :=
  match providers db !! id with
  | Some p => if is_active p then Some (db <| providers := <[id := f p]> (providers db) |>) else None
  | None => None
  end.

Definition apply_event (e : event) (db : Db) : option Db :=
  match e with
  | EProviderAdded id url =>
      match providers db !! id with
      | Some p => if is_active p then None
                  else Some (db <| providers := <[id := mkProvider url true]> (providers db) |>)
      | None => Some (db <| providers := <[id := mkProvider url true]> (providers db) |>)
      end
  | EProviderRemoved id => change_active_provider id (fun p => p <| is_active := false |>) db
  | EProviderUpdated id url => change_active_provider id (fun p => p <| cp := url |>) db
  | EOpened id j key tx =>
      match jobs db !! id with
      | Some _ => None
      | None => add_transaction key (mkTransaction tx id (balance j) true)
                  (db <| jobs := <[id := j]> (jobs db) |>)
      end
  | EChanged id c => change_open_job id c db
  | EMoved id a dep key tx =>
      db' ← change_open_job id (if dep then AddBalance a else SubBalance a) db;
      add_transaction key (mkTransaction tx id a dep) db'
  | ERequested id r =>
      match jobs db !! id, revise_rate_requests db !! id with
      | Some j, None =>
          if is_closed j then None
          else Some (db <| revise_rate_requests := <[id := r]> (revise_rate_requests db) |>)
      | _, _ => None
      end
  | EUnlocked id => Some (db <| revise_rate_requests := delete id (revise_rate_requests db) |>)
  | ENothing => Some db
  end.

Fixpoint apply_events (es : list event) (db : Db) : option Db :=
  match es with
  | [] => Some db
  | e :: es' => db' ← apply_event e db; apply_events es' db'
  end.

(** ** The event of a log *)

Section decode.
Context `{C : ChainApi}.

Definition decode_provider (f : string -> string -> event) (log : Log) : outcome string event :=
  w ← topic log 1;
  url ← ok_or "abi" (abi_decode_string (data log));
  mret (f (checksum_address w) url).

Definition decode_opened (log : Log) : outcome string event :=
  w1 ← topic log 1;
  w2 ← topic log 2;
  w3 ← topic log 3;
  d ← ok_or "abi" (abi_decode_opened (data log));
  let '(meta, rate, balance, word) := d in
  timestamp ← system_time word;
  pos ← log_position log;
  let '(block, idx, tx) := pos in
  mret (EOpened (encode_hex_with_prefix w1)
          (mkJob meta (checksum_address w2) (checksum_address w3) rate balance
             timestamp timestamp false)
          (to_signed 64 block, to_signed 64 idx) tx).

Definition decode_moved (deposit : bool) (log : Log) : outcome string event :=
  w ← topic log 1;
  a ← ok_or "abi" (abi_decode_u256 (data log));
  pos ← log_position log;
  let '(block, idx, tx) := pos in
  mret (EMoved (encode_hex_with_prefix w) a deposit (to_signed 64 block, to_signed 64 idx) tx).

Definition decode_settled (log : Log) : outcome string event :=
  w ← topic log 1;
  d ← ok_or "abi" (abi_decode_u256_pair (data log));
  let '(amount, word) := d in
  timestamp ← system_time word;
  mret (EChanged (encode_hex_with_prefix w) (Settle amount timestamp)).

Definition decode_lock (k : Log -> string -> outcome string event) (log : Log) : outcome string event :=
  selector ← topic log 1;
  if negb (selector =? RATE_LOCK_SELECTOR) then mret ENothing else
  w ← topic log 2;
  k log (encode_hex_with_prefix w).

Definition decode_request (log : Log) (id : string) : outcome string event :=
  d ← ok_or "abi" (abi_decode_u256_pair (data log));
  let '(value, word) := d in
  timestamp ← system_time word;
  mret (ERequested id (mkRequest value timestamp)).

Definition decode_event (log : Log) : outcome string event :=
  t ← ok_or "log does not have topic0, should never happen" (topic0 log);
  if t =? PROVIDER_ADDED then decode_provider EProviderAdded log
  else if t =? PROVIDER_REMOVED then
    w ← topic log 1; mret (EProviderRemoved (checksum_address w))
  else if t =? PROVIDER_UPDATED_WITH_CP then decode_provider EProviderUpdated log
  else if t =? JOB_OPENED then decode_opened log
  else if t =? JOB_SETTLED then decode_settled log
  else if t =? JOB_CLOSED then
    w ← topic log 1; mret (EChanged (encode_hex_with_prefix w) SetClosed)
  else if t =? JOB_DEPOSITED then decode_moved true log
  else if t =? JOB_WITHDREW then decode_moved false log
  else if t =? JOB_REVISE_RATE_INITIATED then mret ENothing
  else if t =? JOB_REVISE_RATE_CANCELLED then mret ENothing
  else if t =? JOB_REVISE_RATE_FINALIZED then
    w ← topic log 1;
    rate ← ok_or "abi" (abi_decode_u256 (data log));
    mret (EChanged (encode_hex_with_prefix w) (SetRate rate))
  else if t =? JOB_METADATA_UPDATED then
    w ← topic log 1;
    meta ← ok_or "abi" (abi_decode_string (data log));
    mret (EChanged (encode_hex_with_prefix w) (SetMetadata meta))
  else if t =? LOCK_CREATED then decode_lock decode_request log
  else if t =? LOCK_DELETED then decode_lock (fun _ id => mret (EUnlocked id)) log
  else mret ENothing.

End decode.

(** A row count other than one is an error. *)
Definition expect_one (e : string) (r : Db * nat) : outcome string Db :=
  if Nat.eqb r.2 1 then Ok r.1 else Err e.

Section perform.
Context `{P : Postgres}.

(** The statements of an event with their row checks. *)
Definition perform (e : event) (db : Db) : outcome string Db :=
  match e with
  | EProviderAdded id url =>
      r ← run "failed to add provider" (UpsertProvider id url) db;
      expect_one "did not expect to find existing provider" r
  | EProviderRemoved id =>
      r ← run "failed to remove provider" (DeactivateProvider id) db;
      expect_one (count_error r.2) r
  | EProviderUpdated id url =>
      r ← run "failed to update provider" (SetProviderCp id url) db;
      expect_one (count_error r.2) r
  | EOpened id j key tx =>
      r ← run "failed to create job" (InsertJob id j) db;
      r ← run "failed to create deposit"
            (InsertTransaction key.1 key.2 (mkTransaction tx id (balance j) true)) r.1;
      mret r.1
  | EChanged id c =>
      r ← run "failed to update job" (UpdateOpenJob id c) db;
      expect_one "could not find job" r
  | EMoved id a dep key tx =>
      r ← run "failed to update job" (UpdateOpenJob id (if dep then AddBalance a else SubBalance a)) db;
      db ← expect_one "could not find job" r;
      r ← run (if dep then "failed to create deposit" else "failed to create withdraw")
            (InsertTransaction key.1 key.2 (mkTransaction tx id a dep)) db;
      mret r.1
  | ERequested id r =>
      r ← run "failed to create revise rate request" (InsertRequestOfOpenJob id r) db;
      expect_one "did not expect to find a non existent request or closed job" r
  | EUnlocked id =>
      r ← run "failed to delete revise rate request" (DeleteRequest id) db;
      mret r.1
  | ENothing => Ok db
  end.

End perform.

(** ** The statements of an event, one by one *)

(** A statement with its error context and the error of a row count other
    than one, if the handler checks it. *)
Record step := mkStep {
  step_context : string;
  step_statement : statement;
  step_check : option (nat -> string)
}.

Definition moved_context (deposit : bool) : string :=
  if deposit then "failed to create deposit" else "failed to create withdraw".

Definition steps (e : event) : list step :=
  match e with
  | EProviderAdded id url =>
      [mkStep "failed to add provider" (UpsertProvider id url)
         (Some (fun _ => "did not expect to find existing provider"%string))]
  | EProviderRemoved id =>
      [mkStep "failed to remove provider" (DeactivateProvider id) (Some count_error)]
  | EProviderUpdated id url =>
      [mkStep "failed to update provider" (SetProviderCp id url) (Some count_error)]
  | EOpened id j key tx =>
      [mkStep "failed to create job" (InsertJob id j) None;
       mkStep "failed to create deposit"
         (InsertTransaction key.1 key.2 (mkTransaction tx id (balance j) true)) None]
  | EChanged id c =>
      [mkStep "failed to update job" (UpdateOpenJob id c)
         (Some (fun _ => "could not find job"%string))]
  | EMoved id a dep key tx =>
      [mkStep "failed to update job" (UpdateOpenJob id (if dep then AddBalance a else SubBalance a))
         (Some (fun _ => "could not find job"%string));
       mkStep (moved_context dep) (InsertTransaction key.1 key.2 (mkTransaction tx id a dep)) None]
  | ERequested id r =>
      [mkStep "failed to create revise rate request" (InsertRequestOfOpenJob id r)
         (Some (fun _ => "did not expect to find a non existent request or closed job"%string))]
  | EUnlocked id =>
      [mkStep "failed to delete revise rate request" (DeleteRequest id) None]
  | ENothing => []
  end.

Section autocommit.
Context `{P : Postgres}.

(** The statements in order, up to the first error. *)
Fixpoint autocommit (l : list step) : Conn unit :=
  match l with
  | [] => mret tt
  | s :: l =>
      count ← execute_on (step_context s) (step_statement s);
      match step_check s with Some error => check_one (error count) count | None => mret tt end;;
      autocommit l
  end.

End autocommit.

(** ** SQL lemmas: a statement keyed by the primary key touches one row *)

Section sql_lemmas.
Context {K V : Type} `{Countable K}.
Implicit Types (t : gmap K V) (f : V -> V) (q : V -> bool).

Lemma filter_key_size (p : K -> V -> bool) t k v :
  t !! k = Some v -> p k v = true -> (forall k' v', p k' v' = true -> k' = k) ->
  size (filter (fun kv => p kv.1 kv.2 = true) t) = 1%nat.
Proof.
  intros Hk Hp Huniq.
  replace (filter _ t) with ({[k := v]} : gmap K V); [apply map_size_singleton |].
  symmetry. apply map_eq. intros i. apply option_eq. intros x.
  rewrite map_lookup_filter_Some. simpl. split.
  - intros [Hi Hx]. assert (i = k) as -> by eauto. simplify_eq.
    apply lookup_singleton_eq.
  - intros Hs. apply lookup_singleton_Some in Hs as [<- <-]. done.
Qed.

Lemma filter_none_size (p : K -> V -> bool) t :
  (forall k v, t !! k = Some v -> p k v = false) ->
  size (filter (fun kv => p kv.1 kv.2 = true) t) = 0%nat.
Proof.
  intros Hp. apply map_size_empty_iff. apply map_empty. intros i.
  apply map_lookup_filter_None. right. intros x Hx. simpl. rewrite (Hp _ _ Hx). done.
Qed.

Lemma sql_update_pk (k : K) q f t :
  sql_update (fun k' v => bool_decide (k' = k) && q v) f t =
  match t !! k with
  | Some v => if q v then (<[k := f v]> t, 1%nat) else (t, 0%nat)
  | None => (t, 0%nat)
  end.
Proof.
  set (p := fun (k' : K) (v : V) => bool_decide (k' = k) && q v).
  assert (Hp : forall k' v, p k' v = true -> k' = k).
  { intros k' v [Hb _]%andb_true_iff. by apply bool_decide_eq_true_1 in Hb. }
  assert (Hsame : (forall v, t !! k = Some v -> q v = false) ->
    sql_update p f t = (t, 0%nat)).
  { intros Hq.
    assert (Hno : forall i v, t !! i = Some v -> p i v = false).
    { intros i v Hi. destruct (p i v) eqn:Hiv; [| done].
      assert (i = k) as -> by eauto. unfold p in Hiv. by rewrite (Hq _ Hi), andb_false_r in Hiv. }
    unfold sql_update. rewrite (filter_none_size p) by done. f_equal.
    apply map_eq. intros i. rewrite map_lookup_imap.
    destruct (t !! i) as [v |] eqn:Hi; [| done]. simpl. by rewrite (Hno _ _ Hi). }
  destruct (t !! k) as [v |] eqn:Hk; [| apply Hsame; by intros].
  destruct (q v) eqn:Hq; [| apply Hsame; intros; by simplify_eq].
  assert (Hkv : p k v = true) by (unfold p; by rewrite bool_decide_eq_true_2).
  unfold sql_update. rewrite (filter_key_size p t k v) by eauto. f_equal.
  apply map_eq. intros i. rewrite map_lookup_imap.
  destruct (decide (i = k)) as [-> | Hne].
  - rewrite Hk, lookup_insert_eq. simpl. by rewrite Hkv.
  - rewrite lookup_insert_ne by done. destruct (t !! i) as [x |]; [| done]. simpl.
    destruct (p i x) eqn:Hix; [| done]. by apply Hp in Hix.
Qed.

Lemma sql_delete_pk (k : K) t :
  (sql_delete (fun k' (_ : V) => bool_decide (k' = k)) t).1 = delete k t.
Proof.
  unfold sql_delete. simpl. apply map_eq. intros i. apply option_eq. intros x.
  rewrite map_lookup_filter_Some, lookup_delete_Some. simpl. rewrite bool_decide_eq_false.
  split; intros [? ?]; auto.
Qed.

End sql_lemmas.

(** ** Statement lemmas *)

Lemma execute_update_open_job id c db :
  execute (UpdateOpenJob id c) db =
  Some (match change_open_job id c db with Some db' => (db', 1%nat) | None => (db, 0%nat) end).
Proof.
  unfold execute, change_open_job. rewrite (sql_update_pk id (fun j => negb (is_closed j))).
  destruct (jobs db !! id) as [j |] eqn:Hj; [destruct (is_closed j) |]; destruct db; reflexivity.
Qed.

Lemma change_open_job_present id c db db' :
  change_open_job id c db = Some db' -> is_Some (jobs db' !! id).
Proof.
  unfold change_open_job. destruct (jobs db !! id) as [j |]; [| done].
  destruct (is_closed j); [done |]. intros [= <-]. simpl. rewrite lookup_insert_eq. eauto.
Qed.

Lemma execute_change_provider st f id db :
  (forall db0, execute st db0 =
     let '(t, n) := sql_update (fun k p => bool_decide (k = id) && is_active p) f (providers db0) in
     Some (db0 <| providers := t |>, n)) ->
  execute st db =
  Some (match change_active_provider id f db with
        | Some db' => (db', 1%nat) | None => (db, 0%nat) end).
Proof.
  intros ->. unfold change_active_provider. rewrite (sql_update_pk id is_active).
  destruct (providers db !! id) as [p |] eqn:Hp; [destruct (is_active p) |]; destruct db; reflexivity.
Qed.

Lemma execute_insert_transaction b i t db :
  is_Some (jobs db !! tx_job t) ->
  execute (InsertTransaction b i t) db = (fun db' => (db', 1%nat)) <$> add_transaction (b, i) t db.
Proof.
  intros [j Hj]. unfold execute, add_transaction, sql_insert. rewrite Hj. simpl.
  destruct (transactions db !! (b, i)); reflexivity.
Qed.

(** ** Refinement: a handler decodes its event and performs it *)

Section refinement.
Context `{C : ChainApi, P : Postgres}.

Lemma commit_autocommit s l db :
  commit (autocommit (s :: l) db) =
  r ← run (step_context s) (step_statement s) db;
  db ← match step_check s with Some error => expect_one (error r.2) r | None => Ok r.1 end;
  commit (autocommit l db).
Proof.
  cbn [autocommit]. unfold mbind, Conn_bind, execute_on.
  destruct (run _ _ db) as [[d n] | |]; [| done | done]. cbn.
  destruct (step_check s) as [err |]; [| done].
  unfold expect_one, check_one. cbn. by destruct (Nat.eqb n 1).
Qed.

Lemma perform_autocommit e db : perform e db = commit (autocommit (steps e) db).
Proof.
  destruct e; cbn [perform steps]; rewrite ?commit_autocommit; cbn [step_context step_statement step_check];
      try done.
  all: match goal with |- mbind _ ?m = mbind _ ?m => destruct m as [res | |]; [| done | done] end;
    cbn [mbind outcome_bind]; try done.
  all: try (by destruct (expect_one _ res)).
  - rewrite commit_autocommit. cbn [step_context step_statement step_check].
    by match goal with |- mbind _ ?m = mbind _ ?m => destruct m end.
  - destruct (expect_one _ res) as [d | |]; [| done | done]. cbn [mbind outcome_bind].
    rewrite commit_autocommit. cbn [step_context step_statement step_check].
    unfold moved_context. by match goal with |- mbind _ ?m = mbind _ ?m => destruct m end.
Qed.

Ltac crush_bind :=
  repeat first
    [ progress simpl
    | progress unfold execute_on, check_one, moved_context, try_, mbind, Conn_bind, outcome_bind,
        mret, Conn_ret, outcome_ret
    | reflexivity | case_match ]; simplify_eq/=; try reflexivity.

(** A handler runs the statements of its event, or stops in the decoding. *)
Lemma handle_log_on_autocommit log db :
  handle_log_on log db = (e ← try_ (decode_event log); autocommit (steps e)) db.
Proof.
  unfold handle_log_on, decode_event.
  unfold mbind, Conn_bind, outcome_bind, try_.
  destruct (ok_or _ (topic0 log)) as [t | |]; [| done | done].
  repeat match goal with |- context [if ?b then _ else _] => destruct b end;
    unfold handle_provider_added, handle_provider_removed, handle_provider_updated_with_cp,
      handle_job_opened, handle_job_settled, handle_job_closed, handle_job_deposited,
      handle_job_withdrew, handle_job_revise_rate_initiated, handle_job_revise_rate_cancelled,
      handle_job_revise_rate_finalized, handle_job_metadata_updated, handle_lock_created,
      handle_lock_deleted, decode_provider, decode_opened, decode_settled, decode_moved,
      decode_lock, decode_request; crush_bind.
Qed.

Lemma handle_log_decode_perform db log :
  handle_log db log = e ← decode_event log; perform e db.
Proof.
  unfold handle_log. rewrite handle_log_on_autocommit.
  unfold mbind, Conn_bind, outcome_bind, try_.
  destruct (decode_event log) as [e | |]; [| done | done]. by rewrite perform_autocommit.
Qed.

Lemma run_Ok ctx st db r : run ctx st db = Ok r -> execute st db = Some r.
Proof. unfold run. destruct (accepts st); [apply ok_or_Ok | done]. Qed.

Lemma run_accepted ctx st db r :
  (forall s, accepts s = true) -> execute st db = Some r -> run ctx st db = Ok r.
Proof. unfold run. intros -> ->. done. Qed.

Lemma expect_one_Ok e r db : expect_one e r = Ok db <-> r = (db, 1%nat).
Proof.
  unfold expect_one. destruct r as [db' n]. simpl.
  destruct (Nat.eqb_spec n 1) as [-> | Hn]; split; intros; simplify_eq; done.
Qed.

Lemma upsert_provider_spec id url db db' :
  execute (UpsertProvider id url) db = Some (db', 1%nat) <->
  apply_event (EProviderAdded id url) db = Some db'.
Proof.
  unfold execute, apply_event, sql_upsert. destruct (providers db !! id) as [p |] eqn:Hp; [| naive_solver].
  destruct (is_active p) eqn:Ha; simpl; [| naive_solver]. split; intros; simplify_eq.
Qed.

(** An event's statements succeed exactly when its precondition holds; they
    fail only through [Err], and a refused statement has no effect. *)
Lemma perform_sound e db db' : perform e db = Ok db' -> apply_event e db = Some db'.
Proof.
  destruct e; cbn [perform]; intros He.
  - apply bind_Ok in He as (r & Hr%run_Ok & ->%expect_one_Ok).
    by apply upsert_provider_spec.
  - apply bind_Ok in He as (r & Hr%run_Ok & ->%expect_one_Ok).
    erewrite execute_change_provider in Hr by done. simpl.
    by destruct (change_active_provider _ _ _); simplify_eq.
  - apply bind_Ok in He as (r & Hr%run_Ok & ->%expect_one_Ok).
    erewrite execute_change_provider in Hr by done. simpl.
    by destruct (change_active_provider _ _ _); simplify_eq.
  - apply bind_Ok in He as (r & Hr%run_Ok & He).
    apply bind_Ok in He as (r' & Hr'%run_Ok & He). injection He as <-.
    unfold execute in Hr. unfold sql_insert in Hr. simpl.
    destruct (jobs db !! id) as [|] eqn:Hid; simplify_eq/=.
    destruct key as [b i]. rewrite execute_insert_transaction in Hr'
      by (simpl; rewrite lookup_insert_eq; eauto).
    apply fmap_Some in Hr' as (d & Hd & ->). exact Hd.
  - apply bind_Ok in He as (r & Hr%run_Ok & ->%expect_one_Ok).
    rewrite execute_update_open_job in Hr. simpl.
    by destruct (change_open_job _ _ _); simplify_eq.
  - apply bind_Ok in He as (r & Hr%run_Ok & He).
    apply bind_Ok in He as (db1 & ->%expect_one_Ok & He).
    apply bind_Ok in He as (r' & Hr'%run_Ok & He). injection He as <-.
    rewrite execute_update_open_job in Hr. simpl.
    destruct (change_open_job _ _ _) as [db2 |] eqn:Hc; simplify_eq/=.
    destruct key as [b i]. rewrite execute_insert_transaction in Hr'
      by (simpl; eapply change_open_job_present, Hc).
    apply fmap_Some in Hr' as (d & Hd & ->). exact Hd.
  - apply bind_Ok in He as (r' & Hr%run_Ok & ->%expect_one_Ok).
    unfold execute in Hr. unfold sql_insert in Hr. simpl.
    destruct (jobs db !! id) as [j |]; [| done]. destruct (is_closed j); [done |].
    by destruct (revise_rate_requests db !! id); simplify_eq/=.
  - apply bind_Ok in He as (r & Hr%run_Ok & He). injection He as <-.
    unfold execute in Hr. pose proof (sql_delete_pk id (revise_rate_requests db)) as Hd.
    destruct (sql_delete _ _) as [t n]. simplify_eq/=. done.
  - by injection He as ->.
Qed.

Lemma perform_complete e db db' :
  (forall s, accepts s = true) -> apply_event e db = Some db' -> perform e db = Ok db'.
Proof.
  intros Hacc. destruct e; cbn [perform]; intros He.
  - apply upsert_provider_spec in He. by erewrite run_accepted by eauto.
  - erewrite run_accepted; [| done | erewrite execute_change_provider by done; done].
    simpl in *. by rewrite He.
  - erewrite run_accepted; [| done | erewrite execute_change_provider by done; done].
    simpl in *. by rewrite He.
  - simpl in He. destruct (jobs db !! id) as [|] eqn:Hid; [done |].
    erewrite run_accepted; [| done | unfold execute; unfold sql_insert; by rewrite Hid]. simpl.
    destruct key as [b i].
    erewrite run_accepted; [| done | rewrite execute_insert_transaction
      by (simpl; rewrite lookup_insert_eq; eauto); simpl; by rewrite He]. done.
  - erewrite run_accepted; [| done | by rewrite execute_update_open_job].
    simpl in *. by rewrite He.
  - simpl in He. apply bind_Some in He as (db1 & Hc & He).
    erewrite run_accepted; [| done | by rewrite execute_update_open_job].
    simpl. rewrite Hc. simpl. destruct key as [b i].
    erewrite run_accepted; [| done | rewrite execute_insert_transaction
      by (simpl; eapply change_open_job_present, Hc); simpl; by rewrite He]. done.
  - simpl in He. destruct (jobs db !! id) as [j |] eqn:Hid; [| done].
    destruct (revise_rate_requests db !! id) eqn:Hr; [done |].
    destruct (is_closed j) eqn:Hcl; [done |]. injection He as <-.
    erewrite run_accepted; [| done | unfold execute, sql_insert; rewrite Hid, Hcl, Hr; done].
    done.
  - simpl in He. simplify_eq.
    pose proof (sql_delete_pk id (revise_rate_requests db)) as Hd.
    unfold run. rewrite Hacc. unfold execute. destruct (sql_delete _ _) as [t n].
    simplify_eq/=. done.
  - by injection He as ->.
Qed.

Lemma perform_no_panic e db : perform e db <> Panic.
Proof.
  assert (Hrun : forall ctx st db0, run ctx st db0 <> Panic).
  { intros ctx st db0. unfold run. destruct (accepts st); [| done]. by destruct (execute st db0). }
  assert (Hone : forall s r, expect_one s r <> Panic).
  { intros s r. unfold expect_one. by destruct (Nat.eqb r.2 1). }
  assert (Hbind : forall A (m : outcome string A) (f : A -> outcome string Db),
    m <> Panic -> (forall a, f a <> Panic) -> m ≫= f <> Panic).
  { intros A m f Hm Hf. by destruct m; simpl. }
  destruct e; cbn [perform]; eauto; repeat (apply Hbind; eauto); done.
Qed.

End refinement.
