(* ===== verification/IndexerLoop.v ===== *)
(** * Indexer: the synchronisation loop of [contracts/indexer/src/lib.rs]

    [event_loop] fetches the logs of consecutive block ranges and applies
    each range, together with the new sync position, in one transaction.
    [u64] arithmetic is that of a release build, the one the README asks
    for: it wraps. *)

From S2P Require Import Prelude Chain IndexerDb IndexerHandlers IndexerSpec.

(** The [LogsProvider] trait: [latest_block] may change the provider. *)
Class LogsProvider (R : Type) := {
  latest_block : R -> R * outcome string Z;
  logs : R -> Z -> Z -> outcome string (list Log)
}.

Section loop.
Context `{C : ChainApi, P : Postgres, LogsProvider R}.

(** [for log in logs { handle_log(conn, log).context(..)?; }] *)
Fixpoint handle_logs (db : Db) (ls : list Log) : outcome string Db :=
  match ls with
  | [] => Ok db
  | log :: ls' =>
      db' ← map_err (fun _ => "failed to handle log"%string) (handle_log db log);
      handle_logs db' ls'
  end.

(** The body of [conn.transaction]; an error leaves the caller's database
    as it was, which is the rollback. *)
Definition process_range (db : Db) (ls : list Log) (end_block : Z) : outcome string Db :=
  db' ← handle_logs db ls;
  r ← run "failed to update latest block" (SetSync (to_signed 64 end_block)) db';
  mret r.1.

(** One turn of the loop: the next database and [last_updated]. *)
Definition event_loop_iter (range_size : Z) (p : R) (db : Db) (last_updated : Z)
    : R * outcome string (Db * Z) :=
  let '(p', latest) := latest_block p in
  (p',
   latest ← latest;
   if latest <? last_updated then
     Err "rpc is behind the db, should never happen unless the rpc was rolled back"
   else if latest =? last_updated then Ok (db, last_updated)
   else
     let start_block := wrap 64 (last_updated + 1) in
     let end_block := Z.min (wrap 64 (wrap 64 (start_block + range_size) - 1)) latest in
     ls ← logs p' start_block end_block;
     db' ← process_range db ls end_block;
     mret (db', end_block)).

(** The loop returns only through an error; [None] is a loop still running
    when the fuel ends. *)
Fixpoint event_loop_from (fuel : nat) (range_size : Z) (p : R) (db : Db) (last_updated : Z)
    : Db * option (outcome string unit) :=
  match fuel with
  | O => (db, None)
  | S fuel' =>
      match event_loop_iter range_size p db last_updated with
      | (p', Ok (db', last')) => event_loop_from fuel' range_size p' db' last'
      | (_, Err e) => (db, Some (Err e))
      | (_, Panic) => (db, Some Panic)
      end
  end.

(** [sync::block ... as u64]: the stored [i64] is cast. *)
Definition read_last_updated (db : Db) : outcome string Z :=
  b ← ok_or "no last updated block found, should never happen unless the database is corrupted"
        (head (sync db));
  mret (wrap 64 b).

Definition event_loop (fuel : nat) (range_size : Z) (p : R) (db : Db)
    : Db * option (outcome string unit) :=
  match read_last_updated db with
  | Ok last_updated => event_loop_from fuel range_size p db last_updated
  | Err e => (db, Some (Err e))
  | Panic => (db, Some Panic)
  end.

(** [start_from]: raise the sync position to [start as i64 - 1]. *)
Definition start_from (db : Db) (start : Z) : outcome string (Db * bool) :=
  r ← run "failed to set start block" (RaiseSync (to_signed 64 (to_signed 64 start - 1))) db;
  mret (r.1, Nat.ltb 0 r.2).

(** ** Replaying a chain *)

(** The logs of the [n] blocks from block [b] on. *)
Definition chain_logs (chain : Z -> list Log) (b n : Z) : list Log :=
  concat (chain <$> seqZ b n).

(** A provider that serves the logs of a fixed chain. *)
Definition serves (chain : Z -> list Log) : Prop :=
  forall (p : R) a b, 0 <= a -> a <= b -> logs p a b = Ok (chain_logs chain a (b - a + 1)).

(** A provider whose latest block stays within the signed 64-bit range. *)
Definition heights_bounded : Prop :=
  forall (p p' : R) n, latest_block p = (p', Ok n) -> 0 <= n <= i64_MAX.

End loop.

(** ** Lemmas *)

Section loop_lemmas.
Context `{C : ChainApi, P : Postgres, LogsProvider R}.

Lemma apply_event_sync e db db' : apply_event e db = Some db' -> sync db' = sync db.
Proof.
  assert (Hc : forall id c d d', change_open_job id c d = Some d' -> sync d' = sync d).
  { intros id c d d'. unfold change_open_job. repeat case_match; intros; by simplify_eq. }
  assert (Ha : forall k t d d', add_transaction k t d = Some d' -> sync d' = sync d).
  { intros k t d d'. unfold add_transaction. repeat case_match; intros; by simplify_eq. }
  destruct e; simpl; intros He; unfold change_active_provider in *; repeat case_match;
    simplify_eq/=; try done; eauto.
  - by apply Ha in He.
  - apply bind_Some in He as (d & Hd%Hc & Hd'%Ha). congruence.
  - apply bind_Some in He as (d & Hd%Hc & Hd'%Ha). congruence.
Qed.

Lemma handle_log_sync db log db' : handle_log db log = Ok db' -> sync db' = sync db.
Proof.
  rewrite handle_log_decode_perform. intros (e & _ & He%perform_sound)%bind_Ok.
  by eapply apply_event_sync.
Qed.

Lemma handle_logs_app db l1 l2 :
  handle_logs db (l1 ++ l2) = db' ← handle_logs db l1; handle_logs db' l2.
Proof.
  revert db. induction l1 as [| log l1 IH]; intros db; simpl; [done |].
  destruct (handle_log db log) as [d | |]; simpl; auto.
Qed.

Lemma handle_logs_cons_Ok db log ls db' :
  handle_logs db (log :: ls) = Ok db' <->
  exists d, handle_log db log = Ok d /\ handle_logs d ls = Ok db'.
Proof.
  simpl. rewrite bind_Ok. split.
  - intros (d & Hd & ?). destruct (handle_log db log); simplify_eq/=; eauto.
  - intros (d & -> & ?). eauto.
Qed.

Lemma handle_logs_sync ls : forall db db', handle_logs db ls = Ok db' -> sync db' = sync db.
Proof.
  induction ls as [| log ls IH]; intros db db'.
  - by intros [= ->].
  - intros (d & Hd%handle_log_sync & Hr%IH)%handle_logs_cons_Ok. congruence.
Qed.

Lemma chain_logs_app chain b n m :
  0 <= n -> 0 <= m -> chain_logs chain b (n + m) = chain_logs chain b n ++ chain_logs chain (b + n) m.
Proof. intros. unfold chain_logs. by rewrite seqZ_app, fmap_app, concat_app by lia. Qed.
End loop_lemmas.

(** ** The handlers neither read nor write the sync position *)

Definition syncs (st : statement) : bool :=
  match st with SetSync _ | RaiseSync _ => true | _ => false end.

Section sync_frame.
Context `{C : ChainApi, P : Postgres}.

Lemma execute_frame st db s :
  syncs st = false ->
  execute st (db <| sync := s |>) = (fun r => (r.1 <| sync := s |>, r.2)) <$> execute st db.
Proof.
  destruct st; simpl; intros Hst; try discriminate Hst; unfold execute; simpl;
    repeat (case_match; simpl); try done.
  - by destruct (sql_insert id j (jobs db)).
  - destruct (jobs db !! tx_job t); simpl; [| done]. by destruct (sql_insert _ t _).
  - by destruct (sql_insert id r _).
Qed.

Lemma run_frame ctx st db s :
  syncs st = false ->
  run ctx st (db <| sync := s |>) = (fun r => (r.1 <| sync := s |>, r.2)) <$> run ctx st db.
Proof.
  intros Hst. unfold run. destruct (accepts st); [| done]. rewrite execute_frame by done.
  replace (violation st (db <| sync := s |>)) with (violation st db) by (by destruct st).
  by destruct (execute st db).
Qed.

Lemma expect_one_frame e r s :
  expect_one e (r.1 <| sync := s |>, r.2) = (fun d => d <| sync := s |>) <$> expect_one e r.
Proof. unfold expect_one. simpl. by destruct (Nat.eqb r.2 1). Qed.

Lemma run_then_frame ctx st db s (k : Db * nat -> outcome string Db) :
  syncs st = false ->
  (forall r, k (r.1 <| sync := s |>, r.2) = (fun d => d <| sync := s |>) <$> k r) ->
  run ctx st (db <| sync := s |>) ≫= k = (fun d => d <| sync := s |>) <$> (run ctx st db ≫= k).
Proof.
  intros Hst Hk. rewrite run_frame by done.
  destruct (run ctx st db) as [r | |]; [apply Hk | done | done].
Qed.

Lemma perform_frame e db s :
  perform e (db <| sync := s |>) = (fun d => d <| sync := s |>) <$> perform e db.
Proof.
  destruct e; cbn [perform]; try done;
    try (apply run_then_frame; [done |]; intros; apply expect_one_frame);
    try (apply run_then_frame; [done |]; intros; done).
  - apply run_then_frame; [done |]. intros. cbn [fst]. by apply run_then_frame.
  - apply run_then_frame; [done |]. intros r. rewrite expect_one_frame.
    destruct (expect_one _ r); [| done | done]. by apply (run_then_frame _ _ a s).
Qed.

Lemma handle_logs_frame ls : forall db s,
  handle_logs (db <| sync := s |>) ls = (fun d => d <| sync := s |>) <$> handle_logs db ls.
Proof.
  induction ls as [| log ls IH]; intros db s; [done |].
  cbn [handle_logs]. rewrite !handle_log_decode_perform.
  destruct (decode_event log) as [e | |]; [| done | done]. cbn [mbind outcome_bind].
  rewrite perform_frame. destruct (perform e db); [| done | done]. simpl. apply IH.
Qed.

End sync_frame.

(** ** The turns of the loop *)

Section turns.
Context `{C : ChainApi, P : Postgres, LogsProvider R}.

Lemma to_signed_small z : 0 <= z <= i64_MAX -> to_signed 64 z = z.
Proof.
  unfold i64_MAX, to_signed, wrap. intros Hz. rewrite Z.mod_small by lia.
  case_match eqn:Hlt; lia.
Qed.

Lemma process_range_Ok db ls b e db' :
  sync db = [b] -> 0 <= e <= i64_MAX ->
  process_range db ls e = Ok db' ->
  exists d, handle_logs db ls = Ok d /\ db' = d <| sync := [e] |>.
Proof.
  intros Hs He. unfold process_range. intros (d & Hd & Hr)%bind_Ok.
  apply bind_Ok in Hr as (r & Hr%run_Ok & Hr'). injection Hr' as <-.
  unfold execute in Hr. injection Hr as <-. exists d. split; [done |]. simpl.
  by rewrite (handle_logs_sync _ _ _ Hd), Hs, to_signed_small.
Qed.

Lemma process_range_complete db ls b e d :
  (forall st, accepts st = true) -> sync db = [b] -> 0 <= e <= i64_MAX ->
  handle_logs db ls = Ok d -> process_range db ls e = Ok (d <| sync := [e] |>).
Proof.
  intros Hacc Hs He Hd. unfold process_range. rewrite Hd. cbn [mbind outcome_bind].
  erewrite run_accepted by done. simpl.
  by rewrite (handle_logs_sync _ _ _ Hd), Hs, to_signed_small.
Qed.

(** The end of the range fetched from position [last] under height [n]. *)
Definition range_end (range_size last n : Z) : Z := Z.min (last + range_size) n.

Lemma range_end_wraps range_size last n :
  1 <= range_size <= i64_MAX -> 0 <= last <= i64_MAX ->
  Z.min (wrap 64 (wrap 64 (wrap 64 (last + 1) + range_size) - 1)) n = range_end range_size last n.
Proof.
  unfold i64_MAX, range_end, wrap. intros ? ?.
  rewrite (Z.mod_small (last + 1)), (Z.mod_small (last + 1 + range_size)) by lia.
  rewrite Z.mod_small by lia. lia.
Qed.

Lemma event_loop_iter_Ok chain range_size p p' db db' b b' :
  serves chain -> heights_bounded -> 1 <= range_size <= i64_MAX ->
  sync db = [b] -> 0 <= b <= i64_MAX ->
  event_loop_iter range_size p db b = (p', Ok (db', b')) ->
  b <= b' <= i64_MAX /\ sync db' = [b'] /\
  handle_logs db (chain_logs chain (b + 1) (b' - b)) = Ok (db' <| sync := [b] |>).
Proof.
  intros Hserve Hheight Hrange Hs Hb. unfold event_loop_iter.
  destruct (latest_block p) as [p1 latest] eqn:Hlatest.
  intros [= -> Hit]. apply bind_Ok in Hit as (n & -> & Hit).
  apply Hheight in Hlatest.
  destruct (Z.ltb_spec n b); [done |]. destruct (Z.eqb_spec n b) as [-> | Hne].
  - injection Hit as <- <-. replace (b - b) with 0 by lia. split_and!; try done; try lia.
    destruct db; simpl in *. by subst.
  - rewrite range_end_wraps in Hit by done. unfold i64_MAX, range_end, wrap in *.
    rewrite Z.mod_small in Hit by lia.
    rewrite Hserve in Hit by lia. cbn [mbind outcome_bind] in Hit.
    apply bind_Ok in Hit as (d & Hd & Hit). injection Hit as <- <-.
    set (e := Z.min (b + range_size) n) in *.
    eapply process_range_Ok in Hd as (d' & Hd & ->); [| done | unfold i64_MAX; lia].
    split_and!; [lia | lia | done |]. simpl.
    replace (e - (b + 1) + 1) with (e - b) in Hd by lia. rewrite Hd. f_equal.
    apply handle_logs_sync in Hd. destruct d'; simpl in *. congruence.
Qed.

End turns.
