(* ===== verification/IndexerProps.v ===== *)
(** * Indexer: invariants of the indexed database

    The types of the rows, the foreign keys, the ledger equation between job
    balances and the transactions table, permanence of closed jobs, and the
    replay theorems of the synchronisation loop. *)

From S2P Require Import Prelude Chain IndexerDb IndexerHandlers IndexerSpec IndexerLoop.

(** ** Definitions *)

(** Every request and every transaction belongs to an indexed job. *)
Record db_wf (db : Db) : Prop := {
  wf_requests : forall id r, revise_rate_requests db !! id = Some r -> is_Some (jobs db !! id);
  wf_transactions : forall k t, transactions db !! k = Some t -> is_Some (jobs db !! tx_job t)
}.

Section types.
Context `{C : ChainApi}.

Definition printed_word (s : string) : Prop := exists w, s = encode_hex_with_prefix w.
Definition printed_address (s : string) : Prop := exists w, s = checksum_address w.
Definition clock_time (t : Z) : Prop := 0 <= t <= i64_MAX.
Definition is_i64 (z : Z) : Prop := - 2 ^ 63 <= z < 2 ^ 63.

Record job_typed (id : string) (j : Job) : Prop := {
  jt_id : printed_word id;
  jt_owner : printed_address (owner j);
  jt_provider : printed_address (provider j);
  jt_created : clock_time (created j);
  jt_last_settled : clock_time (last_settled j)
}.

Record transaction_typed (k : Z * Z) (t : Transaction) : Prop := {
  tt_block : is_i64 k.1;
  tt_idx : is_i64 k.2;
  tt_tx : printed_word (tx_hash t)
}.

(** The rows are typed, requests and transactions belong to jobs, and every
    job has a deposit. *)
Record db_typed (db : Db) : Prop := {
  typed_jobs id j : jobs db !! id = Some j -> job_typed id j;
  typed_opening id j : jobs db !! id = Some j ->
    exists k t, transactions db !! k = Some t /\ tx_job t = id /\ is_deposit t = true;
  typed_transactions k t : transactions db !! k = Some t ->
    transaction_typed k t /\ is_Some (jobs db !! tx_job t);
  typed_requests id r : revise_rate_requests db !! id = Some r ->
    clock_time (updates_at r) /\ is_Some (jobs db !! id);
  typed_providers id p : providers db !! id = Some p -> printed_address id
}.

(** The events of logs. *)
Definition event_typed (e : event) : Prop :=
  match e with
  | EProviderAdded id _ | EProviderRemoved id | EProviderUpdated id _ => printed_address id
  | EOpened id j k tx => job_typed id j /\ transaction_typed k (mkTransaction tx id (balance j) true)
  | EChanged _ (Settle _ ts) => clock_time ts
  | EChanged _ _ => True
  | EMoved id a dep k tx => transaction_typed k (mkTransaction tx id a dep)
  | ERequested _ r => clock_time (updates_at r)
  | EUnlocked _ | ENothing => True
  end.

End types.

Definition signed_amount (t : Transaction) : Z := if is_deposit t then amount t else - amount t.

(** Deposits minus withdrawals of a job in the transactions table. *)
Definition ledger (id : string) (m : gmap (Z * Z) Transaction) : Z :=
  map_fold (fun _ t acc => (if decide (tx_job t = id) then signed_amount t else 0) + acc) 0 m.

(** The amount an event settles on a job. *)
Definition settled_by (id : string) (e : event) : Z :=
  match e with
  | EChanged id' (Settle a _) => if decide (id' = id) then a else 0
  | _ => 0
  end.

(** The amount a list of logs settles on a job. *)
Definition settled_total `{C : ChainApi} (id : string) (ls : list Log) : Z :=
  foldr (fun log acc => match decode_event log with Ok e => settled_by id e | _ => 0 end + acc) 0 ls.

(** Balances move only through [EMoved]: what [decode_event] produces. *)
Definition event_ok (e : event) : bool :=
  match e with EChanged _ (AddBalance _) | EChanged _ (SubBalance _) => false | _ => true end.

Record accounted (s : string -> Z) (db : Db) : Prop := {
  acc_wf : db_wf db;
  acc_open : forall id j, jobs db !! id = Some j -> balance j + s id = ledger id (transactions db);
  acc_new : forall id, jobs db !! id = None -> s id = 0
}.

(** ** Ledger lemmas *)

Lemma ledger_insert id k t m :
  m !! k = None ->
  ledger id (<[k := t]> m) = (if decide (tx_job t = id) then signed_amount t else 0) + ledger id m.
Proof.
  intros Hk. unfold ledger. rewrite map_fold_insert_L; [done | | done].
  intros j1 j2 t1 t2 y. lia.
Qed.

Lemma ledger_none id m :
  (forall k t, m !! k = Some t -> tx_job t <> id) -> ledger id m = 0.
Proof.
  induction m as [| k t m Hk IH] using map_ind; intros Hm; [done |].
  rewrite ledger_insert by done. rewrite decide_False.
  - rewrite IH; [done |]. intros k' t' Hk'. apply (Hm k').
    rewrite lookup_insert_ne; [done |]. intros ->. congruence.
  - apply (Hm k). apply lookup_insert_eq.
Qed.

Lemma decode_event_ok `{C : ChainApi} log e : decode_event log = Ok e -> event_ok e = true.
Proof.
  unfold decode_event, decode_provider, decode_opened, decode_settled, decode_moved,
    decode_lock, decode_request.
  unfold mbind, outcome_bind, mret, outcome_ret. intros He.
  repeat case_match; simplify_eq/=; done.
Qed.

(** ** One event *)

Lemma change_open_job_Some id c db db' :
  change_open_job id c db = Some db' <->
  exists j, jobs db !! id = Some j /\ is_closed j = false /\
    db' = db <| jobs := <[id := change_job c j]> (jobs db) |>.
Proof.
  unfold change_open_job. split.
  - destruct (jobs db !! id) as [j |]; [| done].
    destruct (is_closed j) eqn:Hc; [done |]. intros [= <-]. eauto.
  - intros (j & -> & -> & ->). done.
Qed.

Lemma add_transaction_Some k t db db' :
  add_transaction k t db = Some db' <->
  transactions db !! k = None /\ db' = db <| transactions := <[k := t]> (transactions db) |>.
Proof.
  unfold add_transaction. split.
  - destruct (transactions db !! k); [done |]. by intros [= <-].
  - by intros [-> ->].
Qed.

Lemma apply_event_jobs_mono e db db' id :
  apply_event e db = Some db' -> is_Some (jobs db !! id) -> is_Some (jobs db' !! id).
Proof.
  assert (Hins : forall (m : gmap string Job) k j, is_Some (m !! id) -> is_Some (<[k := j]> m !! id)).
  { intros m k j Hm. rewrite lookup_insert. case_decide; eauto. }
  destruct e; simpl; unfold change_active_provider; intros He Hj; repeat case_match; simplify_eq/=; eauto.
  - apply add_transaction_Some in He as [_ ->]. simpl. eauto.
  - apply change_open_job_Some in He as (j & _ & _ & ->). simpl. eauto.
  - apply bind_Some in He as (d & (j & _ & _ & ->)%change_open_job_Some & [_ ->]%add_transaction_Some).
    simpl. eauto.
  - apply bind_Some in He as (d & (j & _ & _ & ->)%change_open_job_Some & [_ ->]%add_transaction_Some).
    simpl. eauto.
Qed.

Lemma apply_event_wf e db db' : apply_event e db = Some db' -> db_wf db -> db_wf db'.
Proof.
  intros He [Hr Ht].
  pose proof (fun id => apply_event_jobs_mono e db db' id He) as Hmono.
  assert (Hfresh : forall (m : gmap (Z * Z) Transaction) key t,
    is_Some (jobs db' !! tx_job t) -> (forall k t, m !! k = Some t -> is_Some (jobs db !! tx_job t)) ->
    forall k t', <[key := t]> m !! k = Some t' -> is_Some (jobs db' !! tx_job t')).
  { intros m key t Hkey Hm k t'. rewrite lookup_insert. case_decide; [by intros [= <-] | eauto]. }
  destruct e; simpl in He; unfold change_active_provider in He; repeat case_match; simplify_eq/=;
    try (split; simpl in *; by eauto).
  - apply add_transaction_Some in He as [Hk ->]. simpl in *. split; simpl; [by eauto |].
    apply Hfresh; [simpl; rewrite lookup_insert_eq; eauto | done].
  - apply change_open_job_Some in He as (j & _ & _ & ->). split; simpl in *; by eauto.
  - apply bind_Some in He as (d & (j & Hj & _ & ->)%change_open_job_Some & [_ ->]%add_transaction_Some).
    simpl in *. split; simpl; [by eauto |].
    apply Hfresh; [simpl; rewrite lookup_insert_eq; eauto | done].
  - apply bind_Some in He as (d & (j & Hj & _ & ->)%change_open_job_Some & [_ ->]%add_transaction_Some).
    simpl in *. split; simpl; [by eauto |].
    apply Hfresh; [simpl; rewrite lookup_insert_eq; eauto | done].
  - split; simpl in *; [| by eauto]. intros id' r'. rewrite lookup_insert. case_decide; [by subst; eauto | by eauto].
  - split; simpl in *; [| by eauto]. intros id' r' [_ Hd]%lookup_delete_Some. by eauto.
Qed.

(** ** Typed events keep the rows typed *)

Section typing.
Context `{C : ChainApi}.

Lemma to_signed_i64 z : is_i64 (to_signed 64 z).
Proof.
  unfold is_i64, to_signed, wrap. pose proof (Z.mod_pos_bound z (2 ^ 64) eq_refl).
  change (2 ^ (64 - 1)) with (2 ^ 63). change (2 ^ 64) with (2 * 2 ^ 63) in *.
  destruct (Z.ltb_spec (z mod (2 * 2 ^ 63)) (2 ^ 63)); lia.
Qed.

Lemma system_time_clock w t : system_time w = Ok t -> clock_time t.
Proof.
  unfold system_time, clock_time, wrap. pose proof (Z.mod_pos_bound w (2 ^ 64) eq_refl).
  destruct (Z.leb_spec (w mod 2 ^ 64) i64_MAX); intros; simplify_eq; lia.
Qed.

Lemma log_position_tx log b i tx : log_position log = Ok (b, i, tx) -> printed_word tx.
Proof.
  unfold log_position. intros H. repeat (apply bind_Ok in H as (? & _ & H)).
  injection H as _ _ <-. by eexists.
Qed.

Lemma position_typed log b i tx j a dep :
  log_position log = Ok (b, i, tx) ->
  transaction_typed (to_signed 64 b, to_signed 64 i) (mkTransaction tx j a dep).
Proof. intros Hp. split; [apply to_signed_i64 .. | by eapply log_position_tx]. Qed.

Lemma decode_opened_typed log e : decode_opened log = Ok e -> event_typed e.
Proof.
  unfold decode_opened. intros H. do 3 apply bind_Ok in H as (? & _ & H).
  apply bind_Ok in H as ([[[meta r] b] w] & _ & H).
  apply bind_Ok in H as (t & Ht%system_time_clock & H).
  apply bind_Ok in H as ([[blk i] tx] & Hp & H). injection H as <-.
  split; [split; [by eexists .. | done | done] | by eapply position_typed].
Qed.

Lemma decode_moved_typed dep log e : decode_moved dep log = Ok e -> event_typed e.
Proof.
  unfold decode_moved. intros H. do 2 apply bind_Ok in H as (? & _ & H).
  apply bind_Ok in H as ([[blk i] tx] & Hp & H). injection H as <-. by eapply position_typed.
Qed.

Lemma decode_settled_typed log e : decode_settled log = Ok e -> event_typed e.
Proof.
  unfold decode_settled. intros H. apply bind_Ok in H as (? & _ & H).
  apply bind_Ok in H as ([a w] & _ & H).
  apply bind_Ok in H as (t & Ht%system_time_clock & H). by injection H as <-.
Qed.

Lemma decode_lock_typed k log e :
  (forall id e, k log id = Ok e -> event_typed e) -> decode_lock k log = Ok e -> event_typed e.
Proof.
  unfold decode_lock. intros Hk H. apply bind_Ok in H as (? & _ & H).
  destruct (negb _); [by injection H as <- |]. apply bind_Ok in H as (? & _ & H). eauto.
Qed.

Lemma decode_request_typed log id e : decode_request log id = Ok e -> event_typed e.
Proof.
  unfold decode_request. intros H. apply bind_Ok in H as ([v w] & _ & H).
  apply bind_Ok in H as (t & Ht%system_time_clock & H). by injection H as <-.
Qed.

Lemma decode_event_typed log e : decode_event log = Ok e -> event_typed e.
Proof.
  unfold decode_event. intros H. apply bind_Ok in H as (t & _ & H).
  repeat match type of H with (if ?b then _ else _) = _ => destruct b end;
    try solve [ by eapply decode_opened_typed | by eapply decode_moved_typed
              | by eapply decode_settled_typed
              | eapply decode_lock_typed; [| exact H]; eauto using decode_request_typed;
                intros ? ? [= <-]; done
              | unfold decode_provider in H; repeat (apply bind_Ok in H as (? & _ & H));
                injection H as <-; cbn; try done; by eexists ].
Qed.

Lemma change_job_typed id c j :
  event_typed (EChanged id c) -> job_typed id j -> job_typed id (change_job c j).
Proof. intros Hc []. destruct c; split; done. Qed.

Lemma change_open_job_typed id c db db' :
  change_open_job id c db = Some db' -> event_typed (EChanged id c) -> db_typed db -> db_typed db'.
Proof.
  intros (j & Hj & _ & ->)%change_open_job_Some Hc [Hjobs Hopen Ht Hr Hp].
  assert (Hmono : forall i, is_Some (jobs db !! i) -> is_Some (<[id := change_job c j]> (jobs db) !! i)).
  { intros i Hi. rewrite lookup_insert. case_decide; eauto. }
  split; simpl; [| | by intros k t []%Ht; eauto | by intros i r []%Hr; eauto | done].
  - intros i j'. rewrite lookup_insert. case_decide; [subst | apply Hjobs].
    intros [= <-]. apply change_job_typed; eauto.
  - intros i j'. rewrite lookup_insert. case_decide; [subst | apply Hopen]. eauto.
Qed.

Lemma add_transaction_typed k t db db' :
  add_transaction k t db = Some db' -> transaction_typed k t -> is_Some (jobs db !! tx_job t) ->
  db_typed db -> db_typed db'.
Proof.
  intros [Hk ->]%add_transaction_Some Htk Hj [Hjobs Hopen Ht Hr Hp]. split; simpl; [done | | | done | done].
  - intros id j (k' & t' & Hk' & Ht')%Hopen. exists k', t'. split; [| done].
    rewrite lookup_insert_ne; [done |]. congruence.
  - intros k' t'. rewrite lookup_insert. case_decide; [subst; by intros [= <-] | apply Ht].
Qed.

Lemma open_job_typed id j k tx db db' :
  apply_event (EOpened id j k tx) db = Some db' -> event_typed (EOpened id j k tx) ->
  db_typed db -> db_typed db'.
Proof.
  simpl. destruct (jobs db !! id) eqn:Hid; [done |].
  intros [Hk ->]%add_transaction_Some [Hj Htk] [Hjobs Hopen Ht Hr Hp]. simpl in Hk.
  assert (Hmono : forall i, is_Some (jobs db !! i) -> is_Some (<[id := j]> (jobs db) !! i)).
  { intros i Hi. rewrite lookup_insert. case_decide; eauto. }
  split; simpl; [| | | by intros i r []%Hr; eauto | done].
  - intros i j'. rewrite lookup_insert. case_decide; [subst; by intros [= <-] | apply Hjobs].
  - intros i j'. rewrite lookup_insert. case_decide as Hi; [subst i; intros _ |].
    + eexists k, _. rewrite lookup_insert_eq. done.
    + intros (k' & t' & Hk' & Ht')%Hopen. exists k', t'.
      rewrite lookup_insert_ne; [done |]. congruence.
  - intros k' t'. rewrite lookup_insert. case_decide; [subst k'; intros [= <-] | intros []%Ht; eauto].
    simpl. rewrite lookup_insert_eq. eauto.
Qed.

Lemma change_active_provider_typed id f db db' :
  change_active_provider id f db = Some db' -> printed_address id -> db_typed db -> db_typed db'.
Proof.
  unfold change_active_provider. intros He Hid [Hjobs Hopen Ht Hr Hp]. repeat case_match; simplify_eq.
  split; simpl; try done. intros i q. rewrite lookup_insert. case_decide; [by subst | apply Hp].
Qed.

Lemma apply_event_typed e db db' :
  event_typed e -> apply_event e db = Some db' -> db_typed db -> db_typed db'.
Proof.
  intros Hte He Hdb. destruct e; simpl in He.
  - assert (db' = db <| providers := <[id := mkProvider url true]> (providers db) |>) as ->.
    { by repeat case_match; simplify_eq. }
    destruct Hdb as [Hjobs Hopen Ht Hr Hp]. split; simpl; try done.
    intros i q. rewrite lookup_insert. case_decide; [by subst | by apply Hp].
  - by eapply change_active_provider_typed.
  - by eapply change_active_provider_typed.
  - by apply (open_job_typed id j key tx db db').
  - by eapply change_open_job_typed.
  - apply bind_Some in He as (d & Hd & He). eapply add_transaction_typed; [exact He | exact Hte | |].
    + by eapply change_open_job_present.
    + eapply change_open_job_typed; [exact Hd | by destruct deposit | done].
  - destruct Hdb as [Hjobs Hopen Ht Hr Hp]. repeat case_match; simplify_eq. split; simpl; try done.
    intros i q. rewrite lookup_insert. case_decide; [subst; intros [= <-]; eauto | apply Hr].
  - simplify_eq. destruct Hdb as [Hjobs Hopen Ht Hr Hp]. split; simpl; try done.
    intros i q [_ Hq]%lookup_delete_Some. eauto.
  - by simplify_eq.
Qed.

End typing.

(** The effect of an event on the job table and the ledger of job [id]. *)
Lemma change_job_balance c j :
  event_ok (EChanged "" c) = true ->
  balance (change_job c j) + settled_by "" (EChanged "" c) = balance j.
Proof. destruct c; simpl; intros; try done; lia. Qed.

Lemma accounted_change s id c db j :
  accounted s db -> event_ok (EChanged id c) = true -> jobs db !! id = Some j ->
  db_wf (db <| jobs := <[id := change_job c j]> (jobs db) |>) ->
  accounted (fun id' => s id' + settled_by id' (EChanged id c))
    (db <| jobs := <[id := change_job c j]> (jobs db) |>).
Proof.
  intros [Hwf Ho Hn] Hok Hj Hwf'. split; [done | |]; simpl; intros id'.
  - intros j'. rewrite lookup_insert. case_decide as Hid.
    + intros [= <-]. subst id'. pose proof (Ho _ _ Hj) as Hbal.
      pose proof (change_job_balance c j Hok) as Hc. simpl in Hc.
      destruct c; simpl in *; rewrite ?decide_True by done; lia.
    + intros Hj'. pose proof (Ho _ _ Hj') as Hbal. destruct c; simpl in *; rewrite ?decide_False by done; lia.
  - rewrite lookup_insert. case_decide as Hid; [done |].
    intros Hj'. rewrite (Hn _ Hj'). destruct c; simpl; rewrite ?decide_False by done; lia.
Qed.

Lemma accounted_open s id j key tx db :
  accounted s db -> jobs db !! id = None -> transactions db !! key = None ->
  forall db', db' = db <| jobs := <[id := j]> (jobs db) |>
         <| transactions := <[key := mkTransaction tx id (balance j) true]> (transactions db) |> ->
  db_wf db' -> accounted s db'.
Proof.
  intros [Hwf Ho Hn] Hid Hk db' -> Hwf'. split; [done | |]; simpl; intros id'.
  - intros j'. rewrite ledger_insert by done. simpl. unfold signed_amount. simpl.
    rewrite lookup_insert. repeat case_decide; simplify_eq; try done.
    + intros [= <-]. rewrite (Hn _ Hid), ledger_none; [lia |].
      intros k t Ht <-. destruct (wf_transactions _ Hwf _ _ Ht) as [? ?]. congruence.
    + intros Hj'%Ho. lia.
  - rewrite lookup_insert. case_decide; [done |]. apply Hn.
Qed.

Lemma accounted_move s id a (dep : bool) key tx db j :
  accounted s db -> jobs db !! id = Some j -> transactions db !! key = None ->
  forall db', db' = db <| jobs := <[id := change_job (if dep then AddBalance a else SubBalance a) j]> (jobs db) |>
         <| transactions := <[key := mkTransaction tx id a dep]> (transactions db) |> ->
  db_wf db' -> accounted s db'.
Proof.
  intros [Hwf Ho Hn] Hid Hk db' -> Hwf'. split; [done | |]; simpl; intros id'.
  - intros j'. rewrite ledger_insert by done. simpl. unfold signed_amount. simpl.
    rewrite lookup_insert. repeat case_decide; simplify_eq; try done.
    + intros [= <-]. pose proof (Ho _ _ Hid). destruct dep; simpl; lia.
    + intros Hj'%Ho. lia.
  - rewrite lookup_insert. case_decide; [done |]. apply Hn.
Qed.

Lemma apply_event_accounted s e db db' :
  event_ok e = true -> apply_event e db = Some db' -> accounted s db ->
  accounted (fun id => s id + settled_by id e) db'.
Proof.
  intros Hok He Hacc. pose proof (apply_event_wf e db db' He (acc_wf _ _ Hacc)) as Hwf'.
  assert (Hsame : transactions db' = transactions db -> jobs db' = jobs db ->
    (forall id, settled_by id e = 0) -> accounted (fun id => s id + settled_by id e) db').
  { intros Ht Hj Hs. destruct Hacc as [Hwf Ho Hn].
    split; [done | |]; intros id; rewrite Hs; rewrite Hj; rewrite ?Ht, Z.add_0_r; [apply Ho | apply Hn]. }
  assert (Hs0 : (forall id, settled_by id e = 0) -> accounted s db' ->
    accounted (fun id => s id + settled_by id e) db').
  { intros Hs [? Ho Hn].
    split; [done | |]; intros id; rewrite Hs, Z.add_0_r; [apply Ho | apply Hn]. }
  destruct e; simpl in He; unfold change_active_provider in He;
    try (repeat case_match; simplify_eq/=; by apply Hsame).
  - destruct (jobs db !! id) eqn:Hid; [done |]. apply add_transaction_Some in He as [Hk ->].
    apply Hs0; [done |]. eapply accounted_open; eauto.
  - apply change_open_job_Some in He as (j & Hj & _ & ->). by apply accounted_change.
  - apply bind_Some in He as (d & (j & Hj & _ & ->)%change_open_job_Some & [Hk ->]%add_transaction_Some).
    apply Hs0; [done |]. eapply accounted_move; eauto.
Qed.

(** Closed jobs never change, and transactions are only added. *)
Lemma apply_event_closed e db db' id j :
  apply_event e db = Some db' -> jobs db !! id = Some j -> is_closed j = true ->
  jobs db' !! id = Some j.
Proof.
  intros He Hj Hc.
  assert (Hins : forall id' j' v, jobs db !! id' = Some j' -> is_closed j' = false ->
    <[id' := v]> (jobs db) !! id = Some j).
  { intros id' j' v Hj' Hc'. rewrite lookup_insert_ne; [done |]. intros ->. congruence. }
  destruct e; simpl in He; unfold change_active_provider in He;
    try (repeat case_match; simplify_eq/=; done).
  - destruct (jobs db !! id0) eqn:Hid; [done |]. apply add_transaction_Some in He as [Hk ->].
    simpl. rewrite lookup_insert_ne; [done | congruence].
  - apply change_open_job_Some in He as (j' & Hj' & Hc' & ->). simpl. eauto.
  - apply bind_Some in He as (d & (j' & Hj' & Hc' & ->)%change_open_job_Some & [Hk ->]%add_transaction_Some).
    simpl. eauto.
Qed.

Lemma apply_event_transactions e db db' :
  apply_event e db = Some db' -> transactions db ⊆ transactions db'.
Proof.
  intros He. destruct e; simpl in He; unfold change_active_provider in He;
    try (repeat case_match; simplify_eq/=; done).
  - destruct (jobs db !! id) eqn:Hid; [done |]. apply add_transaction_Some in He as [Hk ->].
    by apply insert_subseteq.
  - by apply change_open_job_Some in He as (j' & _ & _ & ->).
  - apply bind_Some in He as (d & (j' & _ & _ & ->)%change_open_job_Some & [Hk ->]%add_transaction_Some).
    by apply insert_subseteq.
Qed.

(** ** Lists of logs *)

Section replay.
Context `{C : ChainApi, P : Postgres}.

(** A property of the database preserved by every event is preserved by
    every successful run over logs. *)
Lemma handle_logs_preserves (I : Db -> Prop) ls db db' :
  (forall log e d d', decode_event log = Ok e -> apply_event e d = Some d' -> I d -> I d') ->
  handle_logs db ls = Ok db' -> I db -> I db'.
Proof.
  intros Hstep. revert db. induction ls as [| log ls IH]; intros db.
  - by intros [= ->].
  - intros (d & Hd & Hr)%handle_logs_cons_Ok HI. apply (IH d); [done |].
    rewrite handle_log_decode_perform in Hd.
    apply bind_Ok in Hd as (e & Hdec & He%perform_sound). eauto.
Qed.

Lemma handle_logs_accounted ls : forall s db db',
  handle_logs db ls = Ok db' -> accounted s db ->
  accounted (fun id => s id + settled_total id ls) db'.
Proof.
  induction ls as [| log ls IH]; intros s db db'.
  - intros [= ->] [? Ho Hn]. split; [done | |]; intros id; simpl; rewrite Z.add_0_r; eauto.
  - intros (d & Hd & Hr)%handle_logs_cons_Ok Hacc.
    rewrite handle_log_decode_perform in Hd.
    apply bind_Ok in Hd as (e & Hlog & He%perform_sound).
    eapply apply_event_accounted in He; [| by eapply decode_event_ok | done].
    eapply IH in He; [| done]. destruct He as [? Ho Hn].
    split; [done | |]; intros id; simpl; rewrite Hlog, Z.add_assoc; eauto.
Qed.

Lemma initial_db_accounted : accounted (fun _ => 0) initial_db.
Proof. split; [split |..]; intros *; simpl; rewrite ?lookup_empty; try done. Qed.

End replay.

(** ** Concrete instances for the witnesses *)
Module ToyIndexer.
Export ToyChain.

#[export] Instance toy_pg : Postgres := {| accepts _ := true; refusal _ := EmptyString |}.

Definition mklog (ts : list B256) (d : bytes) (block idx : Z) : Log :=
  mkLog ts d (Some block) (Some idx) (Some (100 * block + idx)) false.

Definition toy_opened : Log := mklog [JOB_OPENED; 7; 21; 33] (5 :: 1000 :: 60 :: codes_of_string "{}") 1 0.
Definition toy_settled : Log := mklog [JOB_SETTLED; 7] [300; 120] 2 0.
Definition toy_deposited : Log := mklog [JOB_DEPOSITED; 7] [50] 2 1.
Definition toy_locked : Log := mklog [LOCK_CREATED; RATE_LOCK_SELECTOR; 7] [9; 500] 3 0.
Definition toy_withdrew : Log := mklog [JOB_WITHDREW; 7] [20] 3 1.
Definition toy_unlocked : Log := mklog [LOCK_DELETED; RATE_LOCK_SELECTOR; 7] [9] 3 2.
Definition toy_closed : Log := mklog [JOB_CLOSED; 7] [] 4 0.
Definition toy_ignored : Log := mklog [hash "Upgraded(address)"] [] 5 0.

Definition toy_blocks (b : Z) : list Log :=
  match b with
  | 1 => [toy_opened]
  | 2 => [toy_settled; toy_deposited]
  | 3 => [toy_locked; toy_withdrew; toy_unlocked]
  | 4 => [toy_closed]
  | 5 => [toy_ignored]
  | _ => []
  end.

(** A node at height 5 serving [toy_blocks]. *)
#[export] Instance toy_node : LogsProvider unit := {|
  latest_block p := (p, Ok 5);
  logs _ a b := Ok (chain_logs toy_blocks a (b - a + 1))
|}.

Definition toy_logs : list Log := chain_logs toy_blocks 1 5.
Definition toy_db0 : Db := initial_db <| sync := [0] |>.
Definition toy_db : Db :=
  match handle_logs initial_db toy_logs with Ok d => d | _ => initial_db end.
Definition toy_db4 : Db :=
  match handle_logs initial_db (chain_logs toy_blocks 1 4) with Ok d => d | _ => initial_db end.
Definition toy_job : Job :=
  mkJob "{}" (checksum_address 21) (checksum_address 33) 5 730 120 60 true.
Definition toy_id : string := encode_hex_with_prefix 7.

End ToyIndexer.

(** ** Properties *)

Section properties.
Context `{C : ChainApi, P : Postgres}.

(** C10: Refinement.  When the server accepts the statements, [handle_log]
    succeeds exactly when the log denotes an abstract event whose
    precondition holds, and its database is the event's effect: the SQL
    statements, the row counts and the order of the checks of the handlers
    implement the map-level specification [apply_event]. *)
Theorem handle_log_refines (db : Db) (log : Log) (db' : Db)
  (Hacc : forall st, accepts st = true) :
  handle_log db log = Ok db' <->
  exists e, decode_event log = Ok e /\ apply_event e db = Some db'.
Proof.
  rewrite handle_log_decode_perform, bind_Ok. split.
  - intros (e & He & Hp%perform_sound). eauto.
  - intros (e & He & Hp). eauto using perform_complete.
Qed.

(** The database never makes a handler panic: [handle_log] panics exactly
    when the decoding of the log does (a missing topic or a timestamp past
    the clock's range), whatever the database and the server's answers. *)
Theorem handle_log_panic_iff (db : Db) (log : Log) :
  handle_log db log = Panic <-> decode_event log = Panic.
Proof.
  rewrite handle_log_decode_perform.
  destruct (decode_event log) as [e | |]; simpl; [| done | done].
  split; [| done]. intros He. by apply perform_no_panic in He.
Qed.

(** C16: Conservation.  After any successfully indexed list of logs, the
    balance of every job is the sum of its deposits minus its withdrawals in
    the transactions table, minus the amounts settled by the logs. *)
Theorem balance_is_ledger_minus_settled (ls : list Log) (db : Db)
  (Hrun : handle_logs initial_db ls = Ok db) :
  forall id j, jobs db !! id = Some j ->
  balance j = ledger id (transactions db) - settled_total id ls.
Proof.
  intros id j Hj. eapply handle_logs_accounted in Hrun; [| apply initial_db_accounted].
  pose proof (acc_open _ _ Hrun id j Hj) as Hb. simpl in Hb. lia.
Qed.

(** C39: The rows keep their types.  Whatever logs are indexed, every job has
    the printed id and the checksummed parties of a log, times the clock can
    represent and a deposit row that opened it; every transaction has the
    position and printed hash of a log and belongs to a job; every request
    belongs to a job and has a representable time; every provider key is a
    checksummed address. *)
Theorem indexed_rows_typed (ls : list Log) (db db' : Db)
  (Hrun : handle_logs db ls = Ok db') (Ht : db_typed db) : db_typed db'.
Proof.
  eapply handle_logs_preserves; eauto. intros log e d d' He Hd.
  eapply apply_event_typed; [by eapply decode_event_typed | exact Hd].
Qed.

(** C38: A closed job is final: no later log changes any column of its row. *)
Theorem closed_job_is_final (ls : list Log) (db db' : Db) (id : string) (j : Job)
  (Hrun : handle_logs db ls = Ok db') (Hj : jobs db !! id = Some j) (Hc : is_closed j = true) :
  jobs db' !! id = Some j.
Proof.
  eapply (handle_logs_preserves (fun d => jobs d !! id = Some j)); eauto.
  intros log e d d' _ He Hd. by eapply apply_event_closed.
Qed.

(** The transactions table is append-only. *)
Theorem transactions_append_only (ls : list Log) (db db' : Db)
  (Hrun : handle_logs db ls = Ok db') : transactions db ⊆ transactions db'.
Proof.
  eapply (handle_logs_preserves (fun d => transactions db ⊆ transactions d)); eauto.
  intros log e d d' _ He%apply_event_transactions Hd. by etrans.
Qed.

(** [handle_job_opened] does not look at the providers table: its result
    is the same for every content of it, so a job is indexed even when its
    provider is unknown or inactive. *)
Theorem job_opened_ignores_providers (db : Db) (log : Log) (ps : gmap string Provider) :
  handle_job_opened log (db <| providers := ps |>) =
  let '(d, r) := handle_job_opened log db in (d <| providers := ps |>, r).
Proof.
  unfold handle_job_opened, mbind, Conn_bind, try_.
  destruct (topic log 1) as [w1 | |]; [| done | done].
  destruct (topic log 2) as [w2 | |]; [| done | done].
  destruct (topic log 3) as [w3 | |]; [| done | done].
  destruct (ok_or _ (abi_decode_opened (data log))) as [[[[meta r] b] w] | |]; [| done | done].
  destruct (system_time w) as [ts | |]; [| done | done].
  destruct (log_position log) as [[[blk i] tx] | |]; [| done | done].
  unfold execute_on, run.
  destruct (accepts (InsertJob _ _)); [| done].
  unfold execute, sql_insert. simpl. destruct (jobs db !! _); [done |]. simpl.
  destruct (accepts (InsertTransaction _ _ _)); [| done].
  rewrite lookup_insert_eq. simpl. by destruct (transactions db !! _).
Qed.

End properties.

Section loop_properties.
Context `{C : ChainApi, P : Postgres, LogsProvider R}.

(** The replay of the loop, from any sync position. *)
Lemma event_loop_replay (chain : Z -> list Log) (range_size : Z) (p : R)
  (db db' : Db) (b : Z) (fuel : nat) res
  (Hserve : serves chain) (Hheight : heights_bounded) (Hrange : 1 <= range_size <= i64_MAX)
  (Hsync : sync db = [b]) (Hb : 0 <= b <= i64_MAX)
  (Hrun : event_loop fuel range_size p db = (db', res)) :
  exists b', b <= b' <= i64_MAX /\ sync db' = [b'] /\
    handle_logs db (chain_logs chain (b + 1) (b' - b)) = Ok (db' <| sync := [b] |>).
Proof.
  assert (Hlast : read_last_updated db = Ok b).
  { unfold read_last_updated. rewrite Hsync. cbn. f_equal. unfold wrap, i64_MAX in *.
    apply Z.mod_small. lia. }
  unfold event_loop in Hrun. rewrite Hlast in Hrun. clear Hlast.
  revert p db b Hsync Hb Hrun.
  assert (Hstay : forall db b, sync db = [b] -> 0 <= b <= i64_MAX ->
    exists b', b <= b' <= i64_MAX /\ sync db = [b'] /\
    handle_logs db (chain_logs chain (b + 1) (b' - b)) = Ok (db <| sync := [b] |>)).
  { intros db0 b0 Hs Hb0. exists b0. replace (b0 - b0) with 0 by lia.
    split_and!; try done; try lia. destruct db0; simpl in *. by subst. }
  induction fuel as [| fuel IH]; intros p db b Hsync Hb Hrun; simpl in Hrun.
  { simplify_eq. eauto. }
  destruct (event_loop_iter range_size p db b) as [p' [[db1 b1] | e |]] eqn:Hit;
    [| simplify_eq; eauto | simplify_eq; eauto].
  eapply event_loop_iter_Ok in Hit as (Hb1 & Hs1 & Hl1); eauto.
  apply IH in Hrun as (b' & Hb' & Hs' & Hl'); [| done | lia].
  exists b'. split_and!; [lia | lia | done |].
  replace (b' - b) with ((b1 - b) + (b' - b1)) by lia.
  rewrite chain_logs_app by lia. rewrite handle_logs_app, Hl1. cbn [mbind outcome_bind].
  replace (b + 1 + (b1 - b)) with (b1 + 1) by lia.
  rewrite handle_logs_frame, Hl'. done.
Qed.

(** C1: Exactly-once replay.  For any number of turns, any range size and any
    point where the loop stops or fails, the database is the one obtained by
    applying the logs of the blocks after the initial position up to its
    sync position, in order and once each; in particular the result does not
    depend on how the blocks were cut into ranges. *)
Theorem event_loop_replays_chain (chain : Z -> list Log) (range_size : Z) (p : R)
  (db db' : Db) (b : Z) (fuel : nat) res
  (Hserve : serves chain) (Hheight : heights_bounded) (Hrange : 1 <= range_size <= i64_MAX)
  (Hsync : sync db = [b]) (Hb : 0 <= b <= i64_MAX)
  (Hrun : event_loop fuel range_size p db = (db', res)) :
  exists b', b <= b' <= i64_MAX /\ sync db' = [b'] /\
    handle_logs db (chain_logs chain (b + 1) (b' - b)) = Ok (db' <| sync := [b] |>).
Proof. by apply (event_loop_replay chain range_size p db db' b fuel res). Qed.

(** C24: Catching up.  Against a node at height [n] whose logs can all be
    applied, the loop reaches block [n] within [n - b] turns and then stays
    there with the fully replayed database, for every range size. *)
Theorem event_loop_catches_up (chain : Z -> list Log) (range_size n : Z) (p : R)
  (db db1 : Db) (b : Z) (fuel : nat)
  (Hacc : forall st, accepts st = true) (Hserve : serves chain)
  (Hheight : forall q : R, latest_block q = (q, Ok n)) (Hrange : 1 <= range_size <= i64_MAX)
  (Hsync : sync db = [b]) (Hb : 0 <= b <= n) (Hn : n <= i64_MAX)
  (Hall : handle_logs db (chain_logs chain (b + 1) (n - b)) = Ok db1)
  (Hfuel : n - b <= Z.of_nat fuel) :
  event_loop fuel range_size p db = (db1 <| sync := [n] |>, None).
Proof.
  assert (Hlast : read_last_updated db = Ok b).
  { unfold read_last_updated. rewrite Hsync. cbn. f_equal. unfold wrap, i64_MAX in *.
    apply Z.mod_small. lia. }
  unfold event_loop. rewrite Hlast. clear Hlast.
  revert db db1 b Hsync Hb Hall Hfuel.
  induction fuel as [| fuel IH]; intros db db1 b Hsync Hb Hall Hfuel; simpl.
  { assert (b = n) as -> by lia. replace (n - n) with 0 in Hall by lia. injection Hall as <-.
    destruct db; simpl in *. by subst. }
  unfold event_loop_iter. rewrite Hheight. cbn [mbind outcome_bind].
  destruct (Z.ltb_spec n b); [lia |]. destruct (Z.eqb_spec n b) as [-> | Hne].
  { apply IH; try done; lia. }
  rewrite range_end_wraps by (unfold i64_MAX in *; lia).
  set (e := range_end range_size b n). assert (He : b + 1 <= e <= n) by (unfold e, range_end; lia).
  assert (wrap 64 (b + 1) = b + 1) as -> by (unfold wrap, i64_MAX in *; apply Z.mod_small; lia).
  rewrite Hserve by lia. cbn [mbind outcome_bind].
  replace (n - b) with ((e - b) + (n - e)) in Hall by lia.
  rewrite chain_logs_app, handle_logs_app in Hall by lia.
  apply bind_Ok in Hall as (d & Hd & Hall).
  replace (e - (b + 1) + 1) with (e - b) by lia.
  erewrite process_range_complete by (eauto; lia). cbn [mbind outcome_bind].
  replace (b + 1 + (e - b)) with (e + 1) in * by lia.
  assert (Hl : handle_logs (d <| sync := [e] |>) (chain_logs chain (e + 1) (n - e)) =
    Ok (db1 <| sync := [e] |>)) by (rewrite handle_logs_frame, Hall; done).
  apply IH in Hl; [| done | lia | lia]. exact Hl.
Qed.

End loop_properties.

(** ** Witnesses *)
Module Witnesses.
Import ToyIndexer.

Lemma toy_serves : serves (R := unit) toy_blocks.
Proof. by intros p a b _ _. Qed.

Lemma toy_heights : heights_bounded (R := unit).
Proof. intros p p' n [= <- <-]. unfold i64_MAX. lia. Qed.

Lemma handle_log_refines_witness :
  exists db', handle_log initial_db toy_opened = Ok db' /\
    exists e, decode_event toy_opened = Ok e /\ apply_event e initial_db = Some db'.
Proof.
  eexists. split; [vm_compute; reflexivity |].
  apply (handle_log_refines initial_db toy_opened); [done | vm_compute; reflexivity].
Defined.

Lemma balance_is_ledger_minus_settled_witness :
  balance <$> jobs toy_db !! toy_id = Some 730 /\ settled_total toy_id toy_logs = 300 /\
  forall id j, jobs toy_db !! id = Some j ->
    balance j = ledger id (transactions toy_db) - settled_total id toy_logs.
Proof.
  split; [vm_compute; reflexivity |]. split; [vm_compute; reflexivity |].
  apply (balance_is_ledger_minus_settled toy_logs toy_db). vm_compute; reflexivity.
Defined.

Lemma indexed_rows_typed_witness : db_typed toy_db /\ size (jobs toy_db) = 1%nat.
Proof.
  split; [| vm_compute; reflexivity].
  apply (indexed_rows_typed toy_logs initial_db toy_db).
  - vm_compute; reflexivity.
  - split; intros *; simpl; by rewrite lookup_empty.
Defined.

Lemma closed_job_is_final_witness : jobs toy_db !! toy_id = Some toy_job.
Proof.
  apply (closed_job_is_final [toy_ignored] toy_db4 toy_db toy_id toy_job).
  - vm_compute. reflexivity.
  - vm_compute. reflexivity.
  - reflexivity.
Defined.

Lemma transactions_append_only_witness :
  transactions initial_db ⊆ transactions toy_db /\ size (transactions toy_db) = 3%nat.
Proof.
  split; [| vm_compute; reflexivity].
  apply (transactions_append_only toy_logs initial_db toy_db). vm_compute; reflexivity.
Defined.

Lemma event_loop_replays_chain_witness :
  exists b', 0 <= b' <= i64_MAX /\ sync (event_loop 2 2 tt toy_db0).1 = [b'] /\
    handle_logs toy_db0 (chain_logs toy_blocks (0 + 1) (b' - 0)) =
      Ok ((event_loop 2 2 tt toy_db0).1 <| sync := [0] |>).
Proof.
  eapply (event_loop_replays_chain toy_blocks 2 tt toy_db0 _ 0 2 None toy_serves toy_heights).
  - unfold i64_MAX. lia.
  - reflexivity.
  - unfold i64_MAX. lia.
  - vm_compute. reflexivity.
Defined.

Lemma event_loop_catches_up_witness :
  event_loop 7 2 tt toy_db0 = (toy_db <| sync := [0] |> <| sync := [5] |>, None).
Proof.
  apply (event_loop_catches_up toy_blocks 2 5 tt toy_db0 (toy_db <| sync := [0] |>) 0 7).
  - done.
  - exact toy_serves.
  - done.
  - unfold i64_MAX. lia.
  - reflexivity.
  - lia.
  - unfold i64_MAX. lia.
  - vm_compute. reflexivity.
  - lia.
Defined.

End Witnesses.
