(* ===== verification/IndexerRun.v ===== *)
(** * Indexer: the binary, and its restarts

    [run] of contracts/indexer/src/main.rs, after the migrations: set the start
    block, then loop.  The process may stop at any point of the loop and be
    started again; the database is what remains. *)

From S2P Require Import Prelude Chain IndexerDb IndexerHandlers IndexerSpec IndexerLoop IndexerProps.

Section indexer_run.
Context `{C : ChainApi, P : Postgres, LogsProvider R}.

(** [fuel]: the turns of the loop before the process stops. *)
Definition indexer_run (fuel : nat) (range_size start_block : Z) (provider : R) (db : Db)
    : Db * option (outcome string unit) :=
  match start_from db start_block with
  | Ok (db, _) => event_loop fuel range_size provider db
  | Err e => (db, Some (Err e))
  | Panic => (db, Some Panic)
  end.

(** The database after a number of runs, each with its turns and its node. *)
Definition restarts (range_size start_block : Z) (runs : list (nat * R)) (db : Db) : Db :=
  foldl (fun db '(fuel, provider) => (indexer_run fuel range_size start_block provider db).1) db runs.

(** The database before the first run, or the replay of the chain from the
    start block up to the sync position. *)
Definition replayed (chain : Z -> list Log) (start_block : Z) (db : Db) : Prop :=
  db = initial_db \/
  exists b, start_block - 1 <= b <= i64_MAX /\ sync db = [b] /\
    handle_logs initial_db (chain_logs chain start_block (b - start_block + 1)) = Ok (db <| sync := [-1] |>).

Lemma start_from_ok db b start r : 1 <= start <= i64_MAX -> sync db = [b] -> -1 <= b <= i64_MAX ->
  start_from db start = r ->
  (exists flag, r = Ok (db <| sync := [Z.max b (start - 1)] |>, flag)) \/ exists e, r = Err e.
Proof.
  intros Hs Hb Hbr <-. assert (Hcast : to_signed 64 (to_signed 64 start - 1) = start - 1).
  { unfold to_signed, wrap, i64_MAX in *. cbn zeta. rewrite (Z.mod_small start) by lia.
    assert ((start <? 2 ^ (64 - 1)) = true) as -> by lia. rewrite Z.mod_small by lia.
    by assert ((start - 1 <? 2 ^ (64 - 1)) = true) as -> by lia. }
  unfold start_from, run. rewrite Hcast. destruct (accepts _); [left | right; by eexists].
  cbn [ok_or execute mbind outcome_bind mret outcome_ret]. unfold execute. rewrite Hb. eexists. cbn. do 4 f_equal.
  destruct (Z.ltb_spec b (start - 1)); lia.
Qed.

Lemma run_replayed chain range_size start fuel provider db :
  serves chain -> heights_bounded -> 1 <= range_size <= i64_MAX -> 1 <= start <= i64_MAX ->
  replayed chain start db -> replayed chain start (indexer_run fuel range_size start provider db).1.
Proof.
  intros Hserve Hheight Hrange Hstart Hr.
  assert (Hpos : exists b, sync db = [b] /\ -1 <= b <= i64_MAX /\
    handle_logs initial_db (chain_logs chain start (Z.max b (start - 1) - start + 1)) = Ok (db <| sync := [-1] |>)).
  { destruct Hr as [-> | (b & Hb & Hsync & Hl)].
    - exists (-1). split_and!; [done | lia | unfold i64_MAX; lia |]. replace (Z.max _ _ - start + 1) with 0 by lia. done.
    - exists b. split_and!; [done | lia | lia |]. by rewrite Z.max_l by lia. }
  destruct Hpos as (b & Hsync & Hb & Hl). unfold indexer_run.
  destruct (start_from_ok db b start _ Hstart Hsync Hb eq_refl) as [[flag ->] | [e ->]]; [| exact Hr].
  set (b1 := Z.max b (start - 1)) in *. destruct (event_loop _ _ _ _) as [db' res] eqn:Hrun. cbn [fst].
  apply (event_loop_replay chain range_size provider _ db' b1) in Hrun as (b' & Hb' & Hs' & Hl');
    [| done | done | done | done | lia].
  right. exists b'. split_and!; [lia | lia | done |].
  replace (b' - start + 1) with ((b1 - start + 1) + (b' - b1)) by lia. rewrite chain_logs_app by lia.
  rewrite handle_logs_app, Hl. cbn [mbind outcome_bind]. replace (start + (b1 - start + 1)) with (b1 + 1) by lia.
  change (db <| sync := [-1] |>) with (db <| sync := [b1] |> <| sync := [-1] |>).
  by rewrite handle_logs_frame, Hl'.
Qed.

(** C2: the indexer may be stopped and started again at any time: after any
    number of runs with the same start block, each ended after any number of
    turns or by a failure, against nodes that serve the same chain at any
    height, the database is still the initial one or the replay of the blocks
    from the start block up to its sync position, each applied once and in
    order; a restart neither repeats nor skips a block. *)
Theorem restarts_replay_once chain range_size start (runs : list (nat * R)) :
  serves chain -> heights_bounded -> 1 <= range_size <= i64_MAX -> 1 <= start <= i64_MAX ->
  let db := restarts range_size start runs initial_db in
  db = initial_db \/
  exists b, start - 1 <= b <= i64_MAX /\ sync db = [b] /\
    handle_logs initial_db (chain_logs chain start (b - start + 1)) = Ok (db <| sync := [-1] |>).
Proof.
  intros Hserve Hheight Hrange Hstart. cbn zeta. change (replayed chain start (restarts range_size start runs initial_db)).
  assert (Hinit : replayed chain start initial_db) by by left. unfold restarts. revert Hinit. generalize initial_db.
  induction runs as [| [fuel provider] runs IH]; intros db Hdb; [exact Hdb |].
  cbn [foldl]. by apply IH, run_replayed.
Qed.

(** A fresh database started with [--start-block 0] never syncs:
    [start_from 0] leaves the position at -1, which the loop reads as
    [u64::MAX], and the first turn fails for every height of the node. *)
Theorem start_block_zero_never_syncs (range_size : Z) (p p' : R) (n : Z) (fuel : nat)
  (Hacc : forall st, accepts st = true)
  (Hlatest : latest_block p = (p', Ok n)) (Hn : 0 <= n < u64_MAX) :
  start_from initial_db 0 = Ok (initial_db, false) /\
  event_loop (S fuel) range_size p initial_db =
    (initial_db, Some (Err "rpc is behind the db, should never happen unless the rpc was rolled back"%string)).
Proof.
  split.
  - unfold start_from, run. rewrite Hacc. reflexivity.
  - unfold event_loop. cbn [read_last_updated]. simpl. unfold event_loop_iter. rewrite Hlatest.
    change (wrap 64 (-1)) with u64_MAX. cbn [mbind outcome_bind].
    destruct (Z.ltb_spec n u64_MAX); [done | lia].
Qed.

End indexer_run.

(** The toy chain, indexed in three runs. *)
Module RunWitnesses.
Import ToyIndexer.

Definition toy_runs : list (nat * unit) := [(1%nat, tt); (0%nat, tt); (2%nat, tt)].

Lemma restarts_replay_once_witness :
  let db := restarts 2 1 toy_runs initial_db in
  sync db = [5] /\
  handle_logs initial_db (chain_logs toy_blocks 1 5) = Ok (db <| sync := [-1] |>).
Proof.
  cbn zeta. assert (Hs : sync (restarts 2 1 toy_runs initial_db) = [5]) by (vm_compute; reflexivity).
  split; [exact Hs |].
  assert (Hrange : 1 <= 2 <= i64_MAX) by (unfold i64_MAX; lia). assert (Hstart : 1 <= 1 <= i64_MAX) by (unfold i64_MAX; lia).
  destruct (restarts_replay_once toy_blocks 2 1 toy_runs Witnesses.toy_serves Witnesses.toy_heights Hrange Hstart)
    as [Heq | (b & _ & Hb & Hl)]; [rewrite Heq in Hs; discriminate Hs |].
  rewrite Hs in Hb. injection Hb as <-. exact Hl.
Defined.
Lemma start_block_zero_never_syncs_witness :
  start_from initial_db 0 = Ok (initial_db, false) /\
  event_loop 1 2000 tt initial_db =
    (initial_db, Some (Err "rpc is behind the db, should never happen unless the rpc was rolled back"%string)).
Proof.
  apply (start_block_zero_never_syncs 2000 tt tt 5 0); [done | reflexivity |].
  unfold u64_MAX, umax. lia.
Defined.

End RunWitnesses.
