(* ===== verification/IndexerTestbed.v ===== *)
(** * Indexer: the test bed of the handlers' unit tests

    The unit tests of [contracts/indexer/src/handlers] fill a fresh database
    ([test_db.rs]), give one log to [handle_log] and compare the tables.  They
    run [IndexerHandlers.handle_log_on] without a transaction, so that the
    statements that ran before an error keep their effect.  A test is a program of the monad [Test], which fails at the first
    assertion that does not hold. *)

From stdpp Require Import sorting.
From S2P Require Import Prelude Text Chain IndexerDb IndexerHandlers.

(** ** The codecs the tests use to build logs *)

Class TestCodec := {
  (* str::parse::<B256> *)
  parse_word : string -> option B256;
  (* str::parse::<Address>, then into_word *)
  parse_address : string -> option B256;
  (* 5.abi_encode() *)
  abi_encode_int : Z -> bytes;
  (* (5, timestamp).abi_encode_sequence() *)
  abi_encode_pair : Z -> Z -> bytes;
  (* "some cp".abi_encode() *)
  abi_encode_str : string -> bytes;
  (* ("some metadata", 1, 2, timestamp).abi_encode_sequence() *)
  abi_encode_opened : string -> Z -> Z -> Z -> bytes
}.

(** ** Test programs *)

(** The database of the test and the number of clock readings so far. *)
Record Bed := mkBed { conn : Db; readings : nat }.

Definition Test (A : Type) : Type := Bed -> option (A * Bed).
#[export] Instance Test_ret : MRet Test := fun A a b => Some (a, b).
#[export] Instance Test_bind : MBind Test := fun A B f m b =>
  match m b with Some (a, b) => f a b | None => None end.

(** [TestDb::new()]: a database with the migrations applied. *)
Definition TestDb_new : Bed := mkBed initial_db 0.

Definition passes (t : Test unit) : Prop := exists b, t TestDb_new = Some (tt, b).

Definition UNIX_EPOCH : Z := 0.

Definition lift {A} (o : option A) : Test A := fun b => a ← o; Some (a, b).

Definition assert_eq {A} `{EqDecision A} (x y : A) : Test unit := lift (guard (x = y);; Some tt).

Definition query {A} (f : Db -> A) : Test A := fun b => Some (f (conn b), b).

Definition change (f : Db -> option Db) : Test unit := fun b =>
  db ← f (conn b); Some (tt, mkBed db (readings b)).

(** INSERT statements of the set-up, under the constraints of the tables. *)
Definition insert_provider (id url : string) (active : bool) : Test unit := change (fun db =>
  t ← sql_insert id (mkProvider url active) (providers db); Some (db <| providers := t |>)).

Definition insert_job (id : string) (j : Job) : Test unit := change (fun db =>
  fst <$> execute (InsertJob id j) db).

Definition insert_transaction (block idx : Z) (t : Transaction) : Test unit := change (fun db =>
  fst <$> execute (InsertTransaction block idx t) db).

Definition insert_request (id : string) (r : ReviseRateRequest) : Test unit := change (fun db =>
  (* id REFERENCES jobs (id) *)
  _ ← jobs db !! id;
  t ← sql_insert id r (revise_rate_requests db); Some (db <| revise_rate_requests := t |>)).

(** [SELECT .. ORDER BY] the primary key. *)
Definition by_id {V} (a b : string * V) : Prop := String.leb a.1 b.1 = true.
#[export] Instance by_id_dec {V} (a b : string * V) : Decision (by_id a b).
Proof. unfold by_id. apply _. Defined.
Definition by_position {V} (a b : (Z * Z) * V) : Prop :=
  (a.1.1 <? b.1.1) || (a.1.1 =? b.1.1) && (a.1.2 <=? b.1.2) = true.
#[export] Instance by_position_dec {V} (a b : (Z * Z) * V) : Decision (by_position a b).
Proof. unfold by_position. apply _. Defined.

Definition provider_rows (db : Db) : list (string * Provider) :=
  merge_sort by_id (map_to_list (providers db)).
Definition job_rows (db : Db) : list (string * Job) := merge_sort by_id (map_to_list (jobs db)).
Definition request_rows (db : Db) : list (string * ReviseRateRequest) :=
  merge_sort by_id (map_to_list (revise_rate_requests db)).
Definition transaction_rows (db : Db) : list ((Z * Z) * Transaction) :=
  merge_sort by_position (map_to_list (transactions db)).

(** [.first(conn)] without an order: determined for a single row only. *)
Definition first {A} (rows : list A) : option A := match rows with [r] => Some r | _ => None end.

#[export] Instance Provider_eq_dec : EqDecision Provider.
Proof. solve_decision. Defined.
#[export] Instance Job_eq_dec : EqDecision Job.
Proof. solve_decision. Defined.
#[export] Instance ReviseRateRequest_eq_dec : EqDecision ReviseRateRequest.
Proof. solve_decision. Defined.
#[export] Instance Transaction_eq_dec : EqDecision Transaction.
Proof. solve_decision. Defined.

Definition assert_count {A} (rows : Db -> list A) (n : nat) : Test unit :=
  l ← query rows; assert_eq (length l) n.
Definition assert_first {A} `{EqDecision A} (rows : Db -> list A) (r : A) : Test unit :=
  l ← query rows; assert_eq (first l) (Some r).
Definition assert_rows {A} `{EqDecision A} (rows : Db -> list A) (expected : list A) : Test unit :=
  l ← query rows; assert_eq l expected.

(** [format!("{:?}", res.unwrap_err())] *)
Definition unwrap_err {A} (r : outcome string A) : Test string :=
  lift (match r with Err e => Some e | _ => None end).

Section programs.
Context `{C : ChainApi, T : TestCodec, P : Postgres}.
Context (clock : nat -> Z).

(** [SystemTime::now().duration_since(UNIX_EPOCH)?.as_secs()] *)
Definition now_secs : Test Z := fun b =>
  Some (clock (readings b), mkBed (conn b) (S (readings b))).

Definition word (s : string) : Test B256 := lift (parse_word s).
Definition address (s : string) : Test B256 := lift (parse_address s).

(** [let res = handle_log(conn, log)] *)
Definition try_log (log : Log) : Test (outcome string unit) := fun b =>
  let '(db, r) := handle_log_on log (conn b) in Some (r, mkBed db (readings b)).

(** [handle_log(conn, log)?] *)
Definition give_log (log : Log) : Test unit :=
  r ← try_log log; lift (match r with Ok _ => Some tt | _ => None end).

(** The log under test: its topics and data, at the position all tests use. *)
Definition test_log (ts : list B256) (d : bytes) : Log :=
  mkLog ts d (Some 42) (Some 69) (Some (keccak256 "some tx")) false.

End programs.
