(* ===== verification/IndexerTests.v ===== *)
(** * Indexer: the unit tests of the log handlers

    One program per test of [contracts/indexer/src/handlers], statement by
    statement: the rows the test inserts, the log it builds, and what it
    asserts of the tables before and after [handle_log].  [clock] gives the
    readings of the system clock, in order. *)

From S2P Require Import Prelude Chain IndexerDb IndexerHandlers IndexerTestbed.

(** ** The literals of the tests *)

Definition job_3 : string := "0x3333333333333333333333333333333333333333333333333333333333333333".
Definition job_4 : string := "0x4444444444444444444444444444444444444444444444444444444444444444".
Definition tx_a : string := "0xaaaaaaaaaaaaaaaaaaaaaaaaaaaaaaaaaaaaaaaaaaaaaaaaaaaaaaaaaaaaaaaa".
Definition addr_a : string := "0xaAaAaAaaAaAaAaaAaAAAAAAAAaaaAaAaAaaAaaAa".
Definition addr_b : string := "0xbBbBBBBbbBBBbbbBbbBbbbbBBbBbbbbBbBbbBBbB".
Definition addr_7 : string := "0x7777777777777777777777777777777777777777".

Section tests.
Context `{C : ChainApi, T : TestCodec, P : Postgres} (clock : nat -> Z).

(** ** [provider_added.rs] *)

Definition test_add_new_provider_in_empty_db : Test unit :=
  assert_count provider_rows 0;;
  w1 ← address addr_a;
  let log := test_log [keccak256 "ProviderAdded(address,string)"; w1]
    (abi_encode_str "some cp") in
  give_log log;;
  assert_count provider_rows 1;;
  assert_first provider_rows (addr_a, mkProvider "some cp" true).

Definition test_add_new_provider_in_populated_db : Test unit :=
  insert_provider addr_7 "some other cp" true;;
  assert_count provider_rows 1;;
  assert_first provider_rows (addr_7, mkProvider "some other cp" true);;
  w1 ← address addr_a;
  let log := test_log [keccak256 "ProviderAdded(address,string)"; w1]
    (abi_encode_str "some cp") in
  give_log log;;
  assert_count provider_rows 2;;
  assert_rows provider_rows
    [(addr_7, mkProvider "some other cp" true);
     (addr_a, mkProvider "some cp" true)].

Definition test_add_new_provider_when_it_already_exists : Test unit :=
  insert_provider addr_7 "some other cp" true;;
  insert_provider addr_a "some cp" true;;
  assert_count provider_rows 2;;
  assert_rows provider_rows
    [(addr_7, mkProvider "some other cp" true);
     (addr_a, mkProvider "some cp" true)];;
  w1 ← address addr_a;
  let log := test_log [keccak256 "ProviderAdded(address,string)"; w1]
    (abi_encode_str "some cp") in
  res ← try_log log;
  e ← unwrap_err res;
  assert_eq e "did not expect to find existing provider";;
  assert_count provider_rows 2;;
  assert_rows provider_rows
    [(addr_7, mkProvider "some other cp" true);
     (addr_a, mkProvider "some cp" true)].

Definition test_add_new_provider_when_it_is_inactive : Test unit :=
  insert_provider addr_7 "some other cp" true;;
  insert_provider addr_a "some cp" false;;
  assert_count provider_rows 2;;
  assert_rows provider_rows
    [(addr_7, mkProvider "some other cp" true);
     (addr_a, mkProvider "some cp" false)];;
  w1 ← address addr_a;
  let log := test_log [keccak256 "ProviderAdded(address,string)"; w1]
    (abi_encode_str "some random cp") in
  give_log log;;
  assert_count provider_rows 2;;
  assert_rows provider_rows
    [(addr_7, mkProvider "some other cp" true);
     (addr_a, mkProvider "some random cp" true)].

(** ** [provider_removed.rs] *)

Definition test_remove_existing_provider : Test unit :=
  insert_provider addr_7 "some other cp" true;;
  insert_provider addr_a "some cp" true;;
  assert_count provider_rows 2;;
  assert_rows provider_rows
    [(addr_7, mkProvider "some other cp" true);
     (addr_a, mkProvider "some cp" true)];;
  w1 ← address addr_a;
  let log := test_log [keccak256 "ProviderRemoved(address)"; w1]
    [] in
  give_log log;;
  assert_count provider_rows 2;;
  assert_rows provider_rows
    [(addr_7, mkProvider "some other cp" true);
     (addr_a, mkProvider "some cp" false)].

Definition test_remove_nonexistent_provider : Test unit :=
  insert_provider addr_7 "some other cp" true;;
  assert_count provider_rows 1;;
  assert_first provider_rows (addr_7, mkProvider "some other cp" true);;
  w1 ← address addr_a;
  let log := test_log [keccak256 "ProviderRemoved(address)"; w1]
    [] in
  res ← try_log log;
  e ← unwrap_err res;
  assert_eq e "count 0 should have been 1";;
  assert_count provider_rows 1;;
  assert_first provider_rows (addr_7, mkProvider "some other cp" true).

Definition test_remove_inactive_provider : Test unit :=
  insert_provider addr_7 "some other cp" true;;
  insert_provider addr_a "some cp" false;;
  assert_count provider_rows 2;;
  assert_rows provider_rows
    [(addr_7, mkProvider "some other cp" true);
     (addr_a, mkProvider "some cp" false)];;
  w1 ← address addr_a;
  let log := test_log [keccak256 "ProviderRemoved(address)"; w1]
    [] in
  res ← try_log log;
  e ← unwrap_err res;
  assert_eq e "count 0 should have been 1";;
  assert_count provider_rows 2;;
  assert_rows provider_rows
    [(addr_7, mkProvider "some other cp" true);
     (addr_a, mkProvider "some cp" false)].

(** ** [provider_updated_with_cp.rs] *)

Definition test_change_cp_of_existing_provider : Test unit :=
  insert_provider addr_7 "some other cp" true;;
  insert_provider addr_a "some cp" true;;
  assert_count provider_rows 2;;
  assert_rows provider_rows
    [(addr_7, mkProvider "some other cp" true);
     (addr_a, mkProvider "some cp" true)];;
  w1 ← address addr_a;
  let log := test_log [keccak256 "ProviderUpdatedWithCp(address,string)"; w1]
    (abi_encode_str "some random cp") in
  give_log log;;
  assert_count provider_rows 2;;
  assert_rows provider_rows
    [(addr_7, mkProvider "some other cp" true);
     (addr_a, mkProvider "some random cp" true)].

Definition test_change_cp_of_existing_provider_with_same_value : Test unit :=
  insert_provider addr_7 "some other cp" true;;
  insert_provider addr_a "some cp" true;;
  assert_count provider_rows 2;;
  assert_rows provider_rows
    [(addr_7, mkProvider "some other cp" true);
     (addr_a, mkProvider "some cp" true)];;
  w1 ← address addr_a;
  let log := test_log [keccak256 "ProviderUpdatedWithCp(address,string)"; w1]
    (abi_encode_str "some cp") in
  give_log log;;
  assert_count provider_rows 2;;
  assert_rows provider_rows
    [(addr_7, mkProvider "some other cp" true);
     (addr_a, mkProvider "some cp" true)].

Definition test_change_cp_of_nonexistent_provider : Test unit :=
  insert_provider addr_7 "some other cp" true;;
  assert_count provider_rows 1;;
  assert_first provider_rows (addr_7, mkProvider "some other cp" true);;
  w1 ← address addr_a;
  let log := test_log [keccak256 "ProviderUpdatedWithCp(address,string)"; w1]
    (abi_encode_str "some random cp") in
  res ← try_log log;
  e ← unwrap_err res;
  assert_eq e "count 0 should have been 1";;
  assert_count provider_rows 1;;
  assert_first provider_rows (addr_7, mkProvider "some other cp" true).

Definition test_change_cp_of_inactive_provider : Test unit :=
  insert_provider addr_7 "some other cp" true;;
  insert_provider addr_a "some cp" false;;
  assert_count provider_rows 2;;
  assert_rows provider_rows
    [(addr_7, mkProvider "some other cp" true);
     (addr_a, mkProvider "some cp" false)];;
  w1 ← address addr_a;
  let log := test_log [keccak256 "ProviderUpdatedWithCp(address,string)"; w1]
    (abi_encode_str "some random cp") in
  res ← try_log log;
  e ← unwrap_err res;
  assert_eq e "count 0 should have been 1";;
  assert_count provider_rows 2;;
  assert_rows provider_rows
    [(addr_7, mkProvider "some other cp" true);
     (addr_a, mkProvider "some cp" false)].

(** ** [job_opened.rs] *)

Definition test_create_new_job_in_empty_db : Test unit :=
  assert_count job_rows 0;;
  timestamp ← now_secs clock;
  let now := UNIX_EPOCH + timestamp in
  w1 ← word job_3;
  w2 ← address addr_b;
  w3 ← address addr_a;
  let log := test_log
    [keccak256 "JobOpened(bytes32,string,address,address,uint256,uint256,uint256)"; w1; w2; w3]
    (abi_encode_opened "some metadata" 1 2 timestamp) in
  give_log log;;
  assert_count job_rows 1;;
  assert_first job_rows (job_3, mkJob "some metadata" addr_b addr_a 1 2 now now false);;
  assert_count transaction_rows 1;;
  assert_first transaction_rows
    ((42, 69), mkTransaction (encode_hex_with_prefix (keccak256 "some tx")) job_3 2 true).

Definition test_create_new_job_in_populated_db : Test unit :=
  original_timestamp ← now_secs clock;
  let original_now := UNIX_EPOCH + original_timestamp in
  insert_job job_4 (mkJob "some other metadata" addr_b addr_a 3 21 original_now original_now false);;
  insert_transaction 123 5 (mkTransaction tx_a job_4 10 false);;
  assert_count job_rows 1;;
  assert_first job_rows
    (job_4, mkJob "some other metadata" addr_b addr_a 3 21 original_now original_now false);;
  assert_count transaction_rows 1;;
  assert_first transaction_rows ((123, 5), mkTransaction tx_a job_4 10 false);;
  timestamp ← now_secs clock;
  let now := UNIX_EPOCH + timestamp in
  w1 ← word job_3;
  w2 ← address addr_b;
  w3 ← address addr_a;
  let log := test_log
    [keccak256 "JobOpened(bytes32,string,address,address,uint256,uint256,uint256)"; w1; w2; w3]
    (abi_encode_opened "some metadata" 1 2 timestamp) in
  give_log log;;
  assert_count job_rows 2;;
  assert_rows job_rows
    [(job_3, mkJob "some metadata" addr_b addr_a 1 2 now now false);
     (job_4, mkJob "some other metadata" addr_b addr_a 3 21 original_now original_now false)];;
  assert_count transaction_rows 2;;
  assert_rows transaction_rows
    [((42, 69), mkTransaction (encode_hex_with_prefix (keccak256 "some tx")) job_3 2 true);
     ((123, 5), mkTransaction tx_a job_4 10 false)].

Definition test_create_new_job_when_it_already_exists : Test unit :=
  original_timestamp ← now_secs clock;
  let original_now := UNIX_EPOCH + original_timestamp in
  insert_job job_4 (mkJob "some other metadata" addr_b addr_a 3 21 original_now original_now false);;
  timestamp ← now_secs clock;
  let now := UNIX_EPOCH + timestamp in
  insert_job job_3 (mkJob "some metadata" addr_b addr_a 1 2 now now false);;
  insert_transaction 123 5 (mkTransaction tx_a job_3 10 false);;
  assert_count job_rows 2;;
  assert_rows job_rows
    [(job_3, mkJob "some metadata" addr_b addr_a 1 2 now now false);
     (job_4, mkJob "some other metadata" addr_b addr_a 3 21 original_now original_now false)];;
  assert_count transaction_rows 1;;
  assert_first transaction_rows ((123, 5), mkTransaction tx_a job_3 10 false);;
  w1 ← word job_3;
  w2 ← address addr_b;
  w3 ← address addr_a;
  let log := test_log
    [keccak256 "JobOpened(bytes32,string,address,address,uint256,uint256,uint256)"; w1; w2; w3]
    (abi_encode_opened "some metadata" 1 2 timestamp) in
  res ← try_log log;
  e ← unwrap_err res;
  assert_eq e (error_context "failed to create job" (unique_violation "jobs_pkey"));;
  assert_count job_rows 2;;
  assert_rows job_rows
    [(job_3, mkJob "some metadata" addr_b addr_a 1 2 now now false);
     (job_4, mkJob "some other metadata" addr_b addr_a 3 21 original_now original_now false)];;
  assert_count transaction_rows 1;;
  assert_first transaction_rows ((123, 5), mkTransaction tx_a job_3 10 false).

(** ** [job_settled.rs] *)

Definition test_settle_existing_job : Test unit :=
  insert_provider addr_a "some cp" true;;
  original_timestamp ← now_secs clock;
  let original_now := UNIX_EPOCH + original_timestamp in
  insert_job job_4 (mkJob "some other metadata" addr_b addr_a 3 21 original_now original_now false);;
  creation_timestamp ← now_secs clock;
  let creation_now := UNIX_EPOCH + creation_timestamp in
  insert_job job_3 (mkJob "some metadata" addr_b addr_a 1 20 creation_now creation_now false);;
  assert_count provider_rows 1;;
  assert_first provider_rows (addr_a, mkProvider "some cp" true);;
  assert_count job_rows 2;;
  assert_rows job_rows
    [(job_3, mkJob "some metadata" addr_b addr_a 1 20 creation_now creation_now false);
     (job_4, mkJob "some other metadata" addr_b addr_a 3 21 original_now original_now false)];;
  let timestamp := creation_timestamp + 5 in
  let now := UNIX_EPOCH + timestamp in
  w1 ← word job_3;
  let log := test_log [keccak256 "JobSettled(bytes32,uint256,uint256)"; w1]
    (abi_encode_pair 5 timestamp) in
  give_log log;;
  assert_count provider_rows 1;;
  assert_first provider_rows (addr_a, mkProvider "some cp" true);;
  assert_count job_rows 2;;
  assert_rows job_rows
    [(job_3, mkJob "some metadata" addr_b addr_a 1 15 now creation_now false);
     (job_4, mkJob "some other metadata" addr_b addr_a 3 21 original_now original_now false)].

Definition test_settle_existing_job_with_zero_amount : Test unit :=
  insert_provider addr_a "some cp" true;;
  original_timestamp ← now_secs clock;
  let original_now := UNIX_EPOCH + original_timestamp in
  insert_job job_4 (mkJob "some other metadata" addr_b addr_a 3 21 original_now original_now false);;
  creation_timestamp ← now_secs clock;
  let creation_now := UNIX_EPOCH + creation_timestamp in
  insert_job job_3 (mkJob "some metadata" addr_b addr_a 1 20 creation_now creation_now false);;
  assert_count provider_rows 1;;
  assert_first provider_rows (addr_a, mkProvider "some cp" true);;
  assert_count job_rows 2;;
  assert_rows job_rows
    [(job_3, mkJob "some metadata" addr_b addr_a 1 20 creation_now creation_now false);
     (job_4, mkJob "some other metadata" addr_b addr_a 3 21 original_now original_now false)];;
  let timestamp := creation_timestamp in
  let now := UNIX_EPOCH + timestamp in
  w1 ← word job_3;
  let log := test_log [keccak256 "JobSettled(bytes32,uint256,uint256)"; w1]
    (abi_encode_pair 0 timestamp) in
  give_log log;;
  assert_count provider_rows 1;;
  assert_first provider_rows (addr_a, mkProvider "some cp" true);;
  assert_count job_rows 2;;
  assert_rows job_rows
    [(job_3, mkJob "some metadata" addr_b addr_a 1 20 now creation_now false);
     (job_4, mkJob "some other metadata" addr_b addr_a 3 21 original_now original_now false)].

Definition test_settle_non_existent_job : Test unit :=
  insert_provider addr_a "some cp" true;;
  original_timestamp ← now_secs clock;
  let original_now := UNIX_EPOCH + original_timestamp in
  insert_job job_4 (mkJob "some other metadata" addr_b addr_a 3 21 original_now original_now false);;
  assert_count provider_rows 1;;
  assert_first provider_rows (addr_a, mkProvider "some cp" true);;
  assert_count job_rows 1;;
  assert_rows job_rows
    [(job_4, mkJob "some other metadata" addr_b addr_a 3 21 original_now original_now false)];;
  let timestamp := original_timestamp + 5 in
  let _now := UNIX_EPOCH + timestamp in
  w1 ← word job_3;
  let log := test_log [keccak256 "JobSettled(bytes32,uint256,uint256)"; w1]
    (abi_encode_pair 5 timestamp) in
  res ← try_log log;
  assert_count provider_rows 1;;
  assert_first provider_rows (addr_a, mkProvider "some cp" true);;
  e ← unwrap_err res;
  assert_eq e "could not find job";;
  assert_count job_rows 1;;
  assert_rows job_rows
    [(job_4, mkJob "some other metadata" addr_b addr_a 3 21 original_now original_now false)].

Definition test_settle_closed_job : Test unit :=
  insert_provider addr_a "some cp" true;;
  original_timestamp ← now_secs clock;
  let original_now := UNIX_EPOCH + original_timestamp in
  insert_job job_4 (mkJob "some other metadata" addr_b addr_a 3 21 original_now original_now false);;
  creation_timestamp ← now_secs clock;
  let creation_now := UNIX_EPOCH + creation_timestamp in
  insert_job job_3 (mkJob "some metadata" addr_b addr_a 1 20 creation_now creation_now true);;
  assert_count provider_rows 1;;
  assert_first provider_rows (addr_a, mkProvider "some cp" true);;
  assert_count job_rows 2;;
  assert_rows job_rows
    [(job_3, mkJob "some metadata" addr_b addr_a 1 20 creation_now creation_now true);
     (job_4, mkJob "some other metadata" addr_b addr_a 3 21 original_now original_now false)];;
  let timestamp := original_timestamp + 5 in
  let _now := UNIX_EPOCH + timestamp in
  w1 ← word job_3;
  let log := test_log [keccak256 "JobSettled(bytes32,uint256,uint256)"; w1]
    (abi_encode_pair 5 timestamp) in
  res ← try_log log;
  assert_count provider_rows 1;;
  assert_first provider_rows (addr_a, mkProvider "some cp" true);;
  e ← unwrap_err res;
  assert_eq e "could not find job";;
  assert_count job_rows 2;;
  assert_rows job_rows
    [(job_3, mkJob "some metadata" addr_b addr_a 1 20 creation_now creation_now true);
     (job_4, mkJob "some other metadata" addr_b addr_a 3 21 original_now original_now false)].

(** ** [job_closed.rs] *)

Definition test_close_job : Test unit :=
  insert_provider addr_a "some cp" true;;
  original_timestamp ← now_secs clock;
  let original_now := UNIX_EPOCH + original_timestamp in
  insert_job job_4 (mkJob "some other metadata" addr_b addr_a 3 21 original_now original_now false);;
  creation_timestamp ← now_secs clock;
  let creation_now := UNIX_EPOCH + creation_timestamp in
  insert_job job_3 (mkJob "some metadata" addr_b addr_a 1 20 creation_now creation_now false);;
  assert_count provider_rows 1;;
  assert_first provider_rows (addr_a, mkProvider "some cp" true);;
  assert_count job_rows 2;;
  assert_rows job_rows
    [(job_3, mkJob "some metadata" addr_b addr_a 1 20 creation_now creation_now false);
     (job_4, mkJob "some other metadata" addr_b addr_a 3 21 original_now original_now false)];;
  w1 ← word job_3;
  let log := test_log [keccak256 "JobClosed(bytes32)"; w1]
    [] in
  give_log log;;
  assert_count provider_rows 1;;
  assert_first provider_rows (addr_a, mkProvider "some cp" true);;
  assert_count job_rows 2;;
  assert_rows job_rows
    [(job_3, mkJob "some metadata" addr_b addr_a 1 20 creation_now creation_now true);
     (job_4, mkJob "some other metadata" addr_b addr_a 3 21 original_now original_now false)].

Definition test_close_non_existent_job : Test unit :=
  insert_provider addr_a "some cp" true;;
  original_timestamp ← now_secs clock;
  let original_now := UNIX_EPOCH + original_timestamp in
  insert_job job_4 (mkJob "some other metadata" addr_b addr_a 3 21 original_now original_now false);;
  assert_count provider_rows 1;;
  assert_first provider_rows (addr_a, mkProvider "some cp" true);;
  assert_count job_rows 1;;
  assert_rows job_rows
    [(job_4, mkJob "some other metadata" addr_b addr_a 3 21 original_now original_now false)];;
  w1 ← word job_3;
  let log := test_log [keccak256 "JobClosed(bytes32)"; w1]
    [] in
  res ← try_log log;
  assert_count provider_rows 1;;
  assert_first provider_rows (addr_a, mkProvider "some cp" true);;
  e ← unwrap_err res;
  assert_eq e "could not find job";;
  assert_count job_rows 1;;
  assert_rows job_rows
    [(job_4, mkJob "some other metadata" addr_b addr_a 3 21 original_now original_now false)].

Definition test_close_closed_job : Test unit :=
  insert_provider addr_a "some cp" true;;
  original_timestamp ← now_secs clock;
  let original_now := UNIX_EPOCH + original_timestamp in
  insert_job job_4 (mkJob "some other metadata" addr_b addr_a 3 21 original_now original_now false);;
  creation_timestamp ← now_secs clock;
  let creation_now := UNIX_EPOCH + creation_timestamp in
  insert_job job_3 (mkJob "some metadata" addr_b addr_a 1 20 creation_now creation_now true);;
  assert_count provider_rows 1;;
  assert_first provider_rows (addr_a, mkProvider "some cp" true);;
  assert_count job_rows 2;;
  assert_rows job_rows
    [(job_3, mkJob "some metadata" addr_b addr_a 1 20 creation_now creation_now true);
     (job_4, mkJob "some other metadata" addr_b addr_a 3 21 original_now original_now false)];;
  w1 ← word job_3;
  let log := test_log [keccak256 "JobClosed(bytes32)"; w1]
    [] in
  res ← try_log log;
  assert_count provider_rows 1;;
  assert_first provider_rows (addr_a, mkProvider "some cp" true);;
  e ← unwrap_err res;
  assert_eq e "could not find job";;
  assert_count job_rows 2;;
  assert_rows job_rows
    [(job_3, mkJob "some metadata" addr_b addr_a 1 20 creation_now creation_now true);
     (job_4, mkJob "some other metadata" addr_b addr_a 3 21 original_now original_now false)].

(** ** [job_deposited.rs] *)

Definition test_deposit_into_existing_job : Test unit :=
  insert_provider addr_a "some cp" true;;
  original_timestamp ← now_secs clock;
  let original_now := UNIX_EPOCH + original_timestamp in
  insert_job job_4 (mkJob "some other metadata" addr_b addr_a 3 21 original_now original_now false);;
  creation_timestamp ← now_secs clock;
  let creation_now := UNIX_EPOCH + creation_timestamp in
  insert_job job_3 (mkJob "some metadata" addr_b addr_a 1 20 creation_now creation_now false);;
  insert_transaction 123 5 (mkTransaction tx_a job_3 10 false);;
  assert_count provider_rows 1;;
  assert_first provider_rows (addr_a, mkProvider "some cp" true);;
  assert_count job_rows 2;;
  assert_rows job_rows
    [(job_3, mkJob "some metadata" addr_b addr_a 1 20 creation_now creation_now false);
     (job_4, mkJob "some other metadata" addr_b addr_a 3 21 original_now original_now false)];;
  assert_count transaction_rows 1;;
  assert_first transaction_rows ((123, 5), mkTransaction tx_a job_3 10 false);;
  w1 ← word job_3;
  w2 ← address addr_b;
  let log := test_log [keccak256 "JobDeposited(bytes32,address,uint256)"; w1; w2]
    (abi_encode_int 5) in
  give_log log;;
  assert_count provider_rows 1;;
  assert_first provider_rows (addr_a, mkProvider "some cp" true);;
  assert_count job_rows 2;;
  assert_rows job_rows
    [(job_3, mkJob "some metadata" addr_b addr_a 1 25 creation_now creation_now false);
     (job_4, mkJob "some other metadata" addr_b addr_a 3 21 original_now original_now false)];;
  assert_count transaction_rows 2;;
  assert_rows transaction_rows
    [((42, 69), mkTransaction (encode_hex_with_prefix (keccak256 "some tx")) job_3 5 true);
     ((123, 5), mkTransaction tx_a job_3 10 false)].

Definition test_deposit_into_non_existent_job : Test unit :=
  insert_provider addr_a "some cp" true;;
  original_timestamp ← now_secs clock;
  let original_now := UNIX_EPOCH + original_timestamp in
  insert_job job_4 (mkJob "some other metadata" addr_b addr_a 3 21 original_now original_now false);;
  insert_transaction 123 5 (mkTransaction tx_a job_4 10 false);;
  assert_count provider_rows 1;;
  assert_first provider_rows (addr_a, mkProvider "some cp" true);;
  assert_count job_rows 1;;
  assert_rows job_rows
    [(job_4, mkJob "some other metadata" addr_b addr_a 3 21 original_now original_now false)];;
  assert_count transaction_rows 1;;
  assert_first transaction_rows ((123, 5), mkTransaction tx_a job_4 10 false);;
  w1 ← word job_3;
  w2 ← address addr_b;
  let log := test_log [keccak256 "JobDeposited(bytes32,address,uint256)"; w1; w2]
    (abi_encode_int 5) in
  res ← try_log log;
  assert_count provider_rows 1;;
  assert_first provider_rows (addr_a, mkProvider "some cp" true);;
  e ← unwrap_err res;
  assert_eq e "could not find job";;
  assert_count job_rows 1;;
  assert_rows job_rows
    [(job_4, mkJob "some other metadata" addr_b addr_a 3 21 original_now original_now false)];;
  assert_count transaction_rows 1;;
  assert_first transaction_rows ((123, 5), mkTransaction tx_a job_4 10 false).

Definition test_deposit_into_closed_job : Test unit :=
  insert_provider addr_a "some cp" true;;
  original_timestamp ← now_secs clock;
  let original_now := UNIX_EPOCH + original_timestamp in
  insert_job job_4 (mkJob "some other metadata" addr_b addr_a 3 21 original_now original_now false);;
  creation_timestamp ← now_secs clock;
  let creation_now := UNIX_EPOCH + creation_timestamp in
  insert_job job_3 (mkJob "some metadata" addr_b addr_a 1 20 creation_now creation_now true);;
  insert_transaction 123 5 (mkTransaction tx_a job_3 10 false);;
  assert_count provider_rows 1;;
  assert_first provider_rows (addr_a, mkProvider "some cp" true);;
  assert_count job_rows 2;;
  assert_rows job_rows
    [(job_3, mkJob "some metadata" addr_b addr_a 1 20 creation_now creation_now true);
     (job_4, mkJob "some other metadata" addr_b addr_a 3 21 original_now original_now false)];;
  assert_count transaction_rows 1;;
  assert_first transaction_rows ((123, 5), mkTransaction tx_a job_3 10 false);;
  w1 ← word job_3;
  w2 ← address addr_b;
  let log := test_log [keccak256 "JobDeposited(bytes32,address,uint256)"; w1; w2]
    (abi_encode_int 5) in
  res ← try_log log;
  assert_count provider_rows 1;;
  assert_first provider_rows (addr_a, mkProvider "some cp" true);;
  e ← unwrap_err res;
  assert_eq e "could not find job";;
  assert_count job_rows 2;;
  assert_rows job_rows
    [(job_3, mkJob "some metadata" addr_b addr_a 1 20 creation_now creation_now true);
     (job_4, mkJob "some other metadata" addr_b addr_a 3 21 original_now original_now false)];;
  assert_count transaction_rows 1;;
  assert_first transaction_rows ((123, 5), mkTransaction tx_a job_3 10 false).

(** ** [job_withdrew.rs] *)

Definition test_withdraw_from_existing_job : Test unit :=
  insert_provider addr_a "some cp" true;;
  original_timestamp ← now_secs clock;
  let original_now := UNIX_EPOCH + original_timestamp in
  insert_job job_4 (mkJob "some other metadata" addr_b addr_a 3 21 original_now original_now false);;
  creation_timestamp ← now_secs clock;
  let creation_now := UNIX_EPOCH + creation_timestamp in
  insert_job job_3 (mkJob "some metadata" addr_b addr_a 1 20 creation_now creation_now false);;
  insert_transaction 123 5 (mkTransaction tx_a job_3 10 true);;
  assert_count provider_rows 1;;
  assert_first provider_rows (addr_a, mkProvider "some cp" true);;
  assert_count job_rows 2;;
  assert_rows job_rows
    [(job_3, mkJob "some metadata" addr_b addr_a 1 20 creation_now creation_now false);
     (job_4, mkJob "some other metadata" addr_b addr_a 3 21 original_now original_now false)];;
  assert_count transaction_rows 1;;
  assert_first transaction_rows ((123, 5), mkTransaction tx_a job_3 10 true);;
  w1 ← word job_3;
  w2 ← address addr_b;
  let log := test_log [keccak256 "JobWithdrew(bytes32,address,uint256)"; w1; w2]
    (abi_encode_int 5) in
  give_log log;;
  assert_count provider_rows 1;;
  assert_first provider_rows (addr_a, mkProvider "some cp" true);;
  assert_count job_rows 2;;
  assert_rows job_rows
    [(job_3, mkJob "some metadata" addr_b addr_a 1 15 creation_now creation_now false);
     (job_4, mkJob "some other metadata" addr_b addr_a 3 21 original_now original_now false)];;
  assert_count transaction_rows 2;;
  assert_rows transaction_rows
    [((42, 69), mkTransaction (encode_hex_with_prefix (keccak256 "some tx")) job_3 5 false);
     ((123, 5), mkTransaction tx_a job_3 10 true)].

Definition test_withdraw_from_non_existent_job : Test unit :=
  insert_provider addr_a "some cp" true;;
  original_timestamp ← now_secs clock;
  let original_now := UNIX_EPOCH + original_timestamp in
  insert_job job_4 (mkJob "some other metadata" addr_b addr_a 3 21 original_now original_now false);;
  insert_transaction 123 5 (mkTransaction tx_a job_4 10 true);;
  assert_count provider_rows 1;;
  assert_first provider_rows (addr_a, mkProvider "some cp" true);;
  assert_count job_rows 1;;
  assert_rows job_rows
    [(job_4, mkJob "some other metadata" addr_b addr_a 3 21 original_now original_now false)];;
  assert_count transaction_rows 1;;
  assert_first transaction_rows ((123, 5), mkTransaction tx_a job_4 10 true);;
  w1 ← word job_3;
  w2 ← address addr_b;
  let log := test_log [keccak256 "JobWithdrew(bytes32,address,uint256)"; w1; w2]
    (abi_encode_int 5) in
  res ← try_log log;
  assert_count provider_rows 1;;
  assert_first provider_rows (addr_a, mkProvider "some cp" true);;
  e ← unwrap_err res;
  assert_eq e "could not find job";;
  assert_count job_rows 1;;
  assert_rows job_rows
    [(job_4, mkJob "some other metadata" addr_b addr_a 3 21 original_now original_now false)];;
  assert_count transaction_rows 1;;
  assert_first transaction_rows ((123, 5), mkTransaction tx_a job_4 10 true).

Definition test_withdraw_from_closed_job : Test unit :=
  insert_provider addr_a "some cp" true;;
  original_timestamp ← now_secs clock;
  let original_now := UNIX_EPOCH + original_timestamp in
  insert_job job_4 (mkJob "some other metadata" addr_b addr_a 3 21 original_now original_now false);;
  creation_timestamp ← now_secs clock;
  let creation_now := UNIX_EPOCH + creation_timestamp in
  insert_job job_3 (mkJob "some metadata" addr_b addr_a 1 20 creation_now creation_now true);;
  insert_transaction 123 5 (mkTransaction tx_a job_3 10 true);;
  assert_count provider_rows 1;;
  assert_first provider_rows (addr_a, mkProvider "some cp" true);;
  assert_count job_rows 2;;
  assert_rows job_rows
    [(job_3, mkJob "some metadata" addr_b addr_a 1 20 creation_now creation_now true);
     (job_4, mkJob "some other metadata" addr_b addr_a 3 21 original_now original_now false)];;
  assert_count transaction_rows 1;;
  assert_first transaction_rows ((123, 5), mkTransaction tx_a job_3 10 true);;
  w1 ← word job_3;
  w2 ← address addr_b;
  let log := test_log [keccak256 "JobWithdrew(bytes32,address,uint256)"; w1; w2]
    (abi_encode_int 5) in
  res ← try_log log;
  assert_count provider_rows 1;;
  assert_first provider_rows (addr_a, mkProvider "some cp" true);;
  e ← unwrap_err res;
  assert_eq e "could not find job";;
  assert_count job_rows 2;;
  assert_rows job_rows
    [(job_3, mkJob "some metadata" addr_b addr_a 1 20 creation_now creation_now true);
     (job_4, mkJob "some other metadata" addr_b addr_a 3 21 original_now original_now false)];;
  assert_count transaction_rows 1;;
  assert_first transaction_rows ((123, 5), mkTransaction tx_a job_3 10 true).

(** ** [job_revise_rate_finalized.rs] *)

Definition test_revise_rate_finalized : Test unit :=
  insert_provider addr_a "some cp" true;;
  original_timestamp ← now_secs clock;
  let original_now := UNIX_EPOCH + original_timestamp in
  insert_job job_4 (mkJob "some other metadata" addr_b addr_a 3 21 original_now original_now false);;
  creation_timestamp ← now_secs clock;
  let creation_now := UNIX_EPOCH + creation_timestamp in
  insert_job job_3 (mkJob "some metadata" addr_b addr_a 1 20 creation_now creation_now false);;
  assert_count provider_rows 1;;
  assert_first provider_rows (addr_a, mkProvider "some cp" true);;
  assert_count job_rows 2;;
  assert_rows job_rows
    [(job_3, mkJob "some metadata" addr_b addr_a 1 20 creation_now creation_now false);
     (job_4, mkJob "some other metadata" addr_b addr_a 3 21 original_now original_now false)];;
  w1 ← word job_3;
  let log := test_log [keccak256 "JobReviseRateFinalized(bytes32,uint256)"; w1]
    (abi_encode_int 5) in
  give_log log;;
  assert_count provider_rows 1;;
  assert_first provider_rows (addr_a, mkProvider "some cp" true);;
  assert_count job_rows 2;;
  assert_rows job_rows
    [(job_3, mkJob "some metadata" addr_b addr_a 5 20 creation_now creation_now false);
     (job_4, mkJob "some other metadata" addr_b addr_a 3 21 original_now original_now false)].

Definition test_revise_rate_finalized_for_non_existent_job : Test unit :=
  insert_provider addr_a "some cp" true;;
  original_timestamp ← now_secs clock;
  let original_now := UNIX_EPOCH + original_timestamp in
  insert_job job_4 (mkJob "some other metadata" addr_b addr_a 3 21 original_now original_now false);;
  assert_count provider_rows 1;;
  assert_first provider_rows (addr_a, mkProvider "some cp" true);;
  assert_count job_rows 1;;
  assert_rows job_rows
    [(job_4, mkJob "some other metadata" addr_b addr_a 3 21 original_now original_now false)];;
  w1 ← word job_3;
  let log := test_log [keccak256 "JobReviseRateFinalized(bytes32,uint256)"; w1]
    (abi_encode_int 5) in
  res ← try_log log;
  assert_count provider_rows 1;;
  assert_first provider_rows (addr_a, mkProvider "some cp" true);;
  e ← unwrap_err res;
  assert_eq e "could not find job";;
  assert_count job_rows 1;;
  assert_rows job_rows
    [(job_4, mkJob "some other metadata" addr_b addr_a 3 21 original_now original_now false)].

Definition test_revise_rate_finalized_on_closed_job : Test unit :=
  insert_provider addr_a "some cp" true;;
  original_timestamp ← now_secs clock;
  let original_now := UNIX_EPOCH + original_timestamp in
  insert_job job_4 (mkJob "some other metadata" addr_b addr_a 3 21 original_now original_now false);;
  creation_timestamp ← now_secs clock;
  let creation_now := UNIX_EPOCH + creation_timestamp in
  insert_job job_3 (mkJob "some metadata" addr_b addr_a 1 20 creation_now creation_now true);;
  assert_count provider_rows 1;;
  assert_first provider_rows (addr_a, mkProvider "some cp" true);;
  assert_count job_rows 2;;
  assert_rows job_rows
    [(job_3, mkJob "some metadata" addr_b addr_a 1 20 creation_now creation_now true);
     (job_4, mkJob "some other metadata" addr_b addr_a 3 21 original_now original_now false)];;
  w1 ← word job_3;
  let log := test_log [keccak256 "JobReviseRateFinalized(bytes32,uint256)"; w1]
    (abi_encode_int 5) in
  res ← try_log log;
  assert_count provider_rows 1;;
  assert_first provider_rows (addr_a, mkProvider "some cp" true);;
  e ← unwrap_err res;
  assert_eq e "could not find job";;
  assert_count job_rows 2;;
  assert_rows job_rows
    [(job_3, mkJob "some metadata" addr_b addr_a 1 20 creation_now creation_now true);
     (job_4, mkJob "some other metadata" addr_b addr_a 3 21 original_now original_now false)].

(** ** [job_metadata_updated.rs] *)

Definition test_job_metadata_update : Test unit :=
  insert_provider addr_a "some cp" true;;
  original_timestamp ← now_secs clock;
  let original_now := UNIX_EPOCH + original_timestamp in
  insert_job job_4 (mkJob "some other metadata" addr_b addr_a 3 21 original_now original_now false);;
  creation_timestamp ← now_secs clock;
  let creation_now := UNIX_EPOCH + creation_timestamp in
  insert_job job_3 (mkJob "some metadata" addr_b addr_a 1 20 creation_now creation_now false);;
  assert_count provider_rows 1;;
  assert_first provider_rows (addr_a, mkProvider "some cp" true);;
  assert_count job_rows 2;;
  assert_rows job_rows
    [(job_3, mkJob "some metadata" addr_b addr_a 1 20 creation_now creation_now false);
     (job_4, mkJob "some other metadata" addr_b addr_a 3 21 original_now original_now false)];;
  w1 ← word job_3;
  let log := test_log [keccak256 "JobMetadataUpdated(bytes32,string)"; w1]
    (abi_encode_str "some random metadata") in
  give_log log;;
  assert_count provider_rows 1;;
  assert_first provider_rows (addr_a, mkProvider "some cp" true);;
  assert_count job_rows 2;;
  assert_rows job_rows
    [(job_3, mkJob "some random metadata" addr_b addr_a 1 20 creation_now creation_now false);
     (job_4, mkJob "some other metadata" addr_b addr_a 3 21 original_now original_now false)].

Definition test_job_metadata_update_for_non_existent_job : Test unit :=
  insert_provider addr_a "some cp" true;;
  original_timestamp ← now_secs clock;
  let original_now := UNIX_EPOCH + original_timestamp in
  insert_job job_4 (mkJob "some other metadata" addr_b addr_a 3 21 original_now original_now false);;
  assert_count provider_rows 1;;
  assert_first provider_rows (addr_a, mkProvider "some cp" true);;
  assert_count job_rows 1;;
  assert_rows job_rows
    [(job_4, mkJob "some other metadata" addr_b addr_a 3 21 original_now original_now false)];;
  w1 ← word job_3;
  let log := test_log [keccak256 "JobMetadataUpdated(bytes32,string)"; w1]
    (abi_encode_str "some random metadata") in
  res ← try_log log;
  assert_count provider_rows 1;;
  assert_first provider_rows (addr_a, mkProvider "some cp" true);;
  e ← unwrap_err res;
  assert_eq e "could not find job";;
  assert_count job_rows 1;;
  assert_rows job_rows
    [(job_4, mkJob "some other metadata" addr_b addr_a 3 21 original_now original_now false)].

Definition test_job_metadata_update_for_closed_job : Test unit :=
  insert_provider addr_a "some cp" true;;
  original_timestamp ← now_secs clock;
  let original_now := UNIX_EPOCH + original_timestamp in
  insert_job job_4 (mkJob "some other metadata" addr_b addr_a 3 21 original_now original_now false);;
  creation_timestamp ← now_secs clock;
  let creation_now := UNIX_EPOCH + creation_timestamp in
  insert_job job_3 (mkJob "some metadata" addr_b addr_a 1 20 creation_now creation_now true);;
  assert_count provider_rows 1;;
  assert_first provider_rows (addr_a, mkProvider "some cp" true);;
  assert_count job_rows 2;;
  assert_rows job_rows
    [(job_3, mkJob "some metadata" addr_b addr_a 1 20 creation_now creation_now true);
     (job_4, mkJob "some other metadata" addr_b addr_a 3 21 original_now original_now false)];;
  w1 ← word job_3;
  let log := test_log [keccak256 "JobMetadataUpdated(bytes32,string)"; w1]
    (abi_encode_str "some random metadata") in
  res ← try_log log;
  assert_count provider_rows 1;;
  assert_first provider_rows (addr_a, mkProvider "some cp" true);;
  e ← unwrap_err res;
  assert_eq e "could not find job";;
  assert_count job_rows 2;;
  assert_rows job_rows
    [(job_3, mkJob "some metadata" addr_b addr_a 1 20 creation_now creation_now true);
     (job_4, mkJob "some other metadata" addr_b addr_a 3 21 original_now original_now false)].

(** ** [lock_created.rs] *)

Definition test_rate_lock : Test unit :=
  insert_provider addr_a "some cp" true;;
  original_timestamp ← now_secs clock;
  let original_now := UNIX_EPOCH + original_timestamp in
  insert_job job_4 (mkJob "some other metadata" addr_b addr_a 3 21 original_now original_now false);;
  creation_timestamp ← now_secs clock;
  let creation_now := UNIX_EPOCH + creation_timestamp in
  insert_job job_3 (mkJob "some metadata" addr_b addr_a 1 20 creation_now creation_now false);;
  let revise_now := original_now + 300 in
  insert_request job_4 (mkRequest 2 revise_now);;
  assert_count provider_rows 1;;
  assert_first provider_rows (addr_a, mkProvider "some cp" true);;
  assert_count job_rows 2;;
  assert_rows job_rows
    [(job_3, mkJob "some metadata" addr_b addr_a 1 20 creation_now creation_now false);
     (job_4, mkJob "some other metadata" addr_b addr_a 3 21 original_now original_now false)];;
  assert_count request_rows 1;;
  assert_rows request_rows
    [(job_4, mkRequest 2 revise_now)];;
  w1 ← word job_3;
  let log := test_log
    [keccak256 "LockCreated(bytes32,bytes32,uint256,uint256)"; RATE_LOCK_SELECTOR; w1]
    (abi_encode_pair 5 (creation_timestamp + 600)) in
  give_log log;;
  assert_count provider_rows 1;;
  assert_first provider_rows (addr_a, mkProvider "some cp" true);;
  assert_count job_rows 2;;
  assert_rows job_rows
    [(job_3, mkJob "some metadata" addr_b addr_a 1 20 creation_now creation_now false);
     (job_4, mkJob "some other metadata" addr_b addr_a 3 21 original_now original_now false)];;
  assert_count request_rows 2;;
  assert_rows request_rows
    [(job_3, mkRequest 5 (creation_now + 600));
     (job_4, mkRequest 2 revise_now)].

Definition test_rate_lock_when_it_already_exists : Test unit :=
  insert_provider addr_a "some cp" true;;
  original_timestamp ← now_secs clock;
  let original_now := UNIX_EPOCH + original_timestamp in
  insert_job job_4 (mkJob "some other metadata" addr_b addr_a 3 21 original_now original_now false);;
  creation_timestamp ← now_secs clock;
  let creation_now := UNIX_EPOCH + creation_timestamp in
  insert_job job_3 (mkJob "some metadata" addr_b addr_a 1 20 creation_now creation_now false);;
  let revise_now := original_now + 300 in
  insert_request job_4 (mkRequest 2 revise_now);;
  insert_request job_3 (mkRequest 5 (creation_now + 600));;
  assert_count provider_rows 1;;
  assert_first provider_rows (addr_a, mkProvider "some cp" true);;
  assert_count job_rows 2;;
  assert_rows job_rows
    [(job_3, mkJob "some metadata" addr_b addr_a 1 20 creation_now creation_now false);
     (job_4, mkJob "some other metadata" addr_b addr_a 3 21 original_now original_now false)];;
  assert_count request_rows 2;;
  assert_rows request_rows
    [(job_3, mkRequest 5 (creation_now + 600));
     (job_4, mkRequest 2 revise_now)];;
  w1 ← word job_3;
  let log := test_log
    [keccak256 "LockCreated(bytes32,bytes32,uint256,uint256)"; RATE_LOCK_SELECTOR; w1]
    (abi_encode_pair 5 (creation_timestamp + 600)) in
  res ← try_log log;
  assert_count provider_rows 1;;
  assert_first provider_rows (addr_a, mkProvider "some cp" true);;
  assert_count job_rows 2;;
  assert_rows job_rows
    [(job_3, mkJob "some metadata" addr_b addr_a 1 20 creation_now creation_now false);
     (job_4, mkJob "some other metadata" addr_b addr_a 3 21 original_now original_now false)];;
  e ← unwrap_err res;
  assert_eq e
    (error_context "failed to create revise rate request"
       (unique_violation "revise_rate_requests_pkey"));;
  assert_count request_rows 2;;
  assert_rows request_rows
    [(job_3, mkRequest 5 (creation_now + 600));
     (job_4, mkRequest 2 revise_now)].

Definition test_other_locks : Test unit :=
  insert_provider addr_a "some cp" true;;
  original_timestamp ← now_secs clock;
  let original_now := UNIX_EPOCH + original_timestamp in
  insert_job job_4 (mkJob "some other metadata" addr_b addr_a 3 21 original_now original_now false);;
  creation_timestamp ← now_secs clock;
  let creation_now := UNIX_EPOCH + creation_timestamp in
  insert_job job_3 (mkJob "some metadata" addr_b addr_a 1 20 creation_now creation_now false);;
  let revise_now := original_now + 300 in
  insert_request job_4 (mkRequest 2 revise_now);;
  assert_count provider_rows 1;;
  assert_first provider_rows (addr_a, mkProvider "some cp" true);;
  assert_count job_rows 2;;
  assert_rows job_rows
    [(job_3, mkJob "some metadata" addr_b addr_a 1 20 creation_now creation_now false);
     (job_4, mkJob "some other metadata" addr_b addr_a 3 21 original_now original_now false)];;
  assert_count request_rows 1;;
  assert_rows request_rows
    [(job_4, mkRequest 2 revise_now)];;
  w1 ← word job_3;
  let log := test_log
    [keccak256 "LockCreated(bytes32,bytes32,uint256,uint256)"; keccak256 "OTHER_LOCK"; w1]
    (abi_encode_pair 5 (creation_timestamp + 600)) in
  give_log log;;
  assert_count provider_rows 1;;
  assert_first provider_rows (addr_a, mkProvider "some cp" true);;
  assert_count job_rows 2;;
  assert_rows job_rows
    [(job_3, mkJob "some metadata" addr_b addr_a 1 20 creation_now creation_now false);
     (job_4, mkJob "some other metadata" addr_b addr_a 3 21 original_now original_now false)];;
  assert_count request_rows 1;;
  assert_rows request_rows
    [(job_4, mkRequest 2 revise_now)].

Definition test_rate_lock_for_non_existent_job : Test unit :=
  insert_provider addr_a "some cp" true;;
  original_timestamp ← now_secs clock;
  let original_now := UNIX_EPOCH + original_timestamp in
  insert_job job_4 (mkJob "some other metadata" addr_b addr_a 3 21 original_now original_now false);;
  creation_timestamp ← now_secs clock;
  let _creation_now := UNIX_EPOCH + creation_timestamp in
  let revise_now := original_now + 300 in
  insert_request job_4 (mkRequest 2 revise_now);;
  assert_count provider_rows 1;;
  assert_first provider_rows (addr_a, mkProvider "some cp" true);;
  assert_count job_rows 1;;
  assert_rows job_rows
    [(job_4, mkJob "some other metadata" addr_b addr_a 3 21 original_now original_now false)];;
  assert_count request_rows 1;;
  assert_rows request_rows
    [(job_4, mkRequest 2 revise_now)];;
  w1 ← word job_3;
  let log := test_log
    [keccak256 "LockCreated(bytes32,bytes32,uint256,uint256)"; RATE_LOCK_SELECTOR; w1]
    (abi_encode_pair 5 (creation_timestamp + 600)) in
  res ← try_log log;
  assert_count provider_rows 1;;
  assert_first provider_rows (addr_a, mkProvider "some cp" true);;
  assert_count job_rows 1;;
  assert_rows job_rows
    [(job_4, mkJob "some other metadata" addr_b addr_a 3 21 original_now original_now false)];;
  e ← unwrap_err res;
  assert_eq e "did not expect to find a non existent request or closed job";;
  assert_count request_rows 1;;
  assert_rows request_rows
    [(job_4, mkRequest 2 revise_now)].

Definition test_rate_lock_for_closed_job : Test unit :=
  insert_provider addr_a "some cp" true;;
  original_timestamp ← now_secs clock;
  let original_now := UNIX_EPOCH + original_timestamp in
  insert_job job_4 (mkJob "some other metadata" addr_b addr_a 3 21 original_now original_now false);;
  creation_timestamp ← now_secs clock;
  let creation_now := UNIX_EPOCH + creation_timestamp in
  insert_job job_3 (mkJob "some metadata" addr_b addr_a 1 20 creation_now creation_now true);;
  let revise_now := original_now + 300 in
  insert_request job_4 (mkRequest 2 revise_now);;
  assert_count provider_rows 1;;
  assert_first provider_rows (addr_a, mkProvider "some cp" true);;
  assert_count job_rows 2;;
  assert_rows job_rows
    [(job_3, mkJob "some metadata" addr_b addr_a 1 20 creation_now creation_now true);
     (job_4, mkJob "some other metadata" addr_b addr_a 3 21 original_now original_now false)];;
  assert_count request_rows 1;;
  assert_rows request_rows
    [(job_4, mkRequest 2 revise_now)];;
  w1 ← word job_3;
  let log := test_log
    [keccak256 "LockCreated(bytes32,bytes32,uint256,uint256)"; RATE_LOCK_SELECTOR; w1]
    (abi_encode_pair 5 (creation_timestamp + 600)) in
  res ← try_log log;
  assert_count provider_rows 1;;
  assert_first provider_rows (addr_a, mkProvider "some cp" true);;
  assert_count job_rows 2;;
  assert_rows job_rows
    [(job_3, mkJob "some metadata" addr_b addr_a 1 20 creation_now creation_now true);
     (job_4, mkJob "some other metadata" addr_b addr_a 3 21 original_now original_now false)];;
  e ← unwrap_err res;
  assert_eq e "did not expect to find a non existent request or closed job";;
  assert_count request_rows 1;;
  assert_rows request_rows
    [(job_4, mkRequest 2 revise_now)].

(** ** [lock_deleted.rs] *)

Definition test_delete_lock : Test unit :=
  insert_provider addr_a "some cp" true;;
  original_timestamp ← now_secs clock;
  let original_now := UNIX_EPOCH + original_timestamp in
  insert_job job_4 (mkJob "some other metadata" addr_b addr_a 3 21 original_now original_now false);;
  creation_timestamp ← now_secs clock;
  let creation_now := UNIX_EPOCH + creation_timestamp in
  insert_job job_3 (mkJob "some metadata" addr_b addr_a 1 20 creation_now creation_now false);;
  let revise_now := original_now + 300 in
  insert_request job_4 (mkRequest 2 revise_now);;
  insert_request job_3 (mkRequest 5 (creation_now + 600));;
  assert_count provider_rows 1;;
  assert_first provider_rows (addr_a, mkProvider "some cp" true);;
  assert_count job_rows 2;;
  assert_rows job_rows
    [(job_3, mkJob "some metadata" addr_b addr_a 1 20 creation_now creation_now false);
     (job_4, mkJob "some other metadata" addr_b addr_a 3 21 original_now original_now false)];;
  assert_count request_rows 2;;
  assert_rows request_rows
    [(job_3, mkRequest 5 (creation_now + 600));
     (job_4, mkRequest 2 revise_now)];;
  w1 ← word job_3;
  let log := test_log [keccak256 "LockDeleted(bytes32,bytes32,uint256)"; RATE_LOCK_SELECTOR; w1]
    (abi_encode_int 5) in
  give_log log;;
  assert_count provider_rows 1;;
  assert_first provider_rows (addr_a, mkProvider "some cp" true);;
  assert_count job_rows 2;;
  assert_rows job_rows
    [(job_3, mkJob "some metadata" addr_b addr_a 1 20 creation_now creation_now false);
     (job_4, mkJob "some other metadata" addr_b addr_a 3 21 original_now original_now false)];;
  assert_count request_rows 1;;
  assert_rows request_rows
    [(job_4, mkRequest 2 revise_now)].

Definition test_delete_lock_when_it_does_not_exist : Test unit :=
  insert_provider addr_a "some cp" true;;
  original_timestamp ← now_secs clock;
  let original_now := UNIX_EPOCH + original_timestamp in
  insert_job job_4 (mkJob "some other metadata" addr_b addr_a 3 21 original_now original_now false);;
  creation_timestamp ← now_secs clock;
  let creation_now := UNIX_EPOCH + creation_timestamp in
  insert_job job_3 (mkJob "some metadata" addr_b addr_a 1 20 creation_now creation_now false);;
  let revise_now := original_now + 300 in
  insert_request job_4 (mkRequest 2 revise_now);;
  assert_count provider_rows 1;;
  assert_first provider_rows (addr_a, mkProvider "some cp" true);;
  assert_count job_rows 2;;
  assert_rows job_rows
    [(job_3, mkJob "some metadata" addr_b addr_a 1 20 creation_now creation_now false);
     (job_4, mkJob "some other metadata" addr_b addr_a 3 21 original_now original_now false)];;
  assert_count request_rows 1;;
  assert_rows request_rows
    [(job_4, mkRequest 2 revise_now)];;
  w1 ← word job_3;
  let log := test_log [keccak256 "LockDeleted(bytes32,bytes32,uint256)"; RATE_LOCK_SELECTOR; w1]
    (abi_encode_int 5) in
  give_log log;;
  assert_count provider_rows 1;;
  assert_first provider_rows (addr_a, mkProvider "some cp" true);;
  assert_count job_rows 2;;
  assert_rows job_rows
    [(job_3, mkJob "some metadata" addr_b addr_a 1 20 creation_now creation_now false);
     (job_4, mkJob "some other metadata" addr_b addr_a 3 21 original_now original_now false)];;
  assert_count request_rows 1;;
  assert_rows request_rows
    [(job_4, mkRequest 2 revise_now)].

Definition test_other_lock : Test unit :=
  insert_provider addr_a "some cp" true;;
  original_timestamp ← now_secs clock;
  let original_now := UNIX_EPOCH + original_timestamp in
  insert_job job_4 (mkJob "some other metadata" addr_b addr_a 3 21 original_now original_now false);;
  creation_timestamp ← now_secs clock;
  let creation_now := UNIX_EPOCH + creation_timestamp in
  insert_job job_3 (mkJob "some metadata" addr_b addr_a 1 20 creation_now creation_now false);;
  let revise_now := original_now + 300 in
  insert_request job_4 (mkRequest 2 revise_now);;
  insert_request job_3 (mkRequest 5 (creation_now + 600));;
  assert_count provider_rows 1;;
  assert_first provider_rows (addr_a, mkProvider "some cp" true);;
  assert_count job_rows 2;;
  assert_rows job_rows
    [(job_3, mkJob "some metadata" addr_b addr_a 1 20 creation_now creation_now false);
     (job_4, mkJob "some other metadata" addr_b addr_a 3 21 original_now original_now false)];;
  assert_count request_rows 2;;
  assert_rows request_rows
    [(job_3, mkRequest 5 (creation_now + 600));
     (job_4, mkRequest 2 revise_now)];;
  w1 ← word job_3;
  let log := test_log [keccak256 "LockDeleted(bytes32,bytes32,uint256)"; keccak256 "OTHER_LOCK"; w1]
    (abi_encode_int 5) in
  give_log log;;
  assert_count provider_rows 1;;
  assert_first provider_rows (addr_a, mkProvider "some cp" true);;
  assert_count job_rows 2;;
  assert_rows job_rows
    [(job_3, mkJob "some metadata" addr_b addr_a 1 20 creation_now creation_now false);
     (job_4, mkJob "some other metadata" addr_b addr_a 3 21 original_now original_now false)];;
  assert_count request_rows 2;;
  assert_rows request_rows
    [(job_3, mkRequest 5 (creation_now + 600));
     (job_4, mkRequest 2 revise_now)].

(** ** The suite *)

Definition provider_added_tests : list (Test unit) :=
  [test_add_new_provider_in_empty_db;
   test_add_new_provider_in_populated_db;
   test_add_new_provider_when_it_already_exists;
   test_add_new_provider_when_it_is_inactive].
Definition provider_removed_tests : list (Test unit) :=
  [test_remove_existing_provider;
   test_remove_nonexistent_provider;
   test_remove_inactive_provider].
Definition provider_updated_with_cp_tests : list (Test unit) :=
  [test_change_cp_of_existing_provider;
   test_change_cp_of_existing_provider_with_same_value;
   test_change_cp_of_nonexistent_provider;
   test_change_cp_of_inactive_provider].
Definition job_opened_tests : list (Test unit) :=
  [test_create_new_job_in_empty_db;
   test_create_new_job_in_populated_db;
   test_create_new_job_when_it_already_exists].
Definition job_settled_tests : list (Test unit) :=
  [test_settle_existing_job;
   test_settle_existing_job_with_zero_amount;
   test_settle_non_existent_job;
   test_settle_closed_job].
Definition job_closed_tests : list (Test unit) :=
  [test_close_job;
   test_close_non_existent_job;
   test_close_closed_job].
Definition job_deposited_tests : list (Test unit) :=
  [test_deposit_into_existing_job;
   test_deposit_into_non_existent_job;
   test_deposit_into_closed_job].
Definition job_withdrew_tests : list (Test unit) :=
  [test_withdraw_from_existing_job;
   test_withdraw_from_non_existent_job;
   test_withdraw_from_closed_job].
Definition job_revise_rate_finalized_tests : list (Test unit) :=
  [test_revise_rate_finalized;
   test_revise_rate_finalized_for_non_existent_job;
   test_revise_rate_finalized_on_closed_job].
Definition job_metadata_updated_tests : list (Test unit) :=
  [test_job_metadata_update;
   test_job_metadata_update_for_non_existent_job;
   test_job_metadata_update_for_closed_job].
Definition lock_created_tests : list (Test unit) :=
  [test_rate_lock;
   test_rate_lock_when_it_already_exists;
   test_other_locks;
   test_rate_lock_for_non_existent_job;
   test_rate_lock_for_closed_job].
Definition lock_deleted_tests : list (Test unit) :=
  [test_delete_lock;
   test_delete_lock_when_it_does_not_exist;
   test_other_lock].

Definition indexer_tests : list (Test unit) :=
  provider_added_tests ++
  provider_removed_tests ++
  provider_updated_with_cp_tests ++
  job_opened_tests ++
  job_settled_tests ++
  job_closed_tests ++
  job_deposited_tests ++
  job_withdrew_tests ++
  job_revise_rate_finalized_tests ++
  job_metadata_updated_tests ++
  lock_created_tests ++
  lock_deleted_tests.

End tests.
