(* ===== verification/IndexerTestsProps.v ===== *)
(** * Indexer: the handlers pass their unit tests

    Every test of [IndexerTests] passes, for every codec with the documented
    round trips and distinct event hashes ([TestCodecLaws]), a server that
    refuses no valid statement, and every behaviour of the clock.  The tests
    are run symbolically: [run_test] evaluates one step of a test at a time,
    a log through the event it denotes ([handle_log_on_autocommit]). *)

From S2P Require Import Prelude Chain Keccak IndexerDb IndexerHandlers IndexerSpec IndexerTestbed IndexerTests.

(** ** What the tests rely on in the codecs *)

Definition event_signatures : list string :=
  ["ProviderAdded(address,string)"; "ProviderRemoved(address)";
   "ProviderUpdatedWithCp(address,string)";
   "JobOpened(bytes32,string,address,address,uint256,uint256,uint256)";
   "JobSettled(bytes32,uint256,uint256)"; "JobClosed(bytes32)";
   "JobDeposited(bytes32,address,uint256)"; "JobWithdrew(bytes32,address,uint256)";
   "JobReviseRateInitiated(bytes32,uint256)"; "JobReviseRateCancelled(bytes32)";
   "JobReviseRateFinalized(bytes32,uint256)"; "JobMetadataUpdated(bytes32,string)";
   "LockCreated(bytes32,bytes32,uint256,uint256)"; "LockDeleted(bytes32,bytes32,uint256)"].

Class TestCodecLaws {C : ChainApi} {T : TestCodec} : Prop := {
  selectors_distinct : NoDup (keccak256 <$> event_signatures);
  lock_names_distinct : keccak256 "OTHER_LOCK" <> keccak256 "RATE_LOCK";
  word_printed s : canonical_word s = true ->
    exists w, parse_word s = Some w /\ encode_hex_with_prefix w = s;
  address_printed s : s ∈ [addr_a; addr_b; addr_7] ->
    exists w, parse_address s = Some w /\ checksum_address w = s;
  int_decoded n : 0 <= n <= u64_MAX -> abi_decode_u256 (abi_encode_int n) = Some n;
  pair_decoded a b : 0 <= a <= u64_MAX -> 0 <= b <= u64_MAX ->
    abi_decode_u256_pair (abi_encode_pair a b) = Some (a, b);
  str_decoded s : Z.of_nat (String.length s) <= u64_MAX -> abi_decode_string (abi_encode_str s) = Some s;
  opened_decoded s a b c : Z.of_nat (String.length s) <= u64_MAX ->
    0 <= a <= u64_MAX -> 0 <= b <= u64_MAX -> 0 <= c <= u64_MAX ->
    abi_decode_opened (abi_encode_opened s a b c) = Some (s, a, b, c)
}.

(** ** Running a test *)

#[export] Instance willing : Postgres := {| accepts _ := true; refusal _ := EmptyString |}.

Section running.
Context {C : ChainApi} {T : TestCodec} {P : Postgres}.

Definition reaches (t : Test unit) (b : Bed) : Prop := exists b', t b = Some (tt, b').

(** The state after a step, left unevaluated: only the rows that a test
    asserts are computed. *)
Definition next (m : Test unit) (b : Bed) : Bed :=
  match m b with Some (_, b') => b' | None => b end.
Definition succeeds (m : Test unit) (b : Bed) : bool :=
  match m b with Some _ => true | None => false end.

Lemma reaches_bind {A} (m : Test A) (k : A -> Test unit) b x b' :
  m b = Some (x, b') -> reaches (k x) b' -> reaches (m ≫= k) b.
Proof. unfold reaches, mbind, Test_bind. by intros ->. Qed.

Lemma reaches_last (m : Test unit) b b' : m b = Some (tt, b') -> reaches m b.
Proof. intros Hm. by exists b'. Qed.

Lemma change_ok (m : Test unit) b : succeeds m b = true -> m b = Some (tt, next m b).
Proof. unfold succeeds, next. by destruct (m b) as [[[] b'] |]. Qed.

Lemma now_secs_ok clock b n :
  readings b = n -> now_secs clock b = Some (clock n, mkBed (conn b) (S n)).
Proof. by intros <-. Qed.

Lemma assert_eq_ok {A} `{EqDecision A} (x y : A) b : x = y -> assert_eq x y b = Some (tt, b).
Proof. intros ->. unfold assert_eq, lift. by rewrite option_guard_True. Qed.

Lemma assert_count_ok {A} (rows : Db -> list A) n b :
  length (rows (conn b)) = n -> assert_count rows n b = Some (tt, b).
Proof. by apply assert_eq_ok. Qed.

Lemma assert_first_ok {A} `{EqDecision A} (rows : Db -> list A) r b :
  rows (conn b) = [r] -> assert_first rows r b = Some (tt, b).
Proof. intros Hr. apply assert_eq_ok. by rewrite Hr. Qed.

Lemma assert_rows_ok {A} `{EqDecision A} (rows : Db -> list A) l b :
  rows (conn b) = l -> assert_rows rows l b = Some (tt, b).
Proof. by apply assert_eq_ok. Qed.

Lemma lift_ok {A} (o : option A) x b : o = Some x -> lift o b = Some (x, b).
Proof. by intros ->. Qed.

Lemma execute_on_willing ctx st db :
  accepts (Postgres := P) st = true ->
  execute_on (P := P) ctx st db = execute_on (P := willing) ctx st db.
Proof. intros Hst. unfold execute_on, run. by rewrite Hst. Qed.

Lemma autocommit_willing l db :
  (forall st, accepts st = true) -> autocommit (P := P) l db = autocommit (P := willing) l db.
Proof.
  intros Hacc. revert db. induction l as [| s l IH]; intros db; [done |]. cbn [autocommit].
  unfold mbind, Conn_bind. rewrite execute_on_willing by done.
  destruct (execute_on _ _ _) as [d [n | |]]; [| done | done].
  destruct (step_check s); [| apply IH]. unfold check_one. destruct (Nat.eqb _ 1); [apply IH | done].
Qed.

(** The state and the result of a log whose event is known. *)
Definition logged (e : event) (b : Bed) : Bed :=
  mkBed (autocommit (P := willing) (steps e) (conn b)).1 (readings b).
Definition log_result (e : event) (b : Bed) : outcome string unit :=
  (autocommit (P := willing) (steps e) (conn b)).2.

Lemma try_log_ok log e b r :
  (forall st, accepts st = true) -> decode_event log = Ok e -> log_result e b = r ->
  try_log log b = Some (r, logged e b).
Proof.
  intros Hacc He <-. unfold try_log, log_result, logged. rewrite handle_log_on_autocommit.
  unfold mbind, Conn_bind, try_. rewrite He, autocommit_willing by done. by destruct (autocommit _ _).
Qed.

Lemma give_log_ok log e b :
  (forall st, accepts st = true) -> decode_event log = Ok e -> log_result e b = Ok tt ->
  give_log log b = Some (tt, logged e b).
Proof.
  intros Hacc He Hr. unfold give_log, mbind, Test_bind.
  by rewrite (try_log_ok _ _ _ _ Hacc He Hr).
Qed.

Context {L : TestCodecLaws}.

Lemma selector_eqb a b :
  bool_decide (a ∈ event_signatures) = true -> bool_decide (b ∈ event_signatures) = true ->
  (keccak256 a =? keccak256 b) = bool_decide (a = b).
Proof using L T.
  intros Ha%bool_decide_eq_true Hb%bool_decide_eq_true.
  symmetry. destruct (Z.eqb_spec (keccak256 a) (keccak256 b)) as [Heq | Hne].
  - apply bool_decide_eq_true.
    apply list_elem_of_lookup_1 in Ha as [i Hi]. apply list_elem_of_lookup_1 in Hb as [j Hj].
    assert (i = j) as ->; [| congruence].
    eapply NoDup_lookup; [apply selectors_distinct | by rewrite list_lookup_fmap, Hi |].
    by rewrite list_lookup_fmap, Hj, Heq.
  - apply bool_decide_eq_false. congruence.
Qed.

Lemma system_time_small t : 0 <= t <= i64_MAX -> system_time t = Ok t.
Proof.
  intros Ht. unfold system_time, wrap. unfold i64_MAX in *. rewrite Z.mod_small by lia.
  by destruct (Z.leb_spec t (2 ^ 63 - 1)); [| lia].
Qed.

End running.

(** ** The evaluation tactic *)

Ltac evaluate := vm_compute; reflexivity.

(** The words and addresses of the literals. *)
Ltac literals :=
  destruct (word_printed job_3 ltac:(evaluate)) as (w3 & Hp3 & Hw3);
  destruct (address_printed addr_a ltac:(set_solver)) as (wa & Hpa & Hwa);
  destruct (address_printed addr_b ltac:(set_solver)) as (wb & Hpb & Hwb).

Ltac u64 := unfold u64_MAX, i64_MAX, UNIX_EPOCH, umax in *; simpl; lia.

(** The event of the log under test. *)
Ltac decode :=
  unfold decode_event, PROVIDER_ADDED, PROVIDER_REMOVED, PROVIDER_UPDATED_WITH_CP, JOB_OPENED,
    JOB_SETTLED, JOB_CLOSED, JOB_DEPOSITED, JOB_WITHDREW, JOB_REVISE_RATE_INITIATED,
    JOB_REVISE_RATE_CANCELLED, JOB_REVISE_RATE_FINALIZED, JOB_METADATA_UPDATED, LOCK_CREATED,
    LOCK_DELETED, test_log;
  cbn [topic0 topics data lookup list_lookup ok_or mbind outcome_bind];
  repeat (rewrite selector_eqb by (vm_compute; reflexivity);
    match goal with |- context [bool_decide ?p] =>
      let b := eval vm_compute in (bool_decide p) in change (bool_decide p) with b
    end; cbv iota);
  unfold decode_moved, decode_provider, decode_opened, decode_settled, decode_lock, decode_request,
    topic, log_position, RATE_LOCK_SELECTOR;
  cbn [topics data block_number log_index transaction_hash lookup list_lookup unwrap ok_or mbind outcome_bind];
  rewrite ?Z.eqb_refl, ?(proj2 (Z.eqb_neq _ _) lock_names_distinct); cbn [negb];
  rewrite ?int_decoded, ?pair_decoded, ?str_decoded, ?opened_decoded by u64;
  cbn [ok_or mbind outcome_bind];
  rewrite ?system_time_small by u64; cbn [mbind outcome_bind];
  repeat match goal with H : _ = ?s |- context [?t] => is_const s; progress rewrite H end;
  reflexivity.
Ltac primitive :=
  match goal with
  | |- assert_count _ _ _ = _ => apply assert_count_ok; evaluate
  | |- assert_first _ _ _ = _ => apply assert_first_ok; evaluate
  | |- assert_rows _ _ _ = _ => apply assert_rows_ok; evaluate
  | |- assert_eq _ _ _ = _ => apply assert_eq_ok; evaluate
  | |- now_secs _ _ = _ => apply now_secs_ok; evaluate
  | |- word _ _ = _ => apply lift_ok; eassumption
  | |- address _ _ = _ => apply lift_ok; eassumption
  | |- unwrap_err _ _ = _ => reflexivity
  | |- give_log _ _ = _ => apply give_log_ok; [assumption | decode | evaluate]
  | |- try_log _ _ = _ => apply try_log_ok; [assumption | decode | evaluate]
  | |- insert_provider _ _ _ _ = _ => apply change_ok; evaluate
  | |- insert_job _ _ _ = _ => apply change_ok; evaluate
  | |- insert_request _ _ _ = _ => apply change_ok; evaluate
  | |- insert_transaction _ _ _ _ = _ => apply change_ok; evaluate
  end.

(** Runs a test, one statement at a time. *)
Ltac run_test :=
  match goal with |- passes ?t => let h := get_head t in unfold h; unfold passes end;
  match goal with |- exists b', ?t ?b = _ => change (reaches t b) end;
  cbv beta zeta;
  repeat (eapply reaches_bind; [ primitive | cbv beta zeta ]);
  eapply reaches_last; primitive.

Ltac run_suite H := literals; pose proof (H 0%nat); pose proof (H 1%nat);
  repeat apply Forall_cons_2; [run_test .. | apply Forall_nil_2].

(** ** The suites *)

Section suites.
Context {C : ChainApi} {T : TestCodec} {L : TestCodecLaws} {P : Postgres}.
Context (clock : nat -> Z).
Context (Hacc : forall st, accepts st = true).
Context (Hclock : forall n, 0 <= clock n <= i64_MAX - 1000).

Lemma provider_added_tests_pass : Forall passes provider_added_tests.
Proof using All. run_suite Hclock. Qed.

Lemma provider_removed_tests_pass : Forall passes provider_removed_tests.
Proof using All. run_suite Hclock. Qed.

Lemma provider_updated_with_cp_tests_pass : Forall passes provider_updated_with_cp_tests.
Proof using All. run_suite Hclock. Qed.

Lemma job_opened_tests_pass : Forall passes (job_opened_tests clock).
Proof using All. run_suite Hclock. Qed.

Lemma job_settled_tests_pass : Forall passes (job_settled_tests clock).
Proof using All. run_suite Hclock. Qed.

Lemma job_closed_tests_pass : Forall passes (job_closed_tests clock).
Proof using All. run_suite Hclock. Qed.

Lemma job_deposited_tests_pass : Forall passes (job_deposited_tests clock).
Proof using All. run_suite Hclock. Qed.

Lemma job_withdrew_tests_pass : Forall passes (job_withdrew_tests clock).
Proof using All. run_suite Hclock. Qed.

Lemma job_revise_rate_finalized_tests_pass : Forall passes (job_revise_rate_finalized_tests clock).
Proof using All. run_suite Hclock. Qed.

Lemma job_metadata_updated_tests_pass : Forall passes (job_metadata_updated_tests clock).
Proof using All. run_suite Hclock. Qed.

Lemma lock_created_tests_pass : Forall passes (lock_created_tests clock).
Proof using All. run_suite Hclock. Qed.

Lemma lock_deleted_tests_pass : Forall passes (lock_deleted_tests clock).
Proof using All. run_suite Hclock. Qed.

(** C20: The handlers pass the unit tests of the repository: for every test,
    the rows it inserts, the log it gives to [handle_log] and the result and
    rows it asserts afterwards agree with the model, whatever the clock
    reads. *)
Theorem handlers_pass_unit_tests : Forall passes (indexer_tests clock).
Proof using All.
  unfold indexer_tests. repeat (apply Forall_app; split).
  - apply provider_added_tests_pass.
  - apply provider_removed_tests_pass.
  - apply provider_updated_with_cp_tests_pass.
  - apply job_opened_tests_pass.
  - apply job_settled_tests_pass.
  - apply job_closed_tests_pass.
  - apply job_deposited_tests_pass.
  - apply job_withdrew_tests_pass.
  - apply job_revise_rate_finalized_tests_pass.
  - apply job_metadata_updated_tests_pass.
  - apply lock_created_tests_pass.
  - apply lock_deleted_tests_pass.
Qed.

End suites.

(** ** The published codecs *)

#[export] Instance keccak_codec : TestCodec := {|
  parse_word := parse_fixed 64;
  parse_address := parse_fixed 40;
  abi_encode_int := encode_int;
  abi_encode_pair := encode_pair;
  abi_encode_str := encode_str;
  abi_encode_opened := encode_opened
|}.

#[export] Instance keccak_laws : TestCodecLaws.
Proof.
  split; [.. | exact decode_encode_int | exact decode_encode_pair | exact decode_encode_str
          | exact decode_encode_opened].
  - apply (bool_decide_unpack _). vm_compute. exact I.
  - vm_compute. discriminate.
  - exact canonical_word_printed.
  - intros s Hs. rewrite !elem_of_cons, elem_of_nil in Hs.
    destruct Hs as [-> | [-> | [-> | []]]];
      (eexists; split; [vm_compute; reflexivity | vm_compute; reflexivity]).
Qed.

(** The unit tests pass with these codecs, from any moment on that the clock
    can represent. *)
Lemma handlers_pass_unit_tests_witness :
  Forall passes (indexer_tests (P := willing) (fun n => 1700000000 + Z.of_nat (n mod 2))).
Proof.
  apply (handlers_pass_unit_tests (P := willing)).
  - done.
  - intros n. unfold i64_MAX.
    assert (n mod 2 < 2)%nat by (apply Nat.mod_upper_bound; lia). lia.
Defined.
