(* ===== verification/Market.v ===== *)
(** * Control plane: the job state and its event processing

    [JobState] of [operator/control-plane/src/market.rs] with its solvency
    computation, its scheduling operations and [process_log], one definition
    per event branch.  Times are nanoseconds: [SystemContext] timestamps and
    tokio [Instant]s are read by the caller and passed as [now_ts] and [now]. *)

From S2P Require Import Prelude Chain.

(** A computation that can only return or panic. *)
Abbreviation panics := (outcome Empty_set).

(** [let Some(x) = o else { return r };] *)
Notation "'let?' x := o 'else' r 'in' k" := (match o with Some x => k | None => r end)
  (at level 10, x name, o at level 100, r at level 100, k at level 200)
  : oyster_scope.

(** ** Time *)

Definition NANOS : Z := 1000000000.
Definition from_secs (s : Z) : Z := s * NANOS.
(** The last [Instant] of the platform clock: signed 64-bit seconds. *)
Definition INSTANT_MAX : Z := i64_MAX * NANOS + (NANOS - 1).
Definition instant_checked_add (t d : Z) : option Z :=
  if t + d <=? INSTANT_MAX then Some (t + d) else None.
Definition saturating_duration_since (t earlier : Z) : Z := saturating_sub t earlier.

(** ** Third-party interface: [serde_json] values *)

Class JsonApi := {
  Value : Type;
  (* serde_json::from_str::<Value> *)
  from_str : string -> option Value;
  (* v[key].as_str(), v[key].as_i64(), v[key].as_bool() *)
  as_str : Value -> string -> option string;
  as_i64 : Value -> string -> option Z;
  as_bool : Value -> string -> option bool
}.

(** ** Data *)

Record JobId := mkJobId { jid : string; operator : string; contract : string; chain : string }.

Record RateCard := mkRateCard {
  rc_instance : string; rc_min_rate : Z; rc_cpu : Z; rc_memory : Z; rc_arch : string }.

Record RegionalRates := mkRegionalRates { rr_region : string; rr_rate_cards : list RateCard }.

Record GBRateCard := mkGBRateCard { gb_region : string; gb_region_code : string; gb_rate : Z }.

Record JobState := mkJobState {
  job_id : JobId;
  launch_delay : Z;
  allowed_regions : list string;
  balance : Z;
  last_settled : Z;
  rate : Z;
  original_rate : Z;
  instance_id : string;
  family : string;
  min_rate : Z;
  bandwidth : Z;
  eif_url : string;
  instance_type : string;
  region : string;
  req_vcpus : Z;
  req_mem : Z;
  debug : bool;
  (* whether instance should exist or not *)
  infra_state : bool;
  (* how long to wait for infra change *)
  infra_change_time : Z;
  (* whether to schedule change *)
  infra_change_scheduled : bool;
  (* whether to just update the eif *)
  eif_update : bool
}.

#[export] Instance eta_JobState : Settable JobState := fun s =>
  mkJobState (job_id s) (launch_delay s) (allowed_regions s) (balance s) (last_settled s)
    (rate s) (original_rate s) (instance_id s) (family s) (min_rate s) (bandwidth s)
    (eif_url s) (instance_type s) (region s) (req_vcpus s) (req_mem s) (debug s)
    (infra_state s) (infra_change_time s) (infra_change_scheduled s) (eif_update s).

(** [JobState::new] *)
Definition new_job_state (now_ts now : Z) (job : JobId) (delay : Z) (regions : list string) : JobState := {|
  job_id := job;
  launch_delay := delay;
  allowed_regions := regions;
  balance := 360;
  last_settled := now_ts;
  rate := 1;
  original_rate := 1;
  instance_id := "";
  family := "salmon";
  min_rate := u256_MAX;
  bandwidth := 0;
  eif_url := "";
  instance_type := "c6a.xlarge";
  region := "ap-south-1";
  req_vcpus := 2;
  req_mem := 4096;
  debug := false;
  infra_state := false;
  infra_change_time := now;
  infra_change_scheduled := false;
  eif_update := false
|}.

(** ** Solvency *)

(** Seconds from the last settlement to insolvency, with the 300s margin. *)
Definition solvent_secs (balance rate : Z) : Z :=
  saturating_sub (saturating_to_u64 (u256_mul balance (10 ^ 12) / rate)) 300.

Definition insolvency_duration (now_ts : Z) (s : JobState) : Z :=
  if rate s =? 0 then 0
  else saturating_sub (from_secs (solvent_secs (balance s) (rate s)))
         (saturating_sub now_ts (last_settled s)).

(** ** Scheduling *)

Definition schedule_launch (now delay : Z) (s : JobState) : panics JobState :=
  let s := s <| infra_change_scheduled := true |> in
  t ← unwrap (instant_checked_add now (from_secs delay));
  mret (s <| infra_change_time := t |> <| infra_state := true |>).

Definition schedule_termination (now delay : Z) (s : JobState) : panics JobState :=
  let s := s <| infra_change_scheduled := true |> in
  t ← unwrap (instant_checked_add now (from_secs delay));
  mret (s <| infra_change_time := t |> <| infra_state := false |>).

Definition handle_insolvency (now : Z) (s : JobState) : panics JobState :=
  schedule_termination now 0 s.

(** ** Event processing *)

Section process.
Context `{C : ChainApi, J : JsonApi}.

(** [list.iter().any(|s| s == &log.topics()[2].encode_hex_with_prefix())]:
    the topic is indexed only when the list has an element. *)
Definition any_owner (log : Log) (l : list string) : panics bool :=
  w ← topic log 2;
  mret (existsb (String.eqb (encode_hex_with_prefix w)) l).

Definition whitelist_blacklist_check (log : Log) (whitelist blacklist : list string) : panics bool :=
  whitelisted ← (match whitelist with [] => mret true | _ => any_owner log whitelist end);
  if negb whitelisted then mret false else
  blacklisted ← (match blacklist with [] => mret false | _ => any_owner log blacklist end);
  mret (negb blacklisted).

(** The minimum rate of an instance type: the first entry of the region is
    searched for the first matching card. *)
Definition find_min_rate (rates : list RegionalRates) (region instance : string) : option Z :=
  let? entry := find (fun e => String.eqb (rr_region e) region) rates else None in
  let? card := find (fun c => String.eqb (rc_instance c) instance) (rr_rate_cards entry) else None in
  Some (rc_min_rate card).

(** The bandwidth bought by the rate above the minimum: the first price of
    the region, if any; a zero price divides by zero. *)
Definition find_bandwidth (gb_rates : list GBRateCard) (s : JobState) : panics JobState :=
  match find (fun e => String.eqb (gb_region_code e) (region s)) gb_rates with
  | None => mret s
  | Some e =>
      let bandwidth_rate := u256_sub (rate s) (min_rate s) in
      if gb_rate e =? 0 then Panic
      else mret (s <| bandwidth := saturating_to_u64
                       (u256_saturating_mul bandwidth_rate (1024 * 1024 * 8) / gb_rate e) |>)
  end.

(** [t.try_into::<i32>().unwrap_or(d)] *)
Definition i32_or (d t : Z) : Z := if (- 2 ^ 31 <=? t) && (t <=? i32_MAX) then t else d.

(** [JobOpened] *)
Definition on_opened (now : Z) (rates : list RegionalRates) (gb_rates : list GBRateCard)
    (whitelist blacklist : list string) (log : Log) (s : JobState) : panics (Z * JobState) :=
  let? d := abi_decode_opened (data log) else Ok (-2, s) in
  let '(meta, _rate, _balance, timestamp) := d in
  let s := s <| balance := _balance |> <| rate := _rate |> <| original_rate := _rate |>
             <| last_settled := from_secs (saturating_to_u64 timestamp) |> in
  let? v := from_str meta else Ok (-2, s) in
  let? t := as_str v "instance" else Ok (-2, s) in
  let s := s <| instance_type := t |> in
  let? t := as_str v "region" else Ok (-2, s) in
  let s := s <| region := t |> in
  if negb (existsb (String.eqb (region s)) (allowed_regions s)) then Ok (-2, s) else
  let? t := as_i64 v "memory" else Ok (-2, s) in
  let s := s <| req_mem := t |> in
  let? t := as_i64 v "vcpu" else Ok (-2, s) in
  let s := s <| req_vcpus := i32_or i32_MAX t |> in
  let? url := as_str v "url" else Ok (-2, s) in
  let s := s <| eif_url := url |> in
  let s := match as_str v "family" with Some f => s <| family := f |> | None => s end in
  let s := match as_bool v "debug" with Some f => s <| debug := f |> | None => s end in
  allowed ← whitelist_blacklist_check log whitelist blacklist;
  if negb allowed then
    s ← schedule_termination now 0 s;
    Ok (-3, s)
  else
  let? m := find_min_rate rates (region s) (instance_type s) else Ok (-2, s) in
  let s := s <| min_rate := m |> in
  if min_rate s <=? rate s then
    s ← find_bandwidth gb_rates s;
    s ← schedule_launch now (launch_delay s) s;
    Ok (0, s)
  else
    s ← schedule_termination now 0 s;
    Ok (0, s).

(** [JobSettled] *)
Definition on_settled (log : Log) (s : JobState) : panics (Z * JobState) :=
  let? d := abi_decode_u256_pair (data log) else Ok (-2, s) in
  let '(amount, timestamp) := d in
  Ok (0, s <| balance := u256_sub (balance s) amount |>
           <| last_settled := from_secs (saturating_to_u64 timestamp) |>).

(** [JobClosed] *)
Definition on_closed (now : Z) (s : JobState) : panics (Z * JobState) :=
  s ← schedule_termination now 0 s;
  Ok (0, s).

(** [JobDeposited] *)
Definition on_deposited (log : Log) (s : JobState) : panics (Z * JobState) :=
  let? amount := abi_decode_u256 (data log) else Ok (-2, s) in
  Ok (0, s <| balance := u256_add (balance s) amount |>).

(** [JobWithdrew] *)
Definition on_withdrew (log : Log) (s : JobState) : panics (Z * JobState) :=
  let? amount := abi_decode_u256 (data log) else Ok (-2, s) in
  Ok (0, s <| balance := u256_sub (balance s) amount |>).

(** [JobReviseRateInitiated] *)
Definition on_revise_rate_initiated (now : Z) (log : Log) (s : JobState) : panics (Z * JobState) :=
  let? new_rate := abi_decode_u256 (data log) else Ok (-2, s) in
  let s := s <| original_rate := rate s |> in
  let s := s <| rate := new_rate |> in
  if rate s <? min_rate s then
    s ← schedule_termination now 0 s;
    Ok (0, s)
  else Ok (0, s).

(** [JobReviseRateCancelled] *)
Definition on_revise_rate_cancelled (s : JobState) : panics (Z * JobState) :=
  Ok (0, s <| rate := original_rate s |>).

(** [JobReviseRateFinalized] *)
Definition on_revise_rate_finalized (log : Log) (s : JobState) : panics (Z * JobState) :=
  let? new_rate := abi_decode_u256 (data log) else Ok (-2, s) in
  if negb (rate s =? new_rate) then Ok (-2, s) else
  Ok (0, s <| original_rate := new_rate |>).

(** The common exit of a rejected metadata update. *)
Definition reject_update (now : Z) (s : JobState) : panics (Z * JobState) :=
  s ← schedule_termination now 0 s;
  Ok (-2, s).

(** [JobMetadataUpdated] *)
Definition on_metadata_updated (now : Z) (log : Log) (s : JobState) : panics (Z * JobState) :=
  let? meta := abi_decode_string (data log) else Ok (-2, s) in
  let? v := from_str meta else reject_update now s in
  let? t := as_str v "instance" else reject_update now s in
  if negb (String.eqb (instance_type s) t) then reject_update now s else
  let? t := as_str v "region" else reject_update now s in
  if negb (String.eqb (region s) t) then reject_update now s else
  let? t := as_i64 v "memory" else reject_update now s in
  if negb (req_mem s =? t) then reject_update now s else
  let? t := as_i64 v "vcpu" else reject_update now s in
  if negb (req_vcpus s =? i32_or 2 t) then reject_update now s else
  if match as_str v "family" with Some f => negb (String.eqb (family s) f) | None => false end
  then reject_update now s else
  if negb (Bool.eqb (debug s) (default false (as_bool v "debug"))) then reject_update now s else
  let? url := as_str v "url" else reject_update now s in
  if String.eqb (eif_url s) url then reject_update now s else
  let s := s <| eif_url := url |> <| eif_update := true |> in
  s ← schedule_launch now (launch_delay s) s;
  Ok (0, s).

Definition JOB_OPENED : B256 :=
  keccak256 "JobOpened(bytes32,string,address,address,uint256,uint256,uint256)".
Definition JOB_SETTLED : B256 := keccak256 "JobSettled(bytes32,uint256,uint256)".
Definition JOB_CLOSED : B256 := keccak256 "JobClosed(bytes32)".
Definition JOB_DEPOSITED : B256 := keccak256 "JobDeposited(bytes32,address,uint256)".
Definition JOB_WITHDREW : B256 := keccak256 "JobWithdrew(bytes32,address,uint256)".
Definition JOB_REVISE_RATE_INITIATED : B256 := keccak256 "JobReviseRateInitiated(bytes32,uint256)".
Definition JOB_REVISE_RATE_CANCELLED : B256 := keccak256 "JobReviseRateCancelled(bytes32)".
Definition JOB_REVISE_RATE_FINALIZED : B256 := keccak256 "JobReviseRateFinalized(bytes32,uint256)".
Definition METADATA_UPDATED : B256 := keccak256 "JobMetadataUpdated(bytes32,string)".

(** [process_log]: 0 on success, -1 at the end of the stream, -2 on
    unrecoverable errors, -3 when the address check fails. *)
Definition process_log (now : Z) (rates : list RegionalRates) (gb_rates : list GBRateCard)
    (whitelist blacklist : list string) (log : option Log) (s : JobState) : panics (Z * JobState) :=
  let? log := log else Ok (-1, s) in
  t ← topic log 0;
  if t =? JOB_OPENED then on_opened now rates gb_rates whitelist blacklist log s
  else if t =? JOB_SETTLED then on_settled log s
  else if t =? JOB_CLOSED then on_closed now s
  else if t =? JOB_DEPOSITED then on_deposited log s
  else if t =? JOB_WITHDREW then on_withdrew log s
  else if t =? JOB_REVISE_RATE_INITIATED then on_revise_rate_initiated now log s
  else if t =? JOB_REVISE_RATE_CANCELLED then on_revise_rate_cancelled s
  else if t =? JOB_REVISE_RATE_FINALIZED then on_revise_rate_finalized log s
  else if t =? METADATA_UPDATED then on_metadata_updated now log s
  else Ok (-2, s).

End process.
