(* ===== verification/MarketInfra.v ===== *)
(** * Control plane: infrastructure changes and the job loop

    [heartbeat_check], [change_infra], [job_manager_once] and [job_manager]
    of [operator/control-plane/src/market.rs].  The cloud is the class
    [InfraProvider], the trait of the same name: a state [P] threaded through
    its operations, [None] standing for an [Err] result.  The biased
    [tokio::select!] of the job loop is the function [select]: at every poll
    the first ready enabled branch, in the order of the source, is taken. *)

From S2P Require Import Prelude Chain Market.

(** ** The [InfraProvider] trait *)

Class InfraProvider (P : Type) := {
  spin_up : JobId -> string -> string -> string -> Z -> Z -> Z -> P -> P * option string;
  spin_down : string -> JobId -> string -> P -> P * option unit;
  (* exists, instance, state *)
  get_job_instance : JobId -> string -> P -> P * option (bool * string * string);
  check_instance_running : string -> string -> P -> P * option bool;
  check_enclave_running : string -> string -> P -> P * option bool;
  run_enclave : JobId -> string -> string -> string -> string -> Z -> Z -> Z -> bool -> P -> P * option unit;
  update_enclave_image : string -> string -> string -> Z -> Z -> P -> P * option unit
}.

Section infra.
Context {P : Type} `{I : InfraProvider P}.

Definition run_enclave_for (s : JobState) (p : P) : P * option unit :=
  run_enclave (job_id s) (instance_id s) (family s) (region s) (eif_url s)
    (req_vcpus s) (req_mem s) (bandwidth s) (debug s) p.

(** [JobState::heartbeat_check] *)
Definition heartbeat_check (now : Z) (s : JobState) (p : P) : panics (JobState * P) :=
  let '(p, is_running) := check_instance_running (instance_id s) (region s) p in
  match is_running with
  | None => mret (s, p)
  | Some true =>
      let '(p, is_enclave_running) := check_enclave_running (instance_id s) (region s) p in
      match is_enclave_running with
      | Some false => let '(p, _) := run_enclave_for s p in mret (s, p)
      | Some true | None => mret (s, p)
      end
  | Some false =>
      if min_rate s <=? rate s then
        s ← schedule_launch now 0 s;
        mret (s, p)
      else mret (s, p)
  end.

(** The end of launch mode: a new instance, then its enclave. *)
Definition launch_new (s : JobState) (p : P) : bool * JobState * P :=
  let '(p, res) := spin_up (job_id s) (instance_type s) (family s) (region s)
                     (req_mem s) (req_vcpus s) (bandwidth s) p in
  let? id := res else (false, s, p) in
  let s := s <| instance_id := id |> in
  let '(p, res) := run_enclave_for s p in
  match res with
  | None => (true, s, p)
  | Some _ => (true, s, p)
  end.

Definition state_in (st : string) (l : list string) : bool := existsb (String.eqb st) l.

(** [JobState::change_infra_impl] *)
Definition change_infra_impl (s : JobState) (p : P) : bool * JobState * P :=
  let '(p, res) := get_job_instance (job_id s) (region s) p in
  match res with
  | None => (false, s, p)
  | Some (exists_, instance, state) =>
      if infra_state s then
        if exists_ && state_in state ["pending"; "running"] then
          let s := s <| instance_id := instance |> in
          if eif_update s then
            let '(p, res) := update_enclave_image (instance_id s) (region s) (eif_url s)
                               (req_vcpus s) (req_mem s) p in
            match res with
            | None => (false, s, p)
            | Some _ => (true, s <| eif_update := false |>, p)
            end
          else (true, s, p)
        else if exists_ && state_in state ["stopping"; "stopped"] then
          let '(p, res) := spin_down instance (job_id s) (region s) p in
          match res with
          | None => (false, s, p)
          | Some _ => launch_new s p
          end
        else launch_new s p
      else if negb exists_ || state_in state ["shutting-down"; "terminated"] then (true, s, p)
      else
        let '(p, res) := spin_down instance (job_id s) (region s) p in
        match res with
        | None => (false, s, p)
        | Some _ => (true, s, p)
        end
  end.

(** [JobState::change_infra]: a failed change is retried two seconds later. *)
Definition change_infra (now : Z) (s : JobState) (p : P) : panics (bool * JobState * P) :=
  let '(res, s, p) := change_infra_impl s p in
  if res then mret (res, s <| infra_change_scheduled := false |>, p)
  else
    t ← unwrap (instant_checked_add now (from_secs 2));
    mret (res, s <| infra_change_time := t |>, p).

(** ** The job loop *)

(** A poll of the select: the clock, and the item of the log stream when one
    is ready ([Some None]: the stream ended). *)
Record Poll := mkPoll { poll_now : Z; poll_log : option (option Log) }.

(** A turn of the loop: the clock and the system time when it starts, the
    polls of the select, and the clock read by the handlers' scheduling. *)
Record Turn := mkTurn { start_now : Z; start_ts : Z; polls : list Poll; handler_now : Z }.

Inductive Branch :=
| BLog (log : option Log)
| BHeartbeat
| BInsolvency
| BInfra.

Definition ready_branch (t : Turn) (s : JobState) (q : Poll) : option Branch :=
  let elapsed d := start_now t + d <=? poll_now q in
  match poll_log q with
  | Some log => Some (BLog log)
  | None =>
      if negb (String.eqb (instance_id s) "") && elapsed (from_secs 5) then Some BHeartbeat
      else if (negb (infra_change_scheduled s) || infra_state s)
              && elapsed (insolvency_duration (start_ts t) s) then Some BInsolvency
      else if infra_change_scheduled s
              && elapsed (saturating_duration_since (infra_change_time s) (start_now t))
           then Some BInfra
      else None
  end.

(** The branch taken: the first ready one of the first poll that has one. *)
Definition select (t : Turn) (s : JobState) : option Branch := head (omap (ready_branch t s) (polls t)).

Context `{C : ChainApi, J : JsonApi}.
Variables (rates : list RegionalRates) (gb_rates : list GBRateCard) (whitelist blacklist : list string).

(** The body of a branch: the code of a [break], the state, the provider. *)
Definition run_branch (now : Z) (b : Branch) (s : JobState) (p : P) : panics (option Z * JobState * P) :=
  match b with
  | BLog log =>
      '(res, s) ← process_log now rates gb_rates whitelist blacklist log s;
      mret (if (res =? -2) || (res =? -1) then Some res else None, s, p)
  | BHeartbeat => '(s, p) ← heartbeat_check now s p; mret (None, s, p)
  | BInsolvency => s ← handle_insolvency now s; mret (None, s, p)
  | BInfra =>
      '(res, s, p) ← change_infra now s p;
      mret (if res && negb (infra_state s) then Some 0 else None, s, p)
  end.

(** The loop over a sequence of turns: [None] while it is still running,
    waiting in its last turn. *)
Fixpoint job_loop (turns : list Turn) (s : JobState) (p : P) : panics (option Z * JobState * P) :=
  match turns with
  | [] => mret (None, s, p)
  | t :: turns =>
      match select t s with
      | None => mret (None, s, p)
      | Some b =>
          '(res, s, p) ← run_branch (handler_now t) b s p;
          match res with
          | Some r => mret (Some r, s, p)
          | None => job_loop turns s p
          end
      end
  end.

Definition job_manager_once (now_ts now : Z) (turns : list Turn) (job : JobId) (regions : list string)
    (aws_delay_duration : Z) (p : P) : panics (option Z * JobState * P) :=
  job_loop turns (new_job_state now_ts now job aws_delay_duration regions) p.

(** ** The connection loop *)

(** What one pass of the loop meets: a failed connection, a failed
    subscription, or a session with its log stream. *)
Inductive Attempt :=
| ConnectFailed
| SubscribeFailed
| Session (now_ts now : Z) (turns : list Turn).

Definition next_backoff (backoff : Z) : Z := let b := backoff * 2 in if 128 <? b then 128 else b.

(** [job_manager]: the sleeps taken (in seconds), whether it returned, and
    the provider. *)
Fixpoint job_manager (attempts : list Attempt) (job : JobId) (regions : list string)
    (aws_delay_duration backoff : Z) (p : P) : panics (list Z * bool * P) :=
  match attempts with
  | [] => mret ([], false, p)
  | ConnectFailed :: l =>
      '(sleeps, fin, p) ← job_manager l job regions aws_delay_duration (next_backoff backoff) p;
      mret (backoff :: sleeps, fin, p)
  | SubscribeFailed :: l =>
      '(sleeps, fin, p) ← job_manager l job regions aws_delay_duration 1 p;
      mret (1 :: sleeps, fin, p)
  | Session now_ts now turns :: l =>
      '(res, _, p) ← job_manager_once now_ts now turns job regions aws_delay_duration p;
      match res with
      | None => mret ([], false, p)
      | Some res =>
          if (res =? -2) || (res =? 0) then mret ([], true, p)
          else job_manager l job regions aws_delay_duration 1 p
      end
  end.

End infra.
