(* ===== verification/MarketStreams.v ===== *)
(** * Control plane: the log streams and the job spawner

    [new_jobs], [job_logs], [run] and [run_once] of
    [operator/control-plane/src/market.rs].  A stream is the list of the items
    its consumer takes from it; the RPC client is the class [EthClient]. *)

From S2P Require Import Prelude Chain Market MarketInfra.

(** The fields of an RPC filter the code sets. *)
Record Filter := mkFilter {
  f_address : Z; f_signatures : list B256; f_topic1 : option B256; f_topic3 : option B256 }.

(** One connection: the items of the subscription, the height, and the logs
    from block 0 to a block. *)
Class EthClient := {
  subscribe_logs : Filter -> outcome string (list Log);
  get_block_number : outcome string Z;
  get_logs : Filter -> Z -> outcome string (list Log)
}.

(** [stream.filter_map(|item| item.block_number.unwrap() > cutoff ..)] *)
Fixpoint cut_off {E} (cutoff : Z) (stream : list Log) : outcome E (list Log) :=
  match stream with
  | [] => mret []
  | item :: stream =>
      b ← unwrap (block_number item);
      rest ← cut_off cutoff stream;
      mret (if cutoff <? b then item :: rest else rest)
  end.

Section streams.
Context `{C : ChainApi, E : EthClient}.

(** Subscription first, then the cutoff block, then the logs up to it. *)
Definition logs_around_cutoff (what : string) (f : Filter) : outcome string (list Log) :=
  stream ← map_err (fun _ => String.append "failed to subscribe to " what) (subscribe_logs f);
  cutoff ← map_err (fun _ => "failed to get cutoff block"%string) get_block_number;
  old_logs ← map_err (fun _ => "failed to query old logs"%string) (get_logs f cutoff);
  stream ← cut_off cutoff stream;
  mret (old_logs ++ stream).

Definition job_signatures : list B256 :=
  [ JOB_OPENED; JOB_SETTLED; JOB_CLOSED; JOB_DEPOSITED; JOB_WITHDREW; JOB_REVISE_RATE_INITIATED;
    JOB_REVISE_RATE_CANCELLED; JOB_REVISE_RATE_FINALIZED; METADATA_UPDATED ].

Definition job_filter (contract : Z) (job : B256) : Filter :=
  mkFilter contract job_signatures (Some job) None.

Definition job_logs (contract : Z) (job : B256) : outcome string (list Log) :=
  logs_around_cutoff "job logs" (job_filter contract job).

Definition new_jobs_filter (address provider : Z) : Filter :=
  mkFilter address [JOB_OPENED] None (Some provider).

Definition job_item (item : Log) : outcome string (B256 * bool) :=
  t ← topic item 1; mret (t, removed item).

Fixpoint job_items (items : list Log) : outcome string (list (B256 * bool)) :=
  match items with
  | [] => mret []
  | item :: items => i ← job_item item; rest ← job_items items; mret (i :: rest)
  end.

Definition new_jobs (address provider : Z) : outcome string (list (B256 * bool)) :=
  logs ← logs_around_cutoff "new jobs" (new_jobs_filter address provider);
  job_items logs.

(** ** Spawning job managers *)

(** [run_once]: the job managers spawned, and their count. *)
Definition run_once (job_stream : list (B256 * bool)) (job_id : JobId) : list JobId * nat :=
  (map (fun '(job, _) => mkJobId (encode_hex_with_prefix job) (operator job_id)
                           (Market.contract job_id) (chain job_id)) job_stream,
   length job_stream).

(** One pass of the connection loop of [run]. *)
Inductive RunAttempt :=
| RConnectFailed
| RSubscribeFailed
| RSession (job_stream : list (B256 * bool)).

(** [run]: the sleeps taken and the job managers spawned. *)
Fixpoint run (attempts : list RunAttempt) (job_id : JobId) (backoff : Z) (job_count : nat) :
    list Z * list JobId :=
  match attempts with
  | [] => ([], [])
  | RConnectFailed :: l =>
      let '(sleeps, spawned) := run l job_id (next_backoff backoff) job_count in
      (backoff :: sleeps, spawned)
  | RSubscribeFailed :: l =>
      let '(sleeps, spawned) := run l job_id 1 job_count in (1 :: sleeps, spawned)
  | RSession job_stream :: l =>
      let '(jobs, n) := run_once (drop job_count job_stream) job_id in
      let '(sleeps, spawned) := run l job_id 1 (job_count + n)%nat in
      (sleeps, jobs ++ spawned)
  end.

End streams.
