(* ===== verification/OperatorLedger.v ===== *)
(** * The operator and the indexer agree on balances

    The control plane computes the balance of a job in [U256] arithmetic from
    the job's own log stream; the indexer computes it in the database from
    the logs of every job.  Both are compared over the same chain of logs. *)

From S2P Require Import Prelude Chain IndexerDb IndexerHandlers IndexerSpec IndexerLoop.
From S2P Require Import IndexerProps Market MarketInfra MarketStreams.

(** ** Definitions *)

(** What a filter matches. *)
Definition topic_is (o w : option B256) : bool :=
  match o with Some t => bool_decide (w = Some t) | None => true end.

Definition matches (f : Filter) (log : Log) : bool :=
  match topics log !! 0%nat with
  | Some t => bool_decide (t ∈ f_signatures f)
  | None => false
  end && topic_is (f_topic1 f) (topics log !! 1%nat) && topic_is (f_topic3 f) (topics log !! 3%nat).

Section definitions.
Context `{C : ChainApi, J : JsonApi}.

(** All event signatures the two programs know. *)
Definition signatures : list B256 :=
  [ PROVIDER_ADDED; PROVIDER_REMOVED; PROVIDER_UPDATED_WITH_CP; Market.JOB_OPENED; Market.JOB_SETTLED;
    Market.JOB_CLOSED; Market.JOB_DEPOSITED; Market.JOB_WITHDREW; Market.JOB_REVISE_RATE_INITIATED;
    Market.JOB_REVISE_RATE_CANCELLED; Market.JOB_REVISE_RATE_FINALIZED; METADATA_UPDATED;
    LOCK_CREATED; LOCK_DELETED ].

(** Process a list of logs, each at its own time, stopping at the first one
    on which the job loop breaks. *)
Fixpoint process_logs (rates : list RegionalRates) (gb_rates : list GBRateCard)
    (whitelist blacklist : list string) (ls : list (Z * Log)) (s : JobState) : panics (Z * JobState) :=
  match ls with
  | [] => mret (0, s)
  | (now, log) :: ls =>
      r ← process_log now rates gb_rates whitelist blacklist (Some log) s;
      if (r.1 =? -2) || (r.1 =? -1) then mret r
      else process_logs rates gb_rates whitelist blacklist ls r.2
  end.

End definitions.

(** The effect of an event on the balance of job [id]. *)
Definition moves (id : string) (e : event) (b : option Z) : option Z :=
  match e with
  | EOpened id' j _ _ => if decide (id' = id) then Some (IndexerDb.balance j) else b
  | EChanged id' (Settle a _) => if decide (id' = id) then (fun x => x - a) <$> b else b
  | EMoved id' a dep _ _ =>
      if decide (id' = id) then (fun x => if dep then x + a else x - a) <$> b else b
  | _ => b
  end.

(** The operator's balance is the indexer's, modulo the width of [U256]. *)
Definition agrees (b : option Z) (s : JobState) : Prop :=
  match b with Some b => wrap 256 (Market.balance s) = wrap 256 b | None => True end.

(** ** Lemmas *)

Lemma apply_event_moves id e db db' :
  apply_event e db = Some db' -> event_ok e = true ->
  IndexerDb.balance <$> jobs db' !! id = moves id e (IndexerDb.balance <$> jobs db !! id).
Proof.
  intros He Hok. destruct e; simpl in He |- *; unfold change_active_provider in He;
    repeat case_match; simplify_eq/=; try done.
  all: repeat match goal with
  | H : add_transaction _ _ _ = Some _ |- _ => apply add_transaction_Some in H as [_ ->]
  | H : change_open_job _ _ _ = Some _ |- _ => apply change_open_job_Some in H as (? & Hj & _ & ->)
  | H : _ ≫= _ = Some _ |- _ => apply bind_Some in H as (? & ? & H)
  end; simpl; rewrite lookup_insert; repeat case_decide; subst; try congruence;
    try (rewrite Hj; simpl); try done.
Qed.

Section lemmas.
Context `{C : ChainApi, J : JsonApi, Pg : Postgres}.

(** Only the job events of [id] move its balance. *)
Lemma decode_event_target id e log b :
  decode_event log = Ok e -> moves id e b <> b ->
  exists t w, topics log !! 0%nat = Some t /\ t ∈ job_signatures /\
    topics log !! 1%nat = Some w /\ encode_hex_with_prefix w = id.
Proof.
  unfold decode_event, decode_provider, decode_opened, decode_settled, decode_moved,
    decode_lock, decode_request, topic0, topic.
  unfold mbind, outcome_bind, mret, outcome_ret. intros He Hm.
  destruct (topics log !! 0%nat) as [t |]; simpl in He; [| done]. exists t.
  repeat match type of He with
  | (if ?a =? ?b then _ else _) = _ => destruct (Z.eqb_spec a b)
  end; unfold ok_or, unwrap in He; repeat case_match; simplify_eq/=; try done;
    repeat case_decide; simplify_eq; try done;
    (eexists; split; [done |]; split; [| done];
     apply list_elem_of_In; repeat first [left; reflexivity | right]).
Qed.

Lemma signatures_neq i j a b :
  NoDup signatures -> signatures !! i = Some a -> signatures !! j = Some b -> i <> j -> (a =? b) = false.
Proof. intros Hd Ha Hb Hij. apply Z.eqb_neq. intros ->. apply Hij. by eapply NoDup_lookup. Qed.

End lemmas.

(** The two programs declare the same signatures. *)
Ltac same_signatures He :=
  change IndexerHandlers.JOB_OPENED with Market.JOB_OPENED in He;
  change IndexerHandlers.JOB_SETTLED with Market.JOB_SETTLED in He;
  change IndexerHandlers.JOB_CLOSED with Market.JOB_CLOSED in He;
  change IndexerHandlers.JOB_DEPOSITED with Market.JOB_DEPOSITED in He;
  change IndexerHandlers.JOB_WITHDREW with Market.JOB_WITHDREW in He;
  change IndexerHandlers.JOB_REVISE_RATE_INITIATED with Market.JOB_REVISE_RATE_INITIATED in He;
  change IndexerHandlers.JOB_REVISE_RATE_CANCELLED with Market.JOB_REVISE_RATE_CANCELLED in He;
  change IndexerHandlers.JOB_REVISE_RATE_FINALIZED with Market.JOB_REVISE_RATE_FINALIZED in He;
  change JOB_METADATA_UPDATED with METADATA_UPDATED in He.

(** Resolve the dispatch on the [i]-th signature, tests [j] to [i]. *)
Ltac dispatch Hd i j :=
  match j with
  | i => rewrite ?Z.eqb_refl
  | _ => rewrite ?(signatures_neq i j _ _ Hd eq_refl eq_refl ltac:(lia)); dispatch Hd i (S j)
  end.

Section balances.
Context `{C : ChainApi, J : JsonApi, Pg : Postgres}.

Lemma find_bandwidth_balance gb_rates s s' :
  find_bandwidth gb_rates s = Ok s' -> Market.balance s' = Market.balance s.
Proof.
  unfold find_bandwidth. destruct (find _ _) as [e |]; [destruct (gb_rate e =? 0) |];
    intros H; inv_ok; done.
Qed.

Lemma schedule_launch_balance now d s s' :
  schedule_launch now d s = Ok s' -> Market.balance s' = Market.balance s.
Proof. unfold schedule_launch. intros. inv_ok. done. Qed.

Lemma schedule_termination_balance now d s s' :
  schedule_termination now d s = Ok s' -> Market.balance s' = Market.balance s.
Proof. unfold schedule_termination. intros. inv_ok. done. Qed.

Lemma on_opened_balance now rates gb_rates wl bl log s r s' d :
  on_opened now rates gb_rates wl bl log s = Ok (r, s') -> r <> -2 ->
  abi_decode_opened (data log) = Some d -> Market.balance s' = d.1.2.
Proof.
  unfold on_opened. intros Ho Hr Hd. rewrite Hd in Ho. destruct d as [[[meta rt] bal] ts]. simpl.
  repeat case_match; simplify_eq/=; try done; inv_ok; repeat case_match; inv_ok;
    repeat match goal with
    | H : find_bandwidth _ _ = Ok _ |- _ => apply find_bandwidth_balance in H
    | H : schedule_launch _ _ _ = Ok _ |- _ => apply schedule_launch_balance in H
    | H : schedule_termination _ _ _ = Ok _ |- _ => apply schedule_termination_balance in H
    end; simpl in *; congruence.
Qed.

Lemma reject_update_code now s r s' : reject_update now s = Ok (r, s') -> r = -2.
Proof. unfold reject_update. intros. inv_ok. done. Qed.

Lemma on_metadata_updated_balance now log s r s' :
  on_metadata_updated now log s = Ok (r, s') -> r <> -2 -> Market.balance s' = Market.balance s.
Proof.
  unfold on_metadata_updated. intros Ho Hr.
  repeat case_match; simplify_eq/=; try done;
    try (by apply reject_update_code in Ho).
  all: inv_ok; match goal with
    | H : schedule_launch _ _ _ = Ok _ |- _ => apply schedule_launch_balance in H
    end; done.
Qed.

Lemma wrap_add_r w a b c : wrap w a = wrap w b -> wrap w (wrap w (a + c)) = wrap w (b + c).
Proof.
  unfold wrap. rewrite Zmod_mod. intros H. rewrite (Zplus_mod a), (Zplus_mod b), H. done.
Qed.

(** A log of the job moves both balances alike. *)
Lemma job_log_agrees now rates gb_rates wl bl log s r s' w t e b :
  NoDup signatures -> decode_event log = Ok e ->
  process_log now rates gb_rates wl bl (Some log) s = Ok (r, s') -> r <> -2 ->
  topics log !! 0%nat = Some t -> t ∈ job_signatures -> topics log !! 1%nat = Some w ->
  agrees b s -> agrees (moves (encode_hex_with_prefix w) e b) s'.
Proof.
  intros Hd He Hp Hr Ht Hin Hw Hb.
  unfold decode_event, topic0 in He. unfold process_log, topic in Hp. rewrite Ht in He, Hp.
  cbn [ok_or unwrap mbind outcome_bind] in He, Hp. same_signatures He. revert He Hp.
  unfold job_signatures in Hin. apply list_elem_of_In in Hin. simpl in Hin.
  destruct Hin as [<- | [<- | [<- | [<- | [<- | [<- | [<- | [<- | [<- | []]]]]]]]]].
  - dispatch Hd 3%nat 0%nat.
    unfold decode_opened, topic, system_time, log_position. rewrite Hw. cbn [unwrap mbind outcome_bind]. intros He Hp.
    destruct (abi_decode_opened (data log)) as [[[[meta rt] bal] ts] |] eqn:Habi;
      cbn [ok_or mbind outcome_bind] in He; inv_ok.
    simpl. rewrite decide_True by done. simpl.
    by rewrite (on_opened_balance _ _ _ _ _ _ _ _ _ _ Hp Hr Habi).
  - dispatch Hd 4%nat 0%nat.
    unfold decode_settled, on_settled, topic, system_time. rewrite Hw. cbn [unwrap mbind outcome_bind]. intros He Hp.
    destruct (abi_decode_u256_pair (data log)) as [[amount ts] |]; cbn [ok_or mbind outcome_bind] in He; inv_ok.
    simpl. rewrite decide_True by done.
    destruct b as [b |]; [| done]. simpl in *. unfold u256_sub. by apply (wrap_add_r _ _ _ (- amount)).
  - dispatch Hd 5%nat 0%nat.
    unfold on_closed, topic. rewrite Hw. intros He Hp. inv_ok.
    destruct b as [b |]; [| done]. simpl in *. by erewrite schedule_termination_balance by done.
  - dispatch Hd 6%nat 0%nat.
    unfold decode_moved, on_deposited, topic, log_position. rewrite Hw. cbn [unwrap mbind outcome_bind]. intros He Hp.
    destruct (abi_decode_u256 (data log)) as [amount |]; cbn [ok_or mbind outcome_bind] in He; inv_ok.
    simpl. rewrite decide_True by done.
    destruct b as [b |]; [| done]. simpl in *. unfold u256_add. by apply wrap_add_r.
  - dispatch Hd 7%nat 0%nat.
    unfold decode_moved, on_withdrew, topic, log_position. rewrite Hw. cbn [unwrap mbind outcome_bind]. intros He Hp.
    destruct (abi_decode_u256 (data log)) as [amount |]; cbn [ok_or mbind outcome_bind] in He; inv_ok.
    simpl. rewrite decide_True by done.
    destruct b as [b |]; [| done]. simpl in *. unfold u256_sub. by apply (wrap_add_r _ _ _ (- amount)).
  - dispatch Hd 8%nat 0%nat.
    unfold on_revise_rate_initiated. intros He Hp. inv_ok.
    destruct b as [b |]; [| done]. simpl.
    repeat case_match; inv_ok; try done. by erewrite schedule_termination_balance by done.
  - dispatch Hd 9%nat 0%nat.
    unfold on_revise_rate_cancelled. intros He Hp. inv_ok. by destruct b.
  - dispatch Hd 10%nat 0%nat.
    unfold on_revise_rate_finalized, topic. rewrite Hw. intros He Hp. inv_ok.
    destruct b as [b |]; [| done]. simpl. repeat case_match; inv_ok; done.
  - dispatch Hd 11%nat 0%nat.
    unfold topic. rewrite Hw. intros He Hp. inv_ok.
    destruct b as [b |]; [| done]. simpl. by erewrite on_metadata_updated_balance by done.
Qed.

Lemma process_logs_cons rates gb_rates wl bl now log ls s s' :
  process_logs rates gb_rates wl bl ((now, log) :: ls) s = Ok (0, s') ->
  exists r s1, process_log now rates gb_rates wl bl (Some log) s = Ok (r, s1) /\ r <> -2 /\
    process_logs rates gb_rates wl bl ls s1 = Ok (0, s').
Proof.
  cbn [process_logs]. intros ([r s1] & Hp & Hr)%bind_Ok. exists r, s1. simpl in Hr.
  destruct (Z.eqb_spec r (-2)) as [-> | Hne]; [by inv_ok |].
  destruct (Z.eqb_spec r (-1)) as [-> | Hne']; [by inv_ok |]. done.
Qed.

Lemma process_logs_agree contract (w : B256) rates gb_rates wl bl :
  NoDup signatures ->
  forall ls timed db db' s s',
  (forall log w', log ∈ ls -> topics log !! 1%nat = Some w' ->
    encode_hex_with_prefix w' = encode_hex_with_prefix w -> w' = w) ->
  handle_logs db ls = Ok db' ->
  map snd timed = List.filter (matches (job_filter contract w)) ls ->
  process_logs rates gb_rates wl bl timed s = Ok (0, s') ->
  agrees (IndexerDb.balance <$> jobs db !! encode_hex_with_prefix w) s ->
  agrees (IndexerDb.balance <$> jobs db' !! encode_hex_with_prefix w) s'.
Proof.
  intros Hd ls. induction ls as [| log ls IH]; intros timed db db' s s' Hhex Hl Hm Hp Ha.
  - injection Hl as <-. destruct timed; [| done]. by injection Hp as <-.
  - apply handle_logs_cons_Ok in Hl as (d & Hlog & Hl).
    rewrite handle_log_decode_perform in Hlog.
    apply bind_Ok in Hlog as (e & He & Hdb%perform_sound).
    apply (apply_event_moves (encode_hex_with_prefix w)) in Hdb; [| by eapply decode_event_ok].
    assert (Hhex' : forall log0 w', log0 ∈ ls -> topics log0 !! 1%nat = Some w' ->
      encode_hex_with_prefix w' = encode_hex_with_prefix w -> w' = w).
    { intros log0 w' Hin. apply Hhex. by right. }
    cbn [List.filter] in Hm. destruct (matches (job_filter contract w) log) eqn:Hmatch.
    + destruct timed as [| [now log0] timed]; [done |]. simpl in Hm. injection Hm as -> Hm.
      apply process_logs_cons in Hp as (r & s1 & Hlog & Hr & Hp).
      apply (IH timed d db' s1 s'); try done. rewrite Hdb.
      unfold matches in Hmatch. destruct (topics log !! 0%nat) as [t |] eqn:Ht; [| done].
      apply andb_true_iff in Hmatch as [[Hin Hw]%andb_true_iff _].
      apply bool_decide_eq_true in Hin. simpl in Hw. apply bool_decide_eq_true in Hw.
      by eapply job_log_agrees.
    + apply (IH timed d db' s s'); try done. rewrite Hdb.
      destruct (decide (moves (encode_hex_with_prefix w) e (IndexerDb.balance <$> jobs db !! encode_hex_with_prefix w)
        = (IndexerDb.balance <$> jobs db !! encode_hex_with_prefix w))) as [-> | Hne]; [done |].
      destruct (decode_event_target _ _ _ _ He Hne) as (t & w' & Ht & Hin & Hw & Hid).
      apply (Hhex log) in Hid; [| by left | done]. subst w'. exfalso.
      unfold matches in Hmatch. rewrite Ht, Hw in Hmatch. simpl in Hmatch.
      by rewrite !bool_decide_eq_true_2 in Hmatch.
Qed.

End balances.

(** ** Concrete instances for the witnesses *)
Module ToyMarket.
Export ToyIndexer.

(** A metadata document is the list of its fields: strings [key=value;],
    with numbers and booleans printed. *)
Record Doc := mkDoc { strings : list (string * string); ints : list (string * Z); bools : list (string * bool) }.

Definition field {A} (l : list (string * A)) (k : string) : option A :=
  snd <$> find (fun kv => String.eqb kv.1 k) l.

Definition toy_doc (url : string) : Doc :=
  mkDoc [("instance", "c6a.xlarge"); ("region", "ap-south-1"); ("url", url)]%string
    [("memory", 4096); ("vcpu", 2)]%string [].

(** Texts [a], [b] are two documents that differ by their image. *)
#[export] Instance toy_json : JsonApi := {|
  Value := Doc;
  from_str s := if String.eqb s "a" then Some (toy_doc "https://a")
                else if String.eqb s "b" then Some (toy_doc "https://b") else None;
  as_str v := field (strings v);
  as_i64 v := field (ints v);
  as_bool v := field (bools v)
|}.

Definition toy_rates : list RegionalRates :=
  [mkRegionalRates "ap-south-1" [mkRateCard "c6a.xlarge" 5 4 8 "amd64"]].
Definition toy_gb_rates : list GBRateCard := [mkGBRateCard "Mumbai" "ap-south-1" 2].
Definition toy_job_id : JobId := mkJobId toy_id "op" "contract" "chain".
Definition toy_state0 : JobState := new_job_state (from_secs 100) 0 toy_job_id 3 ["ap-south-1"%string].

(** A chain with two jobs. *)
Definition market_opened (job : B256) (rate : Z) : Log :=
  mklog [JOB_OPENED; job; 21; 33] (rate :: 1000 :: 60 :: codes_of_string "a") 1 job.
Definition market_logs : list Log :=
  [market_opened 7 6; market_opened 8 5; mklog [JOB_DEPOSITED; 8] [9] 2 0;
   mklog [JOB_DEPOSITED; 7] [50] 2 1; mklog [JOB_SETTLED; 7] [300; 120] 3 0;
   mklog [JOB_WITHDREW; 7] [20] 3 1].
Definition market_db : Db := match handle_logs initial_db market_logs with Ok d => d | _ => initial_db end.
Definition market_timed : list (Z * Log) :=
  map (fun l => (0, l)) (List.filter (matches (job_filter 0 7)) market_logs).
Definition market_state : JobState :=
  match process_logs toy_rates toy_gb_rates [] [] market_timed toy_state0 with Ok (_, s) => s | _ => toy_state0 end.
Definition market_job : Job :=
  mkJob "a" (checksum_address 21) (checksum_address 33) 6 730 120 60 false.

End ToyMarket.

(** ** Properties *)

Section agreement.
Context `{C : ChainApi, J : JsonApi, Pg : Postgres}.

(** C5: The operator and the indexer agree.  When the indexer has applied the
    logs of the chain and the operator has processed, without breaking off,
    exactly the ones its filter for job [w] selects, the operator's [U256]
    balance of the job is the balance of the job's row, modulo 2^256 --
    whatever rates, lists and start state the operator uses and however many
    other jobs are interleaved.  The signatures of the events must have
    distinct hashes and hex printing must not confuse job ids. *)
Theorem operator_balance_is_indexed_balance (contract : Z) (w : B256) (ls : list Log)
  (timed : list (Z * Log)) (db : Db) (j : Job) (rates : list RegionalRates)
  (gb_rates : list GBRateCard) (whitelist blacklist : list string) (s0 s : JobState)
  (Hd : NoDup signatures)
  (Hhex : forall log w', log ∈ ls -> topics log !! 1%nat = Some w' ->
    encode_hex_with_prefix w' = encode_hex_with_prefix w -> w' = w)
  (Hindexed : handle_logs initial_db ls = Ok db)
  (Hj : jobs db !! encode_hex_with_prefix w = Some j)
  (Hselected : map snd timed = List.filter (matches (job_filter contract w)) ls)
  (Hprocessed : process_logs rates gb_rates whitelist blacklist timed s0 = Ok (0, s)) :
  wrap 256 (Market.balance s) = wrap 256 (IndexerDb.balance j).
Proof.
  eapply process_logs_agree in Hprocessed; [| done..|].
  - rewrite Hj in Hprocessed. exact Hprocessed.
  - simpl. by rewrite lookup_empty.
Qed.

End agreement.

(** ** Witnesses *)
Module LedgerWitnesses.
Import ToyMarket.

Lemma operator_balance_is_indexed_balance_witness :
  Market.balance market_state = 730 /\
  wrap 256 (Market.balance market_state) = wrap 256 (IndexerDb.balance market_job).
Proof.
  split; [vm_compute; reflexivity |].
  apply (operator_balance_is_indexed_balance 0 7 market_logs market_timed market_db market_job
    toy_rates toy_gb_rates [] [] toy_state0 market_state).
  - apply (bool_decide_eq_true_1 _). vm_compute. reflexivity.
  - intros log w' Hin Hw'.
    assert (w' = 7 \/ w' = 8) as [-> | ->]; [| done |].
    + unfold market_logs in Hin. repeat (apply elem_of_cons in Hin as [-> | Hin]; [vm_compute in Hw'; simplify_eq; tauto |]).
      by apply elem_of_nil in Hin.
    + intros Heq. vm_compute in Heq. discriminate Heq.
  - vm_compute. reflexivity.
  - vm_compute. reflexivity.
  - vm_compute. reflexivity.
  - vm_compute. reflexivity.
Defined.

End LedgerWitnesses.
