(* ===== verification/MarketProps.v ===== *)
(** * Control plane: properties of the job state and the log streams *)

From Stdlib Require Import Sorting.Sorted.
From S2P Require Import Prelude Chain IndexerDb IndexerHandlers IndexerProps Market.
From S2P Require Import MarketInfra MarketStreams OperatorLedger.

(** ** Definitions *)

(** The instant (in nanoseconds since the epoch) at which a job becomes
    insolvent, seen at [now_ts]. *)
Definition insolvency_time (now_ts : Z) (s : JobState) : Z := now_ts + insolvency_duration now_ts s.

(** The owner of the log is admitted by the lists. *)
Definition admitted `{C : ChainApi} (owner : B256) (whitelist blacklist : list string) : Prop :=
  (whitelist = [] \/ encode_hex_with_prefix owner ∈ whitelist) /\
  encode_hex_with_prefix owner ∉ blacklist.

(** The block of a log; unmined logs do not occur in the streams. *)
Definition mined (log : Log) : Prop := is_Some (block_number log).
Definition block_of (log : Log) : Z := default 0 (block_number log).

(** A document that may replace the metadata of a running job. *)
Definition acceptable_update `{J : JsonApi} (s : JobState) (v : Value) (url : string) : Prop :=
  as_str v "instance" = Some (instance_type s) /\ as_str v "region" = Some (region s) /\
  as_i64 v "memory" = Some (req_mem s) /\
  (exists t, as_i64 v "vcpu" = Some t /\ i32_or 2 t = req_vcpus s) /\
  (as_str v "family" = None \/ as_str v "family" = Some (family s)) /\
  default false (as_bool v "debug") = debug s /\
  as_str v "url" = Some url /\ url <> eif_url s.

(** ** Lemmas *)

Lemma instant_in_range now d : 0 <= d -> now + from_secs d <= INSTANT_MAX ->
  instant_checked_add now (from_secs d) = Some (now + from_secs d).
Proof. intros _ H. unfold instant_checked_add. by rewrite (proj2 (Z.leb_le _ _) H). Qed.

Section lemmas.
Context `{C : ChainApi, J : JsonApi}.

Lemma existsb_elem (x : string) l : existsb (String.eqb x) l = bool_decide (x ∈ l).
Proof.
  induction l as [| y l IH]; [done |]. simpl. rewrite IH.
  destruct (String.eqb_spec x y) as [-> | Hne]; simpl.
  - symmetry. apply bool_decide_eq_true. by left.
  - apply bool_decide_ext. rewrite elem_of_cons. tauto.
Qed.

Lemma whitelist_blacklist_check_admitted log owner whitelist blacklist :
  topics log !! 2%nat = Some owner ->
  exists b, whitelist_blacklist_check log whitelist blacklist = Ok b /\
    (b = true <-> admitted owner whitelist blacklist).
Proof.
  intros Ho. unfold whitelist_blacklist_check, any_owner, topic, admitted. rewrite Ho.
  cbn [unwrap mbind outcome_bind mret outcome_ret]. rewrite !existsb_elem.
  destruct whitelist as [| a wl], blacklist as [| b bl]; cbn [mbind outcome_bind negb];
    repeat case_bool_decide; cbn [negb mbind outcome_bind]; eexists; (split; [reflexivity |]);
    rewrite ?elem_of_nil; naive_solver.
Qed.

Lemma cut_off_spec cutoff (l : list Log) :
  Forall mined l ->
  cut_off (E := string) cutoff l = Ok (List.filter (fun log => cutoff <? block_of log) l).
Proof.
  unfold block_of. induction 1 as [| log l [b Hb] Hl IH]; simpl; [done |].
  rewrite Hb, IH. simpl. by destruct (cutoff <? b).
Qed.

Lemma filter_filter_andb {A} (p q : A -> bool) l :
  List.filter p (List.filter q l) = List.filter (fun x => p x && q x) l.
Proof.
  induction l as [| x l IH]; simpl; [done |].
  destruct (q x) eqn:Hq; simpl; destruct (p x) eqn:Hp; simpl; by rewrite ?IH.
Qed.

(** On a chain in block order, the logs up to a block come first. *)
Lemma filter_split_sorted (cutoff : Z) (p : Log -> bool) chain :
  StronglySorted (fun a b => block_of a <= block_of b) chain ->
  List.filter (fun log => p log && (block_of log <=? cutoff)) chain ++
  List.filter (fun log => (cutoff <? block_of log) && p log) chain = List.filter p chain.
Proof.
  induction 1 as [| log chain Hs IH Hf]; [done |]. simpl.
  destruct (p log) eqn:Hp; simpl; [| by rewrite andb_false_r].
  rewrite andb_true_r.
  destruct (Z.leb_spec (block_of log) cutoff); destruct (Z.ltb_spec cutoff (block_of log)); try lia;
    simpl; [by rewrite IH |].
  rewrite <- IH. replace (List.filter (fun log0 => p log0 && (block_of log0 <=? cutoff)) chain) with (@nil Log); [done |].
  clear -Hf H. induction Hf as [| x l Hx Hl IHl]; [done |]. simpl.
  destruct (Z.leb_spec (block_of x) cutoff); [lia |]. rewrite andb_false_r. exact IHl.
Qed.

Lemma filter_none {A} (p : A -> bool) l : Forall (fun x => p x = false) l -> List.filter p l = [].
Proof. induction 1 as [| x l Hx Hl IH]; simpl; [done |]. by rewrite Hx. Qed.

(** A reconnection skips the jobs already spawned. *)
Lemma run_from attempts (all : list (B256 * bool)) job_id : forall backoff k,
  Forall (fun a => match a with RSession js => js `prefix_of` all | _ => True end) attempts ->
  (k <= length all)%nat ->
  exists n, (k <= n <= length all)%nat /\
    (run attempts job_id backoff k).2 = (run_once (drop k (take n all)) job_id).1 /\
    forall js, RSession js ∈ attempts -> (length js <= n)%nat.
Proof.
  induction attempts as [| a l IH]; intros backoff k Hf Hk.
  - exists k. split; [lia |]. split; [| by intros js ?%elem_of_nil].
    rewrite drop_ge; [done |]. lengths.
  - apply Forall_cons in Hf as [Ha Hf]. destruct a as [| | js]; cbn [run].
    + destruct (IH (next_backoff backoff) k Hf Hk) as (n & Hn & Hr & Hall).
      destruct (run l _ _ _) as [sleeps spawned]. exists n. split; [done |]. split; [done |].
      intros js [Hjs | Hjs]%elem_of_cons; [done | by apply Hall].
    + destruct (IH 1 k Hf Hk) as (n & Hn & Hr & Hall).
      destruct (run l _ _ _) as [sleeps spawned]. exists n. split; [done |]. split; [done |].
      intros js [Hjs | Hjs]%elem_of_cons; [done | by apply Hall].
    + destruct Ha as [rest Hrest].
      assert (Hlen : (length js <= length all)%nat) by (subst all; lengths).
      cbn [run_once]. rewrite length_drop.
      destruct (IH 1 (k + (length js - k))%nat Hf) as (n & Hn & Hr & Hall); [lia |].
      destruct (run l _ _ _) as [sleeps spawned]. cbn in Hr |- *. subst spawned.
      exists n. split; [lia |]. split.
      * rewrite <- map_app. f_equal.
        replace (drop k js) with (drop k (take (k + (length js - k)) (take n all))).
        { destruct (decide (k <= length js)%nat).
          - replace (k + (length js - k))%nat with (length js) in * by lia.
            rewrite take_take, Nat.min_l by lia.
            rewrite <- (take_drop (length js) (take n all)) at 2.
            rewrite drop_app_le; [| lengths]. f_equal. f_equal.
            by rewrite take_take, Nat.min_l by lia.
          - replace (k + (length js - k))%nat with k in * by lia.
            rewrite (drop_ge (take k _)) by (lengths). done. }
        destruct (decide (k <= length js)%nat).
        -- replace (k + (length js - k))%nat with (length js) by lia.
           rewrite take_take, Nat.min_l by lia. subst all. by rewrite take_app_length.
        -- rewrite !drop_ge; [done | lia |]. lengths.
      * intros js' [Hjs | Hjs]%elem_of_cons; [injection Hjs as ->; lia | by apply Hall].
Qed.

(** The code of a log is 0, -2 or -3: -1 is the end of the stream. *)
Lemma process_log_code now rates gb_rates wl bl log s r s' :
  process_log now rates gb_rates wl bl (Some log) s = Ok (r, s') -> r = 0 \/ r = -2 \/ r = -3.
Proof.
  assert (Hl : forall (m : panics JobState) k, m ≫= (fun s => Ok (k, s)) = Ok (r, s') -> r = k).
  { intros m k H. by inv_ok. }
  unfold process_log, on_opened, on_settled, on_closed, on_deposited, on_withdrew,
    on_revise_rate_initiated, on_revise_rate_cancelled, on_revise_rate_finalized, on_metadata_updated,
    reject_update.
  intros (t & _ & H)%bind_Ok.
  repeat first [ match type of H with Ok _ = Ok _ => injection H as <- <- end
               | apply Hl in H; subst
               | apply bind_Ok in H as (? & _ & H)
               | case_match; try discriminate H ]; tauto.
Qed.

End lemmas.

(** ** Concrete instances for the witnesses *)
Module ToyProps.
Export ToyMarket.

(** A node whose subscription replays from block 2 and whose height is 2. *)
Definition toy_chain_logs : list Log := market_logs.
#[export] Instance toy_client : EthClient := {|
  subscribe_logs f := Ok (List.filter (matches f) (drop 2 toy_chain_logs));
  get_block_number := Ok 2;
  get_logs f b := Ok (List.filter (fun log => matches f log && (block_of log <=? b)) toy_chain_logs)
|}.

(** A job opened at rate 6 whose rate is then revised below the minimum. *)
Definition killed_state : JobState :=
  match process_logs toy_rates toy_gb_rates [] []
          [(0, market_opened 7 6); (0, mklog [JOB_REVISE_RATE_INITIATED; 7] [4] 2 0)] toy_state0 with
  | Ok (_, s) => s
  | _ => toy_state0
  end.
Definition update_log : Log := mklog [METADATA_UPDATED; 7] (codes_of_string "b") 3 0.

Definition solvent_state : JobState :=
  toy_state0 <| Market.balance := 1000 |> <| Market.rate := 2 * 10 ^ 12 |> <| Market.last_settled := from_secs 100 |>.

Definition toy_jobs : list (B256 * bool) := [(7, false); (8, false); (9, true)].
Definition toy_attempts : list RunAttempt :=
  [RConnectFailed; RSession (take 2 toy_jobs); RSubscribeFailed; RSession (take 1 toy_jobs); RSession toy_jobs].

End ToyProps.

(** ** Properties *)

(** C23: Solvency.  Without overflow and with the last settlement in the past,
    the insolvency time is never in the past, up to it the balance pays the
    rate (in units of 10^-12 per second) with 300 seconds to spare, and a job
    that still has time is not stopped more than 301 seconds early. *)
Theorem insolvency_is_exact (now_ts : Z) (s : JobState)
  (Hrate : 0 < Market.rate s) (Hbalance : 0 <= Market.balance s)
  (Hwidth : Market.balance s * 10 ^ 12 < 2 ^ 256)
  (Hsecs : Market.balance s * 10 ^ 12 / Market.rate s <= u64_MAX)
  (Hlast : Market.last_settled s <= now_ts) :
  let t := insolvency_time now_ts s in
  now_ts <= t /\
  (now_ts < t ->
    Market.rate s * (t + from_secs 300 - Market.last_settled s) <= Market.balance s * 10 ^ 12 * NANOS) /\
  (t = now_ts \/
    Market.balance s * 10 ^ 12 * NANOS < Market.rate s * (t + from_secs 301 - Market.last_settled s)).
Proof.
  unfold insolvency_time, insolvency_duration, solvent_secs, u256_mul, wrap, saturating_to_u64,
    saturating_sub, from_secs, NANOS.
  destruct (Z.eqb_spec (Market.rate s) 0); [lia |].
  rewrite Z.mod_small by lia. rewrite Z.min_l by lia.
  set (B := Market.balance s * 10 ^ 12) in *. set (r := Market.rate s) in *.
  pose proof (Z.div_mod B r ltac:(lia)). pose proof (Z.mod_pos_bound B r Hrate).
  set (q := B / r) in *. simpl. clearbody q B r. split_and!; [lia | intros; nia |].
  destruct (decide (q <= 300)); [left; lia |]. nia.
Qed.

Section properties.
Context `{C : ChainApi, J : JsonApi}.

(** Killed jobs come back.  A job killed for a rate below its minimum
    (termination pending) is put back to a pending launch by an acceptable
    metadata update with a new image, although its rate is still below the
    minimum. *)
Theorem metadata_update_revives_killed_job (now : Z) (rates : list RegionalRates)
  (gb_rates : list GBRateCard) (whitelist blacklist : list string) (log : Log) (s : JobState)
  (meta url : string) (v : Value)
  (Hd : NoDup signatures) (Htopic : topics log !! 0%nat = Some METADATA_UPDATED)
  (Hmeta : abi_decode_string (data log) = Some meta) (Hv : from_str meta = Some v)
  (Hok : acceptable_update s v url)
  (Hkilled : infra_change_scheduled s = true /\ infra_state s = false)
  (Hrate : Market.rate s < min_rate s)
  (Hclock : 0 <= launch_delay s /\ now + from_secs (launch_delay s) <= INSTANT_MAX) :
  exists s', process_log now rates gb_rates whitelist blacklist (Some log) s = Ok (0, s') /\
    infra_change_scheduled s' = true /\ infra_state s' = true /\ eif_url s' = url /\
    Market.rate s' < min_rate s'.
Proof.
  unfold process_log, topic. rewrite Htopic. cbn [unwrap mbind outcome_bind].
  dispatch Hd 11%nat 3%nat. unfold on_metadata_updated. rewrite Hmeta, Hv.
  destruct Hok as (-> & -> & -> & (t & -> & ->) & Hfam & -> & -> & Hurl).
  rewrite !String.eqb_refl, !Z.eqb_refl. cbn [negb].
  assert (match as_str v "family" with Some f => negb (String.eqb (family s) f) | None => false end = false) as ->.
  { destruct Hfam as [-> | ->]; [done |]. by rewrite String.eqb_refl. }
  rewrite eqb_reflx. cbn [negb]. rewrite (proj2 (String.eqb_neq _ _)) by congruence.
  unfold schedule_launch. rewrite instant_in_range by tauto. eexists. split; [reflexivity |]. done.
Qed.

(** C30: The job manager sees every log of its job once and in order.  When
    the node's subscription starts at or below its height ([k]) and its query
    covers the rest, the stream is the job's logs of the chain, with no gap
    and no duplicate at the cutoff. *)
Theorem job_logs_is_gapless `{E : EthClient} (contract : Z) (job : B256) (chain : list Log) (k : nat) (n : Z)
  (Hsorted : StronglySorted (fun a b => block_of a <= block_of b) chain)
  (Hmined : Forall mined chain)
  (Hheight : get_block_number = Ok n)
  (Hold : get_logs (job_filter contract job) n =
    Ok (List.filter (fun log => matches (job_filter contract job) log && (block_of log <=? n)) chain))
  (Hsub : subscribe_logs (job_filter contract job) =
    Ok (List.filter (matches (job_filter contract job)) (drop k chain)))
  (Hearly : Forall (fun log => block_of log <= n) (take k chain)) :
  job_logs contract job = Ok (List.filter (matches (job_filter contract job)) chain).
Proof.
  unfold job_logs, logs_around_cutoff. rewrite Hsub, Hheight. cbn [map_err mbind outcome_bind].
  rewrite Hold. cbn [map_err mbind outcome_bind].
  rewrite cut_off_spec.
  2: { apply Forall_forall. intros log Hlog. apply list_elem_of_In, filter_In in Hlog as [Hlog _].
       apply list_elem_of_In in Hlog. rewrite Forall_forall in Hmined. apply Hmined.
       rewrite <- (take_drop k chain). apply elem_of_app. by right. }
  cbn [mbind outcome_bind mret outcome_ret]. f_equal. rewrite filter_filter_andb.
  rewrite <- (filter_split_sorted n (matches (job_filter contract job)) chain Hsorted). f_equal.
  rewrite <- (take_drop k chain) at 2. rewrite List.filter_app.
  rewrite (filter_none _ (take k chain)); [done |].
  eapply Forall_impl; [exact Hearly |]. intros log Hb. simpl in Hb.
  destruct (Z.ltb_spec n (block_of log)); [lia | done].
Qed.

(** C32: One manager per job.  If every session's stream is a prefix of the
    chain's list of opened jobs, then over any number of connections,
    failures and stream ends the managers spawned are exactly those of the
    first [n] jobs, in order and once each, where [n] reaches every job any
    session delivered. *)
Theorem run_spawns_each_job_once (attempts : list RunAttempt) (all : list (B256 * bool)) (job_id : JobId)
  (backoff : Z)
  (Hprefix : Forall (fun a => match a with RSession js => js `prefix_of` all | _ => True end) attempts) :
  exists n, (n <= length all)%nat /\
    (run attempts job_id backoff 0).2 = (run_once (take n all) job_id).1 /\
    forall js, RSession js ∈ attempts -> (length js <= n)%nat.
Proof.
  destruct (run_from attempts all job_id backoff 0 Hprefix) as (n & Hn & Hr & Hall); [lia |].
  exists n. split; [lia |]. rewrite drop_0 in Hr. done.
Qed.

End properties.

(** ** Witnesses *)
Module PropsWitnesses.
Import ToyProps.

Lemma insolvency_is_exact_witness :
  insolvency_time (from_secs 150) solvent_state = from_secs 300 /\
  let t := insolvency_time (from_secs 150) solvent_state in
  from_secs 150 <= t /\
  (from_secs 150 < t ->
    Market.rate solvent_state * (t + from_secs 300 - Market.last_settled solvent_state)
      <= Market.balance solvent_state * 10 ^ 12 * NANOS) /\
  (t = from_secs 150 \/
    Market.balance solvent_state * 10 ^ 12 * NANOS
      < Market.rate solvent_state * (t + from_secs 301 - Market.last_settled solvent_state)).
Proof.
  split; [vm_compute; reflexivity |].
  apply (insolvency_is_exact (from_secs 150) solvent_state); apply (bool_decide_eq_true_1 _); vm_compute; reflexivity.
Defined.

Lemma metadata_update_revives_killed_job_witness :
  infra_state killed_state = false /\
  exists s', process_log 5 toy_rates toy_gb_rates [] [] (Some update_log) killed_state = Ok (0, s') /\
    infra_change_scheduled s' = true /\ infra_state s' = true /\ eif_url s' = "https://b"%string /\
    Market.rate s' < min_rate s'.
Proof.
  split; [vm_compute; reflexivity |].
  apply (metadata_update_revives_killed_job (J := toy_json) 5 toy_rates toy_gb_rates [] [] update_log killed_state
    "b" "https://b" (toy_doc "https://b")).
  - apply (bool_decide_eq_true_1 _). vm_compute. reflexivity.
  - reflexivity.
  - vm_compute. reflexivity.
  - reflexivity.
  - refine (conj _ (conj _ (conj _ (conj (ex_intro _ 2 (conj _ _)) (conj (or_introl _) (conj _ (conj _ _)))))));
      vm_compute; [reflexivity .. | discriminate].
  - split; vm_compute; reflexivity.
  - vm_compute. reflexivity.
  - split; vm_compute; discriminate.
Defined.

Lemma job_logs_is_gapless_witness :
  job_logs 0 7 = Ok (List.filter (matches (job_filter 0 7)) toy_chain_logs) /\
  length (List.filter (matches (job_filter 0 7)) toy_chain_logs) = 4%nat.
Proof.
  split; [| vm_compute; reflexivity].
  apply (job_logs_is_gapless 0 7 toy_chain_logs 2 2).
  - repeat constructor; vm_compute; discriminate.
  - repeat constructor; vm_compute; eauto.
  - reflexivity.
  - reflexivity.
  - reflexivity.
  - repeat constructor; vm_compute; discriminate.
Defined.

Lemma run_spawns_each_job_once_witness :
  exists n, (n <= length toy_jobs)%nat /\
    (run toy_attempts toy_job_id 1 0).2 = (run_once (take n toy_jobs) toy_job_id).1 /\
    forall js, RSession js ∈ toy_attempts -> (length js <= n)%nat.
Proof.
  apply (run_spawns_each_job_once toy_attempts toy_jobs toy_job_id 1).
  repeat constructor; [by exists [(9, true)] | by exists [(8, false); (9, true)] | by exists []].
Defined.

End PropsWitnesses.
