(* ===== verification/MarketOpening.v ===== *)
(** * Control plane: the decision on a new job

    What a JobOpened log asks for ([opening_of]), the state of a job that
    took the request ([requested]) and the three outcomes of the request
    ([opening_outcome]); [process_log] reaches exactly these. *)

From S2P Require Import Prelude Chain Market MarketProps OperatorLedger.

(** ** The request of a JobOpened log *)

(** Amounts and the settlement time (in nanoseconds) of the log's data, and
    the fields of the metadata document. *)
Record Opening := mkOpening {
  op_balance : Z;
  op_rate : Z;
  op_settled : Z;
  op_instance : string;
  op_region : string;
  op_memory : Z;
  op_vcpus : Z;
  op_url : string;
  op_family : option string;
  op_debug : option bool
}.

Definition opening_of `{C : ChainApi, J : JsonApi} (log : Log) (o : Opening) : Prop :=
  exists meta secs v,
    abi_decode_opened (data log) = Some (meta, op_rate o, op_balance o, secs) /\
    op_settled o = Z.min secs u64_MAX * NANOS /\
    from_str meta = Some v /\
    as_str v "instance" = Some (op_instance o) /\ as_str v "region" = Some (op_region o) /\
    as_i64 v "memory" = Some (op_memory o) /\ as_i64 v "vcpu" = Some (op_vcpus o) /\
    as_str v "url" = Some (op_url o) /\ as_str v "family" = op_family o /\
    as_bool v "debug" = op_debug o.

(** The job with the requested fields; a processor count outside [i32] is
    the largest one. *)
Definition requested (o : Opening) (s : JobState) : JobState := {|
  job_id := job_id s;
  launch_delay := launch_delay s;
  allowed_regions := allowed_regions s;
  balance := op_balance o;
  last_settled := op_settled o;
  rate := op_rate o;
  original_rate := op_rate o;
  instance_id := instance_id s;
  family := default (family s) (op_family o);
  min_rate := min_rate s;
  bandwidth := bandwidth s;
  eif_url := op_url o;
  instance_type := op_instance o;
  region := op_region o;
  req_vcpus := i32_or i32_MAX (op_vcpus o);
  req_mem := op_memory o;
  debug := default (debug s) (op_debug o);
  infra_state := infra_state s;
  infra_change_time := infra_change_time s;
  infra_change_scheduled := infra_change_scheduled s;
  eif_update := eif_update s
|}.

(** ** The outcome *)

(** [x] is the first element of [l] with the property. *)
Definition first_with {A} (f : A -> Prop) (l : list A) (x : A) : Prop :=
  exists pre post, l = pre ++ x :: post /\ f x /\ Forall (fun y => ~ f y) pre.

(** The minimum rate: of the first card for the instance type among the
    cards of the first entry for the region. *)
Definition priced (rates : list RegionalRates) (region instance : string) (m : Z) : Prop :=
  exists entry card,
    first_with (fun e => rr_region e = region) rates entry /\
    first_with (fun c => rc_instance c = instance) (rr_rate_cards entry) card /\ rc_min_rate card = m.

(** The bandwidth that the rate above the minimum buys at the first price of
    the region, [old] where the region has no price. *)
Definition bought (gb_rates : list GBRateCard) (region : string) (excess old b : Z) : Prop :=
  (Forall (fun e => gb_region_code e <> region) gb_rates /\ b = old) \/
  exists e, first_with (fun e => gb_region_code e = region) gb_rates e /\ gb_rate e <> 0 /\
    b = Z.min (Z.min (excess * (1024 * 1024 * 8)) u256_MAX / gb_rate e) u64_MAX.

Definition scheduled (launch : bool) (at_ : Z) (s : JobState) : JobState :=
  s <| infra_change_scheduled := true |> <| infra_change_time := at_ |> <| infra_state := launch |>.

Section outcome.
Context `{C : ChainApi}.
Context (now : Z) (rates : list RegionalRates) (gb_rates : list GBRateCard).
Context (whitelist blacklist : list string) (owner : B256) (s : JobState) (o : Opening).

Inductive opening_outcome : Z -> JobState -> Prop :=
| opening_refused :
    ~ admitted owner whitelist blacklist ->
    opening_outcome (-3) (scheduled false now (requested o s))
| opening_underpaid m :
    admitted owner whitelist blacklist ->
    priced rates (op_region o) (op_instance o) m -> op_rate o < m ->
    opening_outcome 0 (scheduled false now (requested o s <| min_rate := m |>))
| opening_launched m b :
    admitted owner whitelist blacklist ->
    priced rates (op_region o) (op_instance o) m -> m <= op_rate o ->
    bought gb_rates (op_region o) (u256_sub (op_rate o) m) (bandwidth s) b ->
    now + launch_delay s * NANOS <= INSTANT_MAX ->
    opening_outcome 0 (scheduled true (now + launch_delay s * NANOS)
                         (requested o s <| min_rate := m |> <| bandwidth := b |>)).

End outcome.

(** ** Lemmas *)

Lemma find_first_with {A} (g : A -> bool) (f : A -> Prop) l x :
  (forall y, g y = true <-> f y) -> find g l = Some x <-> first_with f l x.
Proof.
  intros Hg. unfold first_with. split.
  - induction l as [| y l IH]; simpl; [done |]. destruct (g y) eqn:Hy.
    + intros [= <-]. exists [], l. split_and!; [done | by apply Hg | constructor].
    + intros (pre & post & -> & Hx & Hpre)%IH. exists (y :: pre), post.
      split_and!; [done | done |]. constructor; [| done]. intros ?%Hg. congruence.
  - intros (pre & post & -> & Hx%Hg & Hpre). induction Hpre as [| y pre Hy _ IH]; simpl; [by rewrite Hx |].
    destruct (g y) eqn:Hgy; [| exact IH]. by apply Hg in Hgy.
Qed.

Lemma find_none_with {A} (g : A -> bool) (f : A -> Prop) l :
  (forall y, g y = true <-> f y) -> find g l = None <-> Forall (fun y => ~ f y) l.
Proof.
  intros Hg. induction l as [| y l IH]; simpl; [split; [constructor | done] |].
  rewrite Forall_cons, <- IH. destruct (g y) eqn:Hy.
  - apply Hg in Hy. split; [done | by intros [[] _]].
  - split; [intros Hn; split; [| done] | by intros [_ ?]]. intros ?%Hg. congruence.
Qed.

Lemma find_min_rate_priced rates region instance m :
  find_min_rate rates region instance = Some m <-> priced rates region instance m.
Proof.
  pose proof (fun x l => find_first_with (fun e => String.eqb (rr_region e) region) _ l x
    (fun e => String.eqb_eq _ _)) as He.
  pose proof (fun x l => find_first_with (fun c => String.eqb (rc_instance c) instance) _ l x
    (fun c => String.eqb_eq _ _)) as Hc.
  unfold find_min_rate, priced. split.
  - destruct (find _ rates) as [e |] eqn:Hfe; [| done]. apply He in Hfe.
    destruct (find _ (rr_rate_cards e)) as [c |] eqn:Hfc; [| done]. apply Hc in Hfc.
    intros [= <-]. by exists e, c.
  - intros (e & c & ->%He & ->%Hc & <-). done.
Qed.

Lemma find_bandwidth_bought gb_rates s s' :
  find_bandwidth gb_rates s = Ok s' <->
  exists b, s' = s <| bandwidth := b |> /\
    bought gb_rates (region s) (u256_sub (rate s) (min_rate s)) (bandwidth s) b.
Proof.
  unfold find_bandwidth, bought.
  assert (Hf : forall e, String.eqb (gb_region_code e) (region s) = true <-> gb_region_code e = region s).
  { intros e. apply String.eqb_eq. }
  destruct (find _ _) as [e |] eqn:He.
  - pose proof (proj1 (find_first_with _ _ _ _ Hf) He) as Hfirst.
    destruct (Z.eqb_spec (gb_rate e) 0) as [H0 | H0]; split.
    + done.
    + intros (b & _ & [[Hnone _] | (e' & He'%(find_first_with _ _ _ _ Hf) & Hn & _)]).
      * apply (find_none_with _ _ _ Hf) in Hnone. congruence.
      * congruence.
    + intros [= <-]. eexists. split; [reflexivity |]. right. by exists e.
    + intros (b & -> & [[Hnone _] | (e' & He'%(find_first_with _ _ _ _ Hf) & _ & ->)]).
      * apply (find_none_with _ _ _ Hf) in Hnone. congruence.
      * assert (e' = e) as -> by congruence. done.
  - pose proof (proj1 (find_none_with _ _ _ Hf) He) as Hnone. split.
    + intros [= <-]. exists (bandwidth s). split; [by destruct s | by left].
    + intros (b & -> & [[_ ->] | (e' & He'%(find_first_with _ _ _ _ Hf) & _)]); [by destruct s |].
      congruence.
Qed.

Lemma schedule_launch_iff now d s s' :
  schedule_launch now d s = Ok s' <->
  now + d * NANOS <= INSTANT_MAX /\ s' = scheduled true (now + d * NANOS) s.
Proof.
  unfold schedule_launch, instant_checked_add, from_secs, scheduled.
  destruct (Z.leb_spec (now + d * NANOS) INSTANT_MAX); cbn [unwrap mbind outcome_bind mret outcome_ret];
    split; [by intros [= <-] | by intros [_ ->] | done | lia].
Qed.

Lemma schedule_termination_now now s :
  now <= INSTANT_MAX -> schedule_termination now 0 s = Ok (scheduled false now s).
Proof.
  intros Hnow. unfold schedule_termination, instant_checked_add, from_secs, scheduled.
  rewrite Z.mul_0_l, Z.add_0_r, (proj2 (Z.leb_le _ _) Hnow). done.
Qed.

Section decision.
Context `{C : ChainApi, J : JsonApi}.
Context (now : Z) (rates : list RegionalRates) (gb_rates : list GBRateCard).
Context (whitelist blacklist : list string) (log : Log).

(** The second half of [on_opened]: the checks on a state that took the
    request. *)
Definition decide_opened (s : JobState) : panics (Z * JobState) :=
  allowed ← whitelist_blacklist_check log whitelist blacklist;
  if negb allowed then s ← schedule_termination now 0 s; Ok (-3, s) else
  let? m := find_min_rate rates (region s) (instance_type s) else Ok (-2, s) in
  let s := s <| min_rate := m |> in
  if m <=? rate s then
    s ← find_bandwidth gb_rates s;
    s ← schedule_launch now (launch_delay s) s;
    Ok (0, s)
  else
    s ← schedule_termination now 0 s;
    Ok (0, s).

(** The state after the assignments of [on_opened] is [requested]. *)
Lemma on_opened_decides s o :
  opening_of log o -> op_region o ∈ allowed_regions s ->
  on_opened now rates gb_rates whitelist blacklist log s = decide_opened (requested o s).
Proof.
  intros (meta & secs & v & Hd & Hsec & Hv & Hi & Hr & Hm & Hc & Hu & Hf & Hb) Hreg.
  unfold on_opened. rewrite Hd, Hv, Hi, Hr, existsb_elem, (bool_decide_eq_true_2 _ Hreg), Hm, Hc, Hu, Hf, Hb.
  cbn [negb].
  match goal with |- (whitelist_blacklist_check _ _ _ ≫= ?k) = _ =>
    match k with context [schedule_termination now 0 ?st] => assert (st = requested o s) as -> end end.
  { destruct s, o as [bal rt st inst reg mem vc url fam deb]; simpl in *. subst. by destruct (as_str v "family"), (as_bool v "debug"). }
  reflexivity.
Qed.

Lemma on_opened_request s r s' :
  on_opened now rates gb_rates whitelist blacklist log s = Ok (r, s') -> r <> -2 ->
  exists o, opening_of log o /\ op_region o ∈ allowed_regions s.
Proof.
  unfold on_opened. intros Hp Hr.
  destruct (abi_decode_opened (data log)) as [[[[meta rt] bal] secs] |] eqn:Hd; [| congruence].
  destruct (from_str meta) as [v |] eqn:Hv; [| congruence].
  destruct (as_str v "instance") as [inst |] eqn:Hi; [| congruence].
  destruct (as_str v "region") as [reg |] eqn:Hreg; [| congruence].
  rewrite existsb_elem in Hp. case_bool_decide as Hin; [| cbn [negb] in Hp; congruence]. cbn [negb] in Hp.
  destruct (as_i64 v "memory") as [mem |] eqn:Hm; [| congruence].
  destruct (as_i64 v "vcpu") as [vcpu |] eqn:Hc; [| congruence].
  destruct (as_str v "url") as [url |] eqn:Hu; [| congruence].
  exists (mkOpening bal rt (Z.min secs u64_MAX * NANOS) inst reg mem vcpu url
    (as_str v "family") (as_bool v "debug")).
  split; [by exists meta, secs, v | exact Hin].
Qed.

Lemma decide_opened_iff owner s o r s' :
  topics log !! 2%nat = Some owner -> now <= INSTANT_MAX ->
  decide_opened (requested o s) = Ok (r, s') /\ r <> -2 <->
  opening_outcome now rates gb_rates whitelist blacklist owner s o r s'.
Proof.
  intros Ho Hnow. destruct (whitelist_blacklist_check_admitted log owner whitelist blacklist Ho) as (b & Hb & Hadm).
  unfold decide_opened. rewrite Hb. cbn [mbind outcome_bind]. split.
  - intros [Hp Hr]. destruct b; cbn [negb] in Hp.
    + destruct (find_min_rate _ _ _) as [m |] eqn:Hm; [| congruence]. apply find_min_rate_priced in Hm.
      change (rate (requested o s <| min_rate := m |>)) with (op_rate o) in Hp.
      destruct (Z.leb_spec m (op_rate o)) as [Hle | Hlt].
      * apply bind_Ok in Hp as (s1 & (bw & -> & Hbw)%find_bandwidth_bought & Hp).
        apply bind_Ok in Hp as (s2 & [Hl ->]%schedule_launch_iff & Hp). injection Hp as <- <-.
        by constructor; [apply Hadm | ..].
      * rewrite schedule_termination_now in Hp by done. injection Hp as <- <-.
        by constructor; [apply Hadm | ..].
    + rewrite schedule_termination_now in Hp by done. injection Hp as <- <-.
      constructor. intros ?%Hadm. done.
  - intros Hout. inversion Hout as [Hno | m Hyes Hm Hlt | m bw Hyes Hm Hle Hbw Hl]; subst.
    + destruct b; [by destruct Hno; apply Hadm |]. cbn [negb].
      by rewrite schedule_termination_now.
    + apply Hadm in Hyes as ->. cbn [negb]. apply find_min_rate_priced in Hm.
      change (op_region o) with (region (requested o s)) in Hm.
      change (op_instance o) with (instance_type (requested o s)) in Hm.
      rewrite Hm. change (rate (requested o s <| min_rate := m |>)) with (op_rate o).
      rewrite (proj2 (Z.leb_gt m (op_rate o)) Hlt).
      by rewrite schedule_termination_now.
    + apply Hadm in Hyes as ->. cbn [negb]. apply find_min_rate_priced in Hm.
      change (op_region o) with (region (requested o s)) in Hm.
      change (op_instance o) with (instance_type (requested o s)) in Hm.
      rewrite Hm. change (rate (requested o s <| min_rate := m |>)) with (op_rate o).
      rewrite (proj2 (Z.leb_le m (op_rate o)) Hle).
      rewrite (proj2 (find_bandwidth_bought gb_rates (requested o s <| min_rate := m |>)
        (requested o s <| min_rate := m |> <| bandwidth := bw |>))) by (by exists bw).
      cbn [mbind outcome_bind]. by rewrite (proj2 (schedule_launch_iff _ _ _ _) (conj Hl eq_refl)).
Qed.

(** C21: Opening a job.  A JobOpened log is accepted (code 0 or -3) exactly
    when its data and metadata decode and name an allowed region, and the new
    state is then determined by the log: the job takes the balance, rate,
    settlement time, instance type, region, memory, processors, url, family
    and debug mode of the log; an owner the lists do not admit gives code -3
    and an immediate termination; otherwise the code is 0, the minimum rate
    is that of the first card of the region for the instance type, and the
    job is launched after the configured delay, with the bandwidth that the
    rate above the minimum buys, or terminated at once when its rate is below
    the minimum. *)
Theorem job_opened_decision (s s' : JobState) (owner r : Z)
  (Htopic : topics log !! 0%nat = Some Market.JOB_OPENED) (Howner : topics log !! 2%nat = Some owner)
  (Hnow : now <= INSTANT_MAX) :
  process_log now rates gb_rates whitelist blacklist (Some log) s = Ok (r, s') /\ r <> -2 <->
  exists o, opening_of log o /\ op_region o ∈ allowed_regions s /\
    opening_outcome now rates gb_rates whitelist blacklist owner s o r s'.
Proof.
  assert (process_log now rates gb_rates whitelist blacklist (Some log) s =
    on_opened now rates gb_rates whitelist blacklist log s) as ->.
  { unfold process_log, topic. rewrite Htopic. cbn [unwrap mbind outcome_bind]. by rewrite Z.eqb_refl. }
  split.
  - intros [Hp Hr]. destruct (on_opened_request _ _ _ Hp Hr) as (o & Hof & Hin).
    exists o. split_and!; [done | done |]. apply decide_opened_iff; [done | done |].
    by rewrite <- (on_opened_decides s o).
  - intros (o & Hof & Hin & Hout). rewrite (on_opened_decides s o) by done.
    by apply (decide_opened_iff owner s o).
Qed.

End decision.

(** ** Witness *)
Module OpeningWitnesses.
Import ToyProps.

(** A job of rate 6 is launched at once, with the bandwidth that 1 above the
    minimum of 5 buys at price 2. *)
Lemma job_opened_decision_witness :
  exists s', process_log 0 toy_rates toy_gb_rates [] [] (Some (market_opened 7 6)) toy_state0 = Ok (0, s') /\
    Market.rate s' = 6 /\ Market.balance s' = 1000 /\ bandwidth s' = 4194304 /\ infra_state s' = true /\
    exists o, opening_of (market_opened 7 6) o /\ op_region o ∈ allowed_regions toy_state0 /\
      opening_outcome 0 toy_rates toy_gb_rates [] [] 21 toy_state0 o 0 s'.
Proof.
  eexists. split; [vm_compute; reflexivity |]. do 4 (split; [reflexivity |]).
  apply (job_opened_decision 0 toy_rates toy_gb_rates [] [] (market_opened 7 6) toy_state0 _ 21 0).
  - reflexivity.
  - reflexivity.
  - apply (bool_decide_eq_true_1 _). vm_compute. reflexivity.
  - split; [vm_compute; reflexivity | discriminate].
Defined.

End OpeningWitnesses.
