(* ===== verification/MarketCloud.v ===== *)
(** * Control plane: the job loop against a cloud that keeps its contract

    The class [Cloud] states what the control plane needs of an
    [InfraProvider]: a view of the job's instance that [get_job_instance]
    reports and that only successful launches and terminations change.  The
    way the job loop ends is proved against it; [MarketFleet] counts the
    instances a change leaves. *)

From S2P Require Import Prelude Chain IndexerDb IndexerHandlers IndexerProps Market.
From S2P Require Import MarketInfra MarketStreams OperatorLedger MarketProps.

(** ** Definitions *)

Definition alive (st : string) : bool := state_in st ["pending"; "running"]%string.
Definition dead (st : string) : bool := state_in st ["shutting-down"; "terminated"]%string.

Class Cloud (P : Type) `{InfraProvider P} := {
  (* the instance of a job in a region and its state *)
  instance_of : P -> JobId -> string -> option (string * string);
  get_job_instance_law : forall j r p p' x, get_job_instance j r p = (p', x) ->
    p' = p /\ forall e i st, x = Some (e, i, st) ->
      instance_of p j r = if (e : bool) then Some (i, st) else None;
  spin_up_law : forall j ty fam r mem vcpu bw p p' i,
    spin_up j ty fam r mem vcpu bw p = (p', Some i) ->
    exists st, alive st = true /\ instance_of p' j r = Some (i, st);
  spin_down_law : forall i j r p p' st,
    instance_of p j r = Some (i, st) -> spin_down i j r p = (p', Some tt) ->
    forall i' st', instance_of p' j r = Some (i', st') -> dead st' = true;
  run_enclave_law : forall j i fam r url vcpu mem bw dbg p,
    instance_of (run_enclave j i fam r url vcpu mem bw dbg p).1 = instance_of p;
  update_enclave_image_law : forall i r url vcpu mem p,
    instance_of (update_enclave_image i r url vcpu mem p).1 = instance_of p
}.

Section definitions.
Context `{Cd : Cloud P}.

(** The job's instance is the one the state records, and is alive. *)
Definition healthy (p : P) (s : JobState) : Prop :=
  exists st, alive st = true /\ instance_of p (job_id s) (region s) = Some (instance_id s, st).

(** No live instance is left for the job. *)
Definition gone (p : P) (s : JobState) : Prop :=
  forall i st, instance_of p (job_id s) (region s) = Some (i, st) -> dead st = true.

End definitions.

(** ** Lemmas *)

Section lemmas.
Context `{Cd : Cloud P}.

Lemma launch_new_healthy s p s' p' :
  launch_new s p = (true, s', p') ->
  healthy p' s' /\ exists i, s' = s <| instance_id := i |>.
Proof.
  unfold launch_new, run_enclave_for.
  destruct (spin_up _ _ _ _ _ _ _ p) as [p1 [i |]] eqn:Hup; [| done].
  apply spin_up_law in Hup as (st & Hst & Hi).
  match goal with |- context [run_enclave ?a ?b ?c ?d ?e ?f ?g ?h ?k p1] =>
    pose proof (run_enclave_law a b c d e f g h k p1) as Hrun;
    destruct (run_enclave a b c d e f g h k p1) as [p2 [[] |]] end;
  intros [= <- <-]; (split; [| eauto]); exists st; simpl in *; by rewrite Hrun.
Qed.

Lemma change_infra_impl_keeps s p res s' p' :
  change_infra_impl s p = (res, s', p') ->
  exists i u, s' = s <| instance_id := i |> <| eif_update := u |>.
Proof.
  assert (Hid : forall s0, exists i u, s0 = s0 <| instance_id := i |> <| eif_update := u |>).
  { intros s0. exists (instance_id s0), (eif_update s0). by destruct s0. }
  unfold change_infra_impl, launch_new. intros Hc.
  repeat case_match; simplify_eq/=; first [apply Hid | do 2 eexists; reflexivity].
Qed.

Lemma change_infra_impl_target s p s' p' :
  change_infra_impl s p = (true, s', p') ->
  if infra_state s then healthy p' s' else gone p' s'.
Proof.
  unfold change_infra_impl.
  destruct (get_job_instance _ _ p) as [p1 [[[e i] st] |]] eqn:Hget; [| done].
  apply get_job_instance_law in Hget as [-> Hget]. specialize (Hget e i st eq_refl).
  destruct (infra_state s).
  - destruct (e && state_in st ["pending"; "running"]%string) eqn:Ha.
    { apply andb_true_iff in Ha as [-> Ha]. cbn [eif_update over].
      destruct (eif_update s); [| intros [= <- <-]; by exists st].
      match goal with |- context [update_enclave_image ?a ?b ?c ?d ?e p] =>
        pose proof (update_enclave_image_law a b c d e p) as Hup;
        destruct (update_enclave_image a b c d e p) as [p2 [[] |]] end; [| done].
      intros [= <- <-]. exists st. simpl in *. by rewrite Hup. }
    destruct (e && state_in st ["stopping"; "stopped"]%string).
    + destruct (spin_down _ _ _ p) as [p2 [[] |]]; [| done].
      intros Hl. by apply launch_new_healthy in Hl as [? _].
    + intros Hl. by apply launch_new_healthy in Hl as [? _].
  - destruct (negb e || state_in st ["shutting-down"; "terminated"]%string) eqn:Hd.
    + intros [= <- <-] i' st'. rewrite Hget. destruct e; [| done]. intros [= <- <-]. exact Hd.
    + destruct e; [| done]. destruct (spin_down _ _ _ p) as [p2 [[] |]] eqn:Hdown; [| done].
      intros [= <- <-] i' st'. by apply (spin_down_law _ _ _ _ _ _ Hget Hdown).
Qed.

Lemma select_Some t s b :
  select t s = Some b -> exists q, q ∈ polls t /\ ready_branch t s q = Some b.
Proof.
  unfold select. induction (polls t) as [| q l IH]; [done |]. simpl.
  destruct (ready_branch t s q) as [b' |] eqn:Hq; simpl.
  - intros [= ->]. exists q. split; [by left | done].
  - intros (q' & Hin & Hr)%IH. exists q'. split; [by right | done].
Qed.

Lemma ready_branch_log t s q log : ready_branch t s q = Some (BLog log) -> poll_log q = Some log.
Proof. unfold ready_branch. intros. repeat case_match; simplify_eq; done. Qed.

End lemmas.

(** ** Concrete instances for the witnesses *)
Module ToyCloud.
Export ToyProps.

(** The cloud of a single job: its instance, if any. *)
Definition Account : Type := option (string * string).

#[export] Instance toy_provider : InfraProvider Account := {|
  spin_up _ _ _ _ _ _ _ p := (Some ("i-1", "pending"), Some "i-1")%string;
  spin_down _ _ _ p :=
    (match p with Some (i, _) => Some (i, "shutting-down"%string) | None => None end, Some tt);
  get_job_instance _ _ p :=
    (p, Some match p with Some (i, st) => (true, i, st) | None => (false, "", "")%string end);
  check_instance_running _ _ p := (p, Some match p with Some (_, st) => alive st | None => false end);
  check_enclave_running _ _ p := (p, Some true);
  run_enclave _ _ _ _ _ _ _ _ _ p := (p, Some tt);
  update_enclave_image _ _ _ _ _ p := (p, Some tt)
|}.

#[export, refine] Instance toy_cloud : Cloud Account := {| instance_of p _ _ := p |}.
Proof.
  - intros j r p p' x [= <- <-]. split; [done |]. intros e i st [= Heq]. destruct p as [[i' st'] |]; by simplify_eq.
  - intros j ty fam r mem vcpu bw p p' i [= <- <-]. by exists "pending"%string.
  - intros i j r p p' st -> [= <-] i' st' [= <- <-]. done.
  - done.
  - done.
Defined.

(** The open log arrives, the launch delay passes, the close log arrives. *)
Definition toy_turns : list Turn :=
  [ mkTurn 0 (from_secs 60) [mkPoll 1 (Some (Some (market_opened 7 6)))] 1;
    mkTurn 1 (from_secs 60) [mkPoll (from_secs 2) None; mkPoll (from_secs 4) None] (from_secs 4);
    mkTurn (from_secs 4) (from_secs 64) [mkPoll (from_secs 5) (Some (Some (mklog [Market.JOB_CLOSED; 7] [] 4 0)))]
      (from_secs 5);
    mkTurn (from_secs 5) (from_secs 65) [mkPoll (from_secs 6) None] (from_secs 6) ].

Definition loop_state (turns : list Turn) : JobState * Account :=
  match job_loop toy_rates toy_gb_rates [] [] turns toy_state0 None with
  | Ok (_, s, p) => (s, p)
  | _ => (toy_state0, None)
  end.

(** A log whose document changes the instance type. *)
Definition other_doc : Doc := mkDoc [("instance", "c6a.metal")]%string [] [].
#[export] Instance toy_json2 : JsonApi := {|
  Value := Doc;
  from_str s := if String.eqb s "c" then Some other_doc else None;
  as_str v := field (strings v);
  as_i64 v := field (ints v);
  as_bool v := field (bools v)
|}.
Definition bad_update : Log := mklog [METADATA_UPDATED; 7] (codes_of_string "c") 3 0.
Definition bad_turn : Turn := mkTurn (from_secs 4) (from_secs 64) [mkPoll (from_secs 5) (Some (Some bad_update))] (from_secs 5).
Definition running : JobState * Account := loop_state (take 2 toy_turns).

End ToyCloud.

(** ** Properties *)

Section properties.
Context `{Cd : Cloud P}.

(** C34: A job is launched, or its termination carried out, only when no log
    is waiting, after the scheduled time, and -- for a launch -- strictly
    before the insolvency time computed at the start of the turn. *)
Theorem infra_changes_are_due (t : Turn) (s : JobState) (Hsel : select t s = Some BInfra) :
  exists q, q ∈ polls t /\ poll_log q = None /\ infra_change_scheduled s = true /\
    infra_change_time s <= poll_now q /\
    (infra_state s = true -> poll_now q < start_now t + insolvency_duration (start_ts t) s).
Proof.
  apply select_Some in Hsel as (q & Hq & Hr). exists q. unfold ready_branch, saturating_duration_since, saturating_sub in Hr.
  destruct (poll_log q); [done |].
  destruct (negb (String.eqb (instance_id s) "") && _); [done |].
  destruct (infra_change_scheduled s), (infra_state s); cbn [negb orb andb] in Hr;
    repeat (case_match; try done); split_and!; try done; intros; try done; lia.
Qed.

Context `{C : ChainApi, J : JsonApi}.
Variables (rates : list RegionalRates) (gb_rates : list GBRateCard) (whitelist blacklist : list string).


(** A rejected metadata update leaks the instance.  On an update that
    changes the instance type the job loop schedules the termination of the
    running instance and leaves with -2 in the same turn, without a call to
    the provider: the instance stays alive, with nothing left to stop it. *)
Theorem rejected_update_leaks_instance (t : Turn) (turns : list Turn) (s : JobState) (p : P) (log : Log)
  (meta ty : string) (v : Value)
  (Hd : NoDup signatures) (Hsel : select t s = Some (BLog (Some log)))
  (Htopic : topics log !! 0%nat = Some METADATA_UPDATED)
  (Hmeta : abi_decode_string (data log) = Some meta) (Hv : from_str meta = Some v)
  (Hty : as_str v "instance" = Some ty) (Hne : ty <> instance_type s)
  (Hclock : handler_now t <= INSTANT_MAX) (Hhealthy : healthy p s) :
  exists s', job_loop rates gb_rates whitelist blacklist (t :: turns) s p = Ok (Some (-2), s', p) /\
    infra_change_scheduled s' = true /\ infra_state s' = false /\ healthy p s'.
Proof.
  cbn [job_loop]. rewrite Hsel. cbn [run_branch]. unfold process_log, topic. rewrite Htopic.
  cbn [unwrap mbind outcome_bind]. dispatch Hd 11%nat 3%nat. unfold on_metadata_updated.
  rewrite Hmeta, Hv, Hty. rewrite (proj2 (String.eqb_neq _ _)) by congruence. cbn [negb].
  unfold reject_update, schedule_termination. rewrite instant_in_range by (unfold from_secs; lia).
  eexists. split; [reflexivity |]. done.
Qed.

End properties.

(** ** Witnesses *)
Module CloudWitnesses.
Import ToyCloud.

Lemma infra_changes_are_due_witness :
  let t := nth 1 toy_turns bad_turn in
  let s := (loop_state (take 1 toy_turns)).1 in
  select t s = Some BInfra /\
  exists q, q ∈ polls t /\ poll_log q = None /\ infra_change_scheduled s = true /\
    infra_change_time s <= poll_now q /\
    (infra_state s = true -> poll_now q < start_now t + insolvency_duration (start_ts t) s).
Proof.
  intros t s. split; [vm_compute; reflexivity |].
  apply (infra_changes_are_due t s). vm_compute. reflexivity.
Defined.


Lemma rejected_update_leaks_instance_witness :
  exists s', job_loop (J := toy_json2) toy_rates toy_gb_rates [] [] [bad_turn] running.1 running.2
      = Ok (Some (-2), s', running.2) /\
    infra_change_scheduled s' = true /\ infra_state s' = false /\ healthy running.2 s'.
Proof.
  apply (rejected_update_leaks_instance (J := toy_json2) toy_rates toy_gb_rates [] [] bad_turn [] running.1 running.2
    bad_update "c" "c6a.metal" other_doc).
  - apply (bool_decide_eq_true_1 _). vm_compute. reflexivity.
  - vm_compute. reflexivity.
  - reflexivity.
  - vm_compute. reflexivity.
  - reflexivity.
  - reflexivity.
  - vm_compute. discriminate.
  - vm_compute. discriminate.
  - exists "pending"%string. split; vm_compute; reflexivity.
Defined.

End CloudWitnesses.
