(* ===== verification/MarketFleet.v ===== *)
(** * Control plane: an infrastructure change leaves one instance, or none

    The class [Fleet] states what an [InfraProvider] promises about the set
    of instances of every job: what a look reports, what a launch adds and a
    termination takes away.  Nothing in it keeps a job from having several
    instances; that a change leaves exactly the wanted one is a theorem on
    [change_infra].  (On AWS a look may report a terminated instance although
    a live one exists: [AwsProps.terminated_instance_hides_live].) *)

From S2P Require Import Prelude Chain Market MarketInfra OperatorLedger MarketProps MarketCloud.

(** ** The instances of the jobs *)

(** The live instances among those of a job, given with their states. *)
Definition live (m : gmap string string) : gset string :=
  dom (filter (fun kv => dead kv.2 = false) m).

Definition ec2_states : list string :=
  ["pending"; "running"; "shutting-down"; "terminated"; "stopping"; "stopped"]%string.

Class Fleet (P : Type) `{InfraProvider P} := {
  (* the instances of a job in a region, with their states *)
  fleet : P -> JobId -> string -> gmap string string;
  fleet_states p j r i st : fleet p j r !! i = Some st -> st ∈ ec2_states;
  (* a look changes nothing; it reports a live instance if there is one *)
  look_law j r p p' x : get_job_instance j r p = (p', x) ->
    p' = p /\
    match x with
    | Some (true, i, st) => fleet p j r !! i = Some st /\ (dead st = true -> live (fleet p j r) = ∅)
    | Some (false, _, _) => live (fleet p j r) = ∅
    | None => True
    end;
  (* a launch adds a new instance *)
  launch_law j ty fam r mem vcpu bw p p' i : spin_up j ty fam r mem vcpu bw p = (p', Some i) ->
    fleet p j r !! i = None /\
    exists st, alive st = true /\ fleet p' j r = <[i := st]> (fleet p j r);
  (* a termination ends the instance it names, and no other *)
  terminate_law i j r p p' : spin_down i j r p = (p', Some tt) ->
    delete i (fleet p' j r) = delete i (fleet p j r) /\
    (forall st, fleet p' j r !! i = Some st -> dead st = true);
  (* the instances of other jobs are left alone, whatever the result *)
  launch_frame j ty fam r mem vcpu bw p j' r' : (j', r') <> (j, r) ->
    fleet (spin_up j ty fam r mem vcpu bw p).1 j' r' = fleet p j' r';
  terminate_frame i j r p j' r' : (j', r') <> (j, r) ->
    fleet (spin_down i j r p).1 j' r' = fleet p j' r';
  (* the enclave operations work inside an instance *)
  run_frame j i fam r url vcpu mem bw dbg p :
    fleet (run_enclave j i fam r url vcpu mem bw dbg p).1 = fleet p;
  update_frame i r url vcpu mem p : fleet (update_enclave_image i r url vcpu mem p).1 = fleet p
}.

(** ** Lemmas *)

Lemma elem_of_live m i : i ∈ live m <-> exists st, m !! i = Some st /\ dead st = false.
Proof.
  unfold live. rewrite elem_of_dom. unfold is_Some. setoid_rewrite map_lookup_filter_Some. done.
Qed.

Lemma alive_not_dead st : alive st = true -> dead st = false.
Proof.
  unfold alive, dead, state_in. simpl. rewrite !orb_false_r.
  intros [->%String.eqb_eq | ->%String.eqb_eq]%orb_true_iff; reflexivity.
Qed.

Lemma live_insert m i st : dead st = false -> live (<[i := st]> m) = {[i]} ∪ live m.
Proof.
  intros Hst. apply set_eq. intros k. rewrite elem_of_union, elem_of_singleton, !elem_of_live.
  setoid_rewrite lookup_insert_Some. destruct (decide (k = i)) as [-> | Hne].
  - split; [by left |]. intros _. exists st. split; [by left | done].
  - split; [intros (x & [[? _] | [_ Hx]] & Hd); [congruence | right; by exists x] |].
    intros [? | (x & Hx & Hd)]; [done |]. exists x. split; [by right | done].
Qed.

Lemma live_terminated m m' i :
  delete i m' = delete i m -> (forall st, m' !! i = Some st -> dead st = true) ->
  live m' = live m ∖ {[i]}.
Proof.
  intros Hdel Hdead. apply set_eq. intros k. rewrite elem_of_difference, elem_of_singleton, !elem_of_live.
  destruct (decide (k = i)) as [-> | Hne].
  - split; [| by intros [_ []]]. intros (st & Hst%Hdead & Hd). congruence.
  - assert (m' !! k = m !! k) as ->; [| naive_solver].
    rewrite <- (lookup_delete_ne m' i k), <- (lookup_delete_ne m i k) by done. by rewrite Hdel.
Qed.

(** A state that is not one of launch mode's two cases is dead. *)
Lemma other_states st :
  st ∈ ec2_states -> state_in st ["pending"; "running"]%string = false ->
  state_in st ["stopping"; "stopped"]%string = false -> dead st = true.
Proof.
  unfold ec2_states. rewrite !elem_of_cons, elem_of_nil.
  intros [-> | [-> | [-> | [-> | [-> | [-> | []]]]]]]; vm_compute; congruence.
Qed.

Section lemmas.
Context `{F : Fleet P}.

Definition job_fleet (p : P) (s : JobState) : gmap string string := fleet p (job_id s) (region s).

(** At most one instance of the job is live. *)
Definition at_most_one (m : gmap string string) : Prop := forall i j, i ∈ live m -> j ∈ live m -> i = j.

Lemma at_most_one_live m i : at_most_one m -> i ∈ live m -> live m ∖ {[i]} = ∅.
Proof. intros Hone Hi. apply set_eq. intros k. set_unfold. split; [| done]. intros [Hk Hne]. eauto. Qed.

Lemma launch_new_fleet s p s' p' :
  launch_new s p = (true, s', p') ->
  job_fleet p s !! instance_id s' = None /\
  (exists st, alive st = true /\ job_fleet p' s = <[instance_id s' := st]> (job_fleet p s)) /\
  exists i, s' = s <| instance_id := i |>.
Proof.
  unfold launch_new, run_enclave_for, job_fleet.
  destruct (spin_up _ _ _ _ _ _ _ p) as [p1 [i |]] eqn:Hup; [| done].
  apply launch_law in Hup as (Hnew & st & Hst & Hi).
  match goal with |- context [run_enclave ?a ?b ?c ?d ?e ?f ?g ?h ?k p1] =>
    pose proof (run_frame a b c d e f g h k p1) as Hrun;
    destruct (run_enclave a b c d e f g h k p1) as [p2 [[] |]] end;
  intros [= <- <-]; simpl in *; rewrite Hrun; split_and!; eauto.
Qed.

Lemma launch_new_frame s p res s' p' j r :
  launch_new s p = (res, s', p') -> (j, r) <> (job_id s, region s) -> fleet p' j r = fleet p j r.
Proof.
  unfold launch_new, run_enclave_for. intros Hl Hne.
  match type of Hl with context [spin_up ?a ?b ?c ?d ?e ?f ?g p] =>
    pose proof (launch_frame a b c d e f g p j r Hne) as Hup;
    destruct (spin_up a b c d e f g p) as [p1 [i |]] end; [| by simplify_eq].
  match type of Hl with context [run_enclave ?a ?b ?c ?d ?e ?f ?g ?h ?k p1] =>
    pose proof (run_frame a b c d e f g h k p1) as Hrun;
    destruct (run_enclave a b c d e f g h k p1) as [p2 [[] |]] end;
  simpl in *; simplify_eq; by rewrite Hrun.
Qed.

Lemma change_infra_impl_frame s p res s' p' j r :
  change_infra_impl s p = (res, s', p') -> (j, r) <> (job_id s, region s) -> fleet p' j r = fleet p j r.
Proof.
  unfold change_infra_impl. intros Hc Hne.
  destruct (get_job_instance _ _ p) as [p1 x] eqn:Hget. apply look_law in Hget as [-> _].
  destruct x as [[[e i] st] |]; [| by simplify_eq].
  pose proof (terminate_frame i (job_id s) (region s) p j r Hne) as Hdown.
  destruct (spin_down i (job_id s) (region s) p) as [p2 d]; simpl in Hdown.
  destruct (infra_state s).
  - destruct (e && state_in st ["pending"; "running"]%string).
    { cbn [eif_update over] in Hc. destruct (eif_update s); [| by simplify_eq].
      match type of Hc with context [update_enclave_image ?a ?b ?c ?d ?e p] =>
        pose proof (update_frame a b c d e p) as Hup;
        destruct (update_enclave_image a b c d e p) as [p3 [[] |]] end;
      simpl in Hup; simplify_eq; by rewrite Hup. }
    destruct (e && state_in st ["stopping"; "stopped"]%string).
    + destruct d as [[] |]; [| by simplify_eq].
      rewrite <- Hdown. by eapply launch_new_frame.
    + by eapply launch_new_frame.
  - destruct (negb e || _); [by simplify_eq |]. destruct d as [[] |]; by simplify_eq.
Qed.

(** What launch mode is to leave, in place of the instances [m]. *)
Definition launched (m m' : gmap string string) (id : string) : Prop :=
  (exists st, alive st = true /\ m' !! id = Some st) /\
  (at_most_one m -> live m' = {[id]}) /\
  (forall i st, at_most_one m -> m !! i = Some st -> alive st = true -> id = i /\ m' = m).

Lemma launched_new m i st :
  alive st = true -> live m = ∅ -> launched m (<[i := st]> m) i.
Proof.
  intros Hst Hm. split_and!.
  - exists st. by rewrite lookup_insert_eq.
  - intros _. rewrite live_insert by (by apply alive_not_dead). rewrite Hm. set_solver.
  - intros k x _ Hk Hx%alive_not_dead. exfalso. assert (k ∈ live m) by (apply elem_of_live; eauto).
    set_solver.
Qed.

Lemma launched_kept m i st : alive st = true -> m !! i = Some st -> launched m m i.
Proof.
  intros Hst Hi. assert (i ∈ live m) by (apply elem_of_live; eauto using alive_not_dead).
  split_and!; [by exists st | |].
  - intros Hone. apply set_eq. intros k. rewrite elem_of_singleton. split; [intros; by apply Hone | by intros ->].
  - intros k x Hone Hk Hx. split; [| done]. apply Hone; [done |]. apply elem_of_live; eauto using alive_not_dead.
Qed.

(** A stopped instance is ended before the launch. *)
Lemma launched_replaced m m1 i st j x :
  m !! i = Some st -> state_in st ["stopping"; "stopped"]%string = true ->
  delete i m1 = delete i m -> (forall y, m1 !! i = Some y -> dead y = true) ->
  alive x = true -> launched m (<[j := x]> m1) j.
Proof.
  intros Hi Hst Hdel Hdead Hx.
  assert (dead st = false /\ alive st = false) as [Hd Ha].
  { unfold state_in in Hst. simpl in Hst. rewrite orb_false_r in Hst.
    apply orb_true_iff in Hst as [Hst | Hst]; apply String.eqb_eq in Hst as ->; split; reflexivity. }
  assert (i ∈ live m) as Him by (apply elem_of_live; eauto). split_and!.
  - exists x. by rewrite lookup_insert_eq.
  - intros Hone. rewrite live_insert, (live_terminated m m1 i) by eauto using alive_not_dead.
    rewrite at_most_one_live by done. set_solver.
  - intros k y Hone Hk Hy. exfalso.
    assert (k = i) as -> by (apply Hone; [apply elem_of_live; eauto using alive_not_dead | done]). congruence.
Qed.

Lemma change_infra_impl_launch s p s' p' :
  infra_state s = true -> change_infra_impl s p = (true, s', p') ->
  launched (job_fleet p s) (job_fleet p' s) (instance_id s').
Proof.
  unfold change_infra_impl. intros ->.
  destruct (get_job_instance _ _ p) as [p1 [[[e i] st] |]] eqn:Hget; [| done].
  apply look_law in Hget as [-> Hget]. fold (job_fleet p s) in Hget.
  destruct (e && state_in st ["pending"; "running"]%string) eqn:Ha.
  { apply andb_true_iff in Ha as [-> Ha]. destruct Hget as [Hi _]. cbn [eif_update over].
    destruct (eif_update s); [| intros [= <- <-]; exact (launched_kept _ _ _ Ha Hi)].
    match goal with |- context [update_enclave_image ?a ?b ?c ?d ?e p] =>
      pose proof (update_frame a b c d e p) as Hup;
      destruct (update_enclave_image a b c d e p) as [p2 [[] |]] end; [| done].
    intros [= <- <-]. unfold job_fleet in *. cbn [fst] in Hup. cbn [instance_id over eif_update].
    rewrite Hup. by eapply launched_kept. }
  destruct (e && state_in st ["stopping"; "stopped"]%string) eqn:Hs.
  - apply andb_true_iff in Hs as [-> Hs]. destruct Hget as [Hi _].
    destruct (spin_down i _ _ p) as [p2 [[] |]] eqn:Hdown; [| done].
    apply terminate_law in Hdown as [Hdel Hdead].
    intros (_ & (x & Hx & ->) & _)%launch_new_fleet. by eapply launched_replaced.
  - intros (_ & (x & Hx & ->) & _)%launch_new_fleet. apply launched_new; [done |].
    destruct e; [| done]. destruct Hget as [Hi Hlive]. apply Hlive.
    apply other_states; [by eapply fleet_states | done | done].
Qed.

Lemma change_infra_impl_terminate s p s' p' :
  infra_state s = false -> change_infra_impl s p = (true, s', p') ->
  live (job_fleet p' s) ⊆ live (job_fleet p s) /\
  (at_most_one (job_fleet p s) -> live (job_fleet p' s) = ∅).
Proof.
  unfold change_infra_impl. intros ->.
  destruct (get_job_instance _ _ p) as [p1 [[[e i] st] |]] eqn:Hget; [| done].
  apply look_law in Hget as [-> Hget]. fold (job_fleet p s) in Hget.
  destruct (negb e || state_in st ["shutting-down"; "terminated"]%string) eqn:Hd.
  - intros [= <- <-]. split; [done |]. intros _. destruct e; [| done]. by apply Hget.
  - destruct e; [| done]. destruct Hget as [Hi _].
    destruct (spin_down i _ _ p) as [p2 [[] |]] eqn:Hdown; [| done].
    apply terminate_law in Hdown as [Hdel Hdead]. intros [= <- <-].
    unfold job_fleet in *. rewrite (live_terminated _ _ i Hdel Hdead).
    split; [set_solver |]. intros Hone. apply at_most_one_live; [done |]. apply elem_of_live; eauto.
Qed.

End lemmas.

(** ** The theorem *)

Section change.
Context `{F : Fleet P}.

(** C9: A completed infrastructure change leaves the wanted instance and no
    other.  In launch mode the recorded instance is pending or running; if
    the job had at most one live instance, it is now the only one, and an
    instance that was already pending or running is kept and nothing is
    launched.  In termination mode no instance becomes live, and none is left
    if the job had at most one.  A failed change stays scheduled, two seconds
    later.  The mode never changes and the instances of other jobs are left
    alone, whatever the result. *)
Theorem change_infra_reaches_target (now : Z) (s s' : JobState) (p p' : P) (res : bool)
  (Hc : change_infra now s p = Ok (res, s', p')) :
  infra_state s' = infra_state s /\
  (forall j r, (j, r) <> (job_id s, region s) -> fleet p' j r = fleet p j r) /\
  let m := fleet p (job_id s) (region s) in
  let m' := fleet p' (job_id s) (region s) in
  if res then
    infra_change_scheduled s' = false /\
    if infra_state s then
      (exists st, alive st = true /\ m' !! instance_id s' = Some st) /\
      (at_most_one m -> live m' = {[instance_id s']}) /\
      (forall i st, at_most_one m -> m !! i = Some st -> alive st = true ->
         instance_id s' = i /\ m' = m)
    else live m' ⊆ live m /\ (at_most_one m -> live m' = ∅)
  else
    infra_change_scheduled s' = infra_change_scheduled s /\
    infra_change_time s' = now + from_secs 2.
Proof.
  unfold change_infra in Hc. destruct (change_infra_impl s p) as [[b s1] p1] eqn:Hi.
  pose proof (change_infra_impl_keeps _ _ _ _ _ Hi) as (i & u & Hs1).
  pose proof (fun j r => change_infra_impl_frame _ _ _ _ _ j r Hi) as Hframe.
  destruct b; inv_ok.
  - split; [done |]. split; [exact Hframe |]. split; [done |].
    destruct (infra_state s) eqn:Hm.
    + by apply (change_infra_impl_launch _ _ _ _ Hm) in Hi.
    + by apply (change_infra_impl_terminate _ _ _ _ Hm) in Hi.
  - unfold instant_checked_add in *. case_match; [| done]. simplify_eq. done.
Qed.

End change.

(** ** A concrete fleet *)
Module ToyFleet.

#[export] Instance JobId_eq_dec : EqDecision JobId.
Proof. solve_decision. Defined.

(** The instances of every job in every region; [true]: running. *)
Definition Instances : Type := JobId -> string -> gmap string bool.

Definition state_name (b : bool) : string := if b then "running" else "terminated".

Definition set_instances (j : JobId) (r : string) (m : gmap string bool) (p : Instances) : Instances :=
  fun j' r' => if decide ((j', r') = (j, r)) then m else p j' r'.

(** A running instance, if there is one. *)
Definition some_running (m : gmap string bool) : option string :=
  head (map_to_list (filter (fun kv => kv.2 = true) m)).*1.

#[export] Instance toy_fleet_provider : InfraProvider Instances := {|
  spin_up j _ _ r _ _ _ p :=
    let i := fresh (dom (p j r)) in (set_instances j r (<[i := true]> (p j r)) p, Some i);
  spin_down i j r p := (set_instances j r (<[i := false]> (p j r)) p, Some tt);
  get_job_instance j r p :=
    (p, Some match some_running (p j r) with
             | Some i => (true, i, state_name true) | None => (false, EmptyString, EmptyString) end);
  check_instance_running _ _ p := (p, Some true);
  check_enclave_running _ _ p := (p, Some true);
  run_enclave _ _ _ _ _ _ _ _ _ p := (p, Some tt);
  update_enclave_image _ _ _ _ _ p := (p, Some tt)
|}.

Definition names (m : gmap string bool) : gmap string string := state_name <$> m.

Lemma live_names m : live (names m) = dom (filter (fun kv => kv.2 = true) m).
Proof.
  apply set_eq. intros i. rewrite elem_of_live, elem_of_dom. unfold names, is_Some.
  setoid_rewrite lookup_fmap. setoid_rewrite fmap_Some. setoid_rewrite map_lookup_filter_Some. split.
  - intros (st & (b & Hb & ->) & Hd). exists b. split; [done |]. by destruct b.
  - intros (b & Hb & Ht). simpl in Ht. subst b. exists (state_name true). split; [by exists true | done].
Qed.

Lemma some_running_law m :
  match some_running m with
  | Some i => names m !! i = Some (state_name true)
  | None => live (names m) = ∅
  end.
Proof.
  unfold some_running. rewrite live_names. destruct (map_to_list _) as [| [i b] l] eqn:Hl; simpl.
  - apply map_to_list_empty_iff in Hl. rewrite Hl. apply dom_empty_L.
  - assert (Hi : (i, b) ∈ map_to_list (filter (fun kv => kv.2 = true) m)) by (rewrite Hl; by left).
    apply elem_of_map_to_list, map_lookup_filter_Some in Hi as [Hi Hb]. simpl in Hb. subst b.
    unfold names. by rewrite lookup_fmap, Hi.
Qed.

#[export, refine] Instance toy_fleet : Fleet Instances := {| fleet p j r := names (p j r) |}.
Proof.
  - intros p j r i st. unfold names. rewrite lookup_fmap. intros ([] & _ & ->)%fmap_Some; set_solver.
  - intros j r p p' x [= <- <-]. split; [done |]. pose proof (some_running_law (p j r)) as H.
    destruct (some_running (p j r)) as [i |]; [| exact H]. by split.
  - intros j ty fam r mem vcpu bw p p' i [= <- <-]. split.
    + unfold names. rewrite lookup_fmap. by rewrite (proj1 (not_elem_of_dom (p j r) _) (is_fresh _)).
    + exists (state_name true). split; [done |]. unfold set_instances, names.
      rewrite decide_True by done. by rewrite fmap_insert.
  - intros i j r p p' [= <-]. unfold set_instances, names. rewrite decide_True by done. split.
    + by rewrite fmap_insert, delete_insert_eq.
    + intros st. rewrite fmap_insert, lookup_insert_eq. by intros [= <-].
  - intros * Hne. simpl. unfold set_instances. by rewrite decide_False.
  - intros * Hne. simpl. unfold set_instances. by rewrite decide_False.
  - done.
  - done.
Defined.

End ToyFleet.

(** ** Witness *)
Module FleetWitnesses.
Import ToyProps ToyFleet.

(** The job whose rate fell below the minimum, with one running instance. *)
Definition killed_fleet : Instances :=
  set_instances (job_id killed_state) (region killed_state) {["i-9"%string := true]} (fun _ _ => ∅).

Lemma change_infra_reaches_target_witness :
  exists s' p', change_infra 0 killed_state killed_fleet = Ok (true, s', p') /\
  infra_state s' = infra_state killed_state /\
  (forall j r, (j, r) <> (job_id killed_state, region killed_state) -> fleet p' j r = fleet killed_fleet j r) /\
  let m := fleet killed_fleet (job_id killed_state) (region killed_state) in
  let m' := fleet p' (job_id killed_state) (region killed_state) in
  infra_change_scheduled s' = false /\
  if infra_state killed_state then
    (exists st, alive st = true /\ m' !! instance_id s' = Some st) /\
    (at_most_one m -> live m' = {[instance_id s']}) /\
    (forall i st, at_most_one m -> m !! i = Some st -> alive st = true -> instance_id s' = i /\ m' = m)
  else live m' ⊆ live m /\ (at_most_one m -> live m' = ∅).
Proof.
  do 2 eexists. split; [vm_compute; reflexivity |].
  apply (change_infra_reaches_target 0 killed_state _ killed_fleet _ true).
  vm_compute. reflexivity.
Defined.

End FleetWitnesses.
