(* ===== verification/MarketTestbed.v ===== *)
(** * Control plane: the test provider and the test runner

    The double of the cloud that the unit tests use ([TestAws] of
    operator/control-plane/src/test.rs), the logs they send, the hasher and
    the JSON documents they are made of, and the runner of the tests of
    market.rs: the job loop on a paused clock, which moves to the next deadline
    whenever the loop is waiting. *)

From stdpp Require Import pretty.
From S2P Require Import Prelude Text Chain Keccak Market MarketInfra MarketCloud.

(** ** The default hasher of the standard library: SipHash-1-3 with zero keys *)

Module Sip.

Definition add64 (a b : Z) : Z := wrap 64 (a + b).
Record lanes := mkLanes { v0 : Z; v1 : Z; v2 : Z; v3 : Z }.

Definition round (s : lanes) : lanes :=
  let '(mkLanes a b c d) := s in
  let a := add64 a b in let b := Z.lxor (rotl 13 b) a in let a := rotl 32 a in
  let c := add64 c d in let d := Z.lxor (rotl 16 d) c in
  let a := add64 a d in let d := Z.lxor (rotl 21 d) a in
  let c := add64 c b in let b := Z.lxor (rotl 17 b) c in let c := rotl 32 c in
  mkLanes a b c d.

Definition compress (s : lanes) (m : Z) : lanes :=
  let s := round (mkLanes (v0 s) (v1 s) (v2 s) (Z.lxor (v3 s) m)) in
  mkLanes (Z.lxor (v0 s) m) (v1 s) (v2 s) (v3 s).

(** The hash of everything that was written. *)
Definition finish (m : bytes) : Z :=
  let n := (length m / 8)%nat in
  let start := mkLanes 0x736f6d6570736575 0x646f72616e646f6d 0x6c7967656e657261 0x7465646279746573 in
  let s := foldl compress start (map from_le (chunks 8 n m)) in
  let last := Z.lor (Z.shiftl (wrap 8 (Z.of_nat (length m))) 56) (from_le (drop (8 * n) m)) in
  let s := compress s last in
  let s := round (round (round (mkLanes (v0 s) (v1 s) (Z.lxor (v2 s) 0xff) (v3 s)))) in
  Z.lxor (Z.lxor (v0 s) (v1 s)) (Z.lxor (v2 s) (v3 s)).

(** The known hash of nothing. *)
Example finish_nothing : finish [] = 15130871412783076140.
Proof. vm_compute. reflexivity. Qed.

End Sip.

(** [format!("{:x}", n)] of a u64, without leading zeros. *)
Fixpoint trim_zeros (s : string) : string :=
  match s with
  | String c (String _ _ as t) => if Ascii.eqb c (Ascii.ascii_of_nat 48) then trim_zeros t else s
  | _ => s
  end.
Definition lower_hex (n : Z) : string := trim_zeros (print_hex 16 n).

Definition compute_instance_id (counter : Z) : string :=
  lower_hex (Sip.finish (0 :: le_bytes 8 counter)).

Definition compute_instance_ip (counter : Z) : string :=
  String.concat "." (map (fun b => pretty (Z.to_N b)) (le_bytes 8 (Sip.finish (1 :: le_bytes 8 counter)))).

Definition compute_address_word (salt : string) : B256 :=
  let hash := le_bytes 8 (Sip.finish (2 :: bytes_of_string salt)) in
  from_be (hash ++ hash ++ hash ++ hash).

(** ** The test provider *)

Record SpinUpOutcome := mkSpinUp {
  su_time : Z; su_job : string; su_instance_type : string; su_family : string; su_region : string;
  su_req_mem : Z; su_req_vcpu : Z; su_bandwidth : Z; su_contract_address : string;
  su_chain_id : string; su_instance_id : string }.

Record SpinDownOutcome := mkSpinDown {
  sd_time : Z; sd_job : string; sd_instance_id : string; sd_region : string }.

Record RunEnclaveOutcome := mkRunEnclave {
  re_time : Z; re_job : string; re_instance_id : string; re_family : string; re_region : string;
  re_eif_url : string; re_req_mem : Z; re_req_vcpu : Z; re_bandwidth : Z; re_debug : bool }.

Record UpdateEnclaveImageOutcome := mkUpdate {
  up_time : Z; up_instance_id : string; up_region : string; up_eif_url : string;
  up_req_mem : Z; up_req_vcpu : Z }.

Inductive TestAwsOutcome :=
| SpinUp (o : SpinUpOutcome)
| SpinDown (o : SpinDownOutcome)
| RunEnclave (o : RunEnclaveOutcome)
| UpdateEnclaveImage (o : UpdateEnclaveImageOutcome).

Record InstanceMetadata := mkInstance { im_instance_id : string; ip_address : string }.

(** [InstanceMetadata::new] *)
Definition new_instance (counter : Z) : InstanceMetadata :=
  mkInstance (compute_instance_id counter) (compute_instance_ip counter).

(** The provider, with the reading of the paused clock. *)
Record TestAws := mkTestAws {
  outcomes : list TestAwsOutcome;
  instances : gmap string InstanceMetadata;
  counter : Z;
  clock_now : Z
}.

#[export] Instance eta_TestAws : Settable TestAws := fun p =>
  mkTestAws (outcomes p) (instances p) (counter p) (clock_now p).

Definition default_aws : TestAws := mkTestAws [] ∅ 0 0.

Definition push (o : TestAwsOutcome) (p : TestAws) : TestAws := p <| outcomes := outcomes p ++ [o] |>.

Definition test_spin_up (job : JobId) (instance_type family region : string)
    (req_mem req_vcpu bandwidth : Z) (p : TestAws) : TestAws * option string :=
  let outcome id := SpinUp (mkSpinUp (clock_now p) (jid job) instance_type family region
    req_mem req_vcpu bandwidth (contract job) (chain job) id) in
  match instances p !! jid job with
  | Some x => (push (outcome (im_instance_id x)) p, Some (im_instance_id x))
  | None =>
      let x := new_instance (counter p) in
      let p := p <| counter := counter p + 1 |> <| instances := <[jid job := x]> (instances p) |> in
      (push (outcome (im_instance_id x)) p, Some (im_instance_id x))
  end.

Definition test_spin_down (id : string) (job : JobId) (region : string) (p : TestAws) : TestAws * option unit :=
  let p := push (SpinDown (mkSpinDown (clock_now p) (jid job) id region)) p in
  (p <| instances := delete (jid job) (instances p) |>, Some tt).

Definition test_get_job_instance (job : JobId) (region : string) (p : TestAws) :
    TestAws * option (bool * string * string) :=
  match instances p !! jid job with
  | Some x => (p, Some (true, im_instance_id x, "running"%string))
  | None => (p, Some (false, EmptyString, EmptyString))
  end.

Definition test_get_job_ip (job : JobId) (region : string) (p : TestAws) : outcome string string :=
  ok_or ("Instance not found for job - " +:+ jid job)%string (ip_address <$> instances p !! jid job).

Definition test_run_enclave (job : JobId) (id family region url : string) (req_vcpu req_mem bandwidth : Z)
    (debug : bool) (p : TestAws) : TestAws * option unit :=
  (push (RunEnclave (mkRunEnclave (clock_now p) (jid job) id family region url req_mem req_vcpu bandwidth debug)) p,
   Some tt).

Definition test_update_enclave_image (id region url : string) (req_vcpu req_mem : Z) (p : TestAws) :
    TestAws * option unit :=
  (push (UpdateEnclaveImage (mkUpdate (clock_now p) id region url req_mem req_vcpu)) p, Some tt).

#[export] Instance test_provider : InfraProvider TestAws := {|
  spin_up := test_spin_up;
  spin_down := test_spin_down;
  get_job_instance := test_get_job_instance;
  check_instance_running _ _ p := (p, Some true);
  check_enclave_running _ _ p := (p, Some true);
  run_enclave := test_run_enclave;
  update_enclave_image := test_update_enclave_image
|}.

(** The double keeps the contract that the properties of the job loop assume
    of a cloud. *)
#[export, refine] Instance test_cloud : Cloud TestAws := {|
  instance_of p job _ := (fun x => (im_instance_id x, "running"%string)) <$> instances p !! jid job
|}.
Proof.
  - intros j r p p' x Hg. cbn in Hg. unfold test_get_job_instance in Hg.
    destruct (instances p !! jid j) as [y |]; injection Hg as <- <-; (split; [done |]);
      intros e i st [= <- <- <-]; done.
  - intros j ty fam r mem vcpu bw p p' i Hs. exists "running"%string. split; [done |].
    change (test_spin_up j ty fam r mem vcpu bw p = (p', Some i)) in Hs. unfold test_spin_up in Hs.
    revert Hs. generalize (new_instance (counter p)). intros x Hs.
    destruct (instances p !! jid j) as [y |] eqn:Hy; injection Hs as <- <-; unfold push, over; simpl.
    + by rewrite Hy.
    + by rewrite lookup_insert_eq.
  - intros i j r p p' st _ Hd. cbn in Hd. injection Hd as <-. cbn. by rewrite lookup_delete_eq.
  - done.
  - done.
Defined.

(** ** The logs of the tests *)

Inductive Action :=
| Open | Close | Settle | Deposit | Withdraw
| ReviseRateInitiated | ReviseRateCancelled | ReviseRateFinalized | MetadataUpdated.

Definition get_rates : list RegionalRates :=
  [mkRegionalRates "ap-south-1" [mkRateCard "c6a.xlarge" 29997916666666 4 8 "amd64"]].

Definition get_gb_rates : list GBRateCard :=
  [mkGBRateCard "Asia South (Mumbai)" "ap-south-1" 109300000000000000].

Section logs.
Context `{C : ChainApi}.

Definition log_topics (topic : Action) (idx : B256) : list B256 :=
  match topic with
  | Open => [keccak256 "JobOpened(bytes32,string,address,address,uint256,uint256,uint256)"; idx;
             compute_address_word "owner"; compute_address_word "provider"]
  | Close => [keccak256 "JobClosed(bytes32)"; idx]
  | Settle => [keccak256 "JobSettled(bytes32,uint256,uint256)"; idx]
  | Deposit => [keccak256 "JobDeposited(bytes32,address,uint256)"; idx; compute_address_word "depositor"]
  | Withdraw => [keccak256 "JobWithdrew(bytes32,address,uint256)"; idx; compute_address_word "withdrawer"]
  | ReviseRateInitiated => [keccak256 "JobReviseRateInitiated(bytes32,uint256)"; idx]
  | ReviseRateCancelled => [keccak256 "JobReviseRateCancelled(bytes32)"; idx]
  | ReviseRateFinalized => [keccak256 "JobReviseRateFinalized(bytes32,uint256)"; idx]
  | MetadataUpdated => [keccak256 "JobMetadataUpdated(bytes32,string)"; idx]
  end.

Definition get_log (topic : Action) (d : bytes) (idx : B256) : Log :=
  mkLog (log_topics topic idx) d None None None false.

End logs.

(** ** JSON objects of strings, integers and booleans, without white space *)

Inductive Json := JStr (s : string) | JInt (z : Z) | JBool (b : bool).

Definition is_digit (c : Ascii.ascii) : bool :=
  let n := Ascii.nat_of_ascii c in ((48 <=? n) && (n <=? 57))%nat.

(** The characters up to the closing quote, and the rest after it. *)
Fixpoint scan_string (s : string) : option (string * string) :=
  match s with
  | EmptyString => None
  | String c s =>
      if Ascii.eqb c (Ascii.ascii_of_nat 34) then Some (EmptyString, s)
      else '(w, r) ← scan_string s; Some (String c w, r)
  end.

Fixpoint scan_int (acc : Z) (s : string) : Z * string :=
  match s with
  | String c s' =>
      if is_digit c then scan_int (10 * acc + (Z.of_nat (Ascii.nat_of_ascii c) - 48)) s' else (acc, s)
  | EmptyString => (acc, s)
  end.

Fixpoint strip_prefix (p s : string) : option string :=
  match p, s with
  | EmptyString, _ => Some s
  | String c p, String d s => if Ascii.eqb c d then strip_prefix p s else None
  | _, _ => None
  end.

Definition parse_value (s : string) : option (Json * string) :=
  match strip_prefix quote s, strip_prefix "true" s, strip_prefix "false" s, s with
  | Some r, _, _, _ => '(w, r) ← scan_string r; Some (JStr w, r)
  | _, Some r, _, _ => Some (JBool true, r)
  | _, _, Some r, _ => Some (JBool false, r)
  | _, _, _, String c _ => if is_digit c then let '(z, r) := scan_int 0 s in Some (JInt z, r) else None
  | _, _, _, EmptyString => None
  end.

(** Members separated by commas; each takes at least a character. *)
Fixpoint parse_members (fuel : nat) (s : string) : option (list (string * Json)) :=
  match fuel with
  | O => None
  | S fuel =>
      r ← strip_prefix quote s;
      '(key, r) ← scan_string r;
      r ← strip_prefix ":" r;
      '(v, r) ← parse_value r;
      match strip_prefix "," r with
      | Some r => ms ← parse_members fuel r; Some ((key, v) :: ms)
      | None => if String.eqb r "}" then Some [(key, v)] else None
      end
  end.

Definition parse_object (s : string) : option (list (string * Json)) :=
  r ← strip_prefix "{" s; parse_members (String.length r) r.

Definition member (v : list (string * Json)) (key : string) : option Json :=
  snd <$> find (fun m => String.eqb (fst m) key) v.

#[export] Instance object_json : JsonApi := {|
  Value := list (string * Json);
  from_str := parse_object;
  as_str v key := match member v key with Some (JStr s) => Some s | _ => None end;
  as_i64 v key := match member v key with Some (JInt z) => Some z | _ => None end;
  as_bool v key := match member v key with Some (JBool b) => Some b | _ => None end
|}.

(** A document of the tests, written with single quotes. *)
Fixpoint quoted (s : string) : string :=
  match s with
  | EmptyString => EmptyString
  | String c s =>
      if Ascii.eqb c (Ascii.ascii_of_nat 39) then String (Ascii.ascii_of_nat 34) (quoted s)
      else String c (quoted s)
  end.

(** ** The runner *)

Record JobManagerParams := mkParams {
  p_job_id : JobId;
  p_allowed_regions : list string;
  p_address_whitelist : list string;
  p_address_blacklist : list string
}.

Record TestResults := mkResults { t_res : Z; t_outcomes : list TestAwsOutcome }.

Section runner.
Context `{C : ChainApi, J : JsonApi}.

(** The deadlines of the enabled branches of the loop; [logs] are those still
    to come, with their instants. *)
Definition deadlines (now now_ts : Z) (s : JobState) (logs : list (Z * Log)) : list Z :=
  match logs with (moment, _) :: _ => [Z.max now moment] | [] => [] end ++
  (if String.eqb (instance_id s) EmptyString then [] else [now + from_secs 5]) ++
  (if negb (infra_change_scheduled s) || infra_state s then [now + insolvency_duration now_ts s] else []) ++
  (if infra_change_scheduled s then [now + saturating_duration_since (infra_change_time s) now] else []).

Definition earliest (l : list Z) : option Z :=
  match l with [] => None | x :: l => Some (foldl Z.min x l) end.

(** The loop on the paused clock: nothing happens before the earliest
    deadline, where the clock stops next.  A log stream that is exhausted stays
    pending.  [None]: the loop was still running when the fuel ran out. *)
Fixpoint run_paused (fuel : nat) (start : Z) (params : JobManagerParams) (logs : list (Z * Log))
    (now : Z) (s : JobState) (aws : TestAws) : panics (option (Z * TestAws)) :=
  match fuel, earliest (deadlines now (now - start) s logs) with
  | S fuel, Some wake =>
      let arrived := match logs with
        | (moment, log) :: _ => if moment <=? wake then Some (Some log) else None
        | [] => None end in
      let t := mkTurn now (now - start) [mkPoll wake arrived] wake in
      '(res, s, aws) ← job_loop get_rates get_gb_rates (p_address_whitelist params) (p_address_blacklist params)
                         [t] s (aws <| clock_now := wake |>);
      match res with
      | Some res => mret (Some (res, aws))
      | None => run_paused fuel start params (match arrived with Some _ => tail logs | None => logs end) wake s aws
      end
  | _, _ => mret None
  end.

#[export] Instance SpinUpOutcome_eq_dec : EqDecision SpinUpOutcome.
Proof. solve_decision. Defined.
#[export] Instance SpinDownOutcome_eq_dec : EqDecision SpinDownOutcome.
Proof. solve_decision. Defined.
#[export] Instance RunEnclaveOutcome_eq_dec : EqDecision RunEnclaveOutcome.
Proof. solve_decision. Defined.
#[export] Instance UpdateEnclaveImageOutcome_eq_dec : EqDecision UpdateEnclaveImageOutcome.
Proof. solve_decision. Defined.
#[export] Instance TestAwsOutcome_eq_dec : EqDecision TestAwsOutcome.
Proof. solve_decision. Defined.

(** [run_test]: [logs] with the seconds after the start at which they come. *)
Definition run_test (start : Z) (logs : list (Z * Action * bytes)) (params : JobManagerParams)
    (results : TestResults) : bool :=
  match parse_fixed 64 ("0x" +:+ jid (p_job_id params)) with
  | None => false
  | Some job_num =>
      let logs := (fun l : Z * Action * bytes => (start + from_secs l.1.1, get_log l.1.2 l.2 job_num)) <$> logs in
      match run_paused 1000 start params logs start
              (new_job_state 0 start (p_job_id params) 300 (p_allowed_regions params)) default_aws with
      | Ok (Some (res, aws)) =>
          bool_decide (instances aws = ∅) && (res =? t_res results) &&
          bool_decide (outcomes aws = t_outcomes results)
      | _ => false
      end
  end.

End runner.
