(* ===== verification/MarketRef.v ===== *)
(** * Control plane: providers behind references

    [impl InfraProvider for &mut T] of operator/control-plane/src/market.rs:
    the job loop that is handed a reference works on the provider at its
    place, exactly as it works on the provider itself, and on nothing else. *)

From S2P Require Import Prelude Chain Keccak Market MarketInfra MarketTestbed.

(** ** Places

    A reference is a place of a world [W]: what it holds, and the world with
    other contents there. *)

Record place (W T : Type) := mkPlace { deref : W -> T; assign : T -> W -> W }.
Arguments mkPlace {W T} deref assign.
Arguments deref {W T} p w.
Arguments assign {W T} p v w.

Class PlaceLaws {W T} (r : place W T) : Prop := {
  deref_assign v w : deref r (assign r v w) = v;
  assign_deref w : assign r (deref r w) w = w;
  assign_assign v v' w : assign r v (assign r v' w) = assign r v w
}.

(** A call through the reference. *)
Definition through {W T A} (r : place W T) (f : T -> T * A) (w : W) : W * A :=
  let '(v, a) := f (deref r w) in (assign r v w, a).

Definition by_reference {W T} (r : place W T) `{I : InfraProvider T} : InfraProvider W := {|
  spin_up job instance_type family region req_mem req_vcpu bandwidth :=
    through r (spin_up job instance_type family region req_mem req_vcpu bandwidth);
  spin_down instance_id job region := through r (spin_down instance_id job region);
  get_job_instance job region := through r (get_job_instance job region);
  check_instance_running instance_id region := through r (check_instance_running instance_id region);
  check_enclave_running instance_id region := through r (check_enclave_running instance_id region);
  run_enclave job instance_id family region image_url req_vcpu req_mem bandwidth debug :=
    through r (run_enclave job instance_id family region image_url req_vcpu req_mem bandwidth debug);
  update_enclave_image instance_id region eif_url req_vcpu req_mem :=
    through r (update_enclave_image instance_id region eif_url req_vcpu req_mem)
|}.

(** ** The job loop behind a reference *)

Section behind.
Context {W T : Type} (r : place W T) {L : PlaceLaws r} `{I : InfraProvider T}.
Variable w : W.

#[local] Instance I_ref : InfraProvider W := by_reference r.

(** The result of the direct computation, with its provider at the place. *)
Definition back {A} (x : A * T) : A * W := let '(a, p) := x in (a, assign r p w).

Lemma through_at {A} (f : T -> T * A) p :
  through r f (assign r p w) = (assign r (f p).1 w, (f p).2).
Proof using L. unfold through. rewrite deref_assign. destruct (f p) as [v a]. cbn. by rewrite assign_assign. Qed.

Lemma launch_new_behind s p : launch_new s (assign r p w) = back (launch_new s p).
Proof using L.
  unfold launch_new, run_enclave_for. cbn. rewrite through_at.
  destruct (spin_up _ _ _ _ _ _ _ p) as [p1 [id |]]; cbn; [| done]. rewrite through_at.
  by destruct (run_enclave _ _ _ _ _ _ _ _ _ p1) as [p2 [[] |]].
Qed.

Lemma change_infra_impl_behind s p : change_infra_impl s (assign r p w) = back (change_infra_impl s p).
Proof using L.
  unfold change_infra_impl. cbn [get_job_instance I_ref by_reference]. rewrite through_at.
  destruct (get_job_instance _ _ p) as [p1 [[[ex i] st] |]]; cbn [fst snd]; [| done].
  assert (Hdown : forall i job reg p, spin_down i job reg (assign r p w) =
            (assign r (spin_down i job reg p).1 w, (spin_down i job reg p).2)) by (intros; apply through_at).
  destruct (infra_state s).
  - destruct (ex && state_in st ["pending"; "running"]).
    + set (s' := s <| instance_id := i |>). destruct (eif_update s'); [| done].
      cbn [update_enclave_image I_ref by_reference]. rewrite through_at.
      by destruct (update_enclave_image _ _ _ _ _ p1) as [p2 [[] |]].
    + destruct (ex && state_in st ["stopping"; "stopped"]); [| apply launch_new_behind].
      rewrite Hdown. destruct (spin_down _ _ _ p1) as [p2 [[] |]]; cbn; [apply launch_new_behind | done].
  - destruct (negb ex || _); [done |]. rewrite Hdown.
    by destruct (spin_down _ _ _ p1) as [p2 [[] |]].
Qed.

Lemma change_infra_behind now s p : change_infra now s (assign r p w) = back <$> change_infra now s p.
Proof using L.
  unfold change_infra. rewrite change_infra_impl_behind.
  destruct (change_infra_impl s p) as [[res s1] p1]. cbn. destruct res; [done |].
  by destruct (unwrap _).
Qed.

Lemma heartbeat_check_behind now s p : heartbeat_check now s (assign r p w) = back <$> heartbeat_check now s p.
Proof using L.
  unfold heartbeat_check. cbn [check_instance_running I_ref by_reference]. rewrite through_at.
  destruct (check_instance_running _ _ p) as [p1 [[] |]]; cbn [fst snd]; [| | done].
  - cbn [check_enclave_running I_ref by_reference]. rewrite through_at.
    destruct (check_enclave_running _ _ p1) as [p2 [[] |]]; cbn [fst snd]; [done | | done].
    unfold run_enclave_for. cbn [run_enclave I_ref by_reference]. rewrite through_at.
    by destruct (run_enclave _ _ _ _ _ _ _ _ _ p2) as [p3 o].
  - destruct (min_rate s <=? rate s); [| done]. by destruct (schedule_launch now 0 s).
Qed.

Context `{C : ChainApi, J : JsonApi}.
Variables (rates : list RegionalRates) (gb_rates : list GBRateCard) (whitelist blacklist : list string).

Lemma run_branch_behind now b s p :
  run_branch rates gb_rates whitelist blacklist now b s (assign r p w) =
  back <$> run_branch rates gb_rates whitelist blacklist now b s p.
Proof using L.
  destruct b as [log | | |]; unfold run_branch.
  - by destruct (process_log _ _ _ _ _ _ _) as [[res s1] | |].
  - rewrite heartbeat_check_behind. by destruct (heartbeat_check now s p) as [[s1 p1] | |].
  - by destruct (handle_insolvency now s).
  - rewrite change_infra_behind. by destruct (change_infra now s p) as [[[res s1] p1] | |].
Qed.

Lemma job_loop_behind turns s p :
  job_loop rates gb_rates whitelist blacklist turns s (assign r p w) =
  back <$> job_loop rates gb_rates whitelist blacklist turns s p.
Proof using L.
  revert s p. induction turns as [| t turns IH]; intros s p; [done |]. cbn [job_loop].
  destruct (select t s) as [b |]; [| done]. rewrite run_branch_behind.
  destruct (run_branch _ _ _ _ _ b s p) as [[[[res |] s1] p1] | |]; cbn; [done | apply IH | done ..].
Qed.

Lemma job_manager_behind attempts job regions delay backoff p :
  job_manager rates gb_rates whitelist blacklist attempts job regions delay backoff (assign r p w) =
  back <$> job_manager rates gb_rates whitelist blacklist attempts job regions delay backoff p.
Proof using L.
  revert backoff p. induction attempts as [| [| | now_ts now turns] l IH]; intros backoff p; [done | | |].
  1, 2: cbn [job_manager]; rewrite IH; by destruct (job_manager _ _ _ _ l _ _ _ _ p) as [[[sleeps fin] p1] | |].
  cbn [job_manager]. unfold job_manager_once. rewrite job_loop_behind.
  destruct (job_loop _ _ _ _ _ _ p) as [[[[res |] s1] p1] | |]; cbn; [| done ..].
  destruct ((res =? -2) || (res =? 0)); [done | apply IH].
Qed.

End behind.

(** A job manager that is given a reference does to the provider at its
    place what it does to the provider itself, with the same sleeps, result
    and panics, for every world around the place, and leaves the rest of that
    world as it is. *)
Theorem reference_is_transparent `{L : PlaceLaws W T r} `{I : InfraProvider T} `{C : ChainApi} `{J : JsonApi}
    rates gb_rates whitelist blacklist attempts job regions delay backoff (w : W) :
  job_manager (I := by_reference r) rates gb_rates whitelist blacklist attempts job regions delay backoff w =
  back r w <$> job_manager rates gb_rates whitelist blacklist attempts job regions delay backoff (deref r w).
Proof.
  rewrite <- (assign_deref w) at 1.
  apply (job_manager_behind r w rates gb_rates whitelist blacklist attempts job regions delay backoff (deref r w)).
Qed.

(** ** A provider in a pair *)

Module RefWitnesses.

Definition first_of (T V : Type) : place (T * V) T := mkPlace fst (fun v w => (v, w.2)).

#[export] Instance first_laws T V : PlaceLaws (first_of T V).
Proof. split; [done | by intros [] | done]. Qed.

(** A log, and the end of the stream. *)
Definition turns : list Turn :=
  [mkTurn 0 0 [mkPoll 0 (Some (Some (get_log Open (encode_opened "{}" 1 2 3) 1)))] 0;
   mkTurn 0 0 [mkPoll 0 (Some None)] 0].

Lemma reference_is_transparent_witness :
  job_manager (I := by_reference (first_of TestAws string)) get_rates get_gb_rates [] []
    [ConnectFailed; Session 0 0 turns] (mkJobId "01" "o" "c" "h") ["ap-south-1"] 300 1 (default_aws, "rest"%string) =
  back (first_of TestAws string) (default_aws, "rest"%string) <$>
  job_manager get_rates get_gb_rates [] []
    [ConnectFailed; Session 0 0 turns] (mkJobId "01" "o" "c" "h") ["ap-south-1"] 300 1 default_aws.
Proof. exact (reference_is_transparent _ _ _ _ _ _ _ _ _ (default_aws, "rest"%string)). Defined.

End RefWitnesses.
