(* ===== verification/MarketTests.v ===== *)
(** * Control plane: the unit tests of market.rs

    One definition per test of operator/control-plane/src/market.rs, with the
    values of its source: the logs and the seconds at which they come, the
    parameters of the job loop, and the result and the calls of the provider
    that it expects.  The tests of [whitelist_blacklist_check] follow.  They
    are evaluated with the published codecs of [Keccak]. *)

From S2P Require Import Prelude Chain Keccak Market MarketInfra MarketTestbed.

(** The document of most of the tests. *)
Definition enclave_document : string :=
  quoted "{'region':'ap-south-1','url':'https://example.com/enclave.eif','instance':'c6a.xlarge','memory':4096,'vcpu':2}".

(** [format!("{:064x}", 1)] *)
Definition test_job_id : string := print_hex 64 1.

(** The parameters, up to the address lists. *)
Definition params_of : list string -> list string -> JobManagerParams :=
  mkParams (mkJobId test_job_id "abc" "xyz" "123") ["ap-south-1"%string].

(** [compute_address_word(salt).encode_hex_with_prefix()] *)
Definition address_of (salt : string) : string := encode_hex_with_prefix (compute_address_word salt).

(** [assert!] of a check that must not panic. *)
Definition answers (r : panics bool) (b : bool) : bool := match r with Ok x => Bool.eqb x b | _ => false end.

(** ** The job loop *)

(** The logs, the parameters and what is expected of a run from an instant. *)
Record JobTest := mkJobTest {
  test_logs : list (Z * Action * bytes);
  test_params : JobManagerParams;
  test_results : Z -> TestResults
}.

Definition run_job_test (start_time : Z) (t : JobTest) : bool :=
  run_test start_time (test_logs t) (test_params t) (test_results t start_time).

Definition test_instance_launch_after_delay_on_spin_up : JobTest := mkJobTest
    [(0, Open, encode_opened enclave_document 31000000000000 31000 0);
     (301, Close, [])]
    (params_of [] [])
    (fun start_time => mkResults 0
      [SpinUp (mkSpinUp (start_time + from_secs 300) test_job_id
         "c6a.xlarge" "salmon" "ap-south-1" 4096 2 76 "xyz" "123" (compute_instance_id 0));
       RunEnclave (mkRunEnclave (start_time + from_secs 300) test_job_id
         (compute_instance_id 0) "salmon" "ap-south-1" "https://example.com/enclave.eif" 4096 2 76 false);
       SpinDown (mkSpinDown (start_time + from_secs 301) test_job_id (compute_instance_id 0) "ap-south-1")]).

Definition test_instance_launch_with_debug_mode_on_spin_up : JobTest := mkJobTest
    [(0, Open, encode_opened (quoted
       "{'region':'ap-south-1','url':'https://example.com/enclave.eif','instance':'c6a.xlarge','memory':4096,'vcpu':2,'debug':true}") 31000000000000 31000 0);
     (301, Close, [])]
    (params_of [] [])
    (fun start_time => mkResults 0
      [SpinUp (mkSpinUp (start_time + from_secs 300) test_job_id
         "c6a.xlarge" "salmon" "ap-south-1" 4096 2 76 "xyz" "123" (compute_instance_id 0));
       RunEnclave (mkRunEnclave (start_time + from_secs 300) test_job_id
         (compute_instance_id 0) "salmon" "ap-south-1" "https://example.com/enclave.eif" 4096 2 76 true);
       SpinDown (mkSpinDown (start_time + from_secs 301) test_job_id (compute_instance_id 0) "ap-south-1")]).

Definition test_instance_launch_after_delay_on_spin_up_with_specific_family : JobTest := mkJobTest
    [(0, Open, encode_opened (quoted
       "{'region':'ap-south-1','url':'https://example.com/enclave.eif','instance':'c6a.xlarge','memory':4096,'vcpu':2,'family':'tuna'}") 31000000000000 31000 0);
     (301, Close, [])]
    (params_of [] [])
    (fun start_time => mkResults 0
      [SpinUp (mkSpinUp (start_time + from_secs 300) test_job_id
         "c6a.xlarge" "tuna" "ap-south-1" 4096 2 76 "xyz" "123" (compute_instance_id 0));
       RunEnclave (mkRunEnclave (start_time + from_secs 300) test_job_id
         (compute_instance_id 0) "tuna" "ap-south-1" "https://example.com/enclave.eif" 4096 2 76 false);
       SpinDown (mkSpinDown (start_time + from_secs 301) test_job_id (compute_instance_id 0) "ap-south-1")]).

Definition test_deposit_withdraw_settle : JobTest := mkJobTest
    [(0, Open, encode_opened enclave_document 31000000000000 31000 0);
     (40, Deposit, encode_int 500);
     (60, Withdraw, encode_int 500);
     (100, Settle, encode_pair 2 6);
     (505, Close, [])]
    (params_of [] [])
    (fun start_time => mkResults 0
      [SpinUp (mkSpinUp (start_time + from_secs 300) test_job_id
         "c6a.xlarge" "salmon" "ap-south-1" 4096 2 76 "xyz" "123" (compute_instance_id 0));
       RunEnclave (mkRunEnclave (start_time + from_secs 300) test_job_id
         (compute_instance_id 0) "salmon" "ap-south-1" "https://example.com/enclave.eif" 4096 2 76 false);
       SpinDown (mkSpinDown (start_time + from_secs 505) test_job_id (compute_instance_id 0) "ap-south-1")]).

Definition test_revise_rate_cancel : JobTest := mkJobTest
    [(0, Open, encode_opened enclave_document 31000000000000 31000 0);
     (50, ReviseRateInitiated, encode_int 32000000000000);
     (100, ReviseRateFinalized, encode_int 32000000000000);
     (150, ReviseRateInitiated, encode_int 60000000000000);
     (200, ReviseRateCancelled, []);
     (505, Close, [])]
    (params_of [] [])
    (fun start_time => mkResults 0
      [SpinUp (mkSpinUp (start_time + from_secs 300) test_job_id
         "c6a.xlarge" "salmon" "ap-south-1" 4096 2 76 "xyz" "123" (compute_instance_id 0));
       RunEnclave (mkRunEnclave (start_time + from_secs 300) test_job_id
         (compute_instance_id 0) "salmon" "ap-south-1" "https://example.com/enclave.eif" 4096 2 76 false);
       SpinDown (mkSpinDown (start_time + from_secs 505) test_job_id (compute_instance_id 0) "ap-south-1")]).

Definition test_unsupported_region : JobTest := mkJobTest
    [(0, Open, encode_opened (quoted
       "{'region':'ap-east-1','url':'https://example.com/enclave.eif','instance':'c6a.xlarge','memory':4096,'vcpu':2}") 31000000000000 31000 0);
     (505, Close, [])]
    (params_of [] [])
    (fun start_time => mkResults (-2)
      []).

Definition test_region_not_found : JobTest := mkJobTest
    [(0, Open, encode_opened (quoted
       "{'url':'https://example.com/enclave.eif','instance':'c6a.xlarge','memory':4096,'vcpu':2}") 31000000000000 31000 0);
     (505, Close, [])]
    (params_of [] [])
    (fun start_time => mkResults (-2)
      []).

Definition test_instance_type_not_found : JobTest := mkJobTest
    [(0, Open, encode_opened (quoted
       "{'region':'ap-south-1','url':'https://example.com/enclave.eif','memory':4096,'vcpu':2}") 31000000000000 31000 0);
     (505, Close, [])]
    (params_of [] [])
    (fun start_time => mkResults (-2)
      []).

Definition test_unsupported_instance : JobTest := mkJobTest
    [(0, Open, encode_opened (quoted
       "{'region':'ap-south-1','url':'https://example.com/enclave.eif','instance':'c6a.vsmall','memory':4096,'vcpu':2}") 31000000000000 31000 0);
     (505, Close, [])]
    (params_of [] [])
    (fun start_time => mkResults (-2)
      []).

Definition test_eif_url_not_found : JobTest := mkJobTest
    [(0, Open, encode_opened (quoted
       "{'region':'ap-south-1','instance':'c6a.vsmall','memory':4096,'vcpu':2}") 31000000000000 31000 0);
     (505, Close, [])]
    (params_of [] [])
    (fun start_time => mkResults (-2)
      []).

Definition test_min_rate : JobTest := mkJobTest
    [(0, Open, encode_opened enclave_document 29000000000000 31000 0);
     (505, Close, [])]
    (params_of [] [])
    (fun start_time => mkResults 0
      []).

Definition test_rate_exceed_balance : JobTest := mkJobTest
    [(0, Open, encode_opened enclave_document 31000000000000 0 0);
     (505, Close, [])]
    (params_of [] [])
    (fun start_time => mkResults 0
      []).

Definition test_withdrawal_exceed_rate : JobTest := mkJobTest
    [(0, Open, encode_opened enclave_document 31000000000000 31000 0);
     (350, Withdraw, encode_int 30000);
     (500, Close, [])]
    (params_of [] [])
    (fun start_time => mkResults 0
      [SpinUp (mkSpinUp (start_time + from_secs 300) test_job_id
         "c6a.xlarge" "salmon" "ap-south-1" 4096 2 76 "xyz" "123" (compute_instance_id 0));
       RunEnclave (mkRunEnclave (start_time + from_secs 300) test_job_id
         (compute_instance_id 0) "salmon" "ap-south-1" "https://example.com/enclave.eif" 4096 2 76 false);
       SpinDown (mkSpinDown (start_time + from_secs 350) test_job_id (compute_instance_id 0) "ap-south-1")]).

Definition test_revise_rate_lower_higher : JobTest := mkJobTest
    [(0, Open, encode_opened enclave_document 31000000000000 31000 0);
     (350, ReviseRateInitiated, encode_int 29000000000000);
     (400, ReviseRateFinalized, encode_int 29000000000000);
     (450, ReviseRateInitiated, encode_int 31000000000000);
     (500, ReviseRateFinalized, encode_int 31000000000000)]
    (params_of [] [])
    (fun start_time => mkResults 0
      [SpinUp (mkSpinUp (start_time + from_secs 300) test_job_id
         "c6a.xlarge" "salmon" "ap-south-1" 4096 2 76 "xyz" "123" (compute_instance_id 0));
       RunEnclave (mkRunEnclave (start_time + from_secs 300) test_job_id
         (compute_instance_id 0) "salmon" "ap-south-1" "https://example.com/enclave.eif" 4096 2 76 false);
       SpinDown (mkSpinDown (start_time + from_secs 350) test_job_id (compute_instance_id 0) "ap-south-1")]).

Definition test_address_whitelisted : JobTest := mkJobTest
    [(0, Open, encode_opened enclave_document 31000000000000 31000 0);
     (500, Close, [])]
    (params_of [address_of "owner"] [])
    (fun start_time => mkResults 0
      [SpinUp (mkSpinUp (start_time + from_secs 300) test_job_id
         "c6a.xlarge" "salmon" "ap-south-1" 4096 2 76 "xyz" "123" (compute_instance_id 0));
       RunEnclave (mkRunEnclave (start_time + from_secs 300) test_job_id
         (compute_instance_id 0) "salmon" "ap-south-1" "https://example.com/enclave.eif" 4096 2 76 false);
       SpinDown (mkSpinDown (start_time + from_secs 500) test_job_id (compute_instance_id 0) "ap-south-1")]).

Definition test_address_not_whitelisted : JobTest := mkJobTest
    [(0, Open, encode_opened enclave_document 31000000000000 31000 0);
     (500, Close, [])]
    (params_of [address_of "notowner"] [])
    (fun start_time => mkResults 0
      []).

Definition test_address_blacklisted : JobTest := mkJobTest
    [(0, Open, encode_opened enclave_document 31000000000000 31000 0);
     (500, Close, [])]
    (params_of [] [address_of "owner"])
    (fun start_time => mkResults 0
      []).

Definition test_address_not_blacklisted : JobTest := mkJobTest
    [(0, Open, encode_opened enclave_document 31000000000000 31000 0);
     (500, Close, [])]
    (params_of [] [address_of "notowner"])
    (fun start_time => mkResults 0
      [SpinUp (mkSpinUp (start_time + from_secs 300) test_job_id
         "c6a.xlarge" "salmon" "ap-south-1" 4096 2 76 "xyz" "123" (compute_instance_id 0));
       RunEnclave (mkRunEnclave (start_time + from_secs 300) test_job_id
         (compute_instance_id 0) "salmon" "ap-south-1" "https://example.com/enclave.eif" 4096 2 76 false);
       SpinDown (mkSpinDown (start_time + from_secs 500) test_job_id (compute_instance_id 0) "ap-south-1")]).

Definition test_eif_update_after_spin_up : JobTest := mkJobTest
    [(0, Open, encode_opened enclave_document 31000000000000 31000 0);
     (100, MetadataUpdated, encode_str (quoted
       "{'region':'ap-south-1','url':'https://example.com/updated-enclave.eif','instance':'c6a.xlarge','memory':4096,'vcpu':2}"));
     (505, Close, [])]
    (params_of [] [])
    (fun start_time => mkResults 0
      [SpinUp (mkSpinUp (start_time + from_secs 400) test_job_id
         "c6a.xlarge" "salmon" "ap-south-1" 4096 2 76 "xyz" "123" (compute_instance_id 0));
       RunEnclave (mkRunEnclave (start_time + from_secs 400) test_job_id
         (compute_instance_id 0) "salmon" "ap-south-1" "https://example.com/updated-enclave.eif" 4096 2 76 false);
       SpinDown (mkSpinDown (start_time + from_secs 505) test_job_id (compute_instance_id 0) "ap-south-1")]).

Definition test_other_metadata_update_after_spin_up : JobTest := mkJobTest
    [(0, Open, encode_opened enclave_document 31000000000000 31000 0);
     (100, MetadataUpdated, encode_str (quoted
       "{'region':'ap-south-1','url':'https://example.com/updated-enclave.eif','instance':'c6a.large','memory':4096,'vcpu':2}"));
     (505, Close, [])]
    (params_of [] [])
    (fun start_time => mkResults (-2)
      []).

Definition test_metadata_update_event_with_no_updates_after_spin_up : JobTest := mkJobTest
    [(0, Open, encode_opened enclave_document 31000000000000 31000 0);
     (100, MetadataUpdated, encode_str enclave_document);
     (505, Close, [])]
    (params_of [] [])
    (fun start_time => mkResults (-2)
      []).

(** ** The address lists *)

Definition test_whitelist_blacklist_check_no_list : bool :=
  let log := get_log Open
    (encode_opened enclave_document 31000000000000 31000 0) 0 in
  let address_whitelist := [] in
  let address_blacklist := [] in
  answers (whitelist_blacklist_check log address_whitelist address_blacklist) true.

Definition test_whitelist_blacklist_check_whitelisted : bool :=
  let log := get_log Open
    (encode_opened enclave_document 31000000000000 31000 0) 0 in
  let address_whitelist := [address_of "owner"; address_of "notowner"] in
  let address_blacklist := [] in
  answers (whitelist_blacklist_check log address_whitelist address_blacklist) true.

Definition test_whitelist_blacklist_check_not_whitelisted : bool :=
  let log := get_log Open
    (encode_opened enclave_document 31000000000000 31000 0) 0 in
  let address_whitelist := [address_of "notownereither"; address_of "notowner"] in
  let address_blacklist := [] in
  answers (whitelist_blacklist_check log address_whitelist address_blacklist) false.

Definition test_whitelist_blacklist_check_blacklisted : bool :=
  let log := get_log Open
    (encode_opened enclave_document 31000000000000 31000 0) 0 in
  let address_whitelist := [] in
  let address_blacklist := [address_of "owner"; address_of "notowner"] in
  answers (whitelist_blacklist_check log address_whitelist address_blacklist) false.

Definition test_whitelist_blacklist_check_not_blacklisted : bool :=
  let log := get_log Open
    (encode_opened enclave_document 31000000000000 31000 0) 0 in
  let address_whitelist := [] in
  let address_blacklist := [address_of "notownereither"; address_of "notowner"] in
  answers (whitelist_blacklist_check log address_whitelist address_blacklist) true.

Definition test_whitelist_blacklist_check_neither : bool :=
  let log := get_log Open
    (encode_opened enclave_document 31000000000000 31000 0) 0 in
  let address_whitelist := [address_of "notownereither"; address_of "notowner"] in
  let address_blacklist := [address_of "definitelynotownereither"; address_of "definitelynotowner"] in
  answers (whitelist_blacklist_check log address_whitelist address_blacklist) false.

Definition test_whitelist_blacklist_check_both : bool :=
  let log := get_log Open
    (encode_opened enclave_document 31000000000000 31000 0) 0 in
  let address_whitelist := [address_of "owner"; address_of "notowner"] in
  let address_blacklist := [address_of "owner"; address_of "definitelynotowner"] in
  answers (whitelist_blacklist_check log address_whitelist address_blacklist) false.

(** ** The suite *)

Definition job_tests : list JobTest :=
  [test_instance_launch_after_delay_on_spin_up;
   test_instance_launch_with_debug_mode_on_spin_up;
   test_instance_launch_after_delay_on_spin_up_with_specific_family;
   test_deposit_withdraw_settle;
   test_revise_rate_cancel;
   test_unsupported_region;
   test_region_not_found;
   test_instance_type_not_found;
   test_unsupported_instance;
   test_eif_url_not_found;
   test_min_rate;
   test_rate_exceed_balance;
   test_withdrawal_exceed_rate;
   test_revise_rate_lower_higher;
   test_address_whitelisted;
   test_address_not_whitelisted;
   test_address_blacklisted;
   test_address_not_blacklisted;
   test_eif_update_after_spin_up;
   test_other_metadata_update_after_spin_up;
   test_metadata_update_event_with_no_updates_after_spin_up].

Definition address_tests : list bool :=
  [test_whitelist_blacklist_check_no_list;
   test_whitelist_blacklist_check_whitelisted;
   test_whitelist_blacklist_check_not_whitelisted;
   test_whitelist_blacklist_check_blacklisted;
   test_whitelist_blacklist_check_not_blacklisted;
   test_whitelist_blacklist_check_neither;
   test_whitelist_blacklist_check_both].
