(* ===== verification/MarketTestsProps.v ===== *)
(** * Control plane: the job loop passes its unit tests

    The tests of [MarketTests] are evaluated at one late instant; moving a run
    of the job loop to an earlier instant moves every time in it and changes
    nothing else ([run_test_earlier]), so that they pass at every instant that
    leaves room before the end of the clock. *)

From S2P Require Import Prelude Chain Keccak Market MarketInfra MarketCloud MarketTestbed MarketTests.

(** ** Moving a state in time *)

Definition later (d : Z) (s : JobState) : JobState := s <| infra_change_time := infra_change_time s + d |>.

Definition outcome_later (d : Z) (o : TestAwsOutcome) : TestAwsOutcome :=
  match o with
  | SpinUp (mkSpinUp t j ty f r m v b c ch i) => SpinUp (mkSpinUp (t + d) j ty f r m v b c ch i)
  | SpinDown (mkSpinDown t j i r) => SpinDown (mkSpinDown (t + d) j i r)
  | RunEnclave (mkRunEnclave t j i f r u m v b g) => RunEnclave (mkRunEnclave (t + d) j i f r u m v b g)
  | UpdateEnclaveImage (mkUpdate t i r u m v) => UpdateEnclaveImage (mkUpdate (t + d) i r u m v)
  end.

Definition aws_later (d : Z) (p : TestAws) : TestAws :=
  mkTestAws (outcome_later d <$> outcomes p) (instances p) (counter p) (clock_now p + d).

Definition results_later (d : Z) (r : TestResults) : TestResults :=
  mkResults (t_res r) (outcome_later d <$> t_outcomes r).

(** The moved computation runs like the first one, when the clock has room
    for the moved one: [f] moves its result. *)
Definition follows {A} (f : A -> A) (moved first : panics A) : Prop :=
  forall x, moved = Ok x -> exists y, first = Ok y /\ x = f y.

Lemma follows_ret {A} (f : A -> A) y : follows f (Ok (f y)) (Ok y).
Proof. intros x [= <-]. by exists y. Qed.

Lemma follows_bind {A B} (f : A -> A) (g : B -> B) m' m (k' k : A -> panics B) :
  follows f m' m -> (forall y, follows g (k' (f y)) (k y)) -> follows g (m' ≫= k') (m ≫= k).
Proof.
  intros Hm Hk x (a & Ha & Hx)%bind_Ok. apply Hm in Ha as (y & -> & ->). by apply Hk.
Qed.

Lemma follows_same {A B} (f : B -> B) (m : panics A) (k' k : A -> panics B) :
  (forall y, follows f (k' y) (k y)) -> follows f (m ≫= k') (m ≫= k).
Proof. intros Hk. destruct m; [apply Hk | |]; by intros x. Qed.

Section moving.
Context (d : Z) (Hd : 0 <= d).

Lemma schedule_launch_follows now delay s :
  follows (later d) (schedule_launch (now + d) delay (later d s)) (schedule_launch now delay s).
Proof using Hd.
  intros x Hx. unfold schedule_launch, instant_checked_add in *.
  destruct (Z.leb_spec (now + d + from_secs delay) INSTANT_MAX); [| done].
  destruct (Z.leb_spec (now + from_secs delay) INSTANT_MAX); [| lia].
  cbn in *. injection Hx as <-. eexists. split; [done |]. unfold later, over. cbn. f_equal. lia.
Qed.

Lemma schedule_termination_follows now delay s :
  follows (later d) (schedule_termination (now + d) delay (later d s)) (schedule_termination now delay s).
Proof using Hd.
  intros x Hx. unfold schedule_termination, instant_checked_add in *.
  destruct (Z.leb_spec (now + d + from_secs delay) INSTANT_MAX); [| done].
  destruct (Z.leb_spec (now + from_secs delay) INSTANT_MAX); [| lia].
  cbn in *. injection Hx as <-. eexists. split; [done |]. unfold later, over. cbn. f_equal. lia.
Qed.

(** A code with a state. *)
Definition coded (x : Z * JobState) : Z * JobState := (x.1, later d x.2).

Lemma launch_then now delay s c :
  follows coded (s ← schedule_launch (now + d) delay (later d s); Ok (c, s))
    (s ← schedule_launch now delay s; Ok (c, s)).
Proof using Hd.
  eapply follows_bind; [apply schedule_launch_follows | intros y; apply (follows_ret coded (c, y))].
Qed.

Lemma terminate_then now delay s c :
  follows coded (s ← schedule_termination (now + d) delay (later d s); Ok (c, s))
    (s ← schedule_termination now delay s; Ok (c, s)).
Proof using Hd.
  eapply follows_bind; [apply schedule_termination_follows | intros y; apply (follows_ret coded (c, y))].
Qed.

Context `{C : ChainApi, J : JsonApi}.

(** A [let] of the state: the two values differ by the move. *)
Lemma follows_let {A} (f : A -> A) (k' k : JobState -> panics A) v' v :
  v' = later d v -> (forall s, follows f (k' (later d s)) (k s)) ->
  follows f (let s := v' in k' s) (let s := v in k s).
Proof. intros ->. auto. Qed.

(** Both sides take the same branch. *)
Ltac same := let H := fresh in intros ? H; injection H as <-; eexists; split; reflexivity.

Lemma find_bandwidth_follows gb_rates s :
  follows (later d) (find_bandwidth gb_rates (later d s)) (find_bandwidth gb_rates s).
Proof.
  unfold find_bandwidth. change (region (later d s)) with (region s).
  destruct (find _ _) as [e |]; [| same]. cbv zeta. destruct (gb_rate e =? 0); [by intros x | same].
Qed.

Ltac branch := cbv beta iota; match goal with
  | |- follows ?f (let s := ?v' in @?k' s) (let s := ?v in @?k s) =>
      refine (follows_let f k' k v' v _ _); [try reflexivity | intros ?]
  | |- follows _ (Ok _) (Ok _) => same
  | |- follows _ _ (schedule_termination ?n ?w ?s ≫= _) => exact (terminate_then n w s _)
  | |- follows _ _ (schedule_launch ?n ?w ?s ≫= _) => exact (launch_then n w s _)
  | |- follows _ _ (find_bandwidth ?g ?s ≫= _) =>
      refine (follows_bind (later d) _ _ _ _ _ (find_bandwidth_follows g s) _); intros ?
  | |- follows _ (match ?m with _ => _ end) (match ?m with _ => _ end) => destruct m
  | |- follows _ (if ?m' then _ else _) (if ?m then _ else _) => change m' with m; destruct m
  | |- follows _ (match ?m' with _ => _ end) (match ?m with _ => _ end) => change m' with m; destruct m
  | |- follows _ (mbind _ ?m) (mbind _ ?m) => apply follows_same; intros ?
  end.

Lemma on_opened_follows now rates gb_rates wl bl log s :
  follows coded (on_opened (now + d) rates gb_rates wl bl log (later d s))
    (on_opened now rates gb_rates wl bl log s).
Proof using Hd.
  cbv delta [on_opened]. cbv beta. repeat branch; by case_match.
Qed.

Lemma on_metadata_updated_follows now log s :
  follows coded (on_metadata_updated (now + d) log (later d s)) (on_metadata_updated now log s).
Proof using Hd.
  cbv delta [on_metadata_updated reject_update]. cbv beta. repeat branch.
Qed.

Lemma process_log_follows now rates gb_rates wl bl log s :
  follows coded (process_log (now + d) rates gb_rates wl bl log (later d s))
    (process_log now rates gb_rates wl bl log s).
Proof using Hd.
  unfold process_log. destruct log as [log |]; [| same]. apply follows_same. intros t.
  repeat match goal with |- follows _ (if ?b then _ else _) _ => destruct b end;
    try apply on_opened_follows; try apply on_metadata_updated_follows;
    cbv delta [on_settled on_closed on_deposited on_withdrew on_revise_rate_initiated
      on_revise_rate_cancelled on_revise_rate_finalized]; cbv beta; repeat branch.
Qed.

(** ** The provider and the branches of the loop *)

Definition moved (x : bool * JobState * TestAws) : bool * JobState * TestAws :=
  (x.1.1, later d x.1.2, aws_later d x.2).

Lemma test_spin_up_moved j ty fam r mem vcpu bw p :
  test_spin_up j ty fam r mem vcpu bw (aws_later d p) =
  (aws_later d (test_spin_up j ty fam r mem vcpu bw p).1, (test_spin_up j ty fam r mem vcpu bw p).2).
Proof.
  unfold test_spin_up, aws_later. cbn [instances counter clock_now]. generalize (new_instance (counter p)). intros x.
  destruct (_ !! _) as [y |]; unfold push, over; cbn; by rewrite fmap_app.
Qed.

Lemma launch_new_moved s p : launch_new (later d s) (aws_later d p) = moved (launch_new s p).
Proof.
  unfold launch_new, run_enclave_for. cbn [spin_up run_enclave test_provider].
  rewrite test_spin_up_moved.
  match goal with |- _ = moved (match ?m with _ => _ end) =>
    change (test_spin_up _ _ _ _ _ _ _ p) with m; destruct m as [p1 [id |]]; [| done] end.
  cbn [fst snd]. unfold test_run_enclave, moved, aws_later, push, over. cbn. by rewrite fmap_app.
Qed.

Lemma spin_down_moved i j r p :
  test_spin_down i j r (aws_later d p) = (aws_later d (test_spin_down i j r p).1, Some tt).
Proof. unfold test_spin_down, aws_later, push, over. cbn. by rewrite fmap_app. Qed.

Lemma update_moved i r u v m p :
  test_update_enclave_image i r u v m (aws_later d p) =
  (aws_later d (test_update_enclave_image i r u v m p).1, Some tt).
Proof. unfold test_update_enclave_image, aws_later, push, over. cbn. by rewrite fmap_app. Qed.

Lemma change_infra_impl_moved s p :
  change_infra_impl (later d s) (aws_later d p) = moved (change_infra_impl s p).
Proof.
  unfold change_infra_impl. cbn [get_job_instance spin_down update_enclave_image test_provider].
  unfold test_get_job_instance. cbn [instances aws_later].
  change (job_id (later d s)) with (job_id s). change (infra_state (later d s)) with (infra_state s).
  change (region (later d s)) with (region s).
  destruct (instances p !! jid (job_id s)) as [x |]; destruct (infra_state s).
  - change (true && state_in "running" ["pending"; "running"]%string) with true. cbv iota.
    change (eif_update (later d s <| instance_id := im_instance_id x |>)) with (eif_update s).
    change (eif_update (s <| instance_id := im_instance_id x |>)) with (eif_update s).
    destruct (eif_update s); [| done]. by rewrite update_moved.
  - change (negb true || state_in "running" ["shutting-down"; "terminated"]%string) with false. cbv iota.
    by rewrite spin_down_moved.
  - apply launch_new_moved.
  - done.
Qed.

(** The result of a branch. *)
Definition ran (x : option Z * JobState * TestAws) : option Z * JobState * TestAws :=
  (x.1.1, later d x.1.2, aws_later d x.2).

Lemma change_infra_follows now s p :
  follows moved (change_infra (now + d) (later d s) (aws_later d p)) (change_infra now s p).
Proof using Hd.
  unfold change_infra. rewrite change_infra_impl_moved.
  destruct (change_infra_impl s p) as [[res s1] p1]. unfold moved at 2. cbn [fst snd].
  destruct res; [intros x [= <-]; eexists; split; reflexivity |].
  unfold instant_checked_add. intros x Hx.
  destruct (Z.leb_spec (now + d + from_secs 2) INSTANT_MAX); [| done].
  destruct (Z.leb_spec (now + from_secs 2) INSTANT_MAX); [| lia].
  cbn in *. injection Hx as <-. eexists. split; [done |].
  unfold moved, later, over. cbn. do 2 f_equal. f_equal. lia.
Qed.

Lemma run_branch_follows now rates gb_rates wl bl b s p :
  follows ran (run_branch rates gb_rates wl bl (now + d) b (later d s) (aws_later d p))
    (run_branch rates gb_rates wl bl now b s p).
Proof using Hd.
  destruct b as [log | | |]; cbn [run_branch].
  - eapply follows_bind; [apply process_log_follows |]. intros [r s1] x [= <-]. eexists. split; reflexivity.
  - intros x Hx. unfold heartbeat_check in *. cbn in *. injection Hx as <-. eexists. split; reflexivity.
  - unfold handle_insolvency. eapply follows_bind; [apply schedule_termination_follows |].
    intros s1 x [= <-]. eexists. split; reflexivity.
  - eapply follows_bind; [apply change_infra_follows |]. intros [[r s1] p1] x [= <-].
    eexists. split; reflexivity.
Qed.

(** ** The loop on the paused clock *)

Definition turn_later (t : Turn) : Turn :=
  mkTurn (start_now t + d) (start_ts t) ((fun q => mkPoll (poll_now q + d) (poll_log q)) <$> polls t)
    (handler_now t + d).

Lemma leb_later a b : (a + d <=? b + d) = (a <=? b).
Proof. destruct (Z.leb_spec (a + d) (b + d)), (Z.leb_spec a b); lia. Qed.

Lemma since_later now s :
  saturating_duration_since (infra_change_time (later d s)) (now + d) =
  saturating_duration_since (infra_change_time s) now.
Proof.
  change (infra_change_time (later d s)) with (infra_change_time s + d).
  unfold saturating_duration_since, saturating_sub. lia.
Qed.

Lemma ready_branch_later t s now log :
  ready_branch (turn_later t) (later d s) (mkPoll (now + d) log) = ready_branch t s (mkPoll now log).
Proof.
  unfold ready_branch. cbn [poll_log poll_now turn_later start_now start_ts]. rewrite since_later.
  assert (Hl : forall x, (start_now t + d + x <=? now + d) = (start_now t + x <=? now)).
  { intros x. destruct (Z.leb_spec (start_now t + d + x) (now + d)), (Z.leb_spec (start_now t + x) now); lia. }
  rewrite !Hl. reflexivity.
Qed.

Lemma select_later t s : select (turn_later t) (later d s) = select t s.
Proof.
  unfold select. cbn [polls turn_later]. induction (polls t) as [| [now log] l IH]; [done |].
  cbn. rewrite ready_branch_later. cbn in *. by destruct (ready_branch t s _).
Qed.

Lemma job_loop_follows rates gb_rates wl bl ts : forall s p,
  follows ran (job_loop rates gb_rates wl bl (turn_later <$> ts) (later d s) (aws_later d p))
    (job_loop rates gb_rates wl bl ts s p).
Proof using Hd.
  induction ts as [| t ts IH]; intros s p; [intros x [= <-]; eexists; split; reflexivity |].
  cbn [fmap list_fmap job_loop]. rewrite select_later.
  destruct (select t s) as [b |]; [| intros x [= <-]; eexists; split; reflexivity].
  eapply follows_bind; [apply run_branch_follows |]. intros [[[r |] s1] p1]; cbn [ran fst snd].
  - intros x [= <-]. eexists. split; reflexivity.
  - apply IH.
Qed.

Definition logs_later (logs : list (Z * Log)) : list (Z * Log) := (fun l => (l.1 + d, l.2)) <$> logs.

Lemma deadlines_later now ts s logs :
  deadlines (now + d) ts (later d s) (logs_later logs) = (fun x => x + d) <$> deadlines now ts s logs.
Proof.
  unfold deadlines. rewrite since_later, !fmap_app.
  change (instance_id (later d s)) with (instance_id s).
  change (infra_change_scheduled (later d s)) with (infra_change_scheduled s).
  change (infra_state (later d s)) with (infra_state s).
  change (insolvency_duration ts (later d s)) with (insolvency_duration ts s).
  f_equal; [| f_equal; [| f_equal]].
  - destruct logs as [| [m l] logs]; cbn [logs_later fmap list_fmap fst snd]; [done |]. f_equal. lia.
  - destruct (String.eqb _ _); cbn [fmap list_fmap]; [done |]. f_equal. lia.
  - destruct (_ || _); cbn [fmap list_fmap]; [| done]. f_equal. lia.
  - destruct (infra_change_scheduled s); cbn [fmap list_fmap]; [| done]. f_equal. lia.
Qed.

Lemma earliest_later l : earliest ((fun x => x + d) <$> l) = (fun x => x + d) <$> earliest l.
Proof.
  destruct l as [| x l]; [done |]. cbn. f_equal. revert x.
  induction l as [| y l IH]; intros x; [done |]. cbn. rewrite <- IH. f_equal. lia.
Qed.

Definition finished (x : option (Z * TestAws)) : option (Z * TestAws) :=
  (fun y => (y.1, aws_later d y.2)) <$> x.

Lemma run_paused_follows fuel start params : forall logs now s p,
  follows finished
    (run_paused fuel (start + d) params (logs_later logs) (now + d) (later d s) (aws_later d p))
    (run_paused fuel start params logs now s p).
Proof using Hd.
  induction fuel as [| fuel IH]; intros logs now s p; [intros x [= <-]; by exists None |].
  cbn [run_paused]. replace (now + d - (start + d)) with (now - start) by lia.
  rewrite deadlines_later, earliest_later.
  destruct (earliest _) as [wake |]; cbn [fmap option_fmap option_map]; [| intros x [= <-]; by exists None].
  set (arrived := match logs with
    | (moment, log) :: _ => if moment <=? wake then Some (Some log) else None | [] => None end).
  replace (match logs_later logs with
    | (moment, log) :: _ => if moment <=? wake + d then Some (Some log) else None
    | [] => None end) with arrived by (destruct logs as [| [m l] logs]; cbn; [done | by rewrite leb_later]).
  eapply follows_bind.
  { exact (job_loop_follows _ _ _ _ [mkTurn now (now - start) [mkPoll wake arrived] wake] s
             (p <| clock_now := wake |>)). }
  intros [[[r |] s1] p1]; cbn [ran fst snd]; [intros x [= <-]; eexists; split; reflexivity |].
  replace (match arrived with Some _ => tail (logs_later logs) | None => logs_later logs end)
    with (logs_later (match arrived with Some _ => tail logs | None => logs end))
    by (destruct arrived, logs; done).
  apply IH.
Qed.

End moving.

(** ** Moving a test *)

Lemma outcome_later_inj d o o' : outcome_later d o = outcome_later d o' -> o = o'.
Proof.
  destruct o as [[]|[]|[]|[]], o' as [[]|[]|[]|[]]; cbn; intros [=]; subst; repeat f_equal; lia.
Qed.

(** The clock of the provider is set before it is read. *)
Lemma run_paused_clock `{C : ChainApi, J : JsonApi} fuel start params logs now s p c :
  fuel <> 0%nat ->
  run_paused fuel start params logs now s (p <| clock_now := c |>) = run_paused fuel start params logs now s p.
Proof. by destruct fuel. Qed.

(** A test that passes passes at every earlier start. *)
Lemma run_test_earlier `{C : ChainApi, J : JsonApi} d start logs params results :
  0 <= d -> run_test (start + d) logs params (results_later d results) = true ->
  run_test start logs params results = true.
Proof.
  intros Hd. unfold run_test. destruct (parse_fixed 64 _) as [num |]; [| done].
  set (ls := (fun l : Z * Action * bytes => (start + from_secs l.1.1, get_log l.1.2 l.2 num)) <$> logs).
  replace ((fun l : Z * Action * bytes => (start + d + from_secs l.1.1, get_log l.1.2 l.2 num)) <$> logs)
    with (logs_later d ls).
  2: { unfold ls, logs_later. rewrite <- list_fmap_compose. apply list_fmap_ext. intros i l _. cbn. f_equal. lia. }
  set (s0 := new_job_state 0 start (p_job_id params) 300 (p_allowed_regions params)).
  change (new_job_state 0 (start + d) (p_job_id params) 300 (p_allowed_regions params)) with (later d s0).
  assert (Hrun : follows (finished d)
    (run_paused 1000 (start + d) params (logs_later d ls) (start + d) (later d s0) default_aws)
    (run_paused 1000 start params ls start s0 default_aws)).
  { rewrite <- (run_paused_clock 1000 (start + d) _ _ _ _ _ d) by done. exact (run_paused_follows d Hd 1000 start params ls start s0 default_aws). }
  destruct (run_paused 1000 (start + d) _ _ _ _ _) as [x | |] eqn:Hx; [| done | done].
  destruct (Hrun x eq_refl) as (y & -> & ->). destruct y as [[r aws] |]; [| done].
  cbn [finished fmap option_fmap option_map fst snd instances outcomes aws_later t_res t_outcomes results_later].
  rewrite !andb_true_iff, !bool_decide_eq_true. intros [He Ho]. split; [exact He |].
  revert Ho. apply list_fmap_eq_inj. intros o o'. apply outcome_later_inj.
Qed.

(** The last start the tests are run at. *)
Definition LATE : Z := INSTANT_MAX - from_secs 2000.

(** The expected results of a test move with its start. *)
Definition moves (t : JobTest) : Prop := forall start d,
  results_later d (test_results t start) = test_results t (start + d).

Lemma job_tests_move : Forall moves job_tests.
Proof.
  repeat apply Forall_cons_2; [.. | apply Forall_nil_2]; intros start d;
    match goal with |- _ = test_results ?t _ => unfold t end;
    unfold results_later; cbn [t_res t_outcomes test_results fmap list_fmap outcome_later];
    repeat match goal with |- context [start + from_secs ?n + d] =>
      replace (start + from_secs n + d) with (start + d + from_secs n) by lia end; reflexivity.
Qed.

Lemma job_tests_pass_late : forallb (run_job_test LATE) job_tests = true.
Proof. vm_compute. reflexivity. Qed.

Lemma a_late_start t start :
  moves t -> start <= LATE -> run_job_test LATE t = true -> run_job_test start t = true.
Proof.
  intros Hm Hs. unfold run_job_test. replace LATE with (start + (LATE - start)) by lia.
  rewrite <- Hm. apply run_test_earlier. lia.
Qed.

Lemma job_tests_pass start : start <= LATE -> Forall (fun t => run_job_test start t = true) job_tests.
Proof.
  intros Hs. apply List.Forall_forall. intros t Hin. apply a_late_start; [| exact Hs |].
  - by apply (proj1 (List.Forall_forall _ _) job_tests_move).
  - by apply (proj1 (forallb_forall _ _) job_tests_pass_late).
Qed.

Lemma address_tests_pass : Forall (fun t => t = true) address_tests.
Proof. repeat apply Forall_cons_2; [.. | apply Forall_nil_2]; vm_compute; reflexivity. Qed.
