(* ===== verification/ByteOrder.v ===== *)
(** * Byte order: little- and big-endian integers as bytes

    The hosts are little-endian; the network is big-endian. *)

From S2P Require Import Prelude.

Definition le_bytes (n : nat) (z : Z) : bytes := rev (be_bytes n z).
Definition from_le (l : bytes) : Z := from_be (rev l).

(** [u16::from_be] and [u32::from_be], and their inverses [to_be] *)
Definition ntoh16 (i : Z) : Z := from_be (le_bytes 2 i).
Definition ntoh32 (i : Z) : Z := from_be (le_bytes 4 i).

Abbreviation octets := (Forall (fun b => is_byte b = true)).

Lemma is_byte_range b : is_byte b = true <-> 0 <= b < 256.
Proof. unfold is_byte, in_width. rewrite andb_true_iff, Z.leb_le, Z.ltb_lt. done. Qed.

Lemma be_bytes_high n k z : be_bytes n (k * 256 ^ Z.of_nat n + z) = be_bytes n z.
Proof.
  revert k. induction n as [| n IH]; intros k; [done |]. cbn [be_bytes].
  rewrite Nat2Z.inj_succ, Z.pow_succ_r by lia. f_equal.
  - unfold wrap. rewrite !Z.shiftr_div_pow2, Z.pow_mul_r by lia. change (2 ^ 8) with 256.
    assert (0 < 256 ^ Z.of_nat n) by (apply Z.pow_pos_nonneg; lia).
    rewrite Z.mul_assoc, Z.div_add_l by lia. rewrite Z.add_comm. apply Z_mod_plus_full.
  - by rewrite Z.mul_assoc, IH.
Qed.

Lemma from_be_range l : octets l -> 0 <= from_be l < 256 ^ Z.of_nat (length l).
Proof.
  induction 1 as [| b l Hb%is_byte_range _ IH]; [done |].
  rewrite from_be_cons. cbn [length]. rewrite Nat2Z.inj_succ, Z.pow_succ_r by lia. nia.
Qed.

Lemma be_bytes_from_be l : octets l -> be_bytes (length l) (from_be l) = l.
Proof.
  induction 1 as [| b l Hb%is_byte_range Hl IH]; [done |].
  pose proof (from_be_range l Hl). cbn [be_bytes length]. rewrite from_be_cons, be_bytes_high, IH. f_equal.
  unfold wrap. rewrite Z.shiftr_div_pow2, Z.pow_mul_r by lia. change (2 ^ 8) with 256.
  rewrite Z.div_add_l, Z.div_small, Z.add_0_r by lia. by apply Z.mod_small.
Qed.

Lemma from_be_octets n z : 0 <= z < 256 ^ Z.of_nat n -> from_be (be_bytes n z) = z.
Proof. intros. rewrite from_be_be_bytes. by apply Z.mod_small. Qed.

Lemma octets_be_bytes n z : octets (be_bytes n z).
Proof.
  induction n as [| n IH]; constructor; [| done]. apply is_byte_range. apply Z.mod_pos_bound. done.
Qed.

Lemma length_le_bytes n z : length (le_bytes n z) = n.
Proof. unfold le_bytes. by rewrite length_rev, length_be_bytes. Qed.
#[export] Hint Rewrite length_le_bytes : lengths.

Lemma from_le_le_bytes n z : from_le (le_bytes n z) = z mod 256 ^ Z.of_nat n.
Proof. unfold from_le, le_bytes. by rewrite rev_involutive, from_be_be_bytes. Qed.

(** Loading little-endian, then swapping, reads big-endian. *)
Lemma swap_load n l : length l = n -> octets l -> from_be (le_bytes n (from_le l)) = from_be l.
Proof.
  intros <- H. unfold le_bytes, from_le. f_equal. rewrite <- (length_rev l).
  rewrite be_bytes_from_be by by apply Forall_rev. by rewrite rev_involutive.
Qed.

Lemma bytes_of_word (ip : bytes) : length ip = 4%nat -> octets ip ->
  let bits := from_be ip in
  [wrap 8 (Z.shiftr bits 24); wrap 8 (Z.shiftr bits 16); wrap 8 (Z.shiftr bits 8); wrap 8 bits] = ip.
Proof. intros H Ho. cbn zeta. rewrite <- (be_bytes_from_be ip Ho) at 5. rewrite H. cbn. by rewrite Z.shiftr_0_r. Qed.
