(* ===== verification/Io.v ===== *)
(** * Effects: computations over an explicit world

    [io W E A] is a computation that updates a world [W] and then returns,
    fails or panics; a result of [None] means it has not finished (it waits
    for the environment, or its fuel ran out).  A function that never returns
    normally has the result type [Empty_set]. *)

From S2P Require Import Prelude.

Definition io (W E A : Type) : Type := W -> W * option (outcome E A).

#[export] Instance io_ret {W E} : MRet (io W E) := fun A a w => (w, Some (Ok a)).
#[export] Instance io_bind {W E} : MBind (io W E) := fun A B f m w =>
  match m w with
  | (w', Some (Ok a)) => f a w'
  | (w', Some (Err e)) => (w', Some (Err e))
  | (w', Some Panic) => (w', Some Panic)
  | (w', None) => (w', None)
  end.

Section io.
Context {W E : Type}.

Definition lift {A} (o : outcome E A) : io W E A := fun w => (w, Some o).
Definition fail {A} (e : E) : io W E A := lift (Err e).
Definition panic {A} : io W E A := lift Panic.
Definition pending {A} : io W E A := fun w => (w, None).
Definition get : io W E W := fun w => (w, Some (Ok w)).
Definition modify (f : W -> W) : io W E unit := fun w => (f w, Some (Ok tt)).

(** A call answering [None] on failure. *)
Definition attempt {A} (e : E) (f : W -> W * option A) : io W E A := fun w =>
  match f w with (w', Some a) => (w', Some (Ok a)) | (w', None) => (w', Some (Err e)) end.

End io.

Section laws.
Context {W E : Type}.

Lemma io_bind_Ok {A B} (m : io W E A) (f : A -> io W E B) w w' a :
  m w = (w', Some (Ok a)) -> (m ≫= f) w = f a w'.
Proof. intros H. unfold mbind, io_bind. by rewrite H. Qed.

Lemma io_bind_Err {A B} (m : io W E A) (f : A -> io W E B) w w' e :
  m w = (w', Some (Err e)) -> (m ≫= f) w = (w', Some (Err e)).
Proof. intros H. unfold mbind, io_bind. by rewrite H. Qed.

Lemma io_bind_None {A B} (m : io W E A) (f : A -> io W E B) w w' :
  m w = (w', None) -> (m ≫= f) w = (w', None).
Proof. intros H. unfold mbind, io_bind. by rewrite H. Qed.

Lemma io_bind_inv {A B} (m : io W E A) (f : A -> io W E B) w w'' b :
  (m ≫= f) w = (w'', Some (Ok b)) -> exists w' a, m w = (w', Some (Ok a)) /\ f a w' = (w'', Some (Ok b)).
Proof.
  unfold mbind, io_bind. destruct (m w) as [w' [[a | e |] |]]; intros H; [eauto | discriminate ..].
Qed.

(** A result that is not [Ok], at another type. *)
Definition stop {A B} (r : option (outcome E B)) : option (outcome E A) :=
  match r with Some (Err e) => Some (Err e) | Some _ => Some Panic | None => None end.

(** Either [m] ends the computation, or the rest runs from where it returns. *)
Lemma io_bind_split {A B} (m : io W E A) (f : A -> io W E B) w w'' r :
  (m ≫= f) w = (w'', r) ->
  (m w = (w'', stop r) /\ forall b, r <> Some (Ok b)) \/
  (exists w' a, m w = (w', Some (Ok a)) /\ f a w' = (w'', r)).
Proof.
  unfold mbind, io_bind. destruct (m w) as [w' [[a | e |] |]]; intros H; [right; eauto | left ..];
    simplify_eq; (split; [reflexivity | done]).
Qed.

End laws.
