(* ===== verification/RawProxy.v ===== *)
(** * Raw packet proxies: [networking/raw-proxy/src]

    The four proxies that carry IP packets between the host's network and the
    enclave's vsock.  A vsock connection is read as the bytes that arrive on
    it before it fails or closes; a socket that is written to is a state of
    the class [Sender]; the packet queue is the list of its next answers. *)

From stdpp Require Import pretty.
From S2P Require Import Prelude Io.

(** ** Errors ([lib.rs]); sources and addresses are only printed *)

Inductive SocketError :=
| CreateError | BindError | ListenError | AcceptError | ConnectError | ReadError | WriteError
| ShutdownError | EofError | OpenError | VerdictError | OptionError.

Inductive ProxyError :=
| IpError (e : SocketError)
| VsockError (e : SocketError)
| NfqError (e : SocketError).

(** ** Retrying with backoff *)

(** [x.clamp(lo, hi)] panics when [lo > hi]. *)
Definition clamp {E} (lo hi x : Z) : outcome E Z :=
  if lo <=? hi then Ok (Z.max lo (Z.min x hi)) else Panic.

(** [run_with_backoff]: [fuel] attempts; the sleeps taken are recorded. *)
Fixpoint run_with_backoff {W R} (fuel : nat) (f : W -> W * outcome ProxyError R) (backoff max_backoff : Z)
    (w : W) : W * list Z * option (outcome Empty_set R) :=
  match fuel with
  | O => (w, [], None)
  | S fuel =>
      match f w with
      | (w, Ok r) => (w, [], Some (Ok r))
      | (w, Panic) => (w, [], Some Panic)
      | (w, Err _) =>
          match clamp (E := Empty_set) 1 max_backoff (backoff * 2) with
          | Ok b => let '(w, sleeps, r) := run_with_backoff fuel f b max_backoff w in (w, backoff :: sleeps, r)
          | _ => (w, [backoff], Some Panic)
          end
      end
  end.

(** ** Opening sockets *)

Inductive Domain := VSOCK | IPV4.
Inductive Side := Read | Write.

(** The operating system's sockets; [false] and [None] are errors. *)
Class SocketApi (W : Type) := {
  Sock : Type;
  SockAddr : Type;
  Queue : Type;
  sock_new : Domain -> W -> W * option Sock;
  sock_connect : Sock -> SockAddr -> W -> W * option unit;
  sock_bind : Sock -> SockAddr -> W -> W * option unit;
  sock_listen : Sock -> Z -> W -> W * option unit;
  sock_accept : Sock -> W -> W * option Sock;
  sock_shutdown : Sock -> Side -> W -> W * option unit;
  sock_bind_device : Sock -> string -> W -> W * option unit;
  sock_set_header_included : Sock -> bool -> W -> W * option unit;
  sock_set_recv_buffer_size : Sock -> Z -> W -> W * option unit;
  queue_open : W -> W * option Queue;
  queue_bind : Queue -> Z -> W -> W * option unit
}.

Section sockets.
Context `{Api : SocketApi W}.

Definition new_nfq (addr : Z) : io W ProxyError Queue :=
  queue ← attempt (NfqError OpenError) queue_open;
  _ ← attempt (NfqError BindError) (queue_bind queue addr);
  mret queue.

Definition new_vsock_socket (addr : SockAddr) : io W ProxyError Sock :=
  vsock_socket ← attempt (VsockError CreateError) (sock_new VSOCK);
  _ ← attempt (VsockError ConnectError) (sock_connect vsock_socket addr);
  _ ← attempt (VsockError ShutdownError) (sock_shutdown vsock_socket Read);
  mret vsock_socket.

Definition new_vsock_server (addr : SockAddr) : io W ProxyError Sock :=
  vsock_socket ← attempt (VsockError CreateError) (sock_new VSOCK);
  _ ← attempt (VsockError BindError) (sock_bind vsock_socket addr);
  _ ← attempt (VsockError ListenError) (sock_listen vsock_socket 0);
  mret vsock_socket.

Definition accept_vsock_conn (vsock_socket : Sock) : io W ProxyError Sock :=
  conn_socket ← attempt (VsockError AcceptError) (sock_accept vsock_socket);
  _ ← attempt (VsockError ShutdownError) (sock_shutdown conn_socket Write);
  mret conn_socket.

Definition new_ip_socket (device : string) : io W ProxyError Sock :=
  ip_socket ← attempt (IpError CreateError) (sock_new IPV4);
  _ ← attempt (IpError BindError) (sock_bind_device ip_socket device);
  _ ← attempt (IpError OptionError) (sock_set_header_included ip_socket true);
  _ ← attempt (IpError ShutdownError) (sock_set_recv_buffer_size ip_socket 0);
  mret ip_socket.

End sockets.

(** ** The interface to send packets on *)

(** An interface of [getifaddrs]: its name, whether the name is UTF-8, and
    the family and address it has, if any. *)
Record ifaddrs := mkIfaddrs { ifa_name : string; ifa_utf8 : bool; ifa_addr : option (Z * Z) }.

Definition AF_INET : Z := 2.

Definition has_prefix (p s : string) : bool := String.prefix p s.

(** [get_eth_interface]: the address of a matching name is dereferenced, a
    null pointer there is a crash. *)
Fixpoint find_interface (l : list ifaddrs) : outcome string (string * Z) :=
  match l with
  | [] => Err "no matching interface found"%string
  | i :: l =>
      if has_prefix "eth" (ifa_name i) || has_prefix "ens" (ifa_name i) then
        '(family, addr) ← unwrap (ifa_addr i);
        if family =? AF_INET then
          (if ifa_utf8 i then mret (ifa_name i, addr) else Err "non utf8 interface"%string)
        else find_interface l
      else find_interface l
  end.

Definition get_eth_interface (ifap : option (list ifaddrs)) : outcome string (string * Z) :=
  l ← ok_or "failed to query interfaces"%string ifap;
  find_interface l.

(** ** Reading frames *)

(** A socket being written to: [None] while the call blocks, [Some None] on
    an error, [Some (Some n)] when [n] bytes are accepted. *)
Class Sender (K : Type) := send : bytes -> K -> K * option (option nat).

(** The world of a proxy: the connection read from and the socket written to. *)
Record Wire (K : Type) := mkWire { conn : bytes; out : K }.
Arguments mkWire {K} conn out.
Arguments conn {K} w.
Arguments out {K} w.

(** [u32::from_ne_bytes] on the little-endian machines of the enclave hosts. *)
Definition from_ne (l : bytes) : Z := from_be (rev l).

Definition MAX_PACKET : nat := Z.to_nat 65535.

(** [dst & mask == net] for the reserved ranges, in the order of the code. *)
Definition reserved_masks : list (Z * Z) :=
  [ (0xff000000, 0x00000000); (0xff000000, 0x0a000000); (0xffc00000, 0x64400000);
    (0xff000000, 0x7f000000); (0xffff0000, 0xa9fe0000); (0xfff00000, 0xac100000);
    (0xffffff00, 0xc0000000); (0xffffff00, 0xc0000200); (0xffffff00, 0xc0586300);
    (0xffff0000, 0xc0a80000); (0xfffe0000, 0xc6120000); (0xffffff00, 0xc6336400);
    (0xffffff00, 0xcb007100); (0xf0000000, 0xe0000000); (0xffffff00, 0xe9fc0000);
    (0xf0000000, 0xf0000000); (0xffffffff, 0xffffffff) ].

Definition is_reserved (dst_addr : Z) : bool :=
  existsb (fun '(mask, net) => Z.land dst_addr mask =? net) reserved_masks.

Definition port_allowed (src_port : Z) : bool :=
  negb (negb (src_port =? 80) && negb (src_port =? 443) && ((src_port <? 1024) || (61439 <? src_port))).

Section wire.
Context {K : Type} `{Sd : Sender K}.

Definition read_exact (n : nat) : io (Wire K) ProxyError bytes := fun w =>
  if decide (n <= length (conn w))%nat
  then (mkWire (drop n (conn w)) (out w), Some (Ok (take n (conn w))))
  else (mkWire [] (out w), Some (Err (VsockError ReadError))).

(** The [while total_sent < size] loop over what is left to send. *)
Fixpoint send_all (fuel : nat) (e : ProxyError) (rest : bytes) : io (Wire K) ProxyError unit := fun w =>
  match rest with
  | [] => (w, Some (Ok tt))
  | _ :: _ =>
      match fuel with
      | O => (w, None)
      | S fuel =>
          match send rest (out w) with
          | (o, None) => (mkWire (conn w) o, None)
          | (o, Some None) => (mkWire (conn w) o, Some (Err e))
          | (o, Some (Some n)) => send_all fuel e (drop n rest) (mkWire (conn w) o)
          end
      end
  end.

(** One frame into the buffer: four bytes, then the rest up to the total
    length; [buf[4..size]] panics when the length is below four. *)
Definition read_frame (buf : bytes) : io (Wire K) ProxyError (bytes * nat) :=
  hd ← read_exact 4;
  let buf := write_at buf 0 hd in
  len ← lift (unwrap (slice buf 2 4));
  let size := Z.to_nat (from_be len) in
  _ ← lift (unwrap (slice buf 4 size));
  body ← read_exact (size - 4);
  mret (write_at buf 4 body, size).

(** *** [vsock_to_ip_raw_outgoing.rs] *)

Definition verdict_outgoing (ifaddr : Z) (buf : bytes) : outcome ProxyError bool :=
  src ← unwrap (slice buf 12 16);
  dst ← unwrap (slice buf 16 20);
  if negb (from_ne src =? ifaddr) then mret false else
  if is_reserved (from_be dst) then mret false else
  b0 ← unwrap (head buf);
  let ip_header_size := Z.to_nat (Z.land b0 15 * 4) in
  port ← unwrap (slice buf ip_header_size (ip_header_size + 2));
  mret (port_allowed (from_be port)).

Definition outgoing_step (ifaddr : Z) (buf : bytes) : io (Wire K) ProxyError bytes :=
  '(buf, size) ← read_frame buf;
  ok ← lift (verdict_outgoing ifaddr buf);
  if negb ok then mret buf else
  pkt ← lift (unwrap (slice buf 0 size));
  _ ← send_all (S size) (NfqError WriteError) pkt;
  mret buf.

(** *** [vsock_to_ip_raw_incoming.rs] *)

Definition dec (b : Z) : string := pretty b.

(** The dotted text of an address, as the [fold] builds it. *)
Definition dotted (l : bytes) : string :=
  foldl (fun acc v => if String.eqb acc "" then (acc ++ dec v)%string else (acc ++ "." ++ dec v)%string) ""%string l.

Definition verdict_incoming (ip : string) (buf : bytes) : outcome ProxyError bool :=
  dst ← unwrap (slice buf 16 20);
  mret (String.eqb (dotted dst) ip).

Definition incoming_step (ip : string) (buf : bytes) : io (Wire K) ProxyError bytes :=
  '(buf, size) ← read_frame buf;
  ok ← lift (verdict_incoming ip buf);
  if negb ok then mret buf else
  pkt ← lift (unwrap (slice buf 0 size));
  _ ← send_all (S size) (IpError WriteError) pkt;
  mret buf.

(** The [loop] of both [handle_conn]s, which only an error leaves. *)
Fixpoint packet_loop (step : bytes -> io (Wire K) ProxyError bytes) (fuel : nat) (buf : bytes) :
    io (Wire K) ProxyError Empty_set :=
  match fuel with
  | O => pending
  | S fuel => buf ← step buf; packet_loop step fuel buf
  end.

Definition handle_conn (step : bytes -> io (Wire K) ProxyError bytes) (fuel : nat) :
    io (Wire K) ProxyError Empty_set :=
  packet_loop step fuel (replicate MAX_PACKET 0).

(** The [main] of both: the connections still to be accepted, the one being
    read, and the IP socket, which [reset] reopens; the errors the match does
    not expect are [unreachable!]. *)
Fixpoint proxy_main (step : bytes -> io (Wire K) ProxyError bytes) (reset : K -> K) (fuel : nat)
    (conns : list bytes) (w : Wire K) : Wire K * list bytes * option (outcome Empty_set Empty_set) :=
  match fuel with
  | O => (w, conns, None)
  | S fuel =>
      match handle_conn step (S (length (conn w))) w with
      | (w, None) => (w, conns, None)
      | (w, Some (Ok _)) => (w, conns, Some Panic)
      | (w, Some Panic) => (w, conns, Some Panic)
      | (w, Some (Err (IpError _))) => proxy_main step reset fuel conns (mkWire (conn w) (reset (out w)))
      | (w, Some (Err (VsockError _))) =>
          match conns with
          | [] => (w, [], None)
          | c :: conns => proxy_main step reset fuel conns (mkWire c (out w))
          end
      | (w, Some (Err (NfqError _))) => (w, conns, Some Panic)
      end
  end.

End wire.

(** ** [ip_to_vsock_raw_incoming.rs] and [ip_to_vsock_raw_outgoing.rs] *)

(** The packet queue: its next answers, a failed [recv] or a packet with the
    result of setting its verdict; the packets dropped from the kernel. *)
Record Tap (K : Type) := mkTap { queue : list (option (bytes * bool)); dropped : list bytes; sock : K }.
Arguments mkTap {K} queue dropped sock.
Arguments queue {K} t.
Arguments dropped {K} t.
Arguments sock {K} t.

Section tap.
Context {K : Type} `{Sd : Sender K}.

Definition queue_recv : io (Tap K) ProxyError (bytes * bool) := fun t =>
  match queue t with
  | [] => (t, None)
  | None :: q => (mkTap q (dropped t) (sock t), Some (Err (NfqError ReadError)))
  | Some m :: q => (mkTap q (dropped t) (sock t), Some (Ok m))
  end.

Definition tap_send_all (e : ProxyError) (pkt : bytes) : io (Tap K) ProxyError unit := fun t =>
  let '(w, r) := send_all (S (length pkt)) e pkt (mkWire [] (sock t)) in
  (mkTap (queue t) (dropped t) (out w), r).

Definition set_verdict (m : bytes * bool) : io (Tap K) ProxyError unit := fun t =>
  if m.2 then (mkTap (queue t) (dropped t ++ [m.1]) (sock t), Some (Ok tt))
  else (t, Some (Err (NfqError VerdictError))).

Definition tap_step : io (Tap K) ProxyError unit :=
  msg ← queue_recv;
  _ ← tap_send_all (VsockError WriteError) msg.1;
  set_verdict msg.

Fixpoint tap_handle_conn (fuel : nat) : io (Tap K) ProxyError Empty_set :=
  match fuel with
  | O => pending
  | S fuel => _ ← tap_step; tap_handle_conn fuel
  end.

(** [main]: [reset] reconnects the vsock socket; the queue is reopened. *)
Fixpoint tap_main (reset : K -> K) (fuel : nat) (t : Tap K) : Tap K * option (outcome Empty_set Empty_set) :=
  match fuel with
  | O => (t, None)
  | S fuel =>
      match tap_handle_conn (S (length (queue t))) t with
      | (t, None) => (t, None)
      | (t, Some (Ok _)) => (t, Some Panic)
      | (t, Some Panic) => (t, Some Panic)
      | (t, Some (Err (NfqError _))) => tap_main reset fuel t
      | (t, Some (Err (VsockError _))) => tap_main reset fuel (mkTap (queue t) (dropped t) (reset (sock t)))
      | (t, Some (Err (IpError _))) => (t, Some Panic)
      end
  end.

End tap.
