(* ===== verification/RawProxyProps.v ===== *)
(** * Raw packet proxies: what crosses the tunnel

    The filters of the vsock-side proxies are compared with the address and
    port ranges they stand for, and the queue-side proxy composed with the
    vsock-side one is shown to deliver whole packets, in order, exactly the
    permitted ones. *)

From stdpp Require Import pretty.
From S2P Require Import Prelude Io RawProxy.

(** ** Definitions *)

(** An address from its four numbers. *)
Definition ipv4 (a b c d : Z) : Z := from_be [a; b; c; d].

(** The reserved ranges of the comments, as first and last address. *)
Definition reserved_ranges : list (Z * Z) :=
  [ (ipv4 0 0 0 0, ipv4 0 255 255 255); (ipv4 10 0 0 0, ipv4 10 255 255 255);
    (ipv4 100 64 0 0, ipv4 100 127 255 255); (ipv4 127 0 0 0, ipv4 127 255 255 255);
    (ipv4 169 254 0 0, ipv4 169 254 255 255); (ipv4 172 16 0 0, ipv4 172 31 255 255);
    (ipv4 192 0 0 0, ipv4 192 0 0 255); (ipv4 192 0 2 0, ipv4 192 0 2 255);
    (ipv4 192 88 99 0, ipv4 192 88 99 255); (ipv4 192 168 0 0, ipv4 192 168 255 255);
    (ipv4 198 18 0 0, ipv4 198 19 255 255); (ipv4 198 51 100 0, ipv4 198 51 100 255);
    (ipv4 203 0 113 0, ipv4 203 0 113 255); (ipv4 224 0 0 0, ipv4 239 255 255 255);
    (ipv4 233 252 0 0, ipv4 233 252 0 255); (ipv4 240 0 0 0, ipv4 255 255 255 255) ].

(** The fields of a packet. *)
Definition field (p : bytes) (a n : nat) : bytes := take n (drop a p).
Definition ihl (p : bytes) : nat := Z.to_nat (Z.land (nth 0 p 0) 15 * 4).
Definition src_of (p : bytes) : Z := from_ne (field p 12 4).
Definition dst_of (p : bytes) : Z := from_be (field p 16 4).
Definition port_of (p : bytes) : Z := from_be (field p (ihl p) 2).

(** A packet whose total length is its length and that holds its IP header
    and source port. *)
Definition well_formed (p : bytes) : Prop :=
  (20 <= length p)%nat /\ (length p <= MAX_PACKET)%nat /\ (ihl p + 2 <= length p)%nat /\
  Forall (fun b => is_byte b = true) p /\ from_be (field p 2 2) = Z.of_nat (length p).

(** What the enclave may send. *)
Definition permitted_outgoing (ifaddr : Z) (p : bytes) : bool :=
  (src_of p =? ifaddr) &&
  negb (existsb (fun '(lo, hi) => (lo <=? dst_of p) && (dst_of p <=? hi)) reserved_ranges) &&
  ((port_of p =? 80) || (port_of p =? 443) || ((1024 <=? port_of p) && (port_of p <=? 61439))).

(** What the enclave may receive. *)
Definition permitted_incoming (a b c d : Z) (p : bytes) : bool := dst_of p =? ipv4 a b c d.

(** A stream of whole packets, the last of which may be cut short. *)
Definition torn (tail : bytes) : Prop := exists p, well_formed p /\ tail `prefix_of` p /\ tail <> p.
Definition framed (s : bytes) (ps : list bytes) : Prop :=
  Forall well_formed ps /\ exists tail, s = concat ps ++ tail /\ torn tail.

(** A raw socket: a send takes the packet whole, is refused, or blocks; only
    in the first case is anything sent. *)
Class Datagram (K : Type) `{Sender K} := {
  sent : K -> list bytes;
  send_atomic : forall b k k' r, send b k = (k', r) -> b <> [] ->
    match r with
    | Some (Some n) => n = length b /\ sent k' = sent k ++ [b]
    | _ => sent k' = sent k
    end
}.

(** It refuses nothing. *)
Definition accepting (K : Type) `{Sender K} : Prop :=
  forall b k, exists k' n, send b k = (k', Some (Some n)).

(** A stream socket that is reconnected: the bytes of each connection, the
    current one last.  Any number of bytes may be accepted by a call. *)
Class Streams (K : Type) `{Sender K} (reset : K -> K) := {
  streams : K -> list bytes;
  send_some : forall b k k' n, send b k = (k', Some (Some n)) -> b <> [] ->
    (0 < n <= length b)%nat /\
    forall l s, streams k = l ++ [s] -> streams k' = l ++ [s ++ take n b];
  send_none : forall b k k', send b k = (k', None) -> streams k' = streams k;
  send_fails : forall b k k', send b k = (k', Some None) -> streams k' = streams k;
  reset_streams : forall k, streams (reset k) = streams k ++ [[]]
}.

(** The packets the queue will give. *)
Definition messages (q : list (option (bytes * bool))) : list bytes :=
  omap (fun m => fst <$> m) q.

(** Both vsock-side steps are a filter on frames. *)
Definition filter_step {K} `{Sender K} (verdict : bytes -> outcome ProxyError bool) (e : ProxyError) (buf : bytes) :
    io (Wire K) ProxyError bytes :=
  '(buf, size) ← read_frame buf;
  ok ← lift (verdict buf);
  if negb ok then mret buf else
  pkt ← lift (unwrap (slice buf 0 size));
  _ ← send_all (S size) e pkt;
  mret buf.

(** ** Addresses *)

Lemma land_mask d k : 0 <= d < 2 ^ 32 -> 0 <= k <= 32 ->
  Z.land d (2 ^ 32 - 2 ^ k) = 2 ^ k * (d / 2 ^ k).
Proof.
  intros Hd Hk. rewrite Z.mul_comm, <- Z.shiftr_div_pow2, <- Z.shiftl_mul_pow2 by lia.
  replace (2 ^ 32 - 2 ^ k) with (Z.shiftl (Z.ones (32 - k)) k).
  2: { rewrite Z.shiftl_mul_pow2, Z.ones_equiv by lia. rewrite Z.mul_pred_l, <- Z.pow_add_r by lia.
       by replace (32 - k + k) with 32 by lia. }
  apply Z.bits_inj'. intros i Hi. rewrite Z.land_spec, !Z.shiftl_spec by lia.
  destruct (decide (i < k)).
  - rewrite !(Z.testbit_neg_r _ (i - k)) by lia. by rewrite andb_false_r.
  - rewrite Z.shiftr_spec by lia. replace (i - k + k) with i by lia.
    destruct (decide (i < 32)).
    + rewrite Z.ones_spec_low by lia. apply andb_true_r.
    + rewrite Z.ones_spec_high by lia. rewrite andb_false_r. symmetry.
      destruct (decide (d = 0)) as [-> | Hne]; [apply Z.bits_0 |].
      apply Z.bits_above_log2; [lia |]. apply Z.lt_le_trans with 32; [| lia].
      apply Z.log2_lt_pow2; lia.
Qed.

(** A mask test is a range test. *)
Lemma masked_range d k net mask lo hi :
  0 <= d < 2 ^ 32 -> 0 <= k <= 32 -> mask = 2 ^ 32 - 2 ^ k ->
  net mod 2 ^ k = 0 -> lo = net -> hi = net + 2 ^ k - 1 ->
  (Z.land d mask =? net) = ((lo <=? d) && (d <=? hi)).
Proof.
  intros Hd Hk -> Hnet -> ->. rewrite land_mask by done.
  assert (0 < 2 ^ k) by (apply Z.pow_pos_nonneg; lia).
  pose proof (Z.div_mod d (2 ^ k) ltac:(lia)). pose proof (Z.mod_pos_bound d (2 ^ k) ltac:(lia)).
  pose proof (Z.div_mod net (2 ^ k) ltac:(lia)).
  set (m := 2 ^ k) in *. set (q := d / m) in *. set (n := net / m) in *. clearbody m q n.
  apply eq_true_iff_eq. rewrite andb_true_iff, Z.eqb_eq, !Z.leb_le. split; [nia |].
  intros []. assert (q = n) by nia. nia.
Qed.

(** A table of masks stands for a table of ranges, row by row. *)
Fixpoint rows_match (ks : list Z) (masks ranges : list (Z * Z)) : bool :=
  match ks, masks, ranges with
  | [], [], [] => true
  | k :: ks, (mask, net) :: masks, (lo, hi) :: ranges =>
      (0 <=? k) && (k <=? 32) && (mask =? 2 ^ 32 - 2 ^ k) && (net mod 2 ^ k =? 0) &&
      (lo =? net) && (hi =? net + 2 ^ k - 1) && rows_match ks masks ranges
  | _, _, _ => false
  end.

Lemma rows_match_existsb d ks : 0 <= d < 2 ^ 32 -> forall masks ranges, rows_match ks masks ranges = true ->
  existsb (fun '(mask, net) => Z.land d mask =? net) masks =
  existsb (fun '(lo, hi) => (lo <=? d) && (d <=? hi)) ranges.
Proof.
  intros Hd. induction ks as [| k ks IH]; intros [| [mask net] masks] [| [lo hi] ranges]; try done.
  cbn [rows_match existsb]. rewrite !andb_true_iff, !Z.eqb_eq, !Z.leb_le. intros [[[[[[] ?] ?] ?] ?] ?].
  rewrite (IH masks ranges) by done. by rewrite (masked_range d k net mask lo hi).
Qed.

Lemma is_reserved_ranges d : 0 <= d < 2 ^ 32 ->
  is_reserved d = existsb (fun '(lo, hi) => (lo <=? d) && (d <=? hi)) reserved_ranges.
Proof.
  intros Hd. unfold is_reserved.
  change reserved_masks with (take 16 reserved_masks ++ [(0xffffffff, 0xffffffff)]).
  rewrite existsb_app.
  rewrite (rows_match_existsb d [24; 24; 22; 24; 16; 20; 8; 8; 8; 16; 17; 8; 8; 28; 8; 28] Hd _ reserved_ranges)
    by reflexivity.
  cbn [existsb]. rewrite orb_false_r. destruct (Z.eqb_spec (Z.land d 0xffffffff) 0xffffffff) as [Hl |];
    [| apply orb_false_r].
  change 0xffffffff with (2 ^ 32 - 2 ^ 0) in Hl. rewrite land_mask in Hl by lia.
  rewrite Z.div_1_r in Hl. assert (d = 2 ^ 32 - 1) as -> by lia. reflexivity.
Qed.

(** ** Frames *)

Lemma slice_field (l : bytes) a b :
  (a <= b)%nat -> (b <= length l)%nat -> slice l a b = Some (field l a (b - a)).
Proof. intros. unfold slice. by rewrite decide_True. Qed.

Lemma field_app (p q : bytes) a n : (a + n <= length p)%nat -> field (p ++ q) a n = field p a n.
Proof.
  intros H. unfold field. rewrite drop_app_le by lia.
  rewrite take_app_le; [done |]. lengths.
Qed.

Lemma field_0 (p q : bytes) : field (p ++ q) 0 (length p) = p.
Proof. unfold field. rewrite drop_0. apply take_app_length. Qed.

Lemma from_be_bounds l : Forall (fun b => is_byte b = true) l -> 0 <= from_be l < 256 ^ Z.of_nat (length l).
Proof.
  intros Hl. induction l as [| b l IH] using rev_ind; [done |].
  apply Forall_app in Hl as [Hl Hb]. apply Forall_cons in Hb as [Hb _].
  unfold is_byte, in_width in Hb. apply andb_true_iff in Hb as [?%Z.leb_le ?%Z.ltb_lt].
  rewrite from_be_snoc, length_app, Nat2Z.inj_add, Z.pow_add_r by lia.
  specialize (IH Hl). change (Z.of_nat (length [b])) with 1. lia.
Qed.

Lemma Forall_field P (l : bytes) a n : Forall P l -> Forall P (field l a n).
Proof. intros. unfold field. by apply Forall_take, Forall_drop. Qed.

Lemma length_field (l : bytes) a n : (a + n <= length l)%nat -> length (field l a n) = n.
Proof. intros. unfold field. lengths. Qed.

Section frames.
Context {K : Type} `{Sd : Sender K}.

Lemma read_exact_app n (p rest : bytes) (k : K) : length p = n ->
  read_exact n (mkWire (p ++ rest) k) = (mkWire rest k, Some (Ok p)).
Proof.
  intros <-. unfold read_exact. cbn [conn out]. rewrite decide_True by (lengths).
  by rewrite drop_app_length, take_app_length.
Qed.

Lemma read_exact_short n (c : bytes) (k : K) : (length c < n)%nat ->
  read_exact n (mkWire c k) = (mkWire [] k, Some (Err (VsockError ReadError))).
Proof. intros. unfold read_exact. cbn [conn out]. rewrite decide_False by lia. done. Qed.

(** The header of a frame is its first four bytes; they hold its length. *)
Lemma header_length (p buf : bytes) : well_formed p -> length buf = MAX_PACKET ->
  slice (write_at buf 0 (take 4 p)) 2 4 = Some (field p 2 2) /\
  length (write_at buf 0 (take 4 p)) = MAX_PACKET.
Proof.
  intros (H20 & Hmax & _) Hb. assert (H4 : length (take 4 p) = 4%nat) by (lengths).
  assert (Hlen : length (write_at buf 0 (take 4 p)) = MAX_PACKET).
  { unfold write_at. lengths. }
  split; [| done]. rewrite slice_field by lia. f_equal.
  unfold write_at. rewrite take_0. cbn [app]. rewrite field_app by lia.
  unfold field. rewrite <- (take_drop 4 p) at 2. rewrite drop_app_le by lia.
  rewrite take_app_le; [done |]. lengths.
Qed.

Lemma read_frame_whole (buf p rest : bytes) (k : K) : well_formed p -> length buf = MAX_PACKET ->
  read_frame buf (mkWire (p ++ rest) k) =
    (mkWire rest k, Some (Ok (p ++ drop (length p) buf, length p))).
Proof.
  intros Hp Hb. pose proof (header_length p buf Hp Hb) as [Hhd Hlen].
  destruct Hp as (H20 & Hmax & _ & _ & Hsize).
  assert (H4 : length (take 4 p) = 4%nat) by (lengths).
  unfold read_frame. rewrite <- (take_drop 4 p) at 1. rewrite <- app_assoc.
  erewrite io_bind_Ok by (by apply read_exact_app).
  rewrite Hhd. cbn [unwrap lift]. erewrite io_bind_Ok by reflexivity.
  rewrite Hsize, Nat2Z.id. rewrite slice_field by lia. erewrite io_bind_Ok by reflexivity.
  erewrite io_bind_Ok by (apply read_exact_app; lengths).
  unfold mret, io_ret. repeat f_equal. unfold write_at. rewrite take_0. cbn [app]. rewrite H4.
  rewrite take_app_length' by done. rewrite length_drop.
  rewrite drop_app_ge by lia. rewrite drop_drop, H4, app_assoc, take_drop. do 2 f_equal. lia.
Qed.

Lemma read_frame_torn (buf tail : bytes) (k : K) : torn tail -> length buf = MAX_PACKET ->
  exists w, read_frame buf (mkWire tail k) = (w, Some (Err (VsockError ReadError))) /\ w = mkWire [] k.
Proof.
  intros (p & Hp & [more ->] & Hne) Hb. eexists. split; [| reflexivity].
  assert (Hmore : (0 < length more)%nat).
  { destruct more; [| simpl; lia]. by rewrite app_nil_r in Hne. }
  unfold read_frame. destruct (decide (length tail < 4)%nat) as [Hs | Hs].
  { erewrite io_bind_Err; [done |]. by apply read_exact_short. }
  pose proof (header_length _ buf Hp Hb) as [Hhd Hlen].
  rewrite take_app_le in Hhd, Hlen by lia.
  assert (H4 : length (take 4 tail) = 4%nat) by (lengths).
  destruct Hp as (H20 & Hmax & _ & _ & Hsize). rewrite length_app in *.
  rewrite <- (take_drop 4 tail) at 1.
  erewrite io_bind_Ok by (by apply read_exact_app).
  rewrite Hhd. cbn [unwrap lift]. erewrite io_bind_Ok by reflexivity.
  rewrite Hsize, Nat2Z.id. rewrite slice_field by lia. erewrite io_bind_Ok by reflexivity.
  erewrite io_bind_Err; [done |]. apply read_exact_short. lengths.
Qed.

End frames.

(** ** The verdicts on a frame *)

Lemma well_formed_byte p i : well_formed p -> (i < length p)%nat -> 0 <= nth i p 0 < 256.
Proof.
  intros (_ & _ & _ & Hb & _) Hi. rewrite Forall_forall in Hb.
  specialize (Hb (nth i p 0) ltac:(apply list_elem_of_In, nth_In; lia)).
  unfold is_byte, in_width in Hb. apply andb_true_iff in Hb as [?%Z.leb_le ?%Z.ltb_lt]. lia.
Qed.

Lemma dst_of_bounds p : well_formed p -> 0 <= dst_of p < 2 ^ 32.
Proof.
  intros (H20 & _ & _ & Hb & _). pose proof (from_be_bounds (field p 16 4) (Forall_field _ _ _ _ Hb)) as H.
  rewrite length_field in H by lia. exact H.
Qed.

Lemma verdict_outgoing_permitted ifaddr p junk : well_formed p ->
  verdict_outgoing ifaddr (p ++ junk) = Ok (permitted_outgoing ifaddr p).
Proof.
  intros Hp. pose proof (dst_of_bounds p Hp) as Hdst. pose proof Hp as (H20 & _ & Hihl & _).
  unfold verdict_outgoing. rewrite !slice_field by (lengths).
  cbn [unwrap mbind outcome_bind]. rewrite !field_app by lia.
  change (16 - 12)%nat with 4%nat. change (20 - 16)%nat with 4%nat.
  change (from_ne (field p 12 4)) with (src_of p). change (from_be (field p 16 4)) with (dst_of p).
  rewrite is_reserved_ranges by done. unfold permitted_outgoing.
  destruct (src_of p =? ifaddr); [| done]. cbn [negb andb].
  destruct (existsb _ reserved_ranges); [done |]. cbn [negb andb].
  assert (Hhd : head (p ++ junk) = Some (nth 0 p 0)) by (destruct p; [simpl in H20; lia | done]).
  rewrite Hhd. cbn [unwrap mbind outcome_bind]. fold (ihl p).
  rewrite slice_field by (lengths).
  cbn [unwrap mbind outcome_bind mret outcome_ret].
  rewrite field_app by lia. replace (ihl p + 2 - ihl p)%nat with 2%nat by lia.
  f_equal. unfold port_allowed. fold (port_of p).
  destruct (Z.eqb_spec (port_of p) 80), (Z.eqb_spec (port_of p) 443),
    (Z.ltb_spec (port_of p) 1024), (Z.ltb_spec 61439 (port_of p)),
    (Z.leb_spec 1024 (port_of p)), (Z.leb_spec (port_of p) 61439); simpl; try done; lia.
Qed.

(** ** One frame and one connection *)

Section filters.
#[local] Set Default Proof Using "Type*".
Context {K : Type} `{Dg : Datagram K}.
Variables (verdict : bytes -> outcome ProxyError bool) (allow : bytes -> bool) (e : ProxyError).
Hypothesis Hverdict : forall p junk, well_formed p -> verdict (p ++ junk) = Ok (allow p).

(** One send per packet, up to the first that is refused ([Some false]) or
    blocks ([None]). *)
Fixpoint deliver (ps : list bytes) (k : K) : K * option bool :=
  match ps with
  | [] => (k, Some true)
  | p :: ps =>
      match send p k with
      | (k, Some (Some _)) => deliver ps k
      | (k, Some None) => (k, Some false)
      | (k, None) => (k, None)
      end
  end.

Lemma send_all_datagram fuel e' pkt (w : Wire K) : pkt <> [] ->
  send_all (S fuel) e' pkt w =
  match send pkt (out w) with
  | (k, Some (Some _)) => (mkWire (conn w) k, Some (Ok tt))
  | (k, Some None) => (mkWire (conn w) k, Some (Err e'))
  | (k, None) => (mkWire (conn w) k, None)
  end.
Proof.
  intros Hne. destruct pkt as [| b pkt]; [done |]. cbn [send_all].
  destruct (send (b :: pkt) (out w)) as [k' [[n |] |]] eqn:Hs; [| done | done].
  apply send_atomic in Hs as [-> _]; [| done]. rewrite drop_all. by destruct fuel.
Qed.

Lemma filter_step_whole (buf p rest : bytes) (k : K) : well_formed p -> length buf = MAX_PACKET ->
  filter_step verdict e buf (mkWire (p ++ rest) k) =
  match deliver (if allow p then [p] else []) k with
  | (k', Some true) => (mkWire rest k', Some (Ok (p ++ drop (length p) buf)))
  | (k', Some false) => (mkWire rest k', Some (Err e))
  | (k', None) => (mkWire rest k', None)
  end.
Proof.
  intros Hp Hb. unfold filter_step.
  erewrite io_bind_Ok by (by apply read_frame_whole). cbv beta iota.
  rewrite Hverdict by done. erewrite io_bind_Ok by reflexivity. pose proof Hp as (H20 & Hmax & _).
  destruct (allow p); cbn [negb deliver]; [| done].
  rewrite slice_field by (lengths). rewrite Nat.sub_0_r, field_0.
  cbn [unwrap]. erewrite io_bind_Ok by reflexivity.
  assert (Hne : p <> []) by (by destruct p; [simpl in H20; lia |]).
  pose proof (send_all_datagram (length p) e p (mkWire rest k) Hne) as Hs. cbn [out conn] in Hs.
  destruct (send p k) as [k' [[n |] |]];
    [by erewrite io_bind_Ok by exact Hs | by erewrite io_bind_Err by exact Hs | by erewrite io_bind_None by exact Hs].
Qed.

Lemma deliver_app ps ps' k :
  deliver (ps ++ ps') k = match deliver ps k with (k', Some true) => deliver ps' k' | r => r end.
Proof using Type.
  revert k. induction ps as [| p ps IH]; intros k; cbn [app deliver]; [by destruct (deliver ps' k) |].
  destruct (send p k) as [k' [[n |] |]]; [apply IH | done | done].
Qed.

Lemma filter_loop ps tail : Forall well_formed ps -> torn tail -> forall fuel buf (k : K),
  length buf = MAX_PACKET -> (length ps < fuel)%nat ->
  exists rest, packet_loop (filter_step verdict e) fuel buf (mkWire (concat ps ++ tail) k) =
    match deliver (List.filter allow ps) k with
    | (k', Some true) => (mkWire [] k', Some (Err (VsockError ReadError)))
    | (k', Some false) => (mkWire rest k', Some (Err e))
    | (k', None) => (mkWire rest k', None)
    end.
Proof.
  intros Hps Ht. induction Hps as [| p ps Hp Hps IH]; intros fuel buf k Hb Hf;
    (destruct fuel as [| fuel]; [lia |]); cbn [packet_loop concat List.filter app].
  - destruct (read_frame_torn buf tail k Ht Hb) as (w & Hr & ->). exists [].
    erewrite io_bind_Err; [done |]. unfold filter_step. by erewrite io_bind_Err by exact Hr.
  - rewrite <- app_assoc. pose proof (filter_step_whole buf p (concat ps ++ tail) k Hp Hb) as Hstep.
    assert (Hsplit : List.filter allow (p :: ps) = (if allow p then [p] else []) ++ List.filter allow ps)
      by (cbn; by destruct (allow p)).
    change (if allow p then p :: List.filter allow ps else List.filter allow ps)
      with (List.filter allow (p :: ps)). rewrite Hsplit, deliver_app.
    destruct (deliver (if allow p then [p] else []) k) as [k1 [[] |]].
    + erewrite io_bind_Ok by exact Hstep. apply IH; [destruct Hp as (_ & Hmax & _); lengths | simpl in Hf; lia].
    + exists (concat ps ++ tail). by erewrite io_bind_Err by exact Hstep.
    + exists (concat ps ++ tail). by erewrite io_bind_None by exact Hstep.
Qed.

Lemma packets_fit ps tail : Forall well_formed ps -> (length ps <= length (concat ps ++ tail))%nat.
Proof.
  induction 1 as [| p ps (H20 & _) Hps IH]; [simpl; lia |]. simpl. rewrite !length_app in *. lia.
Qed.

(** All the connections of a vsock-side proxy, up to a refused send; if that
    is fatal the process ends with it. *)
Lemma filter_main (reset : K -> K) css pss : Forall2 framed css pss ->
  forall c ps fuel (k : K), framed c ps -> (length css < fuel)%nat ->
  let r := deliver (List.filter allow (concat (ps :: pss))) k in
  (r.2 = Some false -> exists err, e = NfqError err) ->
  exists w rest, out w = r.1 /\
    proxy_main (filter_step verdict e) reset fuel css (mkWire c k) =
    match r.2 with
    | Some true => (w, [], None)
    | Some false => (w, rest, Some Panic)
    | None => (w, rest, None)
    end.
Proof.
  assert (Hrep : length (replicate MAX_PACKET 0) = MAX_PACKET) by apply length_replicate.
  induction 1 as [| c' ps' css pss Hc' Hcss IH]; intros c ps fuel k (Hps & tail & -> & Ht) Hf r;
    (destruct fuel as [| fuel]; [lia |]); cbn [proxy_main]; unfold handle_conn;
    (destruct (filter_loop ps tail Hps Ht (S (length (concat ps ++ tail))) (replicate MAX_PACKET 0) k Hrep)
      as (rest & Hr); [pose proof (packets_fit ps tail Hps); lia |]); cbn [conn]; rewrite Hr; subst r.
  - cbn [concat]. rewrite app_nil_r. destruct (deliver (List.filter allow ps) k) as [k' [[] |]]; cbn [fst snd].
    + intros _. exists (mkWire [] k'), []. split; reflexivity.
    + intros He. destruct (He eq_refl) as [err ->]. exists (mkWire rest k'), []. split; reflexivity.
    + intros _. exists (mkWire rest k'), []. split; reflexivity.
  - change (concat (ps :: ps' :: pss)) with (ps ++ concat (ps' :: pss)). rewrite List.filter_app, deliver_app.
    destruct (deliver (List.filter allow ps) k) as [k' [[] |]]; cbn [fst snd].
    + intros He. apply (IH c' ps' fuel k' Hc'); [simpl in Hf; lia | exact He].
    + intros He. destruct (He eq_refl) as [err ->]. exists (mkWire rest k'), (c' :: css). split; reflexivity.
    + intros _. exists (mkWire rest k'), (c' :: css). split; reflexivity.
Qed.

(** What has been sent when the sends stop. *)
Lemma deliver_sent ps : Forall (fun p => p <> []) ps -> forall k,
  exists d, sent (deliver ps k).1 = sent k ++ d /\
    if decide ((deliver ps k).2 = Some true) then d = ps else
    exists p rest k1 k2 x, ps = d ++ p :: rest /\ send p k1 = (k2, x) /\ sent k1 = sent k ++ d /\
      (x = Some None /\ (deliver ps k).2 = Some false \/ x = None /\ (deliver ps k).2 = None).
Proof using Type.
  induction 1 as [| p ps Hp Hps IH]; intros k; cbn [deliver].
  - exists []. by rewrite app_nil_r.
  - destruct (send p k) as [k' r] eqn:Hs. pose proof (send_atomic _ _ _ _ Hs Hp) as Ha.
    destruct r as [[n |] |]; cbn [fst snd].
    + destruct Ha as [_ Ha], (IH k') as (d & Hd & Hr). exists (p :: d).
      rewrite Hd, Ha, <- app_assoc. split; [done |]. case_decide; [by f_equal |].
      destruct Hr as (q & rest & k1 & k2 & x & -> & Hq & Hk1 & Hx). exists q, rest, k1, k2, x.
      rewrite Hk1, Ha, <- app_assoc. done.
    + exists []. rewrite Ha, app_nil_r. split; [done |]. exists p, ps, k, k', (Some None).
      split_and!; [done .. |]. by left.
    + exists []. rewrite Ha, app_nil_r. split; [done |]. exists p, ps, k, k', None.
      split_and!; [done .. |]. by right.
Qed.

Lemma deliver_accepting ps k : accepting K -> (deliver ps k).2 = Some true.
Proof using Type.
  intros Hacc. revert k. induction ps as [| p ps IH]; intros k; cbn [deliver]; [done |].
  destruct (Hacc p k) as (k' & n & ->). apply IH.
Qed.

Lemma framed_packets css pss : Forall2 framed css pss -> Forall well_formed (concat pss).
Proof using Type. induction 1 as [| c ps css pss [Hps _] _ IH]; [constructor |]. by apply Forall_app. Qed.

Lemma permitted_nonempty ps : Forall well_formed ps -> Forall (fun p => p <> []) (List.filter allow ps).
Proof using Type.
  intros Hps. rewrite Forall_forall in *. intros p Hp%list_elem_of_In.
  apply List.filter_In in Hp as [Hp%list_elem_of_In _]. destruct (Hps p Hp) as (H20 & _).
  destruct p; [simpl in H20; lia | done].
Qed.

End filters.

(** ** Dotted addresses *)

Fixpoint no_dot (s : string) : bool :=
  match s with EmptyString => true | String c s => negb (Ascii.eqb c (Ascii.ascii_of_nat 46)) && no_dot s end.

Lemma split_at_dot u v s t : no_dot u = true -> no_dot v = true ->
  (u ++ "." ++ s = v ++ "." ++ t)%string -> u = v /\ s = t.
Proof.
  revert v. induction u as [| c u IH]; intros [| d v] Hu Hv Heq; simpl in *.
  - by injection Heq.
  - injection Heq as <- _. by rewrite Ascii.eqb_refl in Hv.
  - injection Heq as -> _. by rewrite Ascii.eqb_refl in Hu.
  - injection Heq as <- Heq. apply andb_true_iff in Hu as [_ Hu], Hv as [_ Hv].
    destruct (IH v Hu Hv Heq) as [-> ->]. done.
Qed.

Definition byte_text_ok (b : Z) : bool := no_dot (dec b) && negb (String.eqb (dec b) "").

Lemma byte_text b : is_byte b = true -> no_dot (dec b) = true /\ dec b <> ""%string.
Proof.
  assert (Hall : forallb byte_text_ok (seqZ 0 256) = true) by (vm_compute; reflexivity).
  rewrite forallb_forall in Hall. unfold is_byte, in_width.
  intros [?%Z.leb_le ?%Z.ltb_lt]%andb_true_iff.
  assert (Hin : List.In b (seqZ 0 256)) by (apply list_elem_of_In, elem_of_seqZ; lia).
  apply Hall, andb_true_iff in Hin as [? Hne]. split; [done |].
  apply negb_true_iff, String.eqb_neq in Hne. done.
Qed.

Lemma append_nonempty s t : s <> ""%string -> String.eqb (s ++ t) "" = false.
Proof. by destruct s. Qed.

Lemma dotted_text w x y z : dec w <> ""%string ->
  dotted [w; x; y; z] = (dec w ++ "." ++ dec x ++ "." ++ dec y ++ "." ++ dec z)%string.
Proof.
  intros Hw. unfold dotted. cbn [foldl]. change (String.eqb "" "") with true. cbn match.
  change ("" ++ dec w)%string with (dec w).
  rewrite (proj2 (String.eqb_neq _ _) Hw).
  rewrite append_nonempty by done. rewrite append_nonempty.
  - by rewrite !append_assoc.
  - intros Heq. apply Hw. by destruct (dec w).
Qed.

Lemma dec_inj x y : dec x = dec y -> x = y.
Proof. apply (inj (A := Z) pretty). Qed.

Lemma dotted_inj l m : length l = 4%nat -> length m = 4%nat ->
  Forall (fun b => is_byte b = true) l -> Forall (fun b => is_byte b = true) m ->
  dotted l = dotted m -> l = m.
Proof.
  destruct l as [| a [| b [| c [| d []]]]]; try done. destruct m as [| w [| x [| y [| z []]]]]; try done.
  intros _ _ Hl Hm. rewrite !Forall_cons in Hl, Hm.
  destruct Hl as ((Ha & Hna)%byte_text & (Hb & _)%byte_text & (Hc & _)%byte_text & _),
    Hm as ((Hw & Hnw)%byte_text & (Hx & _)%byte_text & (Hy & _)%byte_text & _).
  rewrite !dotted_text by done.
  intros (Haw & (Hbx & (Hcy & Hdz)%split_at_dot)%split_at_dot)%split_at_dot; try done.
  apply dec_inj in Haw, Hbx, Hcy, Hdz. by subst.
Qed.

Lemma from_be_inj4 l m : length l = 4%nat -> length m = 4%nat ->
  Forall (fun b => is_byte b = true) l -> Forall (fun b => is_byte b = true) m ->
  from_be l = from_be m -> l = m.
Proof.
  destruct l as [| a [| b [| c [| d []]]]]; try done. destruct m as [| w [| x [| y [| z []]]]]; try done.
  intros _ _ Hl Hm. rewrite !Forall_cons in Hl, Hm. unfold is_byte, in_width in *.
  rewrite !andb_true_iff, !Z.leb_le, !Z.ltb_lt in *. unfold from_be. cbn [foldl]. intros Heq.
  assert (a = w /\ b = x /\ c = y /\ d = z) as (-> & -> & -> & ->) by lia. done.
Qed.

Lemma verdict_incoming_permitted a b c d p junk :
  Forall (fun x => is_byte x = true) [a; b; c; d] -> well_formed p ->
  verdict_incoming (dotted [a; b; c; d]) (p ++ junk) = Ok (permitted_incoming a b c d p).
Proof.
  intros Hip (H20 & _ & _ & Hb & _). unfold verdict_incoming.
  rewrite slice_field by (lengths). cbn [unwrap mbind outcome_bind mret outcome_ret].
  change (20 - 16)%nat with 4%nat. rewrite field_app by lia. f_equal. unfold permitted_incoming, dst_of, ipv4.
  assert (Hlen : length (field p 16 4) = 4%nat) by (apply length_field; lia).
  pose proof (Forall_field _ p 16 4 Hb) as Hf. generalize dependent (field p 16 4). intros l Hlen Hf.
  apply eq_true_iff_eq. rewrite String.eqb_eq, Z.eqb_eq. split.
  - intros Heq. f_equal. by apply dotted_inj.
  - intros Heq. f_equal. by apply from_be_inj4.
Qed.

(** ** The queue side *)

Section taps.
Context {K : Type} {reset : K -> K} `{St : Streams K reset}.

Lemma send_all_streams (e : ProxyError) fuel : forall pkt (w : Wire K) l s,
  (length pkt <= fuel)%nat -> streams (out w) = l ++ [s] ->
  exists w' r q, send_all fuel e pkt w = (w', r) /\ streams (out w') = l ++ [s ++ q] /\
    (r = Some (Ok tt) /\ q = pkt \/ (r = None \/ r = Some (Err e)) /\ q `prefix_of` pkt /\ q <> pkt).
Proof.
  induction fuel as [| fuel IH]; intros pkt w l s Hlen Hs.
  - destruct pkt; [| simpl in Hlen; lia]. exists w, (Some (Ok tt)), []. rewrite app_nil_r. auto.
  - destruct pkt as [| b pkt]; [exists w, (Some (Ok tt)), []; rewrite app_nil_r; auto |].
    cbn [send_all]. destruct (send (b :: pkt) (out w)) as [o [[n |] |]] eqn:Hsend.
    + apply send_some in Hsend as [Hn Hstr]; [| done].
      destruct (IH (drop n (b :: pkt)) (mkWire (conn w) o) l (s ++ take n (b :: pkt)))
        as (w' & r & q & Hr & Hq & Hcases); [rewrite length_drop; simpl in *; lia | by apply Hstr |].
      exists w', r, (take n (b :: pkt) ++ q). rewrite app_assoc. split; [exact Hr |]. split; [exact Hq |].
      destruct Hcases as [[-> ->] | (Hr' & [x Hx] & Hne)].
      * left. by rewrite take_drop.
      * right. split; [done |]. rewrite <- (take_drop n (b :: pkt)) at 2 4. rewrite Hx. split.
        -- exists x. by rewrite app_assoc.
        -- intros ?%app_inv_head. by rewrite Hx in Hne.
    + apply send_fails in Hsend. exists (mkWire (conn w) o), (Some (Err e)), [].
      rewrite app_nil_r. simpl. rewrite Hsend. split; [done |]. split; [done |]. right.
      split; [by right |]. split; [by eexists | done].
    + apply send_none in Hsend. exists (mkWire (conn w) o), None, [].
      rewrite app_nil_r. simpl. rewrite Hsend. split; [done |]. split; [done |]. right.
      split; [by left |]. split; [by eexists | done].
Qed.

(** What the connections hold, relative to the start [t0]: [msgs] were
    written, in queue order, and those dropped are among them. *)
Record written (t0 t : Tap K) (msgs : list bytes) : Prop := {
  written_order : (msgs ++ messages (queue t)) `sublist_of` messages (queue t0);
  written_dropped : exists new, dropped t = dropped t0 ++ new /\ new `sublist_of` msgs
}.

(** The current connection ends at a packet boundary. *)
Definition at_boundary (t0 t : Tap K) : Prop :=
  exists l pss ps, streams (sock t) = l ++ [concat ps] /\ Forall2 framed l pss /\
    Forall well_formed ps /\ written t0 t (concat pss ++ ps).

Definition all_framed (t0 t : Tap K) : Prop :=
  exists pss, Forall2 framed (streams (sock t)) pss /\ written t0 t (concat pss).

Definition small_packet : bytes := [64; 0; 0; 22] ++ replicate 18 0.

Lemma torn_nil : torn [].
Proof.
  exists small_packet. split; [| split; [by eexists | done]].
  unfold well_formed. change (length small_packet) with 22%nat. unfold MAX_PACKET.
  change (ihl small_packet) with 0%nat. do 3 (split; [lia |]). split; [| done]. repeat constructor.
Qed.

Lemma at_boundary_framed t0 t : at_boundary t0 t -> all_framed t0 t.
Proof.
  intros (l & pss & ps & Hs & Hl & Hps & Hw). exists (pss ++ [ps]).
  rewrite Hs, concat_app. simpl. rewrite app_nil_r. split; [| done].
  apply Forall2_app; [done |]. constructor; [| done]. split; [done |]. exists [].
  rewrite app_nil_r. split; [done | apply torn_nil].
Qed.

Lemma reset_boundary t0 t : all_framed t0 t ->
  at_boundary t0 (mkTap (queue t) (dropped t) (reset (sock t))).
Proof.
  intros (pss & Hl & Hw). exists (streams (sock t)), pss, []. cbn [sock]. rewrite reset_streams, app_nil_r.
  split; [done |]. split; [done |]. split; [done |]. destruct Hw. by split.
Qed.

Definition good_queue (q : list (option (bytes * bool))) : Prop := Forall well_formed (messages q).

(** One step of the queue side. *)
Lemma tap_step_framed t0 t t' r : good_queue (queue t) -> at_boundary t0 t -> tap_step t = (t', r) ->
  good_queue (queue t') /\
  match r with
  | Some (Ok _) | Some (Err (NfqError _)) => at_boundary t0 t'
  | Some (Err (VsockError _)) | None => all_framed t0 t'
  | Some (Err (IpError _)) | Some Panic => False
  end.
Proof.
  intros Hq Hb. unfold tap_step, queue_recv, mbind, io_bind.
  destruct (queue t) as [| [m |] q] eqn:Hqt.
  - intros [= <- <-]. rewrite Hqt. split; [done |]. by apply at_boundary_framed.
  - pose proof Hb as (l & pss & ps & Hs & Hl & Hps & [Hord (new & Hdrop & Hnew)]).
    unfold good_queue in Hq. cbn in Hq. apply Forall_cons in Hq as [Hm Hq].
    unfold tap_send_all. cbn [sock].
    destruct (send_all_streams (VsockError WriteError) (S (length m.1)) m.1 (mkWire [] (sock t)) l (concat ps))
      as (w & r' & sentb & -> & Hw & Hcases); [lia | done |]. cbn [out queue dropped].
    rewrite Hqt in Hord. cbn in Hord.
    assert (Hmsgs : written t0 (mkTap q (dropped t ++ [m.1]) (out w)) (concat pss ++ ps ++ [m.1])).
    { split; cbn [queue dropped]; [by rewrite <- !app_assoc in * |]. exists (new ++ [m.1]).
      rewrite Hdrop, !app_assoc. split; [done |]. by apply sublist_app. }
    assert (Hskip : forall p, written t0 (mkTap q (dropped t) (out w)) (concat pss ++ ps ++ p) <->
      (concat pss ++ ps ++ p) ++ messages q `sublist_of` messages (queue t0)).
    { intros p. split; [by intros [] |]. intros Ho. split; [done |]. cbn. exists new. split; [done |].
      rewrite app_assoc. by apply sublist_inserts_r. }
    destruct Hcases as [[-> ->] | (Hr & Hpre & Hne)].
    + unfold set_verdict. cbn [queue dropped sock]. destruct m.2; intros [= <- <-]; (split; [done |]).
      * exists l, pss, (ps ++ [m.1]). cbn [sock]. rewrite concat_app. simpl. rewrite app_nil_r.
        split; [done |]. split; [done |]. split; [| done]. apply Forall_app. by split; [| constructor].
      * exists l, pss, (ps ++ [m.1]). cbn [sock]. rewrite concat_app. simpl. rewrite app_nil_r.
        split; [done |]. split; [done |]. split; [apply Forall_app; by split; [| constructor] |].
        apply Hskip. by destruct Hmsgs.
    + assert (Hfr : all_framed t0 (mkTap q (dropped t) (out w))).
      { exists (pss ++ [ps]). cbn [sock]. rewrite Hw, concat_app. simpl. rewrite app_nil_r. split.
        - apply Forall2_app; [done |]. constructor; [| done]. split; [done |]. exists sentb.
          split; [done |]. by exists m.1.
        - rewrite <- (app_nil_r ps). apply Hskip. rewrite app_nil_r.
          etrans; [| exact Hord]. apply sublist_app; [done |]. by apply sublist_cons. }
      destruct Hr as [-> | ->]; intros [= <- <-]; done.
  - intros [= <- <-]. split; [done |]. destruct Hb as (l & pss & ps & ? & ? & ? & [Hord Hdrop]).
    exists l, pss, ps. do 3 (split; [done |]). rewrite Hqt in Hord. by split.
Qed.

Lemma tap_handle_conn_framed t0 fuel : forall t t' r,
  good_queue (queue t) -> at_boundary t0 t -> tap_handle_conn fuel t = (t', r) ->
  good_queue (queue t') /\
  match r with
  | Some (Err (NfqError _)) => at_boundary t0 t'
  | Some (Err (VsockError _)) | None => all_framed t0 t'
  | Some (Ok _) | Some (Err (IpError _)) | Some Panic => False
  end.
Proof.
  induction fuel as [| fuel IH]; intros t t' r Hq Hb; cbn [tap_handle_conn].
  - intros [= <- <-]. split; [done |]. by apply at_boundary_framed.
  - unfold mbind, io_bind. destruct (tap_step t) as [t1 r1] eqn:Hstep.
    apply (tap_step_framed t0) in Hstep as [Hq1 Hr1]; [| done | done].
    destruct r1 as [[? | [] |] |]; try done; try (intros [= <- <-]; done). by apply IH.
Qed.

Lemma tap_main_framed t0 fuel : forall t t' r,
  good_queue (queue t) -> at_boundary t0 t -> tap_main reset fuel t = (t', r) ->
  r = None /\ all_framed t0 t'.
Proof.
  induction fuel as [| fuel IH]; intros t t' r Hq Hb; cbn [tap_main].
  - intros [= <- <-]. split; [done |]. by apply at_boundary_framed.
  - destruct (tap_handle_conn (S (length (queue t))) t) as [t1 r1] eqn:Hrun.
    apply (tap_handle_conn_framed t0) in Hrun as [Hq1 Hr1]; [| done | done].
    destruct r1 as [[? | [] |] |]; try done; [| | by intros [= <- <-]].
    + apply IH; [done |]. by apply reset_boundary.
    + by apply IH.
Qed.

End taps.

(** ** The outgoing proxy on framed connections *)

Lemma outgoing_runs {K : Type} `{Dg : Datagram K} ifaddr (reset : K -> K) c cs pss fuel (k : K) :
  Forall2 framed (c :: cs) pss -> (length cs < fuel)%nat ->
  let permitted := List.filter (permitted_outgoing ifaddr) (concat pss) in
  exists w cs' res done_, proxy_main (outgoing_step ifaddr) reset fuel cs (mkWire c k) = (w, cs', res) /\
    sent (out w) = sent k ++ done_ /\
    (done_ = permitted /\ cs' = [] /\ res = None \/
     exists p rest k1 k2 x, permitted = done_ ++ p :: rest /\ sent k1 = sent k ++ done_ /\
       send p k1 = (k2, x) /\ (x = Some None /\ res = Some Panic \/ x = None /\ res = None)).
Proof.
  intros Hpss Hf permitted. subst permitted. pose proof (framed_packets _ _ Hpss) as Hwf.
  pose proof (permitted_nonempty (permitted_outgoing ifaddr) _ Hwf) as Hne.
  apply Forall2_cons_inv_l in Hpss as (ps & pss' & Hc & Hcs & ->).
  destruct (filter_main (verdict_outgoing ifaddr) (permitted_outgoing ifaddr) (NfqError WriteError)
    (verdict_outgoing_permitted ifaddr) reset cs pss' Hcs c ps fuel k Hc Hf) as (w & rest & Hw & Hrun);
    [intros _; by eexists |].
  destruct (deliver_sent _ Hne k) as (d & Hsent & Hd). exists w.
  rewrite <- Hw in Hsent. change (outgoing_step ifaddr) with (filter_step (verdict_outgoing ifaddr) (NfqError WriteError)).
  rewrite Hrun. destruct (deliver _ k).2 as [[] |] eqn:Hr; cbn [fst snd] in Hd.
  - exists [], None, d. split; [done |]. split; [exact Hsent |]. left. rewrite decide_True in Hd by done. done.
  - exists rest, (Some Panic), d. split; [done |]. split; [exact Hsent |]. right.
    rewrite decide_False in Hd by done. destruct Hd as (p & ps' & k1 & k2 & x & Hp & Hs & Hk & [[Hx _] | [_ Hx]]); [| done].
    exists p, ps', k1, k2, x. split; [exact Hp |]. split; [exact Hk |]. split; [exact Hs |]. by left.
  - exists rest, None, d. split; [done |]. split; [exact Hsent |]. right.
    rewrite decide_False in Hd by done. destruct Hd as (p & ps' & k1 & k2 & x & Hp & Hs & Hk & [[_ Hx] | [Hx _]]); [done |].
    exists p, ps', k1, k2, x. split; [exact Hp |]. split; [exact Hk |]. split; [exact Hs |]. by right.
Qed.

(** ** Backoff *)

Lemma run_with_backoff_from {W R} (f : W -> W * outcome ProxyError R) max_backoff fuel : 1 <= max_backoff ->
  forall j w w' sleeps r,
  run_with_backoff fuel f (Z.min (2 ^ Z.of_nat j) max_backoff) max_backoff w = (w', sleeps, r) ->
  forall i s, sleeps !! i = Some s -> s = Z.min (2 ^ Z.of_nat (j + i)) max_backoff.
Proof.
  intros Hmax. induction fuel as [| fuel IH]; intros j w w' sleeps r; cbn [run_with_backoff].
  - by intros [= <- <- <-] i s.
  - destruct (f w) as [w1 [? | ? |]]; [by intros [= <- <- <-] i s | | by intros [= <- <- <-] i s].
    unfold clamp. destruct (Z.leb_spec 1 max_backoff); [| lia].
    assert (Hpos : 0 < 2 ^ Z.of_nat j) by (apply Z.pow_pos_nonneg; lia).
    replace (Z.max 1 (Z.min (Z.min (2 ^ Z.of_nat j) max_backoff * 2) max_backoff))
      with (Z.min (2 ^ Z.of_nat (S j)) max_backoff) by (rewrite Nat2Z.inj_succ, Z.pow_succ_r by lia; lia).
    destruct (run_with_backoff fuel f _ max_backoff w1) as [[w2 sl] r2] eqn:Hrun.
    intros [= <- <- <-] [| i] s; cbn.
    + intros [= <-]. by rewrite Nat.add_0_r.
    + intros Hi. rewrite (IH (S j) _ _ _ _ Hrun i s Hi). by rewrite Nat.add_succ_r.
Qed.

(** ** Concrete instances for the witnesses *)
Module ToyProxy.

(** A raw socket that records the packets it is given. *)
Record Raw := mkRaw { raw_sent : list bytes }.
#[export] Instance raw_sender : Sender Raw := fun b k => (mkRaw (raw_sent k ++ [b]), Some (Some (length b))).
#[export, refine] Instance raw_datagram : Datagram Raw := {| sent := raw_sent |}.
Proof. by intros b k k' r [= <- <-] _. Defined.

Lemma raw_accepting : accepting Raw.
Proof. intros b k. by do 2 eexists. Qed.

(** A raw socket that refuses every packet. *)
Record Broken := mkBroken { refused : nat }.
#[export] Instance broken_sender : Sender Broken := fun b k => (mkBroken (S (refused k)), Some None).

(** A stream socket following a script: at most so many bytes, or an error. *)
Record Scripted := mkScripted { conns_of : list bytes; script : list (option nat) }.
Definition add_last (l : list bytes) (b : bytes) : list bytes :=
  match rev l with [] => [] | s :: r => rev r ++ [s ++ b] end.
#[export] Instance scripted_sender : Sender Scripted := fun b k =>
  match script k with
  | [] => (mkScripted (add_last (conns_of k) b) [], Some (Some (length b)))
  | None :: sc => (mkScripted (conns_of k) sc, Some None)
  | Some n :: sc => let m := Nat.min (S n) (length b) in
      (mkScripted (add_last (conns_of k) (take m b)) sc, Some (Some m))
  end.
Definition scripted_reset (k : Scripted) : Scripted := mkScripted (conns_of k ++ [[]]) (script k).

Lemma add_last_snoc l s b : add_last (l ++ [s]) b = l ++ [s ++ b].
Proof. unfold add_last. rewrite rev_app_distr. simpl. by rewrite rev_involutive. Qed.

#[export, refine] Instance scripted_streams : Streams Scripted scripted_reset := {| streams := conns_of |}.
Proof.
  - intros b k k' n Hsend Hb. assert (0 < length b)%nat by (destruct b; [done | simpl; lia]).
    unfold send, scripted_sender in Hsend. destruct (script k) as [| [m |] sc];
      [injection Hsend as <- <- | injection Hsend as <- <- | done]; cbn [conns_of].
    + split; [lia |]. intros l s ->. by rewrite add_last_snoc, firstn_all.
    + split; [destruct (length b); lia |]. intros l s ->. by rewrite add_last_snoc.
  - intros b k k' Hsend. unfold send, scripted_sender in Hsend. by destruct (script k) as [| [m |] sc]; simplify_eq/=.
  - intros b k k' Hsend. unfold send, scripted_sender in Hsend. by destruct (script k) as [| [m |] sc]; simplify_eq/=.
  - done.
Defined.

(** Packets of 24 bytes from 10.1.2.3 (as the interface's address word). *)
Definition toy_packet (dst : bytes) (port : Z) : bytes :=
  [69; 0; 0; 24; 0; 0; 0; 0; 64; 6; 0; 0] ++ [10; 1; 2; 3] ++ dst ++ be_bytes 2 port ++ [0; 0].
Definition toy_ifaddr : Z := from_ne [10; 1; 2; 3].
Definition good_packet : bytes := toy_packet [93; 184; 216; 34] 443.
Definition private_packet : bytes := toy_packet [192; 168; 0; 1] 443.
Definition low_port_packet : bytes := toy_packet [93; 184; 216; 34] 22.

Lemma toy_well_formed dst port : length dst = 4%nat -> Forall (fun b => is_byte b = true) dst ->
  well_formed (toy_packet dst port).
Proof.
  intros Hl Hd. assert (Hlen : length (toy_packet dst port) = 24%nat) by (unfold toy_packet; by rewrite !length_app, Hl).
  unfold well_formed. rewrite Hlen. change (ihl (toy_packet dst port)) with 20%nat. unfold MAX_PACKET.
  do 3 (split; [lia |]). split; [| reflexivity]. unfold toy_packet. repeat (apply Forall_app; split); [by repeat constructor | by repeat constructor | done | | by repeat constructor].
  assert (Hb : forall z, is_byte (wrap 8 z) = true).
  { intros z. unfold is_byte, in_width, wrap. pose proof (Z.mod_pos_bound z (2 ^ 8) ltac:(lia)).
    apply andb_true_iff. split; [apply Z.leb_le | apply Z.ltb_lt]; lia. }
  repeat constructor; apply Hb.
Qed.

Definition toy_conns : list (list bytes) := [[good_packet; private_packet]; [low_port_packet; good_packet]].
Definition toy_tail : bytes := take 7 good_packet.
Definition toy_tap : Tap Scripted :=
  mkTap [Some (good_packet, true); Some (private_packet, true); None; Some (good_packet, false); Some (good_packet, true)]
    [] (mkScripted [[]] [Some 3%nat; Some 100%nat; Some 5%nat; None; Some 23%nat]).

End ToyProxy.

(** ** Properties *)

Section properties.
Context {K : Type} `{Dg : Datagram K}.

(** The incoming filter.  While the socket refuses nothing, the host's packets
    reach the enclave's network exactly when their destination is the
    enclave's address, whose text is compared: dotted texts of bytes are equal
    only for equal addresses. *)
Theorem incoming_forwards_permitted (a b c d : Z) (reset : K -> K) (s : bytes) (ss : list bytes)
  (ps : list bytes) (pss : list (list bytes)) (fuel : nat) (k : K) (Hacc : accepting K)
  (Hip : Forall (fun x => is_byte x = true) [a; b; c; d])
  (Hs : framed s ps) (Hss : Forall2 framed ss pss) (Hfuel : (length ss < fuel)%nat) :
  exists w, proxy_main (incoming_step (dotted [a; b; c; d])) reset fuel ss (mkWire s k) = (w, [], None) /\
    sent (out w) = sent k ++ List.filter (permitted_incoming a b c d) (concat (ps :: pss)).
Proof.
  assert (Hwf : Forall well_formed (concat (ps :: pss))) by (by apply (framed_packets (s :: ss)); constructor).
  pose proof (permitted_nonempty (permitted_incoming a b c d) _ Hwf) as Hne.
  destruct (filter_main (verdict_incoming (dotted [a; b; c; d])) (permitted_incoming a b c d) (IpError WriteError)
    (fun p junk Hp => verdict_incoming_permitted a b c d p junk Hip Hp) reset ss pss Hss s ps fuel k Hs Hfuel)
    as (w & rest & Hw & Hrun); [by rewrite deliver_accepting |].
  destruct (deliver_sent _ Hne k) as (sn & Hsent & Hall).
  rewrite deliver_accepting in Hrun, Hall by done. rewrite decide_True in Hall by done. subst sn.
  exists w. split; [exact Hrun |]. by rewrite Hw.
Qed.

(** C15: The tunnel.  Whatever the queue and the vsock do (failed receives,
    partial writes, broken connections, failed verdicts), the queue side never
    crashes, and what its connections carry is read by the outgoing proxy as
    [msgs]: packets of the queue, in its order, including every packet taken
    away from the kernel.  The proxy sends the permitted ones among them, in
    order, unmodified and once each, until a send of the raw socket is
    refused, which ends the process with a panic after exactly the packets
    before the refused one, or blocks; if none is, it sends all of them. *)
Theorem tunnel_end_to_end {T : Type} {reset : T -> T} `{St : Streams T reset} (ifaddr : Z) (reset' : K -> K)
  (fuel : nat) (t t' : Tap T) (r : option (outcome Empty_set Empty_set)) (k : K)
  (Hqueue : Forall well_formed (messages (queue t))) (Hstart : streams (sock t) = [[]])
  (Hrun : tap_main reset fuel t = (t', r)) :
  r = None /\ exists msgs, msgs `sublist_of` messages (queue t) /\
    (exists new, dropped t' = dropped t ++ new /\ new `sublist_of` msgs) /\
    forall c cs fuel', streams (sock t') = c :: cs -> (length cs < fuel')%nat ->
      let permitted := List.filter (permitted_outgoing ifaddr) msgs in
      exists w cs' res done_, proxy_main (outgoing_step ifaddr) reset' fuel' cs (mkWire c k) = (w, cs', res) /\
        sent (out w) = sent k ++ done_ /\
        (done_ = permitted /\ cs' = [] /\ res = None \/
         exists p rest k1 k2 x, permitted = done_ ++ p :: rest /\ sent k1 = sent k ++ done_ /\
           send p k1 = (k2, x) /\ (x = Some None /\ res = Some Panic \/ x = None /\ res = None)).
Proof.
  apply (tap_main_framed t) in Hrun as [-> (pss & Hpss & [Hord Hdrop])]; [| done |].
  - split; [done |]. exists (concat pss). split; [| split; [done |]].
    + etrans; [| exact Hord]. by apply sublist_inserts_r.
    + intros c cs fuel' Hcs Hf permitted. subst permitted. rewrite Hcs in Hpss.
      apply (outgoing_runs ifaddr reset' c cs pss fuel' k Hpss Hf).
  - exists [], [], []. split; [done |]. split; [done |]. split; [done |]. split; [done |].
    exists []. by rewrite app_nil_r.
Qed.

End properties.

(** Backoff.  With a positive bound the [i]-th sleep of [run_with_backoff]
    is the lesser of 2^i seconds and the bound, for any function retried. *)
Theorem run_with_backoff_sleeps {W R : Type} (f : W -> W * outcome ProxyError R) (max_backoff : Z)
  (fuel : nat) (w w' : W) (sleeps : list Z) (r : option (outcome Empty_set R))
  (Hmax : 1 <= max_backoff)
  (Hrun : run_with_backoff fuel f 1 max_backoff w = (w', sleeps, r)) (i : nat) (s : Z)
  (Hi : sleeps !! i = Some s) :
  s = Z.min (2 ^ Z.of_nat i) max_backoff.
Proof.
  apply (run_with_backoff_from f max_backoff fuel Hmax 0 w w' sleeps r); [| done].
  change (2 ^ Z.of_nat 0) with 1. by rewrite Z.min_l.
Qed.

(** A refused packet kills the outgoing proxy.  The send error is wrapped
    as a queue error, which [main] does not expect: instead of reopening the
    socket it panics, on the first permitted packet the socket refuses. *)
Theorem outgoing_send_error_panics {K : Type} `{Sd : Sender K} (ifaddr : Z) (reset : K -> K) (p rest : bytes)
  (cs : list bytes) (k k' : K) (fuel : nat)
  (Hp : well_formed p) (Hok : permitted_outgoing ifaddr p = true) (Hrefused : send p k = (k', Some None)) :
  proxy_main (outgoing_step ifaddr) reset (S fuel) cs (mkWire (p ++ rest) k) = (mkWire rest k', cs, Some Panic).
Proof.
  cbn [proxy_main]. unfold handle_conn. cbn [packet_loop].
  assert (Hstep : outgoing_step ifaddr (replicate MAX_PACKET 0) (mkWire (p ++ rest) k) =
    (mkWire rest k', Some (Err (NfqError WriteError)))).
  { unfold outgoing_step. erewrite io_bind_Ok by (apply read_frame_whole; [done | apply length_replicate]).
    cbv beta iota. rewrite verdict_outgoing_permitted by done. erewrite io_bind_Ok by reflexivity.
    rewrite Hok. cbn [negb]. pose proof Hp as (H20 & Hmax & _).
    rewrite slice_field by (lengths). rewrite Nat.sub_0_r, field_0.
    cbn [unwrap]. erewrite io_bind_Ok by reflexivity. erewrite io_bind_Err; [done |].
    destruct p as [| b p]; [simpl in H20; lia |]. cbn [send_all out]. rewrite Hrefused. done. }
  erewrite io_bind_Err by exact Hstep. done.
Qed.

(** A short length kills both vsock-side proxies: a frame that announces
    fewer than four bytes panics in the slice that reads its rest, whatever
    the filter, although the sender is not trusted. *)
Theorem short_length_panics {K : Type} `{Sd : Sender K} (ifaddr : Z) (ip : string) (reset : K -> K)
  (x y n : Z) (rest : bytes) (cs : list bytes) (k : K) (fuel : nat) (Hn : 0 <= n < 4) :
  proxy_main (outgoing_step ifaddr) reset (S fuel) cs (mkWire ([x; y; 0; n] ++ rest) k)
    = (mkWire rest k, cs, Some Panic) /\
  proxy_main (incoming_step ip) reset (S fuel) cs (mkWire ([x; y; 0; n] ++ rest) k)
    = (mkWire rest k, cs, Some Panic).
Proof.
  assert (Hframe : forall buf, read_frame buf (mkWire ([x; y; 0; n] ++ rest) k) = (mkWire rest k, Some Panic)).
  { intros buf. unfold read_frame. erewrite io_bind_Ok by (by apply read_exact_app).
    unfold write_at. rewrite take_0. cbn [app]. rewrite slice_field by (simpl; lia).
    erewrite io_bind_Ok by reflexivity. change (from_be (field _ 2 (4 - 2))) with (256 * (256 * 0 + 0) + n).
    unfold slice at 1. rewrite decide_False by lia. done. }
  split; cbn [proxy_main]; unfold handle_conn, outgoing_step, incoming_step; cbn [packet_loop];
    unfold mbind, io_bind; by rewrite Hframe.
Qed.

(** ** Witnesses *)
Module ProxyWitnesses.
Import ToyProxy.

Lemma good_packet_wf : well_formed good_packet.
Proof. apply toy_well_formed; [done | by repeat constructor]. Qed.
Lemma private_packet_wf : well_formed private_packet.
Proof. apply toy_well_formed; [done | by repeat constructor]. Qed.
Lemma low_port_packet_wf : well_formed low_port_packet.
Proof. apply toy_well_formed; [done | by repeat constructor]. Qed.

Ltac wf_list :=
  repeat (apply Forall_cons; split); try (apply Forall_nil; exact I);
  first [exact good_packet_wf | exact private_packet_wf | exact low_port_packet_wf].

Lemma toy_framed1 : framed (concat [good_packet; private_packet] ++ toy_tail) [good_packet; private_packet].
Proof.
  split; [wf_list |].
  exists toy_tail. split; [done |]. exists good_packet. split; [apply good_packet_wf |].
  split; [by exists (drop 7 good_packet) | done].
Qed.

Lemma toy_framed2 : framed (concat [low_port_packet; good_packet] ++ []) [low_port_packet; good_packet].
Proof.
  split; [wf_list |].
  exists []. split; [done |]. apply torn_nil.
Qed.

Lemma incoming_forwards_permitted_witness :
  List.filter (permitted_incoming 93 184 216 34) (concat toy_conns) = [good_packet; low_port_packet; good_packet] /\
  exists w, proxy_main (incoming_step (dotted [93; 184; 216; 34])) id 2 [concat [low_port_packet; good_packet] ++ []]
      (mkWire (concat [good_packet; private_packet] ++ toy_tail) (mkRaw [])) = (w, [], None) /\
    sent (out w) = sent (mkRaw []) ++ List.filter (permitted_incoming 93 184 216 34) (concat toy_conns).
Proof.
  split; [reflexivity |].
  apply (incoming_forwards_permitted 93 184 216 34 id _ _ [good_packet; private_packet]
    [[low_port_packet; good_packet]] 2 (mkRaw [])).
  - exact raw_accepting.
  - by repeat constructor.
  - exact toy_framed1.
  - constructor; [exact toy_framed2 | constructor].
  - simpl. lia.
Defined.

(** The raw socket refuses nothing here, so every permitted packet is sent. *)
Lemma tunnel_end_to_end_witness :
  let t' := (tap_main scripted_reset 9 toy_tap).1 in
  length (streams (sock t')) = 2%nat /\ length (dropped t') = 2%nat /\
  exists msgs, msgs `sublist_of` messages (queue toy_tap) /\
    (exists new, dropped t' = dropped toy_tap ++ new /\ new `sublist_of` msgs) /\
    forall c cs fuel', streams (sock t') = c :: cs -> (length cs < fuel')%nat ->
      exists w, proxy_main (outgoing_step toy_ifaddr) id fuel' cs (mkWire c (mkRaw [])) = (w, [], None) /\
        sent (out w) = sent (mkRaw []) ++ List.filter (permitted_outgoing toy_ifaddr) msgs.
Proof.
  intros t'. split; [vm_compute; reflexivity |]. split; [vm_compute; reflexivity |].
  destruct (tunnel_end_to_end (reset := scripted_reset) toy_ifaddr id 9 toy_tap t' None (mkRaw []))
    as (_ & msgs & Hsub & Hdrop & Hrun).
  - cbn [queue toy_tap messages omap list_omap fmap option_fmap option_map fst]. wf_list.
  - reflexivity.
  - vm_compute. reflexivity.
  - exists msgs. split; [exact Hsub |]. split; [exact Hdrop |]. intros c cs fuel' Hc Hf.
    destruct (Hrun c cs fuel' Hc Hf) as (w & cs' & res & d & Hmain & Hsent & [(-> & -> & ->) | Hstop]); [by exists w |].
    destruct Hstop as (p & rest & k1 & k2 & x & _ & _ & Hsend & Hx). injection Hsend as _ <-.
    by destruct Hx as [[? _] | [? _]].
Defined.

(** Two failures and then a success. *)
Definition flaky (n : nat) : nat * outcome ProxyError Z :=
  match n with O => (O, Ok 7) | S n => (n, Err (IpError BindError)) end.

Lemma run_with_backoff_sleeps_witness :
  run_with_backoff 9 flaky 1 4 4%nat = (O, [1; 2; 4; 4], Some (Ok 7)) /\
  4 = Z.min (2 ^ Z.of_nat 3) 4.
Proof.
  split; [reflexivity |].
  apply (run_with_backoff_sleeps flaky 4 9 4%nat O [1; 2; 4; 4] (Some (Ok 7))); [lia | reflexivity | reflexivity].
Defined.

Lemma outgoing_send_error_panics_witness :
  proxy_main (outgoing_step toy_ifaddr) id 5 [] (mkWire (good_packet ++ private_packet) (mkBroken 0))
    = (mkWire private_packet (mkBroken 1), [], Some Panic).
Proof.
  apply (outgoing_send_error_panics toy_ifaddr id good_packet private_packet [] (mkBroken 0) (mkBroken 1) 4).
  - exact good_packet_wf.
  - reflexivity.
  - reflexivity.
Defined.

Lemma short_length_panics_witness :
  proxy_main (outgoing_step 0) id 1 [] (mkWire ([69; 0; 0; 3] ++ good_packet) (mkRaw []))
    = (mkWire good_packet (mkRaw []), [], Some Panic) /\
  proxy_main (incoming_step "10.0.0.1"%string) id 1 [] (mkWire ([69; 0; 0; 3] ++ good_packet) (mkRaw []))
    = (mkWire good_packet (mkRaw []), [], Some Panic).
Proof. apply (short_length_panics 0 "10.0.0.1" id 69 0 3 good_packet [] (mkRaw []) 0). lia. Defined.

End ProxyWitnesses.
