(* ===== verification/Scallop.v ===== *)
(** * Scallop: the handshake and the stream of sdks/rs/src/scallop.rs

    A handshake is a tree of its interactions with the underlying stream
    ([proto]): what it reads and writes, with the rest of the function as the
    continuation.  The established stream is a state machine driven by polls;
    the stream below it is a script of the answers it gives. *)

From S2P Require Import Prelude Io.

Inductive ScallopError :=
| InitFailed
| TransportError
| NoiseError
| ProtocolError (msg : string).

Inductive ReadMode := Length | Body | Read.

(** ** The traits of the file *)

Abbreviation Pcrs := (bytes * bytes * bytes)%type.

Class ScallopAuthStore (T : Type) := {
  contains : T -> bytes -> bool;
  set : T -> bytes -> Pcrs -> T;
  verify : T -> bytes -> bytes -> T * option Pcrs;
}.

(** [read_message] and [write_message], given the room in the output buffer,
    answer what they write there. *)
Class Noiser (N : Type) := {
  read_message : N -> bytes -> nat -> N * option bytes;
  write_message : N -> bytes -> nat -> N * option bytes;
}.

(** The [snow] crate: its two states, built for the pattern
    Noise_IX_25519_ChaChaPoly_BLAKE2b.  [Seed] is the randomness of the
    ephemeral key. *)
Class Snow := {
  Seed : Type;
  HandshakeState : Type;
  TransportState : Type;
  handshake_Noiser :: Noiser HandshakeState;
  transport_Noiser :: Noiser TransportState;
  build_initiator : Seed -> bytes -> bytes -> option HandshakeState;
  build_responder : Seed -> bytes -> bytes -> option HandshakeState;
  hs_remote_static : HandshakeState -> option bytes;
  into_transport_mode : HandshakeState -> option TransportState;
  ts_remote_static : TransportState -> option bytes;
}.

(** ** Interaction trees of the handshake *)

Inductive proto (R : Type) : Type :=
| Done (r : R)
| ReadExact (n : nat) (eof : R) (k : bytes -> proto R)
| WriteAll (b : bytes) (failed : R) (k : proto R).
Arguments Done {R} r.
Arguments ReadExact {R} n eof k.
Arguments WriteAll {R} b failed k.

Fixpoint proto_bind {R R'} (p : proto R) (f : R -> proto R') (stop : R -> R') : proto R' :=
  match p with
  | Done r => f r
  | ReadExact n eof k => ReadExact n (stop eof) (fun b => proto_bind (k b) f stop)
  | WriteAll b failed k => WriteAll b (stop failed) (proto_bind k f stop)
  end.

(** A handshake owns the auth store; its result is the store and what the
    function returns. *)
Definition hs (S A : Type) : Type := S -> proto (S * outcome ScallopError A).

(** What a failed call leaves of the rest of the function. *)
Definition stopped {S A B} (r : S * outcome ScallopError A) : S * outcome ScallopError B :=
  (r.1, match r.2 with Ok _ => Panic | Err e => Err e | Panic => Panic end).

#[export] Instance hs_ret {S} : MRet (hs S) := fun A a s => Done (s, Ok a).
#[export] Instance hs_bind {S} : MBind (hs S) := fun A B f m s =>
  proto_bind (m s)
    (fun r => match r.2 with Ok a => f a r.1 | Err e => Done (r.1, Err e) | Panic => Done (r.1, Panic) end)
    stopped.

Section handshake.
Context `{Sn : Snow} {T : Type} `{AS : ScallopAuthStore T}.

(** [auth_store: Option<impl ScallopAuthStore>]. *)
Abbreviation store := (option T).

Definition hs_lift {A} (o : outcome ScallopError A) : hs store A := fun s => Done (s, o).
Definition hs_get : hs store store := fun s => Done (s, Ok s).
Definition hs_put (s : store) : hs store unit := fun _ => Done (s, Ok tt).
Definition protocol_error {A} (msg : string) : hs store A := hs_lift (Err (ProtocolError msg)).

Definition hs_read_exact (n : nat) : hs store bytes := fun s =>
  ReadExact n (s, Err TransportError) (fun b => Done (s, Ok b)).

(** [write_all] followed by [flush]. *)
Definition hs_write_all (b : bytes) : hs store unit := fun s =>
  WriteAll b (s, Err TransportError) (Done (s, Ok tt)).

Definition read_u16 : hs store Z := b ← hs_read_exact 2; mret (from_be b).

Section noiser.
Context {N : Type} `{Nr : Noiser N}.

Definition noise_read (noise : N) (src dst : bytes) : hs store (N * bytes * bytes * nat) :=
  len ← read_u16;
  let len := Z.to_nat len in
  _ ← hs_lift (unwrap (slice src 0 len));
  msg ← hs_read_exact len;
  let src := write_at src 0 msg in
  match read_message noise msg (length dst) with
  | (noise, Some payload) => mret (noise, src, write_at dst 0 payload, length payload)
  | (_, None) => hs_lift (Err NoiseError)
  end.

Definition noise_write (noise : N) (src dst : bytes) (dst_offset : nat) : hs store (N * bytes) :=
  out ← hs_lift (unwrap (slice dst (dst_offset + 2) (length dst)));
  match write_message noise src (length out) with
  | (noise, Some m) =>
      let len := length m in
      let dst := write_at dst (dst_offset + 2) m in
      let dst := write_at dst dst_offset (be_bytes 2 (Z.of_nat len)) in
      frame ← hs_lift (unwrap (slice dst 0 (dst_offset + len + 2)));
      _ ← hs_write_all frame;
      mret (noise, dst)
  | (_, None) => hs_lift (Err TransportError)
  end.

(** [send_CLIENTFIN] of the client. *)
Definition send_CLIENTFIN (noise : N) (buf noise_buf payload : bytes) (should_ask_auth : bool) : hs store N :=
  let noise_buf := write_at noise_buf 0 [if negb should_ask_auth then 0 else 1] in
  let noise_buf := write_at noise_buf 1 (be_bytes 2 (Z.of_nat (length payload))) in
  _ ← hs_lift (unwrap (slice noise_buf 3 (3 + length payload)));
  let noise_buf := write_at noise_buf 3 payload in
  msg ← hs_lift (unwrap (slice noise_buf 0 (length payload + 3)));
  '(noise, _) ← noise_write noise msg buf 0;
  mret noise.

End noiser.

(** ** The established stream *)

Record ScallopStream := mkScallopStream {
  noise : TransportState;
  rbuf : bytes;
  pending : nat;
  mode : ReadMode;
  read_end : nat;
  read_start : nat;
  wbuf : bytes;
  write_start : nat;
  write_end : nat;
}.

#[export] Instance eta_ScallopStream : Settable ScallopStream :=
  fun s => mkScallopStream (noise s) (rbuf s) (pending s) (mode s) (read_end s) (read_start s) (wbuf s)
                           (write_start s) (write_end s).

Definition new_stream (n : TransportState) : ScallopStream :=
  mkScallopStream n (replicate 2 0) 2 Length 0 0 [] 0 0.

(** [try_into] of a slice into [[u8; 32]]. *)
Definition key_of (k : bytes) : option bytes := if decide (length k = 32%nat) then Some k else None.

Definition get_remote_static (s : ScallopStream) : outcome ScallopError (option bytes) :=
  match ts_remote_static (noise s) with
  | Some k => k ← unwrap (key_of k); mret (Some k)
  | None => mret None
  end.

(** ** The two sides of the handshake *)

Definition prologue : bytes := bytes_of_string "NoiseSocketInit1" ++ [0; 0].

(** [get_remote_static().unwrap().try_into().unwrap()]. *)
Definition remote_key (h : HandshakeState) : outcome ScallopError bytes :=
  k ← unwrap (hs_remote_static h); unwrap (key_of k).

(** [auth_store.is_some() && !auth_store.contains(&remote_static)]. *)
Definition should_ask (s : store) (remote_static : bytes) : bool :=
  match s with Some st => negb (contains st remote_static) | None => false end.

(** [verify] on the attestation, then [set]. *)
Definition authenticate (attestation remote_static : bytes) : hs store unit :=
  s ← hs_get;
  st ← hs_lift (unwrap s);
  let '(st, res) := verify st attestation remote_static in
  _ ← hs_put (Some st);
  match res with
  | Some pcrs => hs_put (Some (set st remote_static pcrs))
  | None => protocol_error "invalid attestation"
  end.

(** A byte of a buffer. *)
Definition byte_at (buf : bytes) (i : nat) : hs store Z := hs_lift (unwrap (buf !! i)).

(** [auther] is the document the auther produces when it is called. *)
Definition new_client_async_Noise_IX_25519_ChaChaPoly_BLAKE2b (seed : Seed) (secret : bytes) (auther : option bytes) :
    hs store ScallopStream :=
  let buf := replicate 1024 0 in
  let noise_buf := replicate 1024 0 in
  noise ← hs_lift (ok_or InitFailed (build_initiator seed secret prologue));
  '(noise, buf) ← noise_write noise [] buf 2;
  len ← read_u16;
  if negb (len =? 0) then protocol_error "non zero second negotiation length" else
  '(noise, buf, noise_buf, len) ← noise_read noise buf noise_buf;
  b0 ← byte_at noise_buf 0;
  b1 ← byte_at noise_buf 1;
  if negb (len =? 3)%nat || negb (b0 =? 0) || negb (b1 =? 1) then protocol_error "invalid second payload length" else
  b2 ← byte_at noise_buf 2;
  if 1 <? b2 then protocol_error "invalid auth request in second payload" else
  let should_send_auth := b2 =? 1 in
  if should_send_auth && bool_decide (auther = None) then
    protocol_error "auth requested but no auther available" else
  remote_static ← hs_lift (remote_key noise);
  s ← hs_get;
  let should_ask_auth := should_ask s remote_static in
  noise ← hs_lift (ok_or NoiseError (into_transport_mode noise));
  noise ← (if should_send_auth then
             payload ← hs_lift (unwrap auther);
             if (60000 <? Z.of_nat (length payload)) then protocol_error "auth payload too big" else
             send_CLIENTFIN noise (replicate (Z.to_nat 65000) 0) (replicate (Z.to_nat 65000) 0) payload should_ask_auth
           else send_CLIENTFIN noise buf noise_buf [] should_ask_auth);
  noise ← (if should_ask_auth then
             '(noise, _, noise_buf, len) ←
               noise_read noise (replicate (Z.to_nat 65000) 0) (replicate (Z.to_nat 65000) 0);
             if (len <? 2)%nat then protocol_error "invalid SERVERFIN length" else
             if negb (from_be (take 2 noise_buf) =? Z.of_nat len - 2)
             then protocol_error "invalid SERVERFIN payload length" else
             attestation ← hs_lift (unwrap (slice noise_buf 2 len));
             _ ← authenticate attestation remote_static;
             mret noise
           else mret noise);
  mret (new_stream noise).

Definition new_server_async_Noise_IX_25519_ChaChaPoly_BLAKE2b (seed : Seed) (secret : bytes) (auther : option bytes) :
    hs store ScallopStream :=
  let buf := replicate 1024 0 in
  let noise_buf := replicate 1024 0 in
  noise ← hs_lift (ok_or InitFailed (build_responder seed secret prologue));
  len ← read_u16;
  if negb (len =? 0) then protocol_error "non zero first negotiation length" else
  '(noise, buf, noise_buf, len) ← noise_read noise buf noise_buf;
  if negb (len =? 0)%nat then protocol_error "non zero first handshake payload" else
  let buf := write_at buf 0 (be_bytes 2 0) in
  remote_static ← hs_lift (remote_key noise);
  s ← hs_get;
  let should_ask_auth := should_ask s remote_static in
  let payload := [0; 1; if negb should_ask_auth then 0 else 1] in
  '(noise, buf) ← noise_write noise payload buf 2;
  noise ← hs_lift (ok_or NoiseError (into_transport_mode noise));
  '(noise, buf, noise_buf, len) ← noise_read noise buf noise_buf;
  if (len <? 3)%nat then protocol_error "invalid CLIENTFIN length" else
  if negb (from_be (take 2 (drop 1 noise_buf)) =? Z.of_nat len - 3)
  then protocol_error "invalid CLIENTFIN payload length" else
  _ ← (if should_ask_auth then
         attestation ← hs_lift (unwrap (slice noise_buf 3 len));
         authenticate attestation remote_static
       else mret tt);
  b0 ← byte_at noise_buf 0;
  if 1 <? b0 then protocol_error "invalid auth request in third payload" else
  let should_send_auth := b0 =? 1 in
  if should_send_auth && bool_decide (auther = None) then
    protocol_error "auth requested but no auther available" else
  noise ← (if should_send_auth then
             payload ← hs_lift (unwrap auther);
             if (60000 <? Z.of_nat (length payload)) then protocol_error "auth payload too big" else
             let noise_buf := write_at (replicate (Z.to_nat 65000) 0) 0 (be_bytes 2 (Z.of_nat (length payload))) in
             let noise_buf := write_at noise_buf 2 payload in
             msg ← hs_lift (unwrap (slice noise_buf 0 (length payload + 2)));
             '(noise, _) ← noise_write noise msg (replicate (Z.to_nat 65000) 0) 0;
             mret noise
           else mret noise);
  mret (new_stream noise).

(** ** Polling the stream

    The underlying stream is the script of its answers to the polls: chunks
    received (never empty: an empty fill is the end of the stream), ends,
    errors and [Pending]; bytes accepted by writes.  A script that has run out
    answers [Pending]. *)

Inductive read_answer := Chunk (b : bytes) | ReadPending | Eof | ReadFailed.
Inductive write_answer := Accept (n : nat) | WritePending | WriteFailed.

Record Base := mkBase {
  reads : list read_answer;
  writes : list write_answer;
  flushes : list write_answer;
  sent : bytes;
  shut : bool;
}.

#[export] Instance eta_Base : Settable Base :=
  fun b => mkBase (reads b) (writes b) (flushes b) (sent b) (shut b).

Inductive IoError := BaseError | Other.

(** [Poll<io::Result<A>>]: [None] is [Pending], so the bind is [ready!(..)?]. *)
Abbreviation poll := (io (ScallopStream * Base) IoError).

Definition update (f : ScallopStream -> ScallopStream) : poll unit := fun w => ((f w.1, w.2), Some (Ok tt)).

Definition base_poll_read (room : nat) : poll bytes := fun '(s, b) =>
  match reads b with
  | [] => (s, b, None)
  | ReadPending :: rs => (s, b <| reads := rs |>, None)
  | ReadFailed :: rs => (s, b <| reads := rs |>, Some (Err BaseError))
  | Eof :: _ => (s, b, Some (Ok []))
  | Chunk c :: rs =>
      (s, b <| reads := match drop room c with [] => rs | c' => Chunk c' :: rs end |>, Some (Ok (take room c)))
  end.

Definition base_poll_write (data : bytes) : poll nat := fun '(s, b) =>
  match writes b with
  | [] => (s, b, None)
  | WritePending :: ws => (s, b <| writes := ws |>, None)
  | WriteFailed :: ws => (s, b <| writes := ws |>, Some (Err BaseError))
  | Accept n :: ws =>
      (s, b <| writes := ws |> <| sent := sent b ++ take n data |>, Some (Ok (length (take n data))))
  end.

(** [poll_flush] and [poll_shutdown] of the base; they succeed unless the
    script says otherwise. *)
Definition base_poll_flush : poll unit := fun '(s, b) =>
  match flushes b with
  | WritePending :: fs => (s, b <| flushes := fs |>, None)
  | WriteFailed :: fs => (s, b <| flushes := fs |>, Some (Err BaseError))
  | Accept _ :: fs => (s, b <| flushes := fs |>, Some (Ok tt))
  | [] => (s, b, Some (Ok tt))
  end.

Definition base_poll_shutdown : poll unit :=
  _ ← base_poll_flush; modify (fun '(s, b) => (s, b <| shut := true |>)).

(** [while stream.pending != 0]; [false] is the end of the base stream.  Every
    round but the last receives a byte, so [pending] rounds suffice. *)
Fixpoint fill (fuel : nat) : poll bool := fun w =>
  if (pending w.1 =? 0)%nat then (w, Some (Ok true)) else
  match fuel with
  | O => (w, None)
  | S fuel =>
      (room ← lift (unwrap (slice (rbuf w.1) (length (rbuf w.1) - pending w.1) (length (rbuf w.1))));
       b ← base_poll_read (length room);
       if bool_decide (b = []) then mret false else
       _ ← update (fun s => s <| rbuf := write_at (rbuf s) (length (rbuf s) - pending s) b |>
                              <| pending := (pending s - length b)%nat |>);
       fill fuel) w
  end.

(** One round of the outer loop of [poll_read], with [cap] bytes of room in
    the caller's buffer: [None] to go round again, or the bytes put there. *)
Definition poll_read_round (cap : nat) : poll (option bytes) := fun w0 =>
  (more ← fill (pending w0.1);
   if negb more then mret (Some []) else
   '(s, _) ← get;
   match mode s with
   | Length =>
       l ← lift (unwrap (slice (rbuf s) 0 2));
       let record_length := Z.to_nat (from_be l) in
       _ ← update (fun s => s <| pending := record_length |> <| mode := Body |> <| rbuf := replicate record_length 0 |>);
       mret None
   | Body =>
       let '(n, res) := read_message (noise s) (rbuf s) (length (rbuf s)) in
       _ ← update (fun s => s <| noise := n |>);
       match res with
       | None => fail Other
       | Some payload =>
           _ ← update (fun s => s <| rbuf := write_at (rbuf s) 0 payload |> <| read_start := 0%nat |>
                                  <| read_end := length payload |> <| mode := Read |>);
           mret None
       end
   | Read =>
       if (cap <? read_end s - read_start s)%nat then
         out ← lift (unwrap (slice (rbuf s) (read_start s) (read_start s + cap)));
         _ ← update (fun s => s <| read_start := (read_start s + cap)%nat |>);
         mret (Some out)
       else
         out ← lift (unwrap (slice (rbuf s) (read_start s) (read_end s)));
         _ ← update (fun s => s <| rbuf := replicate 2 0 |> <| pending := 2%nat |> <| mode := Length |>);
         mret (Some out)
   end) w0.

(** The loop goes from [Length] to [Body] to [Read], which returns. *)
Fixpoint poll_read_loop (fuel : nat) (cap : nat) : poll bytes :=
  match fuel with
  | O => Io.pending
  | S fuel =>
      r ← poll_read_round cap;
      match r with Some out => mret out | None => poll_read_loop fuel cap end
  end.

Definition poll_read (cap : nat) : poll bytes := poll_read_loop 3 cap.

(** [while stream.write_start != stream.write_end]; each round takes an
    answer of the script. *)
Fixpoint drain (fuel : nat) : poll unit := fun w =>
  if (write_start w.1 =? write_end w.1)%nat then (w, Some (Ok tt)) else
  match fuel with
  | O => (w, None)
  | S fuel =>
      (data ← lift (unwrap (slice (wbuf w.1) (write_start w.1) (write_end w.1)));
       size ← base_poll_write data;
       _ ← update (fun s => s <| write_start := (write_start s + size)%nat |>);
       drain fuel) w
  end.

Definition poll_flush : poll unit := fun w =>
  (_ ← drain (S (length (writes w.2))); base_poll_flush) w.

Definition MAX_WRITE : nat := Z.to_nat 64000.

Definition poll_write (buf : bytes) : poll nat :=
  _ ← poll_flush;
  let len := Nat.min (length buf) MAX_WRITE in
  let new_buf := replicate (len + 1000) 0 in
  data ← lift (unwrap (slice buf 0 len));
  '(s, _) ← get;
  let '(n, res) := write_message (noise s) data (length new_buf - 2) in
  _ ← update (fun s => s <| noise := n |>);
  match res with
  | None => fail Other
  | Some m =>
      let noise_len := length m in
      let new_buf := write_at new_buf 2 m in
      let new_buf := write_at new_buf 0 (be_bytes 2 (Z.of_nat noise_len)) in
      _ ← update (fun s => s <| wbuf := new_buf |> <| write_start := 0%nat |> <| write_end := (noise_len + 2)%nat |>);
      mret len
  end.

Definition poll_shutdown : poll unit := _ ← poll_flush; base_poll_shutdown.

End handshake.
