(* ===== verification/ScallopStream.v ===== *)
(** * Scallop: what the established stream delivers

    The receiving side against the records of its peer ([receiving]), the
    sending side against the records it has put on the wire, and the lemmas
    that carry both through a poll. *)

From S2P Require Import Prelude Io Scallop.

(** ** The contract of the noise library *)

(** [in_sync a b ms]: [a] has encrypted, and [b] has yet to decrypt, the
    messages [ms], each a ciphertext with its plaintext.  A direction is not
    disturbed by the other one. *)
Class SnowTransport `{Sn : Snow} := {
  sending_nonce : TransportState -> Z;
  in_sync : TransportState -> TransportState -> list (bytes * bytes) -> Prop;
  sync_length a b c p ms : in_sync a b ((c, p) :: ms) -> length c = (length p + 16)%nat /\ Z.of_nat (length c) < 65536;
  sync_write a b ms p :
    in_sync a b ms -> sending_nonce a < u64_MAX -> Z.of_nat (length p) + 16 < 65536 ->
    exists a' c, (forall room, (length p + 16 <= room)%nat -> write_message a p room = (a', Some c)) /\
      length c = (length p + 16)%nat /\
      sending_nonce a' = sending_nonce a + 1 /\ in_sync a' b (ms ++ [(c, p)]) /\
      (forall d ms', in_sync d a ms' -> in_sync d a' ms');
  sync_read a b c p ms :
    in_sync a b ((c, p) :: ms) ->
    exists b', (forall room, (length c <= room)%nat -> read_message b c room = (b', Some p)) /\ in_sync a b' ms /\ sending_nonce b' = sending_nonce b /\
      (forall d ms', in_sync b d ms' -> in_sync b' d ms');
}.

(** ** Definitions *)

(** A record on the wire, the wire image of messages and their plaintext. *)
Definition record (c : bytes) : bytes := be_bytes 2 (Z.of_nat (length c)) ++ c.
Definition wire (ms : list (bytes * bytes)) : bytes := concat (map (record ∘ fst) ms).
Definition plain (ms : list (bytes * bytes)) : bytes := concat (map snd ms).

(** What a script still delivers before its end. *)
Fixpoint arriving (rs : list read_answer) : bytes :=
  match rs with
  | Chunk c :: rs => c ++ arriving rs
  | ReadPending :: rs => arriving rs
  | _ => []
  end.

Definition no_failure (a : read_answer) : bool :=
  match a with Chunk c => negb (bool_decide (c = [])) | ReadFailed => false | _ => true end.

(** The number of times a script answers [Pending]. *)
Fixpoint waits (rs : list read_answer) : nat :=
  match rs with [] => O | ReadPending :: rs => S (waits rs) | _ :: rs => waits rs end.

(** A script at its end. *)
Definition at_end (rs : list read_answer) : bool := match rs with Eof :: _ => true | _ => false end.

(** The calls a writer makes. *)
Inductive write_op := PollWrite (buf : bytes) | PollFlush | PollShutdown.

Section stream.
Context `{Sn : Snow} {ST : SnowTransport}.

(** [s] is to deliver [todo], the plaintexts of the records peer [a] has sent
    (the first one less what the caller has had of it): [inflight] is what has
    yet to arrive of them. *)
Inductive receiving (a : TransportState) (s : ScallopStream) (inflight : bytes) (todo : list bytes) : Prop :=
| receiving_length ms :
    mode s = Length -> length (rbuf s) = 2%nat -> (pending s <= 2)%nat -> in_sync a (noise s) ms ->
    take (2 - pending s) (rbuf s) ++ inflight = wire ms -> todo = map snd ms -> receiving a s inflight todo
| receiving_body c p ms :
    mode s = Body -> length (rbuf s) = length c -> (pending s <= length c)%nat -> in_sync a (noise s) ((c, p) :: ms) ->
    take (length c - pending s) (rbuf s) ++ inflight = c ++ wire ms -> todo = p :: map snd ms ->
    receiving a s inflight todo
| receiving_read rest ms :
    mode s = Read -> pending s = 0%nat -> slice (rbuf s) (read_start s) (read_end s) = Some rest ->
    in_sync a (noise s) ms -> inflight = wire ms -> todo = rest :: map snd ms -> receiving a s inflight todo.

(** The abstract reader: a queue of records, read one at a time. *)
Definition take_record (cap : nat) (todo : list bytes) : bytes * list bytes :=
  match todo with
  | [] => ([], [])
  | p :: todo => if (cap <? length p)%nat then (take cap p, drop cap p :: todo) else (p, todo)
  end.

(** ** Filling the buffer *)

Lemma base_poll_read_spec room (s : ScallopStream) b : (0 < room)%nat -> forallb no_failure (reads b) = true ->
  exists rs l, base_poll_read room (s, b) = (s, b <| reads := rs |>, l) /\ forallb no_failure rs = true /\
    match l with
    | None => arriving rs = arriving (reads b) /\ (waits rs < waits (reads b) \/ reads b = [] /\ rs = [])%nat
    | Some (Ok c) => arriving (reads b) = c ++ arriving rs /\ (length c <= room)%nat /\ waits rs = waits (reads b) /\
                     (c = [] -> at_end rs = true)
    | _ => False
    end.
Proof.
  intros Hroom Hok. unfold base_poll_read. destruct (reads b) as [| [c | | |] rs] eqn:E; cbn in Hok |- *.
  - exists [], None. split; [by destruct b; cbn in *; subst |]. auto.
  - apply andb_prop in Hok as [Hc Hok]. apply negb_true_iff, bool_decide_eq_false in Hc.
    exists (match drop room c with [] => rs | c' => Chunk c' :: rs end), (Some (Ok (take room c))).
    split; [done |]. pose proof (take_drop room c) as Htd.
    assert (Hne : take room c <> []) by (destruct c, room; [done | done | lia | done]).
    destruct (drop room c) as [| d ds] eqn:Ed; cbn.
    + split; [done |]. repeat split; [rewrite app_nil_r in Htd; by rewrite Htd | lengths | done].
    + split; [done |]. repeat split; [rewrite app_comm_cons, app_assoc, Htd; done | lengths | done].
  - exists rs, None. split; [done |]. split; [done |]. split; [done |]. left. lia.
  - exists (Eof :: rs), (Some (Ok [])). split; [by destruct b; cbn in *; subst |].
    cbn. repeat split; try done. lia.
  - done.
Qed.

(** The result of filling the buffer of [s] from [b]. *)
Definition filled (s : ScallopStream) (b : Base) (x : ScallopStream * Base * option (outcome IoError bool)) : Prop :=
  exists buf k rs r, x = (s <| rbuf := buf |> <| pending := k |>, b <| reads := rs |>, r) /\
    length buf = length (rbuf s) /\ (k <= pending s)%nat /\ forallb no_failure rs = true /\
    (waits rs <= waits (reads b))%nat /\
    take (length buf - k) buf ++ arriving rs = take (length buf - pending s) (rbuf s) ++ arriving (reads b) /\
    match r with
    | Some (Ok true) => k = 0%nat
    | Some (Ok false) => (0 < k)%nat /\ at_end rs = true
    | None => (0 < k)%nat /\ (waits rs < waits (reads b) \/ rs = [])%nat
    | _ => False
    end.

Lemma fill_spec n : forall s b, (pending s <= n)%nat -> (pending s <= length (rbuf s))%nat ->
  forallb no_failure (reads b) = true -> filled s b (fill n (s, b)).
Proof.
  assert (Hid : forall s : ScallopStream, s <| rbuf := rbuf s |> <| pending := pending s |> = s) by (by intros []).
  assert (Hib : forall b, b <| reads := reads b |> = b) by (by intros []).
  assert (Hend : forall s b, pending s = 0%nat -> forallb no_failure (reads b) = true -> filled s b (s, b, Some (Ok true))).
  { intros s b ? ?. exists (rbuf s), (pending s), (reads b), (Some (Ok true)). rewrite Hid, Hib. repeat split; auto. }
  induction n as [| n IH]; intros s b Hn Hp Hok; cbn [fill].
  - destruct (Nat.eqb_spec (pending (s, b).1) 0) as [H0 | H0]; cbn in H0; [| lia]. by apply Hend.
  - destruct (Nat.eqb_spec (pending (s, b).1) 0) as [H0 | H0]; cbn in H0; [by apply Hend |].
    cbn [fst]. set (len := length (rbuf s)) in *.
    assert (Hs : slice (rbuf s) (len - pending s) len = Some (drop (len - pending s) (rbuf s))).
    { unfold slice. rewrite decide_True by lia. f_equal. apply take_ge. lengths. }
    rewrite Hs. cbn [unwrap]. erewrite io_bind_Ok by reflexivity. cbv beta iota.
    destruct (base_poll_read_spec (length (drop (len - pending s) (rbuf s))) s b) as (rs & l & Hr & Hok' & Hl);
      [lengths | done |].
    destruct l as [[c | |] |]; [| done | done |].
    + destruct Hl as (Harr & Hc & Hw & He). erewrite io_bind_Ok by exact Hr. cbv beta iota.
      case_bool_decide as Hnil.
      * subst c. exists (rbuf s), (pending s), rs, (Some (Ok false)). rewrite Hid.
        split; [done |]. repeat split; try done; try lia. { by rewrite Harr. } by apply He.
      * erewrite io_bind_Ok by reflexivity. cbn [fst snd].
        rewrite length_drop in Hc.
        set (s1 := s <| rbuf := write_at (rbuf s) (length (rbuf s) - pending s) c |> <| pending := (pending s - length c)%nat |>).
        assert (Hlen1 : length (rbuf s1) = len) by (apply length_write_at; cbn; lia).
        assert (Hc0 : (0 < length c)%nat) by (destruct c; [done | cbn; lia]).
        destruct (IH s1 (b <| reads := rs |>)) as (buf & k & rs' & r & Hf & Hlb & Hk & Hok2 & Hw2 & Harr2 & Hres);
          [cbn; lia | rewrite Hlen1; cbn; lia | done |].
        exists buf, k, rs', r. change (s <| rbuf := write_at (rbuf s) (length (rbuf s) - pending s) c |>
          <| pending := (pending s - length c)%nat |>) with s1. rewrite Hf.
        rewrite Hlen1 in Hlb. cbn in Hk, Hw2, Harr2, Hres.
        split; [done |]. repeat split; try done; try lia.
        -- rewrite Harr2, Harr, Hlb. rewrite app_assoc. f_equal.
           unfold write_at. fold len. rewrite app_assoc.
           assert (Hl : length (take (len - pending s) (rbuf s) ++ c) = (len - pending s + length c)%nat)
             by (lengths).
           rewrite take_app_le by lia. apply take_ge. lia.
        -- destruct r as [[[] | |] |]; try done. destruct Hres as [? [? | ?]]; split; auto. left. lia.
    + destruct Hl as (Harr & Hw). erewrite io_bind_None by exact Hr.
      exists (rbuf s), (pending s), rs, None. rewrite Hid.
      split; [done |]. repeat split; try done; try lia; [| by rewrite Harr |].
      * destruct Hw as [| [-> ->]]; [lia | done].
      * destruct Hw as [| [_ ->]]; auto.
Qed.

(** ** One poll for reading *)

Lemma fill_receiving a s b later todo : receiving a s (arriving (reads b) ++ later) todo ->
  forallb no_failure (reads b) = true ->
  exists s' rs r, fill (pending s) (s, b) = (s', b <| reads := rs |>, r) /\ mode s' = mode s /\
    receiving a s' (arriving rs ++ later) todo /\ forallb no_failure rs = true /\ (waits rs <= waits (reads b))%nat /\
    match r with
    | Some (Ok true) => pending s' = 0%nat
    | Some (Ok false) => (0 < pending s')%nat /\ at_end rs = true
    | None => (0 < pending s')%nat /\ (waits rs < waits (reads b) \/ rs = [])%nat
    | _ => False
    end.
Proof.
  intros Hrec Hok.
  assert (Hp : (pending s <= length (rbuf s))%nat) by (destruct Hrec; lia).
  destruct (fill_spec (pending s) s b (Nat.le_refl _) Hp Hok) as (buf & k & rs & r & Hf & Hl & Hk & Hok' & Hw & Harr & Hr).
  exists (s <| rbuf := buf |> <| pending := k |>), rs, r.
  split; [done |]. split; [done |]. split; [| by repeat split].
  rewrite Hl in Harr.
  destruct Hrec as [ms Hm H2 Hp2 Hs Hw' -> | c p ms Hm H2 Hp2 Hs Hw' -> | rest ms Hm Hp0 Hsl Hs Hw' ->].
  - apply (receiving_length _ _ _ _ ms); cbn; try done; try lia.
    rewrite H2 in Harr. by rewrite app_assoc, Harr, <- app_assoc.
  - apply (receiving_body _ _ _ _ c p ms); cbn; try done; try lia.
    rewrite H2 in Harr. by rewrite app_assoc, Harr, <- app_assoc.
  - assert (k = 0%nat) as -> by lia. rewrite Hp0, Nat.sub_0_r, <- Hl in Harr.
    rewrite firstn_all, Hl, firstn_all in Harr.
    rewrite Hp0 in Hf. cbn in Hf. rewrite Hp0 in Hf. cbn in Hf.
    pose proof (f_equal (fun x => rbuf x.1.1) Hf) as Hbuf. pose proof (f_equal (fun x => reads x.1.2) Hf) as Hreads.
    cbn in Hbuf, Hreads.
    apply (receiving_read _ _ _ _ rest ms); cbn; try done.
    + rewrite <- Hsl. by rewrite <- Hbuf.
    + by rewrite <- Hreads.
Qed.

Lemma wire_cons c p ms : wire ((c, p) :: ms) = be_bytes 2 (Z.of_nat (length c)) ++ c ++ wire ms.
Proof. change (wire ((c, p) :: ms)) with (record c ++ wire ms). unfold record. by rewrite <- app_assoc. Qed.

(** The two bytes at the front of the wire are the length of the next record. *)
Lemma wire_front a n ms hd rest : in_sync a n ms -> hd ++ rest = wire ms -> length hd = 2%nat ->
  exists c p ms', ms = (c, p) :: ms' /\ Z.to_nat (from_be hd) = length c /\ rest = c ++ wire ms'.
Proof using ST.
  intros Hs Hw H2. destruct ms as [| [c p] ms]; [by destruct hd |].
  rewrite wire_cons in Hw. apply app_inj_1 in Hw as [-> ->]; [| by rewrite length_be_bytes].
  exists c, p, ms. split; [done |]. split; [| done].
  apply sync_length in Hs as [_ Hl]. rewrite from_be_be_bytes, Z.mod_small by (change (256 ^ Z.of_nat 2) with 65536; lia).
  by rewrite Nat2Z.id.
Qed.

(** The result of a poll for reading, against the abstract reader. *)
Definition polled (a : TransportState) (cap : nat) (b : Base) (later : bytes) (todo : list bytes)
    (x : ScallopStream * Base * option (outcome IoError bytes)) : Prop :=
  exists s' rs r, x = (s', b <| reads := rs |>, r) /\ forallb no_failure rs = true /\ (waits rs <= waits (reads b))%nat /\
    match r with
    | Some (Ok out) =>
        (out = [] /\ receiving a s' (arriving rs ++ later) todo /\ (0 < pending s')%nat /\ at_end rs = true) \/
        (todo <> [] /\ out = (take_record cap todo).1 /\
         receiving a s' (arriving rs ++ later) (take_record cap todo).2)
    | None => receiving a s' (arriving rs ++ later) todo /\ (0 < pending s')%nat /\
              (waits rs < waits (reads b) \/ rs = [])%nat
    | _ => False
    end.

(** A round: it stops like [polled], or moves on to the next mode. *)
Definition rounded (a : TransportState) (cap : nat) (s : ScallopStream) (b : Base) (later : bytes) (todo : list bytes)
    (x : ScallopStream * Base * option (outcome IoError (option bytes))) : Prop :=
  match x with
  | (s', b', Some (Ok None)) =>
      exists rs, b' = b <| reads := rs |> /\ receiving a s' (arriving rs ++ later) todo /\
        forallb no_failure rs = true /\ (waits rs <= waits (reads b))%nat /\
        match mode s with Length => mode s' = Body | Body => mode s' = Read | Read => False end
  | (s', b', Some (Ok (Some out))) => polled a cap b later todo (s', b', Some (Ok out))
  | (s', b', None) => polled a cap b later todo (s', b', None)
  | _ => False
  end.

Lemma slice_full {A} (l : list A) : slice l 0 (length l) = Some l.
Proof. rewrite <- (app_nil_r l) at 1. by apply slice_prefix. Qed.

Lemma poll_read_round_spec a cap s b later todo : receiving a s (arriving (reads b) ++ later) todo ->
  forallb no_failure (reads b) = true -> rounded a cap s b later todo (poll_read_round cap (s, b)).
Proof using ST.
  intros Hrec Hok. unfold poll_read_round. cbn [fst].
  destruct (fill_receiving a s b later todo Hrec Hok) as (s' & rs & r & Hf & Hm & Hrec' & Hok' & Hw & Hr).
  destruct r as [[[] | |] |]; [| | done | done |].
  - erewrite io_bind_Ok by exact Hf. cbn [negb].
    erewrite io_bind_Ok by reflexivity. cbv beta iota.
    destruct Hrec' as [ms Hmode H2 _ Hs Hwire -> | c p ms Hmode H2 _ Hs Hwire -> | rest ms Hmode _ Hsl Hs Hwire ->];
      rewrite Hmode; cbv iota.
    + rewrite Hr, Nat.sub_0_r, <- H2, firstn_all in Hwire.
      destruct (wire_front _ _ _ _ _ Hs Hwire H2) as (c & p & ms' & -> & Hlen & Hrest).
      assert (slice (rbuf s') 0 2 = Some (rbuf s')) as -> by (rewrite <- H2; apply slice_full).
      cbn. exists rs. split; [done |]. rewrite <- Hm, Hmode. split; [| by repeat split].
      apply (receiving_body _ _ _ _ c p ms'); cbn; try done; rewrite ?length_replicate, ?Hlen; try done.
      by rewrite Nat.sub_diag.
    + rewrite Hr, Nat.sub_0_r, <- H2, firstn_all in Hwire.
      apply app_inj_1 in Hwire as [Hc Hrest]; [| done].
      rewrite Hc. destruct (sync_read a (noise s') c p ms Hs) as (n & Hread & Hs' & _). rewrite Hread by lia.
      cbn. exists rs. split; [done |]. rewrite <- Hm, Hmode. split; [| by repeat split].
      apply (receiving_read _ _ _ _ p ms); cbn; try done.
      unfold write_at. rewrite take_0. cbn [app]. by apply slice_prefix.
    + unfold slice in Hsl. case_decide as Hb; [| done]. injection Hsl as Hrest.
      assert (Hl : length rest = (read_end s' - read_start s')%nat)
        by (rewrite <- Hrest, length_take, length_drop; lia).
      destruct (Nat.ltb_spec cap (read_end s' - read_start s')) as [Hlt | Hge].
      * unfold slice. rewrite decide_True by lia. cbn.
        exists (s' <| read_start := (read_start s' + cap)%nat |>), rs, (Some (Ok (take cap (drop (read_start s') (rbuf s'))))).
        rewrite Nat.add_sub_swap, Nat.sub_diag, Nat.add_0_l by lia.
        split; [done |]. split; [done |]. split; [done |]. right.
        split; [done |]. cbn [take_record]. destruct (Nat.ltb_spec cap (length rest)); [| lia]. cbn [fst snd].
        split. { rewrite <- Hrest, take_take. f_equal. lia. }
        apply (receiving_read _ _ _ _ (drop cap rest) ms); cbn; try done.
        unfold slice. rewrite decide_True by lia. f_equal.
        rewrite <- Hrest, skipn_firstn_comm, drop_drop. f_equal. lia.
      * unfold slice. rewrite decide_True by lia. cbn.
        exists (s' <| rbuf := replicate 2 0 |> <| pending := 2%nat |> <| mode := Length |>), rs, (Some (Ok rest)).
        rewrite Hrest. split; [done |]. split; [done |]. split; [done |]. right.
        split; [done |]. cbn [take_record]. destruct (Nat.ltb_spec cap (length rest)); [lia |]. cbn [fst snd].
        split; [done |].
        by apply (receiving_length _ _ _ _ ms).
  - erewrite io_bind_Ok by exact Hf. cbn. exists s', rs, (Some (Ok [])).
    destruct Hr as [Hp He]. split; [done |]. split; [done |]. split; [done |]. left. auto.
  - erewrite io_bind_None by exact Hf. cbn. exists s', rs, None.
    destruct Hr as [Hp He]. by repeat split.
Qed.

(** A poll terminates within its three rounds and does what the abstract
    reader does, unless the base is pending or at its end. *)
Lemma poll_read_spec a cap s b later todo : receiving a s (arriving (reads b) ++ later) todo ->
  forallb no_failure (reads b) = true -> polled a cap b later todo (poll_read cap (s, b)).
Proof using ST.
  intros Hrec Hok. unfold poll_read.
  assert (Hgen : forall n s b, receiving a s (arriving (reads b) ++ later) todo -> forallb no_failure (reads b) = true ->
    (match mode s with Length => 3 | Body => 2 | Read => 1 end <= n)%nat ->
    polled a cap b later todo (poll_read_loop n cap (s, b))).
  { clear. induction n as [| n IH]; intros s b Hrec Hok Hn; [destruct (mode s); lia |].
    cbn [poll_read_loop]. pose proof (poll_read_round_spec a cap s b later todo Hrec Hok) as Hround.
    destruct (poll_read_round cap (s, b)) as [[s' b'] r] eqn:E.
    destruct r as [[[out |] | |] |]; cbn in Hround; try done.
    - by erewrite io_bind_Ok by exact E.
    - erewrite io_bind_Ok by exact E. cbv beta iota.
      destruct Hround as (rs & -> & Hrec' & Hok' & Hw & Hmode).
      destruct (IH s' (b <| reads := rs |>)) as (s2 & rs2 & r2 & Heq & Hok2 & Hw2 & Hr2); [done | done | |].
      { destruct (mode s), (mode s'); try done; lia. }
      match goal with |- polled _ _ _ _ _ ?x => change x with (poll_read_loop n cap (s', b <| reads := rs |>)) end.
      rewrite Heq. exists s2, rs2, r2. cbn in Hw2, Hr2. split; [done |]. split; [done |]. split; [lia |].
      destruct r2 as [[] |]; try done. destruct Hr2 as (? & ? & [|]); split; auto; split; auto. left. lia.
    - by erewrite io_bind_None by exact E. }
  apply Hgen; [done | done |]. destruct (mode s); lia.
Qed.

(** A sequence of polls for reading, and what they deliver. *)
Fixpoint poll_reads (caps : list nat) (w : ScallopStream * Base) : list (option (outcome IoError bytes)) :=
  match caps with
  | [] => []
  | cap :: caps => let '(w, r) := poll_read cap w in r :: poll_reads caps w
  end.

Definition delivered (rs : list (option (outcome IoError bytes))) : bytes :=
  concat (map (fun r => match r with Some (Ok out) => out | _ => [] end) rs).

(** Bytes are expected, but the base has none: nothing was left to deliver. *)
Lemma nothing_left a s todo : receiving a s [] todo -> (0 < pending s)%nat -> todo = [].
Proof using ST.
  intros [ms Hm H2 Hp Hs Hw -> | c p ms Hm H2 Hp Hs Hw -> | rest ms Hm Hp Hsl Hs Hw ->] Hpos; [| | lia].
  - destruct ms as [| [c p] ms]; [done |]. rewrite wire_cons in Hw. apply (f_equal length) in Hw.
    rewrite !length_app, length_be_bytes, length_take in Hw. simpl in Hw. lia.
  - apply (f_equal length) in Hw. rewrite !length_app, length_take in Hw. simpl in Hw.
    apply sync_length in Hs as [? _]. lia.
Qed.

Lemma take_record_concat cap todo : concat todo = (take_record cap todo).1 ++ concat (take_record cap todo).2.
Proof.
  destruct todo as [| p todo]; [done |]. cbn [take_record concat].
  destruct (cap <? length p)%nat; cbn [fst snd concat]; [| done]. by rewrite app_assoc, take_drop.
Qed.

(** The polls a reader may need for [todo]. *)
Definition todo_size (todo : list bytes) : nat := (length (concat todo) + length todo)%nat.

Lemma take_record_progress cap todo : (0 < cap)%nat -> todo <> [] ->
  (todo_size (take_record cap todo).2 < todo_size todo)%nat.
Proof.
  intros Hc Hne. destruct todo as [| p todo]; [done |]. unfold todo_size. cbn [take_record].
  destruct (Nat.ltb_spec cap (length p)); cbn [snd concat length]; rewrite !length_app, ?length_drop; simpl; lia.
Qed.

(** Whatever has arrived is delivered in order; if all of it arrives, enough
    polls deliver all of it. *)
Lemma poll_reads_spec a later caps : forall s b todo, receiving a s (arriving (reads b) ++ later) todo ->
  forallb no_failure (reads b) = true -> Forall (fun cap => 0 < cap)%nat caps ->
  Forall (fun r => r = None \/ exists out, r = Some (Ok out)) (poll_reads caps (s, b)) /\
  exists rest, concat todo = delivered (poll_reads caps (s, b)) ++ rest /\
    (later = [] -> (waits (reads b) + todo_size todo <= length caps)%nat -> rest = []).
Proof using ST.
  induction caps as [| cap caps IH]; intros s b todo Hrec Hok Hcaps.
  { split; [constructor |]. exists (concat todo). split; [done |]. unfold todo_size. simpl.
    destruct (concat todo); simpl; [done | lia]. }
  apply Forall_cons in Hcaps as [Hcap Hcaps]. cbn [poll_reads].
  destruct (poll_read_spec a cap s b later todo Hrec Hok) as (s' & rs & r & -> & Hok' & Hw & Hr).
  destruct r as [[out | |] |]; [| done | done |].
  - destruct Hr as [(-> & Hrec' & Hp & He) | (Hnil & -> & Hrec')].
    + destruct (IH s' (b <| reads := rs |>) todo) as [Hall (rest & Hd & _)]; [exact Hrec' | done .. |].
      split; [apply Forall_cons; eauto |]. exists rest. split; [done |]. intros -> _.
      assert (arriving rs = []) as Harr by (by destruct rs as [| [] ]).
      assert (todo = []) as -> by (rewrite Harr in Hrec'; by eapply nothing_left).
      symmetry in Hd. by apply app_eq_nil in Hd as [_ ->].
    + pose proof (take_record_progress cap todo Hcap Hnil) as Hsize.
      destruct (IH s' (b <| reads := rs |>) (take_record cap todo).2) as [Hall (rest & Hd & Hend)]; [exact Hrec' | done .. |].
      split; [apply Forall_cons; eauto |]. exists rest.
      pose proof (take_record_concat cap todo) as Hcat. split.
      * unfold delivered. cbn [map concat]. rewrite <- app_assoc. unfold delivered in Hd. by rewrite <- Hd.
      * intros Hlater Hlen. apply Hend; [done |]. simpl in Hlen. change (reads (b <| reads := rs |>)) with rs. lia.
  - destruct Hr as (Hrec' & Hp & Hwait).
    destruct (IH s' (b <| reads := rs |>) todo) as [Hall (rest & Hd & Hend)]; [exact Hrec' | done .. |].
    split; [apply Forall_cons; eauto |]. exists rest. split; [done |]. intros Hlater Hlen.
    destruct Hwait as [Hlt | ->].
    + apply Hend; [done |]. simpl in Hlen. change (reads (b <| reads := rs |>)) with rs. lia.
    + subst later. assert (todo = []) as -> by (by eapply nothing_left).
      symmetry in Hd. by apply app_eq_nil in Hd as [_ ->].
Qed.

(** ** The sending side *)

Definition unsent (s : ScallopStream) : bytes := take (write_end s - write_start s) (drop (write_start s) (wbuf s)).

(** [s] has encrypted [ms] for [peer]; they are on the wire but for the end of
    the last one. *)
Record sending (peer : TransportState) (s : ScallopStream) (b : Base) (ms : list (bytes * bytes)) : Prop := mkSending {
  sending_sync : in_sync (noise s) peer ms;
  sending_bounds : (write_start s <= write_end s <= length (wbuf s))%nat;
  sending_wire : sent b ++ unsent s = wire ms;
}.

(** A call leaves the messages as they are. *)
Definition keeps {A} (peer : TransportState) (w : ScallopStream * Base) (ms : list (bytes * bytes))
    (x : ScallopStream * Base * option (outcome IoError A)) : Prop :=
  sending peer x.1.1 x.1.2 ms /\ noise x.1.1 = noise w.1 /\ x.2 <> Some Panic /\
  (forall a, x.2 = Some (Ok a) -> unsent x.1.1 = []).

Lemma drain_spec peer ms n : forall s b, sending peer s b ms -> (length (writes b) < n)%nat ->
  keeps peer (s, b) ms (drain n (s, b)).
Proof using ST.
  induction n as [| n IH]; intros s b Hsend Hn; [lia |]. cbn [drain].
  destruct Hsend as [Hs Hb Hw].
  destruct (Nat.eqb_spec (write_start (s, b).1) (write_end (s, b).1)) as [He | He]; cbn [fst] in He.
  { split; [done |]. split; [done |]. split; [done |]. intros _ _. cbn. unfold unsent. by rewrite He, Nat.sub_diag. }
  cbn [fst]. unfold slice. rewrite decide_True by lia. fold (unsent s). cbn [unwrap].
  erewrite io_bind_Ok by reflexivity. cbv beta iota.
  assert (Hkeep : forall b' r, sent b' = sent b -> r <> Some Panic -> (forall a, r <> Some (Ok a)) ->
    keeps peer (s, b) ms (s, b', r : option (outcome IoError ()))).
  { intros b' r Hb' Hr Hr'. repeat split; cbn; try done; try lia. - by rewrite Hb'. - intros a Ha. by destruct (Hr' a). }
  destruct (writes b) as [| [k | |] ws] eqn:Ew.
  - erewrite io_bind_None by (cbn; rewrite Ew; done). by apply Hkeep.
  - erewrite io_bind_Ok by (cbn; rewrite Ew; done). erewrite io_bind_Ok by reflexivity. cbn [fst snd].
    set (s1 := s <| write_start := (write_start s + length (take k (unsent s)))%nat |>).
    set (b1 := b <| writes := ws |> <| sent := sent b ++ take k (unsent s) |>).
    assert (Hlen : length (unsent s) = (write_end s - write_start s)%nat)
      by (unfold unsent; lengths).
    assert (Hs1 : sending peer s1 b1 ms).
    { assert (Hk : length (take k (unsent s)) = Nat.min k (write_end s - write_start s)) by (by rewrite length_take, Hlen).
      assert (Hd : unsent s1 = drop k (unsent s)).
      { unfold unsent at 1. unfold s1. cbn. rewrite Hk. unfold unsent. rewrite skipn_firstn_comm, drop_drop.
        destruct (Nat.le_gt_cases k (write_end s - write_start s)) as [Hle | Hgt].
        - rewrite Nat.min_l by lia. f_equal. lia.
        - rewrite Nat.min_r by lia. replace (write_end s - write_start s - k)%nat with 0%nat by lia.
          by replace (write_end s - (write_start s + (write_end s - write_start s)))%nat with 0%nat by lia. }
      split; [done | unfold s1; cbn; rewrite Hk; lia |].
      assert (Hb1 : sent b1 = sent b ++ take k (unsent s)) by done. rewrite Hd, Hb1, <- app_assoc, take_drop. exact Hw. }
    destruct (IH s1 b1 Hs1) as (H1 & H2 & H3 & H4); [cbn; simpl in Hn; lia |]. exact (conj H1 (conj H2 (conj H3 H4))).
  - erewrite io_bind_None by (cbn; rewrite Ew; done). by apply Hkeep.
  - erewrite io_bind_Err by (cbn; rewrite Ew; done). by apply Hkeep.
Qed.

Lemma poll_flush_spec peer ms s b : sending peer s b ms -> keeps peer (s, b) ms (poll_flush (s, b)).
Proof using ST.
  intros Hsend. unfold poll_flush. cbn [snd].
  destruct (drain_spec peer ms (S (length (writes b))) s b Hsend) as (H1 & H2 & H3 & H4); [lia |].
  destruct (drain _ (s, b)) as [[s' b'] [[[] | e |] |]] eqn:E; cbn in H1, H2, H3, H4; [| | done |].
  - erewrite io_bind_Ok by exact E. specialize (H4 tt eq_refl). unfold base_poll_flush.
    destruct H1 as [Hs Hb Hw]. destruct (flushes b') as [| [] fs]; (split; [by split | by repeat split]).
  - erewrite io_bind_Err by exact E. by split.
  - erewrite io_bind_None by exact E. by split.
Qed.

Lemma wire_snoc ms c p : wire (ms ++ [(c, p)]) = wire ms ++ record c.
Proof. unfold wire. rewrite map_app, concat_app. cbn [map concat]. by rewrite app_nil_r. Qed.

(** The buffer holding a length and a message. *)
Lemma framed buf m : (length m + 2 <= length buf)%nat ->
  take (length m + 2) (write_at (write_at buf 2 m) 0 (be_bytes 2 (Z.of_nat (length m)))) = record m.
Proof.
  intros Hl. unfold write_at at 1. rewrite take_0. cbn [app]. rewrite length_be_bytes.
  unfold write_at. rewrite drop_app_length' by (lengths).
  rewrite app_assoc. apply take_app_length'. unfold record. lengths.
Qed.

Lemma length_framed buf m : (length m + 2 <= length buf)%nat ->
  length (write_at (write_at buf 2 m) 0 (be_bytes 2 (Z.of_nat (length m)))) = length buf.
Proof.
  intros Hl. assert (length (write_at buf 2 m) = length buf) as H2 by (apply length_write_at; lia).
  rewrite length_write_at; [done |]. rewrite length_be_bytes, H2. lia.
Qed.

Lemma poll_write_spec peer ms s b buf : sending peer s b ms -> sending_nonce (noise s) < u64_MAX ->
  match poll_write buf (s, b) with
  | (s', b', Some (Ok n)) =>
      n = Nat.min (length buf) MAX_WRITE /\ sending_nonce (noise s') = sending_nonce (noise s) + 1 /\
      exists c, sending peer s' b' (ms ++ [(c, take n buf)])
  | (_, _, Some Panic) => False
  | (s', b', _) => sending peer s' b' ms /\ noise s' = noise s
  end.
Proof using ST.
  intros Hsend Hn. unfold poll_write.
  destruct (poll_flush_spec peer ms s b Hsend) as (H1 & H2 & H3 & H4).
  destruct (poll_flush (s, b)) as [[s1 b1] [[[] | e |] |]] eqn:E; cbn in H1, H2, H3, H4; [| | done |].
  2: { by erewrite io_bind_Err by exact E. }
  2: { by erewrite io_bind_None by exact E. }
  erewrite io_bind_Ok by exact E. cbv zeta. specialize (H4 tt eq_refl).
  set (len := Nat.min (length buf) MAX_WRITE). assert (Hlen : (len <= length buf)%nat) by (unfold len; lia).
  assert (Hlen' : Z.of_nat len <= 64000) by (unfold len, MAX_WRITE; lia). clearbody len.
  unfold slice. rewrite decide_True by lia. rewrite Nat.sub_0_r, drop_0. cbn [unwrap].
  erewrite io_bind_Ok by reflexivity. erewrite io_bind_Ok by reflexivity. cbv beta iota.
  rewrite length_replicate. destruct H1 as [Hs Hb Hw]. cbn [fst snd] in H2.
  destruct (sync_write (noise s1) peer ms (take len buf)) as (n & c & Hwr & Hc & Hn' & Hs' & _);
    [done | by rewrite H2 | lengths |]. rewrite Hwr by (lengths).
  rewrite length_take, Nat.min_l in Hc by lia.
  erewrite io_bind_Ok by reflexivity. cbv beta iota. erewrite io_bind_Ok by reflexivity. cbn -[be_bytes write_at replicate].
  split; [done |]. split; [by rewrite Hn', H2 |]. exists c.
  assert (Hbuf : (length c + 2 <= length (replicate (len + 1000) 0%Z))%nat) by (rewrite length_replicate; lia).
  split; cbn [noise write_start write_end wbuf]; [done | |].
  - rewrite length_framed by done. lia.
  - unfold unsent. cbn [write_start write_end wbuf]. rewrite Nat.sub_0_r, drop_0, framed by done.
    rewrite wire_snoc, <- Hw, H4. by rewrite app_nil_r.
Qed.

(** ** A writer and its reader *)

(** A call of the writer and the record it makes the stream accept. *)
Definition write_step (op : write_op) (w : ScallopStream * Base) : ScallopStream * Base * list bytes :=
  match op with
  | PollWrite buf =>
      let '(w, r) := poll_write buf w in (w, match r with Some (Ok n) => [take n buf] | _ => [] end)
  | PollFlush => ((poll_flush w).1, [])
  | PollShutdown => ((poll_shutdown w).1, [])
  end.

Fixpoint write_steps (ops : list write_op) (w : ScallopStream * Base) : ScallopStream * Base * list bytes :=
  match ops with
  | [] => (w, [])
  | op :: ops =>
      let '(w, acc) := write_step op w in
      let '(w, accs) := write_steps ops w in (w, acc ++ accs)
  end.

Lemma poll_shutdown_spec peer ms s b : sending peer s b ms ->
  sending peer (poll_shutdown (s, b)).1.1 (poll_shutdown (s, b)).1.2 ms /\ noise (poll_shutdown (s, b)).1.1 = noise s.
Proof using ST.
  intros Hsend. unfold poll_shutdown.
  destruct (poll_flush_spec peer ms s b Hsend) as (H1 & H2 & H3 & H4).
  destruct (poll_flush (s, b)) as [[s' b'] [[[] | e |] |]] eqn:E; cbn in H1, H2, H3, H4; [| | done |].
  - erewrite io_bind_Ok by exact E. unfold base_poll_shutdown, base_poll_flush.
    destruct H1 as [Hs Hb Hw]. destruct (flushes b') as [| [] fs] eqn:Ef.
    + erewrite io_bind_Ok by (cbn; rewrite Ef; done). (split; [by split | done]).
    + erewrite io_bind_Ok by (cbn; rewrite Ef; done). (split; [by split | done]).
    + erewrite io_bind_None by (cbn; rewrite Ef; done). (split; [by split | done]).
    + erewrite io_bind_Err by (cbn; rewrite Ef; done). (split; [by split | done]).
  - erewrite io_bind_Err by exact E. by split.
  - erewrite io_bind_None by exact E. by split.
Qed.

Lemma write_steps_spec peer ops : forall s b ms, sending peer s b ms ->
  sending_nonce (noise s) + Z.of_nat (length ops) <= u64_MAX ->
  let '(s', b', acc) := write_steps ops (s, b) in
  exists ms', sending peer s' b' (ms ++ ms') /\ map snd ms' = acc.
Proof using ST.
  induction ops as [| op ops IH]; intros s b ms Hsend Hn; cbn [write_steps].
  { exists []. by rewrite app_nil_r. }
  cbn [length] in Hn. rewrite Nat2Z.inj_succ in Hn.
  assert (Hkeep : forall s1 b1, sending peer s1 b1 ms -> noise s1 = noise s ->
    let '(s', b', acc) := (let '(w, accs) := write_steps ops (s1, b1) in (w, [] ++ accs)) in
    exists ms', sending peer s' b' (ms ++ ms') /\ map snd ms' = acc).
  { intros s1 b1 H1 H2. specialize (IH s1 b1 ms H1). rewrite H2 in IH. specialize (IH ltac:(lia)).
    by destruct (write_steps ops (s1, b1)) as [[] ?]. }
  destruct op as [buf | |]; cbn [write_step].
  - pose proof (poll_write_spec peer ms s b buf Hsend ltac:(lia)) as Hw.
    destruct (poll_write buf (s, b)) as [[s1 b1] [[n | e |] |]]; [| | done |].
    + destruct Hw as (_ & Hn' & c & H1). specialize (IH s1 b1 _ H1 ltac:(lia)).
      destruct (write_steps ops (s1, b1)) as [[s2 b2] accs]. destruct IH as (ms' & H2 & <-).
      exists ((c, take n buf) :: ms'). by rewrite <- app_assoc in H2.
    + destruct Hw. by apply Hkeep.
    + destruct Hw. by apply Hkeep.
  - destruct (poll_flush_spec peer ms s b Hsend) as (H1 & H2 & _).
    destruct (poll_flush (s, b)) as [[s1 b1] r]. by apply Hkeep.
  - destruct (poll_shutdown_spec peer ms s b Hsend) as (H1 & H2).
    destruct (poll_shutdown (s, b)) as [[s1 b1] r]. by apply Hkeep.
Qed.

(** A new stream receives whatever its peer puts on the wire. *)
Lemma receiving_new a n ms inflight : in_sync a n ms -> inflight = wire ms -> receiving a (new_stream n) inflight (map snd ms).
Proof. intros Hs ->. by apply (receiving_length _ _ _ _ ms). Qed.

End stream.
