(* ===== verification/ScallopHandshake.v ===== *)
(** * Scallop: running the handshake

    The environments a handshake is run in: an arbitrary one ([yields]), a
    peer that has sent some bytes ([advance]), and the two sides connected by
    a duplex stream in every interleaving ([duplex_step]); the contract of an
    IX handshake; and the messages the two sides exchange. *)

From S2P Require Import Prelude Io Scallop ScallopStream.

(** ** Two sides over a duplex stream *)

Section trees.
Context {R : Type}.

(** [yields p r]: in some environment, [p] ends with [r]. *)
Inductive yields : proto R -> R -> Prop :=
| yields_done r : yields (Done r) r
| yields_read n eof k b r : length b = n -> yields (k b) r -> yields (ReadExact n eof k) r
| yields_eof n eof k : yields (ReadExact n eof k) eof
| yields_write b failed k r : yields k r -> yields (WriteAll b failed k) r
| yields_failed b failed k : yields (WriteAll b failed k) failed.

(** [advance p i o p']: having read [i] and written [o], [p] is at [p']. *)
Inductive advance : proto R -> bytes -> bytes -> proto R -> Prop :=
| advance_refl p : advance p [] [] p
| advance_read n eof k b i o p' : length b = n -> advance (k b) i o p' -> advance (ReadExact n eof k) (b ++ i) o p'
| advance_write b failed k i o p' : advance k i o p' -> advance (WriteAll b failed k) i (b ++ o) p'.

Lemma advance_trans p p' p'' i i' o o' : advance p i o p' -> advance p' i' o' p'' -> advance p (i ++ i') (o ++ o') p''.
Proof.
  induction 1 as [p | n eof k b i o p' Hb _ IH | b failed k i o p' _ IH]; intros H2; [done | |].
  - rewrite <- app_assoc. by apply advance_read, IH.
  - rewrite <- app_assoc. by apply advance_write, IH.
Qed.

Lemma advance_write_last b failed k : advance (WriteAll b failed k) [] b k.
Proof. rewrite <- (app_nil_r b) at 2. apply advance_write, advance_refl. Qed.

Lemma advance_read_last n eof k b : length b = n -> advance (ReadExact n eof k) b [] (k b).
Proof. intros H. rewrite <- (app_nil_r b) at 1. apply advance_read; [done | apply advance_refl]. Qed.

End trees.

Record duplex (R1 R2 : Type) := mkDuplex { client : proto R1; server : proto R2; up : bytes; down : bytes }.
Arguments mkDuplex {R1 R2} client server up down.
Arguments client {R1 R2} d.
Arguments server {R1 R2} d.
Arguments up {R1 R2} d.
Arguments down {R1 R2} d.

Inductive duplex_step {R1 R2} : relation (duplex R1 R2) :=
| client_writes b e k sv u d : duplex_step (mkDuplex (WriteAll b e k) sv u d) (mkDuplex k sv (u ++ b) d)
| client_reads n e k sv u b d : length b = n -> duplex_step (mkDuplex (ReadExact n e k) sv u (b ++ d)) (mkDuplex (k b) sv u d)
| server_writes b e k cl u d : duplex_step (mkDuplex cl (WriteAll b e k) u d) (mkDuplex cl k u (d ++ b))
| server_reads n e k cl u b d : length b = n -> duplex_step (mkDuplex cl (ReadExact n e k) (b ++ u) d) (mkDuplex cl (k b) u d).

(** [x] ends in [t], whatever the interleaving and after a bounded number of
    steps. *)
Definition inevitable {A} (step : relation A) (x t : A) : Prop :=
  nf step t /\ exists n, forall k y, nsteps step k x y -> (k <= n)%nat /\ rtc step y t.

Section confluence.
Context {A : Type} (step : relation A).
Hypothesis diamond : forall x y z, step x y -> step x z -> y = z \/ exists w, step y w /\ step z w.

Lemma nsteps_strip t n : forall x, nsteps step n x t -> nf step t ->
  forall y, step x y -> exists m, n = S m /\ nsteps step m y t.
Proof using diamond.
  induction n as [| n IH]; intros x Hx Hnf y Hy; inversion Hx as [| ? ? x1 ? Hx1 Hn]; subst.
  - destruct Hnf. by exists y.
  - exists n. split; [done |].
    destruct (diamond _ _ _ Hx1 Hy) as [-> | (w & H1 & H2)]; [done |].
    destruct (IH x1 Hn Hnf w H1) as (m & -> & Hm). by eapply nsteps_l.
Qed.

(** One execution that stops decides all of them. *)
Lemma inevitable_intro x t : rtc step x t -> nf step t -> inevitable step x t.
Proof using diamond.
  intros [n Hn]%rtc_nsteps_1 Hnf. split; [done |]. exists n. intros k. revert x n Hn.
  induction k as [| k IH]; intros x n Hn y Hy; inversion Hy as [| ? ? x1 ? Hx1 Hk]; subst.
  - split; [lia |]. by eapply rtc_nsteps_2.
  - destruct (nsteps_strip t n x Hn Hnf x1 Hx1) as (m & -> & Hm).
    destruct (IH x1 m Hm y Hk). split; [lia | done].
Qed.

End confluence.

Lemma duplex_diamond {R1 R2} (x y z : duplex R1 R2) : duplex_step x y -> duplex_step x z ->
  y = z \/ exists w, duplex_step y w /\ duplex_step z w.
Proof.
  intros Hy Hz. destruct Hy; inversion Hz; subst; auto.
  all: try (match goal with H : ?b ++ ?d = ?b' ++ ?d' |- _ => apply app_inj_1 in H as [-> ->]; [by left | congruence] end).
  all: right; eexists; split; rewrite <- ?app_assoc; try (by constructor).
  all: rewrite ?app_assoc; by constructor.
Qed.

Lemma client_advances {R1 R2} (c c' : proto R1) (s : proto R2) i o u d :
  advance c i o c' -> rtc duplex_step (mkDuplex c s u (i ++ d)) (mkDuplex c' s (u ++ o) d).
Proof.
  intros H. revert u d. induction H as [p | n eof k b i o p' Hb _ IH | b failed k i o p' _ IH]; intros u d.
  - rewrite app_nil_r. constructor.
  - rewrite <- app_assoc. eapply rtc_l; [by constructor | apply IH].
  - eapply rtc_l; [constructor |]. rewrite app_assoc. apply IH.
Qed.

Lemma server_advances {R1 R2} (c : proto R1) (s s' : proto R2) i o u d :
  advance s i o s' -> rtc duplex_step (mkDuplex c s (i ++ u) d) (mkDuplex c s' u (d ++ o)).
Proof.
  intros H. revert u d. induction H as [p | n eof k b i o p' Hb _ IH | b failed k i o p' _ IH]; intros u d.
  - rewrite app_nil_r. constructor.
  - rewrite <- app_assoc. eapply rtc_l; [by constructor | apply IH].
  - eapply rtc_l; [constructor |]. rewrite app_assoc. apply IH.
Qed.

(** ** The contract of the handshake *)

(** An IX handshake between two honest parties over the same prologue; sizes
    are those of X25519 keys and ChaChaPoly tags. *)
Class SnowHandshake `{ST : SnowTransport} := {
  public_of : bytes -> bytes;
  length_public_of key : length (public_of key) = 32%nat;
  ix_handshake seed_c seed_s key_c key_s pro payload : Z.of_nat (length payload) <= 900 ->
    exists i0 i1 i2 r0 r1 r2 m1 m2 tc ts,
      build_initiator seed_c key_c pro = Some i0 /\ build_responder seed_s key_s pro = Some r0 /\
      (forall room, (64 <= room)%nat -> write_message i0 [] room = (i1, Some m1)) /\ length m1 = 64%nat /\
      (forall room, (64 <= room)%nat -> read_message r0 m1 room = (r1, Some [])) /\
      hs_remote_static r1 = Some (public_of key_c) /\
      (forall room, (96 + length payload <= room)%nat -> write_message r1 payload room = (r2, Some m2)) /\
      length m2 = (96 + length payload)%nat /\
      (forall room, (96 + length payload <= room)%nat -> read_message i1 m2 room = (i2, Some payload)) /\
      hs_remote_static i2 = Some (public_of key_s) /\
      into_transport_mode i2 = Some tc /\ into_transport_mode r2 = Some ts /\
      in_sync tc ts [] /\ in_sync ts tc [] /\ sending_nonce tc = 0 /\ sending_nonce ts = 0;
}.

(** The remote key is that of the handshake for the whole session. *)
Class SnowIdentity `{Sn : Snow} := {
  hs_write_remote_static (h : HandshakeState) p room :
    hs_remote_static (write_message h p room).1 = hs_remote_static h;
  into_remote_static h t : into_transport_mode h = Some t -> ts_remote_static t = hs_remote_static h;
  read_remote_static (t : TransportState) m room : ts_remote_static (read_message t m room).1 = ts_remote_static t;
  write_remote_static (t : TransportState) p room : ts_remote_static (write_message t p room).1 = ts_remote_static t;
}.

(** ** Messages *)

(** The plaintexts of CLIENTFIN and SERVERFIN. *)
Definition CLIENTFIN (ask : bool) (payload : bytes) : bytes :=
  (if negb ask then 0 else 1) :: be_bytes 2 (Z.of_nat (length payload)) ++ payload.
Definition SERVERFIN (payload : bytes) : bytes := be_bytes 2 (Z.of_nat (length payload)) ++ payload.

Lemma write_at_0 buf l : write_at buf 0 l = l ++ drop (length l) buf.
Proof. unfold write_at. by rewrite take_0. Qed.

Lemma take_write_at buf off l : (off <= length buf)%nat -> take (off + length l) (write_at buf off l) = take off buf ++ l.
Proof.
  intros H. unfold write_at. rewrite app_assoc. apply take_app_length'. lengths.
Qed.

Lemma slice_write_at_0 buf l a : (a <= length l)%nat -> slice (write_at buf 0 l) a (length l) = Some (drop a l).
Proof.
  intros H. rewrite write_at_0. unfold slice. rewrite decide_True by (lengths). f_equal.
  rewrite drop_app_le by done. apply take_app_length'. by rewrite length_drop.
Qed.

Lemma length_CLIENTFIN ask payload : length (CLIENTFIN ask payload) = (3 + length payload)%nat.
Proof. unfold CLIENTFIN. cbn [length]. by rewrite length_app, length_be_bytes. Qed.

Lemma length_SERVERFIN payload : length (SERVERFIN payload) = (2 + length payload)%nat.
Proof. unfold SERVERFIN. by rewrite length_app, length_be_bytes. Qed.

(** What the sides assemble in their buffers. *)
Lemma CLIENTFIN_assembled buf ask payload : (3 + length payload <= length buf)%nat ->
  let b1 := write_at buf 0 [if negb ask then 0 else 1] in
  let b2 := write_at b1 1 (be_bytes 2 (Z.of_nat (length payload))) in
  (exists room, slice b2 3 (3 + length payload) = Some room) /\
  slice (write_at b2 3 payload) 0 (length payload + 3) = Some (CLIENTFIN ask payload).
Proof.
  intros H b1 b2. assert (Hl1 : length b1 = length buf) by (apply length_write_at; cbn; lia).
  assert (Hl2 : length b2 = length buf)
    by (unfold b2; rewrite length_write_at; [done | lengths]).
  split; [unfold slice; rewrite decide_True by lia; eauto |]. unfold slice.
  rewrite decide_True by (rewrite length_write_at; lia). f_equal.
  rewrite drop_0, Nat.sub_0_r, Nat.add_comm, take_write_at by lia.
  unfold CLIENTFIN. rewrite app_comm_cons. f_equal.
Qed.

Lemma SERVERFIN_assembled buf payload : (2 + length payload <= length buf)%nat ->
  slice (write_at (write_at buf 0 (be_bytes 2 (Z.of_nat (length payload)))) 2 payload) 0 (length payload + 2) =
    Some (SERVERFIN payload).
Proof.
  intros H. assert (Hl : length (write_at buf 0 (be_bytes 2 (Z.of_nat (length payload)))) = length buf)
    by (apply length_write_at; lengths).
  unfold slice. rewrite decide_True by (rewrite length_write_at; lia). f_equal.
  rewrite drop_0, Nat.sub_0_r, Nat.add_comm, take_write_at by lia. done.
Qed.

(** What the other side reads of them. *)
Lemma from_be_u16 (n : nat) : Z.of_nat n < 65536 -> from_be (be_bytes 2 (Z.of_nat n)) = Z.of_nat n.
Proof. intros H. rewrite from_be_be_bytes, Z.mod_small; [done |]. change (256 ^ Z.of_nat 2) with 65536. lia. Qed.

Lemma parse_SERVERFIN buf payload : Z.of_nat (length payload) < 65536 ->
  from_be (take 2 (write_at buf 0 (SERVERFIN payload))) = Z.of_nat (length payload) /\
  slice (write_at buf 0 (SERVERFIN payload)) 2 (length (SERVERFIN payload)) = Some payload.
Proof.
  intros H. split.
  - rewrite write_at_0. unfold SERVERFIN. rewrite <- app_assoc, take_app_length' by done. by apply from_be_u16.
  - rewrite slice_write_at_0 by (rewrite length_SERVERFIN; lia). done.
Qed.

Lemma parse_CLIENTFIN buf ask payload : Z.of_nat (length payload) < 65536 ->
  from_be (take 2 (drop 1 (write_at buf 0 (CLIENTFIN ask payload)))) = Z.of_nat (length payload) /\
  slice (write_at buf 0 (CLIENTFIN ask payload)) 3 (length (CLIENTFIN ask payload)) = Some payload /\
  write_at buf 0 (CLIENTFIN ask payload) !! 0%nat = Some (if negb ask then 0 else 1).
Proof.
  intros H. split; [| split].
  - rewrite write_at_0. unfold CLIENTFIN. rewrite <- app_comm_cons. cbn [skipn]. rewrite drop_0, <- app_assoc, take_app_length' by done.
    by apply from_be_u16.
  - rewrite slice_write_at_0 by (rewrite length_CLIENTFIN; lia). done.
  - by rewrite write_at_0.
Qed.

(** ** Running a handshake function *)

Lemma advance_proto_bind {R R'} (p p' : proto R) i o (f : R -> proto R') stop :
  advance p i o p' -> advance (proto_bind p f stop) i o (proto_bind p' f stop).
Proof. induction 1; cbn [proto_bind]; by constructor. Qed.

(** A call that returns, then the rest of the function. *)
Lemma advance_call {S A B} (m : hs S A) (f : A -> hs S B) s s' a i o :
  advance (m s) i o (Done (s', Ok a)) -> advance ((m ≫= f) s) i o (f a s').
Proof. intros H. exact (advance_proto_bind _ _ _ _ _ _ H). Qed.

Lemma advance_panic {S A B} (m : hs S A) (f : A -> hs S B) s s' i o :
  advance (m s) i o (Done (s', Panic)) -> advance ((m ≫= f) s) i o (Done (s', Panic)).
Proof. intros H. exact (advance_proto_bind _ _ _ _ _ _ H). Qed.

Lemma advance_seq {S A B} (m : hs S A) (f : A -> hs S B) s s' a i i' o o' p :
  advance (m s) i o (Done (s', Ok a)) -> advance (f a s') i' o' p -> advance ((m ≫= f) s) (i ++ i') (o ++ o') p.
Proof. intros H. apply advance_trans. by apply advance_call. Qed.

(** A step that touches no stream. *)
Lemma advance_local {S A B} (m : hs S A) (f : A -> hs S B) s s' a i o p :
  m s = Done (s', Ok a) -> advance (f a s') i o p -> advance ((m ≫= f) s) i o p.
Proof. intros H Hf. apply (advance_seq m f s s' a [] i [] o); [rewrite H; constructor | done]. Qed.

(** A step that only reads; the last one of an exchange to do so. *)
Lemma advance_in {S A B} (m : hs S A) (f : A -> hs S B) s s' a i i' o p :
  advance (m s) i [] (Done (s', Ok a)) -> advance (f a s') i' o p -> advance ((m ≫= f) s) (i ++ i') o p.
Proof. intros H Hf. exact (advance_seq m f s s' a i i' [] o p H Hf). Qed.

Lemma advance_in_last {S A B} (m : hs S A) (f : A -> hs S B) s s' a i o p :
  advance (m s) i [] (Done (s', Ok a)) -> advance (f a s') [] o p -> advance ((m ≫= f) s) i o p.
Proof. intros H Hf. rewrite <- (app_nil_r i). by eapply advance_in. Qed.

Section messages.
Context `{Sn : Snow} {T : Type} `{AS : ScallopAuthStore T}.

Lemma advance_hs_read_exact (s : option T) n b : length b = n -> advance (hs_read_exact n s) b [] (Done (s, Ok b)).
Proof. intros H. exact (advance_read_last n (s, Err TransportError) (fun b => Done (s, Ok b)) b H). Qed.

Lemma advance_read_u16 (s : option T) z : 0 <= z < 65536 -> advance (read_u16 s) (be_bytes 2 z) [] (Done (s, Ok z)).
Proof.
  intros Hz. rewrite <- (app_nil_r (be_bytes 2 z)), <- (app_nil_r []).
  eapply advance_seq; [by apply advance_hs_read_exact |].
  rewrite from_be_be_bytes, Z.mod_small by done. constructor.
Qed.

Section noiser.
Context {N : Type} `{Nr : Noiser N}.

Lemma advance_noise_write (s : option T) noise src dst off n m :
  (off + 2 + length m <= length dst)%nat -> write_message noise src (length dst - (off + 2)) = (n, Some m) ->
  exists dst', length dst' = length dst /\
    advance (noise_write noise src dst off s) [] (take off dst ++ record m) (Done (s, Ok (n, dst'))).
Proof.
  intros Hroom Hw. set (dst' := write_at (write_at dst (off + 2) m) off (be_bytes 2 (Z.of_nat (length m)))).
  assert (Hl1 : length (write_at dst (off + 2) m) = length dst) by (apply length_write_at; lia).
  assert (Hl2 : length dst' = length dst)
    by (unfold dst'; rewrite length_write_at; [done | lengths]).
  exists dst'. split; [done |].
  assert (Hframe : take (off + length m + 2) dst' = take off dst ++ record m).
  { assert (Ht : take off (write_at dst (off + 2) m) = take off dst).
    { unfold write_at. rewrite take_app_le by (lengths). rewrite take_take. f_equal. lia. }
    assert (Hd : drop (off + 2) (write_at dst (off + 2) m) = m ++ drop (off + 2 + length m) dst)
      by (apply drop_app_length'; lengths).
    unfold dst', record. unfold write_at at 1. rewrite length_be_bytes, Ht, Hd, !app_assoc.
    apply take_app_length'. lengths. }
  assert (Hs1 : slice dst (off + 2) (length dst) = Some (drop (off + 2) dst)).
  { unfold slice. rewrite decide_True by lia. f_equal. apply take_ge. lengths. }
  assert (Hs2 : slice dst' 0 (off + length m + 2) = Some (take off dst ++ record m)).
  { unfold slice. rewrite decide_True by lia. by rewrite drop_0, Nat.sub_0_r, Hframe. }
  unfold noise_write, mbind, hs_bind, hs_lift. rewrite Hs1. cbn -[be_bytes write_at slice].
  rewrite length_drop, Hw. cbn -[be_bytes write_at slice]. fold dst'. rewrite Hs2. cbn -[be_bytes write_at slice].
  apply advance_write_last.
Qed.

Lemma advance_noise_read (s : option T) noise src dst msg n p :
  (length msg <= length src)%nat -> Z.of_nat (length msg) < 65536 -> read_message noise msg (length dst) = (n, Some p) ->
  advance (noise_read noise src dst s) (record msg) [] (Done (s, Ok (n, write_at src 0 msg, write_at dst 0 p, length p))).
Proof.
  intros Hroom Hlen Hr. unfold record. rewrite <- (app_nil_r []).
  eapply advance_seq; [apply advance_read_u16; lia |]. cbv zeta. rewrite Nat2Z.id.
  assert (slice src 0 (length msg) = Some (take (length msg) src)) as ->
    by (unfold slice; rewrite decide_True by lia; by rewrite drop_0, Nat.sub_0_r).
  eapply advance_local; [done |].
  rewrite <- (app_nil_r msg) at 2. rewrite <- (app_nil_r []). eapply advance_seq; [by apply advance_hs_read_exact |].
  rewrite Hr. constructor.
Qed.

(** A message longer than the buffer is a panic. *)
Lemma advance_noise_read_panic (s : option T) noise src dst z :
  0 <= z < 65536 -> Z.of_nat (length src) < z ->
  advance (noise_read noise src dst s) (be_bytes 2 z) [] (Done (s, Panic)).
Proof.
  intros Hz Hroom. rewrite <- (app_nil_r (be_bytes 2 z)), <- (app_nil_r []).
  eapply advance_seq; [by apply advance_read_u16 |]. cbv zeta. unfold slice. rewrite decide_False by lia. constructor.
Qed.

End noiser.

Lemma advance_send_CLIENTFIN (s : option T) noise buf nbuf payload ask n c :
  (3 + length payload <= length nbuf)%nat -> (2 + length c <= length buf)%nat ->
  write_message noise (CLIENTFIN ask payload) (length buf - 2) = (n, Some c) ->
  advance (send_CLIENTFIN noise buf nbuf payload ask s) [] (record c) (Done (s, Ok n)).
Proof.
  intros Hn Hb Hw. destruct (CLIENTFIN_assembled nbuf ask payload Hn) as [[room Hroom] Hmsg].
  unfold send_CLIENTFIN. cbv zeta in Hroom, Hmsg |- *. rewrite Hroom, Hmsg.
  destruct (advance_noise_write s noise (CLIENTFIN ask payload) buf 0 n c) as (buf' & _ & Ha); [lia | done |].
  rewrite take_0 in Ha. eapply advance_local; [done |]. eapply advance_local; [done |].
  exact (advance_call _ (fun '(n, _) => mret n) _ _ _ _ _ Ha).
Qed.

End messages.
