(* ===== verification/ScallopRun.v ===== *)
(** * Scallop: the two sides of an honest handshake

    What each side writes and where it gets to when it is fed what its peer
    writes, and the execution of the two together. *)

From S2P Require Import Prelude Io Scallop ScallopStream ScallopHandshake.

#[local] Arguments be_bytes : simpl never.
#[local] Arguments write_at : simpl never.
#[local] Arguments slice : simpl never.
#[local] Arguments from_be : simpl never.
#[local] Arguments Z.to_nat : simpl never.

Section sides.
Context `{SH : SnowHandshake} {T : Type} `{AS : ScallopAuthStore T}.

(** The store once [verify] has accepted [attestation] for [key]. *)
Definition accepted (st : option T) (attestation key : bytes) (st' : option T) : Prop :=
  exists s s1 pcrs, st = Some s /\ verify s attestation key = (s1, Some pcrs) /\ st' = Some (set s1 key pcrs).

Lemma accepted_authenticate st attestation key st' : accepted st attestation key st' ->
  authenticate attestation key st = Done (st', Ok ()).
Proof.
  intros (s & s1 & pcrs & -> & Hv & ->). unfold authenticate, mbind, hs_bind, hs_get, hs_lift. cbn. by rewrite Hv.
Qed.

Lemma remote_key_ok h k : hs_remote_static h = Some k -> length k = 32%nat -> remote_key h = Ok k.
Proof. intros H Hk. unfold remote_key. rewrite H. cbn. unfold key_of. by rewrite decide_True. Qed.

(** The document a side sends: its auther's when it is asked for one. *)
Definition answer (asked : bool) (auther : option bytes) : bytes := if asked then default [] auther else [].

Definition ask_byte (ask : bool) : Z := if negb ask then 0 else 1.

(** A side is able to answer. *)
Definition can_answer (asked : bool) (auther : option bytes) : Prop :=
  asked = true -> exists d, auther = Some d /\ Z.of_nat (length d) <= 60000.

Lemma lookup_payload buf l i : (i < length l)%nat -> write_at buf 0 l !! i = l !! i.
Proof. intros H. rewrite write_at_0. by rewrite lookup_app_l. Qed.

(** [p] is done or needs its peer. *)
Definition waiting {R} (p : proto R) : Prop :=
  match p with Done _ => True | ReadExact n _ _ => n <> 0%nat | WriteAll _ _ _ => False end.

Lemma ask_byte_true asked : (ask_byte asked =? 1) = asked.
Proof. by destruct asked. Qed.

Lemma ask_byte_over asked : (1 <? ask_byte asked) = false.
Proof. by destruct asked. Qed.

Lemma client_run seed key auther (st st' : option T) (asked : bool) i0 i1 i2 m1 m2 tc tc1 c1 remote :
  build_initiator seed key prologue = Some i0 ->
  (forall room, (64 <= room)%nat -> write_message i0 [] room = (i1, Some m1)) -> length m1 = 64%nat ->
  (forall room, (99 <= room)%nat -> read_message i1 m2 room = (i2, Some [0; 1; ask_byte asked])) -> length m2 = 99%nat ->
  hs_remote_static i2 = Some remote -> length remote = 32%nat -> into_transport_mode i2 = Some tc ->
  can_answer asked auther ->
  (forall room, (19 + length (answer asked auther) <= room)%nat ->
    write_message tc (CLIENTFIN (should_ask st remote) (answer asked auther)) room = (tc1, Some c1)) ->
  length c1 = (19 + length (answer asked auther))%nat ->
  exists p1, advance (new_client_async_Noise_IX_25519_ChaChaPoly_BLAKE2b seed key auther st) []
               (be_bytes 2 0 ++ record m1) p1 /\
  exists p2, advance p1 (be_bytes 2 0 ++ record m2) (record c1) p2 /\ waiting p2 /\
    if should_ask st remote
    then forall tc2 c2 doc, (forall room, (length c2 <= room)%nat -> read_message tc1 c2 room = (tc2, Some (SERVERFIN doc))) ->
           length c2 = (18 + length doc)%nat -> Z.of_nat (length doc) <= 60000 -> accepted st doc remote st' ->
           advance p2 (record c2) [] (Done (st', Ok (new_stream tc2)))
    else p2 = Done (st, Ok (new_stream tc1)).
Proof.
  intros Hbuild Hw1 Hm1 Hr2 Hm2 Hrs Hlen Htc Hcan Hw3 Hc1.
  unfold new_client_async_Noise_IX_25519_ChaChaPoly_BLAKE2b. cbv zeta.
  set (buf := replicate 1024 0). assert (Hbuf : length buf = Z.to_nat 1024) by (unfold buf; by rewrite length_replicate).
  assert (H2 : take 2 buf = be_bytes 2 0) by done. clearbody buf.
  set (big := replicate (Z.to_nat 65000) 0).
  assert (Hbig : length big = Z.to_nat 65000) by (unfold big; by rewrite length_replicate). clearbody big.
  destruct (advance_noise_write st i0 [] buf 2 i1 m1) as (buf' & Hbuf' & Hhello); [lia | apply Hw1; lia |].
  rewrite H2 in Hhello.
  eexists. split.
  { eapply advance_local; [by rewrite Hbuild |]. exact (advance_call _ _ _ _ _ _ _ Hhello). }
  cbv beta iota. eexists. split.
  { eapply advance_in; [by apply advance_read_u16 |]. rewrite Z.eqb_refl. cbn [negb].
    eapply advance_in_last; [apply advance_noise_read; [lia | lia | apply Hr2; lia] |]. cbv beta iota.
    eapply advance_local; [unfold byte_at; by rewrite lookup_payload by (cbn; lia) |].
    eapply advance_local; [unfold byte_at; by rewrite lookup_payload by (cbn; lia) |].
    cbn [length Nat.eqb negb orb Z.eqb].
    eapply advance_local; [unfold byte_at; by rewrite lookup_payload by (cbn; lia) |].
    rewrite ask_byte_over, ask_byte_true.
    assert (asked && bool_decide (auther = None) = false) as ->
      by (destruct asked; [destruct (Hcan eq_refl) as (? & -> & _) |]; done).
    eapply advance_local; [by rewrite (remote_key_ok _ _ Hrs Hlen) |]. eapply advance_local; [done |].
    eapply advance_local; [by rewrite Htc |]. cbv beta.
    eapply advance_call.
    destruct asked.
    - destruct (Hcan eq_refl) as (d & -> & Hd). change (answer true (Some d)) with d in *. eapply advance_local; [done |].
      destruct (Z.ltb_spec 60000 (Z.of_nat (length d))); [lia |].
      apply advance_send_CLIENTFIN; [lia | lia | apply Hw3; lia].
    - change (answer false auther) with (@nil Z) in *. cbn [length] in *. apply advance_send_CLIENTFIN; [rewrite length_write_at; cbn; lia | rewrite length_write_at; lia |].
      apply Hw3. rewrite length_write_at; lia. }
  cbv beta. destruct (should_ask st remote); [| done]. split; [by cbn |].
  intros tc2 c2 doc Hr4 Hc2 Hdoc Hacc.
  eapply advance_in_last; [| constructor].
  eapply advance_in_last; [apply advance_noise_read; [lia | lia | apply Hr4; lia] |]. cbv beta iota.
  destruct (parse_SERVERFIN big doc) as [Hsize Hdoc']; [lia |]. rewrite Hsize, Hdoc', length_SERVERFIN.
  destruct (Nat.ltb_spec (2 + length doc) 2); [lia |].
  assert ((Z.of_nat (length doc) =? Z.of_nat (2 + length doc) - 2) = true) as -> by (apply Z.eqb_eq; lia). cbn [negb].
  eapply advance_local; [done |].
  eapply advance_local; [by apply accepted_authenticate |]. constructor.
Qed.

(** SERVERFIN, if the client has asked for it. *)
Definition server_reply (asked : bool) (auther : option bytes) (ts1 ts2 : TransportState) (out : bytes) : Prop :=
  if asked
  then exists c2, (forall room, (18 + length (answer asked auther) <= room)%nat ->
                     write_message ts1 (SERVERFIN (answer asked auther)) room = (ts2, Some c2)) /\
                  length c2 = (18 + length (answer asked auther))%nat /\ out = record c2
  else ts2 = ts1 /\ out = [].

Lemma server_run seed key auther (st : option T) r0 r1 r2 m1 m2 ts remote :
  build_responder seed key prologue = Some r0 ->
  (forall room, (64 <= room)%nat -> read_message r0 m1 room = (r1, Some [])) -> length m1 = 64%nat ->
  hs_remote_static r1 = Some remote -> length remote = 32%nat ->
  (forall room, (99 <= room)%nat -> write_message r1 [0; 1; ask_byte (should_ask st remote)] room = (r2, Some m2)) ->
  length m2 = 99%nat -> into_transport_mode r2 = Some ts ->
  exists p1, advance (new_server_async_Noise_IX_25519_ChaChaPoly_BLAKE2b seed key auther st)
               (be_bytes 2 0 ++ record m1) (be_bytes 2 0 ++ record m2) p1 /\
    (forall asked doc c1 ts1 st', Z.of_nat (length doc) <= 1005 -> length c1 = (19 + length doc)%nat ->
       (forall room, (length c1 <= room)%nat -> read_message ts c1 room = (ts1, Some (CLIENTFIN asked doc))) ->
       (if should_ask st remote then accepted st doc remote st' else st' = st) -> can_answer asked auther ->
       forall ts2 out, server_reply asked auther ts1 ts2 out ->
       advance p1 (record c1) out (Done (st', Ok (new_stream ts2)))) /\
    (forall n, 1024 < n < 65536 -> advance p1 (be_bytes 2 n) [] (Done (st, Panic))).
Proof.
  intros Hbuild Hr1 Hm1 Hrs Hlen Hw2 Hm2 Hts.
  unfold new_server_async_Noise_IX_25519_ChaChaPoly_BLAKE2b. cbv zeta.
  set (buf := replicate 1024 0). assert (Hbuf : length buf = Z.to_nat 1024) by (unfold buf; by rewrite length_replicate).
  clearbody buf.
  set (big := replicate (Z.to_nat 65000) 0).
  assert (Hbig : length big = Z.to_nat 65000) by (unfold big; by rewrite length_replicate). clearbody big.
  set (buf1 := write_at (write_at buf 0 m1) 0 (be_bytes 2 0)).
  assert (Hbuf1 : length buf1 = Z.to_nat 1024)
    by (unfold buf1; rewrite !length_write_at; rewrite ?length_be_bytes, ?length_write_at; lia).
  assert (Hnbuf : length (write_at buf 0 []) = Z.to_nat 1024) by (rewrite length_write_at; cbn; lia).
  assert (Htake : take 2 buf1 = be_bytes 2 0) by (unfold buf1; by rewrite write_at_0).
  destruct (advance_noise_write st r1 [0; 1; ask_byte (should_ask st remote)] buf1 2 r2 m2) as (buf2 & Hbuf2 & Hreply);
    [lia | apply Hw2; lia |]. rewrite Htake in Hreply.
  eexists. split.
  { eapply advance_local; [by rewrite Hbuild |].
    eapply advance_in; [by apply advance_read_u16 |]. rewrite Z.eqb_refl. cbn [negb].
    eapply advance_in_last; [apply advance_noise_read; [lia | lia | apply Hr1; lia] |]. cbv beta iota.
    cbn [length Nat.eqb negb]. eapply advance_local; [by rewrite (remote_key_ok _ _ Hrs Hlen) |].
    eapply advance_local; [done |]. fold buf1. fold (ask_byte (should_ask st remote)).
    eapply advance_call. exact Hreply. }
  cbv beta iota. split.
  - intros asked doc c1 ts1 st' Hdoc Hc1 Hr3 Hacc Hcan ts2 out Hout.
    destruct (parse_CLIENTFIN (write_at buf 0 []) asked doc) as (Hsize & Hdoc' & Hb0); [lia |].
    eapply advance_local; [by rewrite Hts |].
    eapply advance_in_last; [apply advance_noise_read; [lia | lia | apply Hr3; lia] |]. cbv beta iota.
    rewrite Hsize, Hdoc', length_CLIENTFIN.
    destruct (Nat.ltb_spec (3 + length doc) 3); [lia |].
    assert ((Z.of_nat (length doc) =? Z.of_nat (3 + length doc) - 3) = true) as -> by (apply Z.eqb_eq; lia). cbn [negb].
    apply (advance_local _ _ st st' tt).
    { destruct (should_ask st remote); [by apply accepted_authenticate | by rewrite Hacc]. }
    eapply advance_local; [unfold byte_at; by rewrite Hb0 |]. fold (ask_byte asked).
    rewrite ask_byte_over, ask_byte_true.
    assert (asked && bool_decide (auther = None) = false) as ->
      by (destruct asked; [destruct (Hcan eq_refl) as (? & -> & _) |]; done).
    refine (advance_call _ (fun noise => mret (new_stream noise)) st' st' ts2 _ _ _). destruct asked; [| by destruct Hout as [-> ->]; constructor].
    destruct (Hcan eq_refl) as (d & -> & Hd). destruct Hout as (c2 & Hw4 & Hc2 & ->).
    change (answer true (Some d)) with d in *. eapply advance_local; [done |].
    destruct (Z.ltb_spec 60000 (Z.of_nat (length d))); [lia |].
    rewrite SERVERFIN_assembled by lia. eapply advance_local; [done |].
    destruct (advance_noise_write st' ts1 (SERVERFIN d) big 0 ts2 c2) as (? & _ & Hfin); [lia | apply Hw4; lia |].
    rewrite take_0 in Hfin. exact (advance_call _ (fun '(n, _) => mret n) _ _ _ _ _ Hfin).
  - intros n Hn. eapply advance_local; [by rewrite Hts |].
    apply advance_panic. apply advance_noise_read_panic; lia.
Qed.

End sides.

(** ** In an arbitrary environment *)

Lemma yields_proto_bind {R R'} (f : R -> proto R') stop r p : yields (proto_bind p f stop) r ->
  (exists x, yields p x /\ yields (f x) r) \/ (exists x, r = stop x).
Proof.
  induction p as [x | n eof k IH | b failed k IH]; cbn [proto_bind]; intros H.
  - left. exists x. split; [constructor | done].
  - inversion H as [| ? ? ? b ? Hb Hk | | |]; subst; [| right; eauto].
    destruct (IH b Hk) as [(x & Hx & Hr) | ?]; [left | by right]. exists x. split; [| done]. by apply (yields_read _ _ _ b).
  - inversion H as [| | | ? ? ? ? Hk |]; subst; [| right; eauto].
    destruct (IH Hk) as [(x & Hx & Hr) | ?]; [left | by right]. exists x. split; [| done]. by constructor.
Qed.

(** A call that returns is a call and then the rest. *)
Lemma yields_bind {S A B} (m : hs S A) (f : A -> hs S B) s s' b : yields ((m ≫= f) s) (s', Ok b) ->
  exists a s1, yields (m s) (s1, Ok a) /\ yields (f a s1) (s', Ok b).
Proof.
  intros [([s1 o] & Hm & Hf) | ([s1 o] & Hx)]%yields_proto_bind.
  - destruct o; cbn in Hf; [eauto | inversion Hf ..].
  - by destruct o.
Qed.

Lemma yields_Done {S A} (x : S * outcome ScallopError A) y : yields (Done x) y -> x = y.
Proof. by inversion 1. Qed.

(** Decompose a run of a handshake function that returned. *)
Ltac run_ok :=
  repeat match goal with
  | H : yields ((_ ≫= _) _) (_, Ok _) |- _ => apply yields_bind in H as (? & ? & ? & H)
  | H : yields (Done _) _ |- _ => apply yields_Done in H
  | H : yields (hs_lift _ _) (_, Ok _) |- _ => apply yields_Done in H
  | H : yields (byte_at _ _ _) (_, Ok _) |- _ => apply yields_Done in H
  | H : yields (protocol_error _ _) (_, Ok _) |- _ => apply yields_Done in H
  | H : yields (hs_get _) (_, Ok _) |- _ => apply yields_Done in H
  | H : yields (hs_put _ _) (_, Ok _) |- _ => apply yields_Done in H
  | H : yields (mret _ _) (_, Ok _) |- _ => apply yields_Done in H
  | H : (_, _) = (_, Ok _) |- _ => injection H as H; subst
  | H : yields ((if ?b then _ else _) _) _ |- _ => destruct b eqn:?
  | H : ok_or _ _ = Ok _ |- _ => apply ok_or_Ok in H
  | H : unwrap _ = Ok _ |- _ => apply unwrap_Ok in H
  | x : _ * _ |- _ => destruct x
  end; simplify_eq/=.

Section arbitrary.
Context `{Sn : Snow} {T : Type} `{AS : ScallopAuthStore T}.

Lemma yields_read_exact n (s s' : option T) b : yields (hs_read_exact n s) (s', Ok b) -> s' = s /\ length b = n.
Proof. intros H. inversion H as [| ? ? ? ? ? ? Hk | | |]; subst. apply yields_Done in Hk. by simplify_eq. Qed.

Lemma yields_read_u16 (s s' : option T) z : yields (read_u16 s) (s', Ok z) -> s' = s.
Proof. unfold read_u16. intros H. run_ok. by apply yields_read_exact in H0 as [-> _]. Qed.

Lemma yields_write_all (s s' : option T) b u : yields (hs_write_all b s) (s', Ok u) -> s' = s.
Proof. intros H. inversion H as [| | | ? ? ? ? Hk |]; subst. apply yields_Done in Hk. by simplify_eq. Qed.

Section noiser.
Context {N : Type} `{Nr : Noiser N}.

(** Messages leave the store alone, and the noise state is what a message
    makes of it. *)
Lemma yields_noise_read noise src dst (s s' : option T) n src' dst' len :
  yields (noise_read noise src dst s) (s', Ok (n, src', dst', len)) ->
  s' = s /\ exists m room p, read_message noise m room = (n, Some p) /\ dst' = write_at dst 0 p /\ len = length p.
Proof.
  unfold noise_read. intros H. run_ok.
  apply yields_read_u16 in H0 as ->. apply yields_read_exact in H2 as [-> _].
  destruct (read_message noise _ _) as [n1 [p |]] eqn:E; run_ok. split; [done |]. by eexists _, _, p.
Qed.

Lemma yields_noise_write noise src dst off (s s' : option T) n dst' :
  yields (noise_write noise src dst off s) (s', Ok (n, dst')) ->
  s' = s /\ exists room m, write_message noise src room = (n, Some m).
Proof.
  unfold noise_write. intros H. run_ok.
  destruct (write_message noise src _) as [n1 [m |]] eqn:E; run_ok.
  apply yields_write_all in H2 as ->. split; [done |]. by eexists _, m.
Qed.

End noiser.

Lemma yields_send_CLIENTFIN noise buf nbuf payload ask (s s' : option T) n :
  yields (send_CLIENTFIN noise buf nbuf payload ask s) (s', Ok n) ->
  s' = s /\ exists p room m, write_message noise p room = (n, Some m).
Proof.
  unfold send_CLIENTFIN. intros H. run_ok. apply yields_noise_write in H2 as [-> (room & m & Hw)].
  split; [done |]. by eexists _, room, m.
Qed.

(** [authenticate] returns only if [verify] has accepted. *)
Lemma yields_authenticate attestation key (s s' : option T) u :
  yields (authenticate attestation key s) (s', Ok u) -> accepted s attestation key s'.
Proof.
  unfold authenticate. intros H. run_ok.
  destruct (verify _ attestation key) as [s1 [pcrs |]] eqn:E; run_ok.
  eexists _, s1, _. eauto.
Qed.

Lemma remote_key_inv h k : remote_key h = Ok k -> hs_remote_static h = Some k /\ length k = 32%nat.
Proof.
  unfold remote_key, key_of. intros H. inv_ok. case_decide; by simplify_eq.
Qed.

End arbitrary.
