(* ===== verification/ScallopToy.v ===== *)
(** * Scallop: a concrete noise library

    A transport that numbers its messages instead of encrypting them, with the
    message sizes of Noise_IX_25519_ChaChaPoly_BLAKE2b.  It meets the contracts
    the properties are stated for. *)

From S2P Require Import Prelude Io Scallop ScallopStream ScallopHandshake.

Record ToyTransport := mkToyTransport { sends : Z; recvs : Z; peer_key : option bytes }.
Record ToyHandshake := mkToyHandshake { initiator : bool; own_key : bytes; seen_key : option bytes; stage : nat }.

Definition toy_public (key : bytes) : bytes := take 32 (key ++ replicate 32 0).
Definition toy_tag : bytes := replicate 16 0.
Definition toy_cipher (n : Z) (p : bytes) : bytes := be_bytes 16 n ++ p.

#[export] Instance toy_transport_noiser : Noiser ToyTransport := {
  read_message t c room :=
    if bool_decide (take 16 c = be_bytes 16 (recvs t)) && (length c <=? room + 16)%nat
    then (mkToyTransport (sends t) (recvs t + 1) (peer_key t), Some (drop 16 c)) else (t, None);
  write_message t p room :=
    if (sends t <? u64_MAX) && (length p + 16 <=? room)%nat && (Z.of_nat (length p) + 16 <? 65536)
    then (mkToyTransport (sends t + 1) (recvs t) (peer_key t), Some (toy_cipher (sends t) p)) else (t, None);
}.

#[export] Instance toy_handshake_noiser : Noiser ToyHandshake := {
  read_message h m room :=
    match initiator h, stage h with
    | false, 0%nat => (mkToyHandshake false (own_key h) (Some (take 32 (drop 32 m))) 1, Some (drop 64 m))
    | true, 1%nat => (mkToyHandshake true (own_key h) (Some (take 32 (drop 32 m))) 2,
                      Some (take (length m - 96) (drop 80 m)))
    | _, _ => (h, None)
    end;
  write_message h p room :=
    match initiator h, stage h with
    | true, 0%nat => (mkToyHandshake true (own_key h) (seen_key h) 1, Some (replicate 32 0 ++ toy_public (own_key h) ++ p))
    | false, 1%nat => (mkToyHandshake false (own_key h) (seen_key h) 2,
                       Some (replicate 32 0 ++ (toy_public (own_key h) ++ toy_tag) ++ p ++ toy_tag))
    | _, _ => (h, None)
    end;
}.

#[export] Instance toy_snow : Snow := {
  Seed := unit;
  HandshakeState := ToyHandshake;
  TransportState := ToyTransport;
  build_initiator _ key _ := Some (mkToyHandshake true key None 0);
  build_responder _ key _ := Some (mkToyHandshake false key None 0);
  hs_remote_static := seen_key;
  into_transport_mode h := if (stage h =? 2)%nat then Some (mkToyTransport 0 0 (seen_key h)) else None;
  ts_remote_static := peer_key;
}.

(** Messages numbered from [n]. *)
Fixpoint numbered (n : Z) (ms : list (bytes * bytes)) : Prop :=
  match ms with
  | [] => True
  | (c, p) :: ms => c = toy_cipher n p /\ Z.of_nat (length c) < 65536 /\ numbered (n + 1) ms
  end.

Definition toy_in_sync (a b : ToyTransport) (ms : list (bytes * bytes)) : Prop :=
  numbered (recvs b) ms /\ sends a = recvs b + Z.of_nat (length ms).

Lemma length_toy_cipher n p : length (toy_cipher n p) = (length p + 16)%nat.
Proof. unfold toy_cipher. lengths. Qed.

Lemma numbered_snoc n ms c p : numbered n (ms ++ [(c, p)]) <->
  numbered n ms /\ c = toy_cipher (n + Z.of_nat (length ms)) p /\ Z.of_nat (length c) < 65536.
Proof.
  revert n. induction ms as [| [c' p'] ms IH]; intros n; cbn -[Z.of_nat].
  - rewrite Z.add_0_r. tauto.
  - rewrite IH. replace (n + 1 + Z.of_nat (length ms)) with (n + Z.of_nat (S (length ms))) by lia. tauto.
Qed.

#[export] Instance toy_snow_transport : SnowTransport.
Proof.
  refine {| sending_nonce := sends : TransportState -> Z; in_sync := toy_in_sync |}.
  - intros a b c p ms [(-> & Hl & _) _]. by rewrite length_toy_cipher in *.
  - intros a b ms p [Hms Hs] Hn Hp. exists (mkToyTransport (sends a + 1) (recvs a) (peer_key a)), (toy_cipher (sends a) p).
    split; [| split; [apply length_toy_cipher | split; [done | split]]].
    + intros room Hroom. cbn. destruct (Z.ltb_spec (sends a) u64_MAX); [| lia].
      destruct (Nat.leb_spec (length p + 16) room); [| lia]. by destruct (Z.ltb_spec (Z.of_nat (length p) + 16) 65536); [| lia].
    + split; [| rewrite length_app; cbn -[Z.of_nat]; lia].
      apply numbered_snoc. rewrite Hs, length_toy_cipher. repeat split; [done | lia].
    + by intros d ms' [? ?].
  - intros a b c p ms [(-> & Hl & Hms) Hs].
    exists (mkToyTransport (sends b) (recvs b + 1) (peer_key b)). split; [| split; [| split; [done |]]].
    + intros room Hroom. cbn -[take drop be_bytes]. unfold toy_cipher.
      rewrite take_app_length', drop_app_length' by (by rewrite length_be_bytes). rewrite bool_decide_true by done.
      fold (toy_cipher (recvs b) p). by destruct (Nat.leb_spec (length (toy_cipher (recvs b) p)) (room + 16)); [| lia].
    + split; [done |]. cbn -[Z.of_nat] in *. lia.
    + by intros d ms' [? ?].
Defined.

Lemma length_toy_public key : length (toy_public key) = 32%nat.
Proof. unfold toy_public. rewrite length_take, length_app, length_replicate. lia. Qed.

#[export] Instance toy_snow_handshake : SnowHandshake.
Proof.
  refine {| public_of := toy_public; length_public_of := length_toy_public |}.
  intros [] [] kc ks pro p Hp.
  assert (Hkey : forall k r, take 32 (drop 32 (replicate 32 0 ++ toy_public k ++ r)) = toy_public k).
  { intros k r. rewrite drop_app_length' by done. apply take_app_length'. by rewrite length_toy_public. }
  assert (Hkey' : forall k r, take 32 (drop 32 (replicate 32 0 ++ (toy_public k ++ toy_tag) ++ r)) = toy_public k)
    by (intros; by rewrite <- app_assoc, Hkey).
  exists (mkToyHandshake true kc None 0), (mkToyHandshake true kc None 1), (mkToyHandshake true kc (Some (toy_public ks)) 2),
    (mkToyHandshake false ks None 0), (mkToyHandshake false ks (Some (toy_public kc)) 1),
    (mkToyHandshake false ks (Some (toy_public kc)) 2),
    (replicate 32 0 ++ toy_public kc ++ []), (replicate 32 0 ++ (toy_public ks ++ toy_tag) ++ p ++ toy_tag),
    (mkToyTransport 0 0 (Some (toy_public ks))), (mkToyTransport 0 0 (Some (toy_public kc))).
  split; [done |]. split; [done |]. split; [done |].
  assert (Hlen : length (replicate 32 0 ++ (toy_public ks ++ toy_tag) ++ p ++ toy_tag) = (96 + length p)%nat)
    by (rewrite !length_app, length_toy_public; cbn; lia).
  split; [by rewrite !length_app, length_toy_public |].
  split. { intros room _. cbn [read_message handshake_Noiser toy_snow toy_handshake_noiser initiator stage own_key].
    rewrite Hkey, drop_ge; [done |]. rewrite !length_app, length_toy_public. cbn. lia. }
  split; [done |]. split; [done |]. split; [done |].
  split.
  { intros room _. cbn [read_message handshake_Noiser toy_snow toy_handshake_noiser initiator stage own_key]. rewrite Hkey', Hlen.
    rewrite (app_assoc (replicate 32 0)). rewrite drop_app_length'
      by (rewrite !length_app, length_toy_public; done).
    by rewrite Nat.add_comm, Nat.add_sub, take_app_length. }
  by repeat split.
Defined.

#[export] Instance toy_snow_identity : SnowIdentity.
Proof.
  split.
  - intros h p room. cbn. by destruct (initiator h), (stage h) as [| [|]].
  - intros h t. cbn. destruct (stage h =? 2)%nat; [| done]. by intros [= <-].
  - intros t m room. cbn. by destruct (_ && _).
  - intros t p room. cbn. by destruct (_ && _).
Defined.

(** The auth store of the repository's example: the keys accepted so far, and
    one document it accepts. *)
Definition toy_pcrs : Pcrs := (replicate 48 1, replicate 48 2, replicate 48 3).

#[export] Instance toy_store : ScallopAuthStore (gmap bytes Pcrs) := {
  contains m key := bool_decide (is_Some (m !! key));
  set m key pcrs := <[key := pcrs]> m;
  verify m attestation _ := (m, if list_eqb attestation (bytes_of_string "good auth") then Some toy_pcrs else None);
}.

(** Running a handshake function on what its peer has sent; its writes succeed. *)
Fixpoint run_on {R} (p : proto R) (input : bytes) : option R :=
  match p with
  | Done r => Some r
  | ReadExact n _ k => if (n <=? length input)%nat then run_on (k (take n input)) (drop n input) else None
  | WriteAll _ _ k => run_on k input
  end.

Lemma run_on_yields {R} (p : proto R) input r : run_on p input = Some r -> yields p r.
Proof.
  revert input. induction p as [x | n eof k IH | b failed k IH]; intros input; cbn [run_on].
  - intros [= ->]. constructor.
  - destruct (Nat.leb_spec n (length input)); [| done]. intros H1%IH. apply (yields_read _ _ _ (take n input)); [| done].
    lengths.
  - intros H1%IH. by constructor.
Qed.
