(* ===== verification/ScallopProps.v ===== *)
(** * Scallop: properties

    The handshake: it completes between honest peers, authenticates whoever it
    accepts, and panics on a long message.  The stream: a poll refines an
    abstract reader of records, and a reader gets what a writer wrote. *)

From S2P Require Import Prelude Io Scallop ScallopStream ScallopHandshake ScallopRun ScallopToy.

Section handshake.
Context `{SH : SnowHandshake} {T : Type} `{AS : ScallopAuthStore T}.

Abbreviation new_client := new_client_async_Noise_IX_25519_ChaChaPoly_BLAKE2b.
Abbreviation new_server := new_server_async_Noise_IX_25519_ChaChaPoly_BLAKE2b.

Lemma duplex_inevitable {R1 R2} (x y : duplex R1 R2) : rtc duplex_step x y -> nf duplex_step y -> inevitable duplex_step x y.
Proof. apply inevitable_intro, duplex_diamond. Qed.

(** The exchange up to the client's CLIENTFIN [c1], and how each side goes on
    from there. *)
Lemma handshake_opening seed_c seed_s key_c key_s auther_c auther_s (sc ss sc' : option T) :
  let ask_c := should_ask sc (public_of key_s) in
  let ask_s := should_ask ss (public_of key_c) in
  let doc_c := answer ask_s auther_c in
  can_answer ask_s auther_c ->
  exists tc ts c1 (p2 p1 : proto (option T * outcome ScallopError ScallopStream)),
    rtc duplex_step (mkDuplex (new_client seed_c key_c auther_c sc) (new_server seed_s key_s auther_s ss) [] [])
      (mkDuplex p2 p1 (record c1) []) /\
    length c1 = (19 + length doc_c)%nat /\ waiting p2 /\
    in_sync tc ts [] /\ in_sync ts tc [] /\ sending_nonce ts = 0 /\
    (if ask_c
     then forall tc2 c2 doc, (forall room, (length c2 <= room)%nat -> read_message tc c2 room = (tc2, Some (SERVERFIN doc))) ->
            length c2 = (18 + length doc)%nat -> Z.of_nat (length doc) <= 60000 -> accepted sc doc (public_of key_s) sc' ->
            advance p2 (record c2) [] (Done (sc', Ok (new_stream tc2)))
     else p2 = Done (sc, Ok (new_stream tc))) /\
    (forall ss', Z.of_nat (length doc_c) <= 1005 ->
       (if ask_s then accepted ss doc_c (public_of key_c) ss' else ss' = ss) -> can_answer ask_c auther_s ->
       forall ts2 out, server_reply ask_c auther_s ts ts2 out ->
       advance p1 (record c1) out (Done (ss', Ok (new_stream ts2)))) /\
    (forall n, 1024 < n < 65536 -> advance p1 (be_bytes 2 n) [] (Done (ss, Panic))).
Proof.
  intros ask_c ask_s doc_c Hcan.
  destruct (ix_handshake seed_c seed_s key_c key_s prologue [0; 1; ask_byte ask_s])
    as (i0 & i1 & i2 & r0 & r1 & r2 & m1 & m2 & tc & ts & Hi0 & Hr0 & Hw1 & Hm1 & Hr1 & Hrs & Hw2 & Hm2 & Hr2 & Hcs &
        Htc & Hts & Hs1 & Hs2 & Hn1 & Hn2); [done |].
  assert (Hdoc : Z.of_nat (length doc_c) <= 60000).
  { unfold doc_c. destruct ask_s; [| done]. by destruct (Hcan eq_refl) as (d & -> & ?). }
  destruct (sync_write tc ts [] (CLIENTFIN ask_c doc_c)) as (tc1 & c1 & Hw3 & Hc1 & _ & Hs3 & Hs4);
    [done | by rewrite Hn1 | rewrite length_CLIENTFIN; lia |].
  rewrite length_CLIENTFIN in Hc1, Hw3.
  destruct (sync_read tc1 ts c1 (CLIENTFIN ask_c doc_c) [] Hs3) as (ts1 & Hr3 & Hs5 & Hn3 & Hs6).
  destruct (client_run seed_c key_c auther_c sc sc' ask_s i0 i1 i2 m1 m2 tc tc1 c1 (public_of key_s))
    as (q1 & Hhello & p2 & Hfin & Hwait & Hrest); try done; try lia.
  { by rewrite length_public_of. }
  { intros room Hroom. apply Hw3. unfold doc_c. lia. }
  { rewrite Hc1. unfold doc_c. lia. }
  destruct (server_run seed_s key_s auther_s ss r0 r1 r2 m1 m2 ts (public_of key_c))
    as (p1 & Hreply & Hok & Hpanic); try done; try lia.
  { by rewrite length_public_of. }
  exists tc1, ts1, c1, p2, p1. split; [| split; [lia | split; [done |]]].
  - pose proof (client_advances _ _ (new_server seed_s key_s auther_s ss) [] _ [] [] Hhello) as H1.
    pose proof (server_advances q1 _ _ _ _ [] [] Hreply) as H2.
    pose proof (client_advances _ _ p1 _ _ [] [] Hfin) as H3.
    rewrite !app_nil_r in H2. rewrite app_nil_r in H3. cbn [app] in H1, H2, H3.
    etrans; [exact H1 |]. etrans; [exact H2 | exact H3].
  - split; [done |]. split; [by apply Hs6, Hs4 |]. split; [by rewrite Hn3 |]. split; [exact Hrest |]. split; [| done].
    intros ss' Hshort Hacc Hcan' ts2 out Hout. eapply Hok; try done. lia.
Qed.

(** C7: over a duplex stream, in every interleaving and within a bounded
    number of steps, the client's and the server's handshakes both return an
    established stream, with their transports in step, and each store updated
    exactly when that side asked for an attestation - when each side that is
    asked has a document its peer accepts, of at most 60000 bytes, and the
    client's is at most 1005 bytes. *)
Theorem handshake_completes seed_c seed_s key_c key_s auther_c auther_s (sc ss sc' ss' : option T) :
  let ask_c := should_ask sc (public_of key_s) in
  let ask_s := should_ask ss (public_of key_c) in
  can_answer ask_s auther_c -> can_answer ask_c auther_s ->
  Z.of_nat (length (answer ask_s auther_c)) <= 1005 ->
  (if ask_c then accepted sc (answer ask_c auther_s) (public_of key_s) sc' else sc' = sc) ->
  (if ask_s then accepted ss (answer ask_s auther_c) (public_of key_c) ss' else ss' = ss) ->
  exists tc ts,
    inevitable duplex_step
      (mkDuplex (new_client seed_c key_c auther_c sc) (new_server seed_s key_s auther_s ss) [] [])
      (mkDuplex (Done (sc', Ok (new_stream tc))) (Done (ss', Ok (new_stream ts))) [] []) /\
    in_sync tc ts [] /\ in_sync ts tc [].
Proof.
  intros ask_c ask_s Hcan_c Hcan_s Hshort Hacc_c Hacc_s.
  destruct (handshake_opening seed_c seed_s key_c key_s auther_c auther_s sc ss sc' Hcan_c)
    as (tc & ts & c1 & p2 & p1 & Hopen & Hc1 & _ & Hs1 & Hs2 & Hn & Hclient & Hserver & _).
  assert (Hgo : exists tc2 ts2 out, server_reply ask_c auther_s ts ts2 out /\
    advance p2 out [] (Done (sc', Ok (new_stream tc2))) /\ in_sync tc2 ts2 [] /\ in_sync ts2 tc2 []).
  { fold ask_c in Hclient. destruct ask_c; [| exists tc, ts, []; rewrite Hclient, Hacc_c; by repeat split; try constructor].
    destruct (Hcan_s eq_refl) as (d & -> & Hd). cbn [answer from_option] in Hacc_c.
    destruct (sync_write ts tc [] (SERVERFIN d)) as (ts2 & c2 & Hw & Hc2 & _ & Hs3 & Hs4);
      [done | by rewrite Hn | rewrite length_SERVERFIN; lia |].
    rewrite length_SERVERFIN in Hw, Hc2.
    destruct (sync_read ts2 tc c2 (SERVERFIN d) [] Hs3) as (tc2 & Hr & Hs5 & _ & Hs6).
    exists tc2, ts2, (record c2). split; [| split; [| split; [by apply Hs6, Hs4 | done]]].
    - exists c2. change (answer true (Some d)) with d. repeat split; [intros; apply Hw; lia | lia].
    - apply (Hclient tc2 c2 d); [done | lia | done | done]. }
  destruct Hgo as (tc2 & ts2 & out & Hout & Hfin & Hsync). exists tc2, ts2. split; [| done].
  apply duplex_inevitable; [| intros [y Hy]; inversion Hy].
  etrans; [exact Hopen |].
  pose proof (server_advances p2 _ _ _ _ [] [] (Hserver ss' Hshort Hacc_s Hcan_s ts2 out Hout)) as H1.
  pose proof (client_advances _ _ (Done (ss', @Ok ScallopError _ (new_stream ts2))) _ _ [] [] Hfin) as H2.
  rewrite app_nil_r in H1. rewrite app_nil_r in H2. etrans; [exact H1 | exact H2].
Qed.

(** The server reads CLIENTFIN into a 1024-byte buffer that the client's
    65000-byte one does not match: when the server asks for an attestation and
    the client's document is longer than 1005 bytes (but within the client's
    own limit of 60000), every execution ends with the server's task
    panicked and its store unchanged. *)
Theorem long_attestation_panics_server seed_c seed_s key_c key_s doc auther_s (sc ss : option T) :
  should_ask ss (public_of key_c) = true -> 1005 < Z.of_nat (length doc) <= 60000 ->
  exists t, inevitable duplex_step
    (mkDuplex (new_client seed_c key_c (Some doc) sc) (new_server seed_s key_s auther_s ss) [] []) t /\
    server t = Done (ss, Panic).
Proof.
  intros Hask Hlong.
  destruct (handshake_opening seed_c seed_s key_c key_s (Some doc) auther_s sc ss sc)
    as (tc & ts & c1 & p2 & p1 & Hopen & Hc1 & Hwait & _ & _ & _ & _ & _ & Hpanic); [intros _; exists doc; split; [done | lia] |].
  rewrite Hask in Hc1. change (answer true (Some doc)) with doc in Hc1.
  exists (mkDuplex p2 (Done (ss, Panic)) c1 []). split; [| done].
  apply duplex_inevitable.
  - etrans; [exact Hopen |]. unfold record.
    pose proof (server_advances p2 _ _ _ _ c1 [] (Hpanic (Z.of_nat (length c1)) ltac:(lia))) as H1. exact H1.
  - intros [y Hy]. inversion Hy; subst; [done |]. by destruct b.
Qed.
End handshake.

(** ** In an arbitrary environment *)

Section authentication.
Context `{Sn : Snow} `{SI : !SnowIdentity} {T : Type} `{AS : ScallopAuthStore T}.

Abbreviation new_client := new_client_async_Noise_IX_25519_ChaChaPoly_BLAKE2b.
Abbreviation new_server := new_server_async_Noise_IX_25519_ChaChaPoly_BLAKE2b.

(** The store [st] was satisfied of [key], by an earlier attestation or by one
    that was verified during the handshake and made it [st']. *)
Definition authenticated (st : option T) (key : bytes) (st' : option T) : Prop :=
  match st with
  | None => st' = None
  | Some s => contains s key = true /\ st' = st \/ contains s key = false /\ exists attestation, accepted st attestation key st'
  end.

Lemma not_asked (st : option T) key : should_ask st key = false -> authenticated st key st.
Proof. destruct st as [s |]; [| done]. cbn. intros ?%negb_false_iff. by left. Qed.

Lemma asked (st st' : option T) key attestation : should_ask st key = true -> accepted st attestation key st' ->
  authenticated st key st'.
Proof. destruct st as [s |]; [| done]. cbn. intros ?%negb_true_iff ?. right. eauto. Qed.

Lemma remote_static_of t k : ts_remote_static t = Some k -> length k = 32%nat ->
  get_remote_static (new_stream t) = Ok (Some k).
Proof. intros H Hk. unfold get_remote_static. cbn. rewrite H. unfold key_of. by rewrite decide_True. Qed.

Lemma after_read t m room t' p : read_message t m room = (t', Some p) -> ts_remote_static t' = ts_remote_static t.
Proof using SI. intros H. by rewrite <- (read_remote_static t m room), H. Qed.

Lemma after_write t m room t' p : write_message t m room = (t', Some p) -> ts_remote_static t' = ts_remote_static t.
Proof using SI. intros H. by rewrite <- (write_remote_static t m room), H. Qed.

Lemma after_hs_write (h h' : HandshakeState) m room p k : write_message h m room = (h', Some p) ->
  hs_remote_static h = Some k -> hs_remote_static h' = Some k.
Proof using SI. intros H <-. by rewrite <- (hs_write_remote_static h m room), H. Qed.

(** What the messages of a run did to the store and to the noise state. *)
Ltac messages_ok :=
  repeat match goal with
  | H : yields (noise_read _ _ _ _) (_, Ok _) |- _ => apply yields_noise_read in H as (? & ? & ? & ? & ? & ? & ?); subst
  | H : yields (noise_write _ _ _ _ _) (_, Ok _) |- _ => apply yields_noise_write in H as (? & ? & ? & ?); subst
  | H : yields (read_u16 _) (_, Ok _) |- _ => apply yields_read_u16 in H; subst
  | H : yields (send_CLIENTFIN _ _ _ _ _ _) (_, Ok _) |- _ => apply yields_send_CLIENTFIN in H as (? & ? & ? & ? & ?); subst
  | H : yields (authenticate _ _ _) (_, Ok _) |- _ => apply yields_authenticate in H
  | H : remote_key _ = Ok _ |- _ => apply remote_key_inv in H as [? ?]
  end.

(** The stream's remote key is the handshake's. *)
Ltac same_key :=
  eexists; split;
  [ apply remote_static_of; [| eassumption];
    repeat first [erewrite after_read by eassumption | erewrite after_write by eassumption];
    erewrite into_remote_static by eassumption;
    first [eassumption | eapply after_hs_write; eassumption]
  | first [eapply asked; eassumption | eapply not_asked; eassumption] ].

Lemma client_authenticates seed secret auther (st st' : option T) s :
  yields (new_client seed secret auther st) (st', Ok s) ->
  exists key, get_remote_static s = Ok (Some key) /\ authenticated st key st'.
Proof using SI.
  unfold new_client_async_Noise_IX_25519_ChaChaPoly_BLAKE2b. cbv zeta.
  generalize (replicate (Z.to_nat 65000) 0) (replicate 1024 0). intros big buf H.
  run_ok; messages_ok; same_key.
Qed.

Lemma server_authenticates seed secret auther (st st' : option T) s :
  yields (new_server seed secret auther st) (st', Ok s) ->
  exists key, get_remote_static s = Ok (Some key) /\ authenticated st key st'.
Proof using SI.
  unfold new_server_async_Noise_IX_25519_ChaChaPoly_BLAKE2b. cbv zeta.
  generalize (replicate (Z.to_nat 65000) 0) (replicate 1024 0). intros big buf H.
  run_ok; messages_ok; same_key.
Qed.

(** C3: whatever its peer sends and however the stream fails, a handshake that
    returns a stream has authenticated the stream's remote key: it had no
    store to ask, or the store already held the key and is unchanged, or the
    store's [verify] accepted an attestation received for this very key and
    the store is the one [set] with its measurements. *)
Theorem handshake_authenticates seed secret auther (st st' : option T) s :
  yields (new_client seed secret auther st) (st', Ok s) \/ yields (new_server seed secret auther st) (st', Ok s) ->
  exists key, get_remote_static s = Ok (Some key) /\ authenticated st key st'.
Proof using SI. intros [H | H]; [by eapply client_authenticates | by eapply server_authenticates]. Qed.

End authentication.

(** ** The established stream *)

Section stream.
Context `{Sn : Snow} {ST : SnowTransport}.

(** C25: a poll for reading does what the abstract reader of the peer's records
    does: it returns the next bytes of the record at the front of the queue,
    unless the base stream has none, in which case it is pending as a result
    of the base being pending, or at the end of the stream; it fails and
    panics nowhere, and what remains to be read is the rest of the queue. *)
Theorem poll_read_refines_records a cap s b later todo :
  receiving a s (arriving (reads b) ++ later) todo -> forallb no_failure (reads b) = true ->
  polled a cap b later todo (poll_read cap (s, b)).
Proof. apply poll_read_spec. Qed.

(** C8: the bytes a writer's stream accepts, over any sequence of polls for
    writing, flushing and shutting down with any answers of its base, are
    those its reader's stream delivers: a prefix of them at any time,
    whatever part of the wire has arrived and in whatever chunks, and all of
    them once the writer has flushed, the wire has arrived and the reader has
    polled often enough. *)
Theorem stream_roundtrip a n ops wb caps rb :
  in_sync a n [] -> sending_nonce a + Z.of_nat (length ops) <= u64_MAX -> sent wb = [] ->
  forallb no_failure (reads rb) = true -> Forall (fun cap => 0 < cap)%nat caps ->
  let '(s, b, accepted) := write_steps ops (new_stream a, wb) in
  let got := delivered (poll_reads caps (new_stream n, rb)) in
  (forall later, arriving (reads rb) ++ later = sent b -> exists rest, concat accepted = got ++ rest) /\
  ((poll_flush (s, b)).2 = Some (Ok ()) -> arriving (reads rb) = sent (poll_flush (s, b)).1.2 ->
   (waits (reads rb) + todo_size accepted <= length caps)%nat -> got = concat accepted).
Proof.
  intros Hsync Hnonce Hsent Hok Hcaps.
  assert (Hsend : sending n (new_stream a) wb []) by (split; [done | done | by rewrite Hsent]).
  pose proof (write_steps_spec n ops _ _ _ Hsend Hnonce) as Hw.
  destruct (write_steps ops (new_stream a, wb)) as [[s b] accepted]. destruct Hw as (ms & Hms & <-).
  cbn [app] in Hms. split.
  - intros later Hlater. destruct Hms as [Hs _ Hwire].
    assert (Hrec : receiving (noise s) (new_stream n) (arriving (reads rb) ++ later ++ unsent s) (map snd ms))
      by (apply receiving_new; [done | by rewrite app_assoc, Hlater]).
    destruct (poll_reads_spec _ _ caps _ _ _ Hrec Hok Hcaps) as (_ & rest & Hd & _). by exists rest.
  - intros Hflush Harr Henough.
    destruct (poll_flush_spec n ms s b Hms) as ([Hs _ Hwire] & _ & _ & Hun).
    rewrite (Hun () Hflush), app_nil_r in Hwire.
    assert (Hrec : receiving (noise (poll_flush (s, b)).1.1) (new_stream n) (arriving (reads rb) ++ []) (map snd ms))
      by (rewrite app_nil_r; apply receiving_new; [done | by rewrite Harr]).
    destruct (poll_reads_spec _ _ caps _ _ _ Hrec Hok Hcaps) as (_ & rest & Hd & Hend).
    by rewrite Hd, (Hend eq_refl Henough), app_nil_r.
Qed.

(** A stream cut in the middle of a record is reported to the reader as a
    clean end of the stream: with bytes still expected ([later]) and the base
    stream at its end, a poll succeeds with nothing read and changes nothing,
    although there are records left to deliver. *)
Theorem truncation_reads_as_end a s b cap later todo :
  receiving a s (arriving (reads b) ++ later) todo -> at_end (reads b) = true -> (0 < pending s)%nat -> later <> [] ->
  poll_read cap (s, b) = (s, b, Some (Ok [])) /\ todo <> [].
Proof.
  intros Hrec Hend Hp Hlater.
  assert (Harr : arriving (reads b) = []) by (by destruct (reads b) as [| [] ]).
  assert (Hlen : (pending s <= length (rbuf s))%nat) by (destruct Hrec; lia). split.
  - assert (Hfill : fill (pending s) (s, b) = (s, b, Some (Ok false))).
    { destruct (pending s) as [| k] eqn:Ek; [lia |]. cbn. rewrite Ek.
      assert (Hs : exists room, slice (rbuf s) (length (rbuf s) - S k) (length (rbuf s)) = Some room)
        by (unfold slice; rewrite decide_True by lia; eauto).
      destruct Hs as [room Hroom]. cbn -[slice] in *. rewrite Hroom. unfold mbind, io_bind, lift. cbn.
      by destruct (reads b) as [| [] ]. }
    unfold poll_read. cbn [poll_read_loop].
    assert (Hround : poll_read_round cap (s, b) = (s, b, Some (Ok (Some []))))
      by (unfold poll_read_round; cbn [fst]; erewrite io_bind_Ok by exact Hfill; done).
    by erewrite io_bind_Ok by exact Hround.
  - rewrite Harr in Hrec. destruct Hrec as [ms Hm H2 _ Hs Hw -> | | rest ms Hm H0 Hsl Hs Hw ->]; [| by subst | lia].
    destruct ms; [| done]. apply app_eq_nil in Hw as [_ ?]. done.
Qed.

End stream.

(** ** The properties at concrete inputs *)

Module ScallopWitnesses.

Abbreviation toy_client := (new_client_async_Noise_IX_25519_ChaChaPoly_BLAKE2b (Sn := toy_snow) ()).
Abbreviation toy_server := (new_server_async_Noise_IX_25519_ChaChaPoly_BLAKE2b (Sn := toy_snow) ()).

Definition key_c : bytes := [7; 1].
Definition key_s : bytes := [9; 2].
Definition good_auth : bytes := bytes_of_string "good auth".
Definition nobody : option (gmap bytes Pcrs) := Some ∅.

Lemma good_auth_accepted key : accepted nobody good_auth key (Some {[key := toy_pcrs]}).
Proof. exists ∅, ∅, toy_pcrs. by repeat split. Defined.

(** Both sides ask for an attestation and get the accepted one. *)
Lemma handshake_completes_witness : exists tc ts : ToyTransport,
  inevitable duplex_step
    (mkDuplex (toy_client key_c (Some good_auth) nobody)
       (toy_server key_s (Some good_auth) nobody) [] [])
    (mkDuplex (Done (Some {[toy_public key_s := toy_pcrs]}, Ok (new_stream tc)))
       (Done (Some {[toy_public key_c := toy_pcrs]}, Ok (new_stream ts))) [] []) /\
  in_sync tc ts [] /\ in_sync ts tc [].
Proof.
  apply (handshake_completes (Sn := toy_snow) () () key_c key_s (Some good_auth) (Some good_auth) nobody nobody).
  - intros _. by exists good_auth.
  - intros _. by exists good_auth.
  - done.
  - apply good_auth_accepted.
  - apply good_auth_accepted.
Defined.

(** A document of 5000 bytes, the size of a Nitro attestation. *)
Lemma long_attestation_panics_server_witness : exists t,
  inevitable duplex_step
    (mkDuplex (toy_client key_c (Some (replicate (Z.to_nat 5000) 1)) nobody)
       (toy_server key_s None nobody) [] []) t /\
  server t = Done (nobody, Panic).
Proof.
  apply (long_attestation_panics_server (Sn := toy_snow) () () key_c key_s (replicate (Z.to_nat 5000) 1) None nobody nobody).
  - vm_compute. reflexivity.
  - rewrite length_replicate. lia.
Defined.

(** A server that asks a client of key [key_c], run on the client's messages. *)
Definition client_messages : bytes :=
  be_bytes 2 0 ++ record (replicate 32 0 ++ toy_public key_c) ++ record (toy_cipher 0 (CLIENTFIN false good_auth)).

Definition server_stream : ScallopStream := new_stream (mkToyTransport 0 1 (Some (toy_public key_c))).

Lemma handshake_authenticates_witness : exists key,
  get_remote_static server_stream = Ok (Some key) /\
  authenticated nobody key (Some {[toy_public key_c := toy_pcrs]}).
Proof.
  apply (handshake_authenticates (Sn := toy_snow) () key_s None nobody).
  right. apply (run_on_yields _ client_messages).
  vm_cast_no_check (eq_refl (Some (Some {[toy_public key_c := toy_pcrs]} : option (gmap bytes Pcrs),
    Ok server_stream : outcome ScallopError ScallopStream))).
Defined.

(** Two writes into a base that takes three bytes at a time and stalls, read
    back in pieces. *)
Definition wire_base : Base := mkBase [] [Accept 3; WritePending; Accept 20; Accept 40; Accept 40; Accept 40] [] [] false.
Definition hello : list write_op := [PollWrite [104; 101; 108]; PollFlush; PollFlush; PollWrite [108; 111]].
Definition fresh : @TransportState toy_snow := mkToyTransport 0 0 None.
Definition one_sent : @TransportState toy_snow := mkToyTransport 1 0 None.
Definition written : ScallopStream * Base * list bytes := write_steps hello (new_stream fresh, wire_base).
Definition arrived : Base :=
  mkBase [Chunk (take 20 (sent (poll_flush written.1).1.2)); ReadPending; Chunk (drop 20 (sent (poll_flush written.1).1.2))]
    [] [] [] false.

Lemma stream_roundtrip_witness :
  delivered (poll_reads (replicate 8 2%nat) (new_stream fresh, arrived)) = [104; 101; 108; 108; 111].
Proof.
  assert (Hok : forallb no_failure (reads arrived) = true) by (vm_compute; reflexivity).
  assert (Hcaps : Forall (fun cap => 0 < cap)%nat (replicate 8 2%nat)) by (apply Forall_replicate; lia).
  assert (Hsync : in_sync fresh fresh []) by (by split).
  assert (Hnonce : sending_nonce fresh + Z.of_nat (length hello) <= u64_MAX) by (by vm_compute).
  pose proof (stream_roundtrip fresh fresh hello wire_base _ arrived Hsync Hnonce eq_refl Hok Hcaps) as H.
  change (write_steps hello (new_stream fresh, wire_base)) with written in H.
  assert (E : written = (written.1.1, written.1.2, written.2)) by (generalize written as x; by intros [[? ?] ?]).
  rewrite E in H. destruct H as [_ H].
  etrans; [apply H |]; vm_compute; reflexivity.
Defined.

Lemma one_in_sync : in_sync one_sent fresh [(toy_cipher 0 [1; 2; 3], [1; 2; 3])].
Proof. by repeat split. Qed.

(** A reader two bytes into the second record. *)
Definition one_record : bytes := record (toy_cipher 0 [1; 2; 3]).

Lemma poll_read_refines_records_witness :
  polled one_sent 2 (mkBase [Chunk one_record] [] [] [] false) [] [[1; 2; 3]]
    (poll_read 2 (new_stream fresh, mkBase [Chunk one_record] [] [] [] false)).
Proof.
  apply poll_read_refines_records; [| done].
  apply (receiving_length _ _ _ _ [(toy_cipher 0 [1; 2; 3], [1; 2; 3])]); first [done | exact one_in_sync | cbn; lia].
Defined.

(** The base ends after the record's length. *)
Definition cut_stream : ScallopStream := new_stream fresh <| rbuf := [0; 0] |> <| pending := 1%nat |>.

Lemma truncation_reads_as_end_witness :
  poll_read 5 (cut_stream, mkBase [Eof] [] [] [] false) = (cut_stream, mkBase [Eof] [] [] [] false, Some (Ok [])) /\
  [[1; 2; 3]] <> [].
Proof.
  apply (truncation_reads_as_end one_sent cut_stream _ 5 (drop 1 one_record)); [| done | cbn; lia | done].
  apply (receiving_length _ _ _ _ [(toy_cipher 0 [1; 2; 3], [1; 2; 3])]); first [done | exact one_in_sync | cbn; lia].
Defined.

End ScallopWitnesses.
