(* ===== verification/NitroGuest.v ===== *)
(** * The attestation verifier guest and the mock attestation server

    [attestation/verifier-risczero/methods/guest/src/main.rs], which asserts
    the layout of an attestation document, checks its certificates and
    signature and commits its fields to the journal, and
    [attestation/server-custom-mock/src/lib.rs], which lays such a document
    out.  Certificates, keys, signatures and SHA-384 are the class [Crypto]. *)

From S2P Require Import Prelude Io.

(** ** Third-party interface: [x509_cert], [p384], [sha2] *)

Class Crypto := {
  Certificate : Type;
  from_der : bytes -> option Certificate;
  not_before : Certificate -> Z;
  not_after : Certificate -> Z;
  public_key_bytes : Certificate -> bytes;
  signature_bytes : Certificate -> bytes;
  Signature : Type;
  signature_from_der : bytes -> option Signature;
  signature_from_scalars : bytes -> bytes -> option Signature;
  VerifyingKey : Type;
  from_sec1_bytes : bytes -> option VerifyingKey;
  verify : VerifyingKey -> bytes -> Signature -> bool;
  verify_prehash : VerifyingKey -> bytes -> Signature -> bool;
  sha384 : bytes -> bytes;
  SigningKey : Type;
  from_sec1_der : bytes -> option SigningKey;
  sign_prehash_recoverable : SigningKey -> bytes -> option bytes
}.

(** What is hashed for the COSE signature: the array of context, protected
    header, empty additional data and payload, with its two length bytes. *)
Definition sig_structure (len payload : bytes) : bytes :=
  [0x84] ++ [0x6a] ++ bytes_of_string "Signature1" ++ [0x44; 0xa1; 0x01; 0x38; 0x22] ++ [0x40] ++
  ([0x59] ++ len) ++ payload.

Definition cose_header : bytes := [0x84; 0x44; 0xa1; 0x01; 0x38; 0x22; 0xa0; 0x59].

(** ** The guest *)

Section guest.
Context `{Cr : Crypto}.
Variable attestation : bytes.

(** The world is the journal committed so far. *)
Abbreviation guest := (io bytes Empty_set).

Definition byte_at (i : nat) : guest Z := lift (unwrap (attestation !! i)).
Definition range (a b : nat) : guest bytes := lift (unwrap (slice attestation a b)).
Definition expect_byte (i : nat) (v : Z) : guest unit :=
  b ← byte_at i; lift (assert_that (b =? v)).
Definition expect_bytes (a : nat) (l : bytes) : guest unit :=
  s ← range a (a + length l); lift (assert_that (list_eqb s l)).
Definition u16_at (i : nat) : guest nat :=
  a ← byte_at i; b ← byte_at (i + 1); mret (Z.to_nat (from_be [a; b])).
Definition commit_slice (l : bytes) : guest unit := modify (fun j => j ++ l).

(** Initial fields: the payload size and the offset after the module id. *)
Definition initial_fields : guest (nat * nat) :=
  _ ← expect_bytes 0 cose_header;
  payload_size ← u16_at 8;
  _ ← lift (assert_that (length attestation =? 10 + payload_size + 98)%nat);
  _ ← expect_bytes 10 [0xa9; 0x69];
  _ ← expect_byte 21 0x78;
  n ← byte_at 22;
  mret (payload_size, (23 + Z.to_nat n)%nat).

(** Digest and timestamp; the timestamp in seconds. *)
Definition timestamp_section (offset : nat) : guest (Z * nat) :=
  _ ← expect_byte offset 0x66;
  _ ← expect_byte (offset + 7) 0x66;
  _ ← expect_byte (offset + 14) 0x69;
  _ ← expect_bytes (offset + 15) (bytes_of_string "timestamp");
  _ ← expect_byte (offset + 24) 0x1b;
  t ← range (offset + 25) (offset + 33);
  _ ← commit_slice t;
  mret (from_be t / 1000, (offset + 33)%nat).

(** PCR [i], committed when it is one of the first three. *)
Definition pcr_entry (i : Z) (offset : nat) : guest nat :=
  _ ← expect_bytes offset [i; 0x58; 0x30];
  _ ← (if i <? 3 then pcr ← range (offset + 3) (offset + 51); commit_slice pcr else mret tt);
  mret (offset + 51)%nat.

Fixpoint pcr_entries (l : list Z) (offset : nat) : guest nat :=
  match l with
  | [] => mret offset
  | i :: l => offset ← pcr_entry i offset; pcr_entries l offset
  end.

Definition pcrs_section (offset : nat) : guest nat :=
  _ ← expect_byte offset 0x64;
  _ ← expect_bytes (offset + 1) (bytes_of_string "pcrs");
  _ ← expect_byte (offset + 5) 0xb0;
  pcr_entries (seqZ 0 16) (offset + 6).

(** A certificate behind a two-byte length. *)
Definition certificate_at (offset : nat) : guest (Certificate * nat) :=
  _ ← expect_byte offset 0x59;
  size ← u16_at (offset + 1);
  der ← range (offset + 3) (offset + 3 + size);
  cert ← lift (unwrap (from_der der));
  mret (cert, size).

Definition certificate_section (offset : nat) : guest (Certificate * nat * nat) :=
  _ ← expect_byte offset 0x6b;
  _ ← expect_bytes (offset + 1) (bytes_of_string "certificate");
  '(leaf_cert, size) ← certificate_at (offset + 12);
  mret (leaf_cert, (offset + 15)%nat, (offset + 15 + size)%nat).

Definition check_validity (cert : Certificate) (timestamp : Z) : guest unit :=
  _ ← lift (assert_that (not_before cert <? timestamp));
  lift (assert_that (timestamp <? not_after cert)).

(** The DER of [child] starts at [o]; its signature is checked with the key
    of [parent]. *)
Definition verify_child (parent child : Certificate) (o : nat) : guest unit :=
  _ ← expect_byte o 0x30;
  _ ← expect_byte (o + 1) 0x82;
  _ ← expect_byte (o + 4) 0x30;
  _ ← expect_byte (o + 5) 0x82;
  cert_size ← u16_at (o + 6);
  msg ← range (o + 4) (o + 8 + cert_size);
  sig ← lift (unwrap (signature_from_der (signature_bytes child)));
  vkey ← lift (unwrap (from_sec1_bytes (public_key_bytes parent)));
  lift (assert_that (verify vkey msg sig)).

Definition root_section (offset : nat) (timestamp : Z) : guest (Certificate * nat) :=
  '(parent_cert, size) ← certificate_at offset;
  _ ← check_validity parent_cert timestamp;
  let pubkey := public_key_bytes parent_cert in
  _ ← lift (assert_that (length pubkey =? 97)%nat);
  _ ← lift (assert_that (bool_decide (head pubkey = Some 0x04)));
  _ ← commit_slice (drop 1 pubkey);
  mret (parent_cert, (offset + 3 + size)%nat).

(** The loop over the intermediate certificates. *)
Fixpoint chain_section (n : nat) (parent_cert : Certificate) (offset : nat) (timestamp : Z) :
    guest (Certificate * nat) :=
  match n with
  | O => mret (parent_cert, offset)
  | S n =>
      '(child_cert, size) ← certificate_at offset;
      _ ← check_validity child_cert timestamp;
      _ ← verify_child parent_cert child_cert (offset + 3);
      chain_section n child_cert (offset + 3 + size) timestamp
  end.

Definition cabundle_section (offset : nat) (leaf_cert : Certificate) (leaf_cert_offset : nat) (timestamp : Z) :
    guest nat :=
  _ ← expect_byte offset 0x68;
  _ ← expect_bytes (offset + 1) (bytes_of_string "cabundle");
  chain_size ← byte_at (offset + 9);
  _ ← lift (assert_that ((0x80 <? chain_size) && (chain_size <=? 0x90)));
  '(parent_cert, offset) ← root_section (offset + 10) timestamp;
  '(parent_cert, offset) ← chain_section (Z.to_nat (chain_size - 0x80 - 1)) parent_cert offset timestamp;
  _ ← check_validity leaf_cert timestamp;
  _ ← verify_child parent_cert leaf_cert leaf_cert_offset;
  mret offset.

Definition public_key_section (offset : nat) : guest nat :=
  _ ← expect_byte offset 0x6a;
  _ ← expect_bytes (offset + 1) (bytes_of_string "public_key");
  _ ← expect_byte (offset + 11) 0x58;
  pubkey_len ← byte_at (offset + 12);
  pubkey ← range (offset + 13) (offset + 13 + Z.to_nat pubkey_len);
  _ ← commit_slice [pubkey_len];
  _ ← commit_slice pubkey;
  mret (offset + 13 + Z.to_nat pubkey_len)%nat.

Definition user_data_section (offset : nat) : guest unit :=
  _ ← expect_byte offset 0x69;
  _ ← expect_bytes (offset + 1) (bytes_of_string "user_data");
  b ← byte_at (offset + 10);
  '(user_data_size, user_data) ←
    (if b =? 0xf6 then mret (0%nat, [])
     else if b =? 0x58 then
       size ← byte_at (offset + 11);
       d ← range (offset + 12) (offset + 12 + Z.to_nat size);
       mret (Z.to_nat size, d)
     else
       _ ← expect_byte (offset + 10) 0x59;
       size ← u16_at (offset + 11);
       d ← range (offset + 13) (offset + 13 + size);
       mret (size, d));
  _ ← commit_slice (be_bytes 2 (Z.of_nat user_data_size));
  commit_slice user_data.

Definition cose_section (payload_size : nat) (leaf_cert : Certificate) : guest unit :=
  len ← range 8 10;
  payload ← range 10 (10 + payload_size);
  let hash := sha384 (sig_structure len payload) in
  _ ← expect_byte (payload_size + 10) 0x58;
  _ ← expect_byte (payload_size + 11) 0x60;
  verifying_key ← lift (unwrap (from_sec1_bytes (public_key_bytes leaf_cert)));
  r ← range (12 + payload_size) (60 + payload_size);
  s ← range (60 + payload_size) (108 + payload_size);
  signature ← lift (unwrap (signature_from_scalars r s));
  lift (assert_that (verify_prehash verifying_key hash signature)).

Definition guest_main : guest unit :=
  '(payload_size, offset) ← initial_fields;
  '(timestamp, offset) ← timestamp_section offset;
  offset ← pcrs_section offset;
  '(leaf_cert, leaf_cert_offset, offset) ← certificate_section offset;
  offset ← cabundle_section offset leaf_cert leaf_cert_offset timestamp;
  offset ← public_key_section offset;
  _ ← user_data_section offset;
  cose_section payload_size leaf_cert.

End guest.

(** ** The mock server *)

Section mock.
Context `{Cr : Crypto}.
Variables (ROOT_CERT LEAF_CERT LEAF_KEY : bytes).

Definition opt_len (o : option bytes) : nat := match o with Some x => length x | None => 0 end.

Definition encoded_len (payload : nat) : nat :=
  if (payload <? 24)%nat then 1 + payload else if (payload <? 256)%nat then 2 + payload else 3 + payload.

Definition field_len (o : option bytes) : nat := match o with Some x => encoded_len (length x) | None => 1 end.

(** One copy into the document; a range outside of it panics. *)
Definition copy_at (attestation : bytes) (w : nat * bytes) : outcome string bytes :=
  let '(off, l) := w in
  if (off + length l <=? length attestation)%nat
  then Ok (take off attestation ++ l ++ drop (off + length l) attestation)
  else Panic.

Fixpoint copies (attestation : bytes) (ws : list (nat * bytes)) : outcome string bytes :=
  match ws with
  | [] => mret attestation
  | w :: ws => attestation ← copy_at attestation w; copies attestation ws
  end.

(** [encode]: the copies it makes at [to] and the length it returns. *)
Definition encode (to : nat) (payload : option bytes) : list (nat * bytes) * nat :=
  match payload with
  | None => ([(to, [0xf6])], 1%nat)
  | Some payload =>
      let n := length payload in
      if (n <? 24)%nat then ([(to, [0x40 + Z.of_nat n]); ((to + 1)%nat, payload)], (1 + n)%nat)
      else if (n <? 256)%nat then
        ([(to, [0x58]); ((to + 1)%nat, [Z.of_nat n]); ((to + 2)%nat, payload)], (2 + n)%nat)
      else ([(to, [0x59]); ((to + 1)%nat, be_bytes 2 (Z.of_nat n)); ((to + 3)%nat, payload)], (3 + n)%nat)
  end.

Definition pcr_copies (i : nat) : list (nat * bytes) :=
  [ ((101 + i * 51)%nat, [Z.of_nat i]); ((102 + i * 51)%nat, [0x58]); ((103 + i * 51)%nat, [0x30]);
    ((104 + i * 51)%nat, replicate 48 (Z.of_nat i)) ].

(** The fields of fixed size, in the order they are filled in. *)
Definition fixed_copies (timestamp_ms : Z) : list (nat * bytes) :=
  [ (10%nat, [0xa9]); (11%nat, [0x69]); (12%nat, bytes_of_string "module_id");
    (21%nat, [0x78; 0x27] ++ bytes_of_string "i-0d69bec447a037a2a-enc01939aab191aadd2");
    (62%nat, [0x66] ++ bytes_of_string "digest"); (69%nat, [0x66] ++ bytes_of_string "SHA384");
    (76%nat, [0x69] ++ bytes_of_string "timestamp"); (86%nat, [0x1b]); (87%nat, be_bytes 8 timestamp_ms);
    (95%nat, [0x64] ++ bytes_of_string "pcrs"); (100%nat, [0xb0]) ] ++
  concat (map pcr_copies (seq 0 16)) ++
  [ (917%nat, [0x6b] ++ bytes_of_string "certificate"); (929%nat, [0x59]);
    (930%nat, be_bytes 2 (Z.of_nat (length LEAF_CERT))); (932%nat, LEAF_CERT);
    (1398%nat, [0x68] ++ bytes_of_string "cabundle"); (1407%nat, [0x81]); (1408%nat, [0x59]);
    (1409%nat, be_bytes 2 (Z.of_nat (length ROOT_CERT))); (1411%nat, ROOT_CERT) ].

(** Fill in the payload fields; the offset after them. *)
Definition fill_payload (attestation : bytes) (timestamp_ms : Z) (public_key user_data nonce : option bytes) :
    outcome string (bytes * nat) :=
  attestation ← copies attestation (fixed_copies timestamp_ms);
  let offset := 1815%nat in
  attestation ← copies attestation [(offset, [0x6a] ++ bytes_of_string "public_key")];
  let offset := (offset + 11)%nat in
  let '(ws, n) := encode offset public_key in
  attestation ← copies attestation ws;
  let offset := (offset + n)%nat in
  attestation ← copies attestation [(offset, [0x69] ++ bytes_of_string "user_data")];
  let offset := (offset + 10)%nat in
  let '(ws, n) := encode offset user_data in
  attestation ← copies attestation ws;
  let offset := (offset + n)%nat in
  attestation ← copies attestation [(offset, [0x65] ++ bytes_of_string "nonce")];
  let offset := (offset + 6)%nat in
  let '(ws, n) := encode offset nonce in
  attestation ← copies attestation ws;
  let offset := (offset + n)%nat in
  mret (attestation, offset).

Definition get_attestation_doc (timestamp_ms : Z) (public_key user_data nonce : option bytes) :
    outcome string bytes :=
  if Nat.ltb (Z.to_nat 65535) (opt_len public_key) then Err "public key is too long, maximum of 65535"%string else
  if Nat.ltb (Z.to_nat 65535) (opt_len user_data) then Err "user_data is too long, maximum of 65535"%string else
  if Nat.ltb (Z.to_nat 65535) (opt_len nonce) then Err "nonce is too long, maximum of 65535"%string else
  let payload_size := (1832 + field_len public_key + field_len user_data + field_len nonce)%nat in
  let total_size := (payload_size + 108)%nat in
  if Nat.ltb (Z.to_nat 65535) total_size then Err "Payload too big"%string else
  let attestation := replicate total_size 0 in
  '(attestation, offset) ← fill_payload attestation timestamp_ms public_key user_data nonce;
  attestation ← copies attestation
    [ (0%nat, cose_header); (8%nat, be_bytes 2 (Z.of_nat payload_size)); (offset, [0x58]); ((offset + 1)%nat, [0x60]) ];
  len ← unwrap (slice attestation 8 10);
  payload ← unwrap (slice attestation 10 (10 + payload_size));
  let hash := sha384 (sig_structure len payload) in
  signer ← ok_or "failed to parse signer"%string (from_sec1_der LEAF_KEY);
  signature ← ok_or "failed to sign attestation"%string (sign_prehash_recoverable signer hash);
  copies attestation [((offset + 2)%nat, signature)].

End mock.
