(* ===== verification/NitroHost.v ===== *)
(** * Attestation verifier: the host of the prover

    attestation/verifier-risczero/host/src/main.rs: a document is fetched from
    a url, the guest is run on it under the prover, and the receipt printed.
    Of a receipt the model keeps its journal. *)

From stdpp Require Import pretty.
From S2P Require Import Prelude Io Keccak NitroGuest.

Section host.
Context `{Cr : Crypto}.

(** ureq's answer to a get, read to its end. *)
Context (http_get : string -> option bytes).
(** [methods::GUEST_ID], of eight 32-bit words; the Debug text of a receipt. *)
Context (GUEST_ID : list Z) (receipt_text : bytes -> string).
(** Whether the prover has what it needs for a groth16 proof. *)
Context (prover_ready : bool).

(** [prove_with_opts]: the guest is executed on its standard input; a guest
    that panics or does not end has no proof. *)
Definition prove (stdin : bytes) : option bytes :=
  if prover_ready then match guest_main stdin [] with (journal, Some (Ok tt)) => Some journal | _ => None end
  else None.

Definition host_println (line : string) : io (list string) Empty_set unit := modify (fun out => out ++ [line]).

Definition host_main (url : string) : io (list string) Empty_set bytes :=
  _ ← host_println ("GUEST: 0x" +:+ print_hex 64 (from_be (flat_map (le_bytes 4) GUEST_ID)));
  attestation ← Io.lift (unwrap (http_get url));
  _ ← host_println ("Attestation size: " +:+ pretty (length attestation));
  journal ← Io.lift (unwrap (prove attestation));
  _ ← host_println (receipt_text journal);
  mret journal.

(** A receipt is printed for the documents the guest accepts and for no other. *)
Lemma host_proves_accepted url out journal :
  prover_ready = true ->
  (host_main url out).2 = Some (Ok journal) <->
  exists attestation, http_get url = Some attestation /\ guest_main attestation [] = (journal, Some (Ok tt)).
Proof.
  intros Hready. unfold host_main, prove, mbind, io_bind. cbn. rewrite Hready.
  destruct (http_get url) as [att |]; cbn.
  - destruct (guest_main att []) as [j [[[] | [] |] |]] eqn:Hrun; cbn; split.
    all: try (intros [= <-]; by eexists). all: try discriminate.
    all: intros (a & [= <-] & Ha); rewrite Hrun in Ha; by injection Ha as ->.
  - split; [discriminate |]. by intros (a & ? & _).
Qed.

End host.
