(* ===== verification/NitroLayout.v ===== *)
(** * Attestation documents: layout and reading

    The definitions the properties of the guest are stated with, the layout of
    the mock server's document (adjacent copies are a concatenation), and one
    lemma per section of the guest on a document laid out that way. *)

From S2P Require Import Prelude Io RawProxy RawProxyProps NitroGuest.

(** ** Definitions *)

Section definitions.
Context `{Cr : Crypto}.

(** A certificate is valid at a time (in seconds). *)
Definition valid_at (timestamp : Z) (c : Certificate) : Prop :=
  not_before c < timestamp < not_after c.

(** The journal of a document. *)
Definition journal_of (timestamp pcr0 pcr1 pcr2 root_key public_key user_data : bytes) : bytes :=
  timestamp ++ pcr0 ++ pcr1 ++ pcr2 ++ root_key ++ [Z.of_nat (length public_key)] ++ public_key ++
  be_bytes 2 (Z.of_nat (length user_data)) ++ user_data.

(** The encoding of an optional field of the mock document. *)
Definition encoded (o : option bytes) : bytes := concat (map snd (encode 0 o).1).

(** The payload of the mock document. *)
Definition mock_payload (ROOT_CERT LEAF_CERT : bytes) (timestamp_ms : Z) (public_key user_data nonce : option bytes) :
    bytes :=
  concat (map snd (fixed_copies ROOT_CERT LEAF_CERT timestamp_ms)) ++
  ([0x6a] ++ bytes_of_string "public_key") ++ encoded public_key ++
  ([0x69] ++ bytes_of_string "user_data") ++ encoded user_data ++
  ([0x65] ++ bytes_of_string "nonce") ++ encoded nonce.

End definitions.

(** The end of a run of adjacent copies starting at [off]. *)
Fixpoint contiguous (off : nat) (ws : list (nat * bytes)) : option nat :=
  match ws with
  | [] => Some off
  | (o, l) :: ws => if (o =? off)%nat then contiguous (off + length l) ws else None
  end.

(** ** Adjacent copies *)

Lemma copies_contiguous ws : forall off e buf, contiguous off ws = Some e -> (e <= length buf)%nat ->
  e = (off + length (concat (map snd ws)))%nat /\
  copies buf ws = Ok (take off buf ++ concat (map snd ws) ++ drop e buf).
Proof.
  induction ws as [| [o l] ws IH]; intros off e buf Hc He; cbn [contiguous copies map concat snd] in *.
  - injection Hc as <-. split; [simpl; lia |]. simpl. by rewrite take_drop.
  - destruct (Nat.eqb_spec o off) as [-> |]; [| done].
    assert (Hle : (off + length l <= e)%nat).
    { clear -Hc. revert Hc. generalize (off + length l)%nat as n. induction ws as [| [o' l'] ws IH]; intros n; cbn.
      - intros [= ->]. lia.
      - destruct (Nat.eqb_spec o' n); [| done]. intros Hn%IH. lia. }
    unfold copy_at. destruct (Nat.leb_spec (off + length l) (length buf)); [| lia].
    cbn [mbind outcome_bind].
    destruct (IH _ _ (take off buf ++ l ++ drop (off + length l) buf) Hc) as [He' ->].
    { lengths. }
    split; [lengths |]. f_equal.
    assert (Hlen : length (take off buf ++ l) = (off + length l)%nat) by (lengths).
    rewrite (app_assoc (take off buf) l (drop _ buf)).
    rewrite take_app_length' by done. rewrite drop_app_ge by lia.
    rewrite drop_drop, Hlen, <- !app_assoc. do 3 f_equal. f_equal. lia.
Qed.

Lemma contiguous_app ws1 ws2 off :
  contiguous off (ws1 ++ ws2) = e ← contiguous off ws1; contiguous e ws2.
Proof.
  revert off. induction ws1 as [| [o l] ws1 IH]; intros off; cbn; [done |].
  destruct (o =? off)%nat; [apply IH | done].
Qed.

Lemma encode_contiguous off o :
  concat (map snd (encode off o).1) = encoded o /\ (encode off o).2 = length (encoded o) /\
  contiguous off (encode off o).1 = Some (off + (encode off o).2)%nat.
Proof.
  assert (Hend : forall a b : nat, a = b -> Some a = Some b) by congruence.
  unfold encoded. destruct o as [x |]; cbn [encode]; [| cbn; rewrite Nat.eqb_refl; auto].
  destruct (length x <? 24)%nat; [| destruct (length x <? 256)%nat];
    cbn [fst snd map concat contiguous]; rewrite ?length_be_bytes; cbn [length];
    (split; [done |]; split; [rewrite !length_app, ?length_be_bytes; simpl; lia |]);
    repeat match goal with |- context [(?a =? ?b)%nat] => destruct (Nat.eqb_spec a b); [| lia] end;
    apply Hend; lia.
Qed.

Lemma field_len_encoded o : field_len o = length (encoded o).
Proof.
  unfold encoded, field_len, encoded_len. destruct o as [x |]; cbn [encode]; [| done].
  destruct (length x <? 24)%nat; [| destruct (length x <? 256)%nat];
    cbn [fst map snd concat]; rewrite ?length_app, ?length_be_bytes; simpl; lia.
Qed.

Lemma copies_app a b buf : copies buf (a ++ b) = (buf ← copies buf a; copies buf b).
Proof.
  revert buf. induction a as [| w a IH]; intros buf; [done |]. cbn [app copies].
  destruct (copy_at buf w) as [buf' | |]; cbn; [apply IH | done | done].
Qed.

(** Adjacent copies over [mid] replace it. *)
Lemma copies_mid pre mid post ws :
  contiguous (length pre) ws = Some (length pre + length mid)%nat ->
  copies (pre ++ mid ++ post) ws = Ok (pre ++ concat (map snd ws) ++ post).
Proof.
  intros Hc. apply copies_contiguous with (buf := pre ++ mid ++ post) in Hc as [_ ->].
  - rewrite take_app_length, (app_assoc pre mid post), drop_app_length' by (lengths). done.
  - lengths.
Qed.

(** The COSE fields go around the payload. *)
Lemma cose_copies P len z10 z2 post :
  length z10 = 10%nat -> length len = 2%nat -> length z2 = 2%nat ->
  copies (z10 ++ P ++ z2 ++ post)
    [(0%nat, cose_header); (8%nat, len); ((10 + length P)%nat, [0x58]); ((10 + length P + 1)%nat, [0x60])] =
  Ok ((cose_header ++ len) ++ P ++ [0x58; 0x60] ++ post).
Proof.
  intros H10 Hlen H2.
  match goal with |- copies _ ([?a; ?b; ?c; ?d]) = _ => change [a; b; c; d] with ([a; b] ++ [c; d]) end.
  rewrite copies_app. change (z10 ++ P ++ z2 ++ post) with ([] ++ z10 ++ (P ++ z2 ++ post)).
  rewrite copies_mid.
  2: { rewrite H10. cbn [contiguous length Nat.eqb Nat.add]. change (length cose_header) with 8%nat.
       cbn [contiguous Nat.eqb Nat.add]. by rewrite Hlen. }
  cbn [mbind outcome_bind map snd concat app]. rewrite app_nil_r.
  set (B := cose_header ++ len). assert (HB : length B = 10%nat) by (unfold B; rewrite length_app, Hlen; done).
  rewrite (app_assoc B P). rewrite (copies_mid (B ++ P) z2 post).
  2: { rewrite length_app, HB, H2. cbn [contiguous length]. rewrite !Nat.eqb_refl. apply f_equal. lia. }
  cbn [map snd concat app]. by rewrite <- app_assoc.
Qed.

(** ** The layout of the mock document *)

Section layout.
Context `{Cr : Crypto}.
Variables (ROOT_CERT LEAF_CERT LEAF_KEY : bytes).
Hypothesis Hroot : length ROOT_CERT = 404%nat.
Hypothesis Hleaf : length LEAF_CERT = 466%nat.
#[local] Set Default Proof Using "Type*".

Lemma fixed_contiguous ts : contiguous 10 (fixed_copies ROOT_CERT LEAF_CERT ts) = Some 1815%nat.
Proof.
  unfold fixed_copies. rewrite contiguous_app.
  match goal with |- context [contiguous 10 ?l] => change (contiguous 10 l) with (Some 101%nat) end.
  cbn [mbind option_bind].
  rewrite contiguous_app.
  match goal with |- context [contiguous 101 ?l] => change (contiguous 101 l) with (Some 917%nat) end.
  cbn [mbind option_bind].
  cbn [contiguous]. rewrite Hroot, Hleaf. reflexivity.
Qed.

(** All the copies of the payload are adjacent; [o] is the end of the fixed
    part, 1815. *)
Lemma payload_copies o ts pk ud nonce :
  contiguous 10 (fixed_copies ROOT_CERT LEAF_CERT ts) = Some o ->
  let ws := fixed_copies ROOT_CERT LEAF_CERT ts ++ [(o, [0x6a] ++ bytes_of_string "public_key")] ++
    (encode (o + 11) pk).1 ++ [((o + 11 + (encode (o + 11) pk).2)%nat, [0x69] ++ bytes_of_string "user_data")] ++
    (encode (o + 11 + (encode (o + 11) pk).2 + 10) ud).1 ++
    [((o + 11 + (encode (o + 11) pk).2 + 10 + (encode (o + 11 + (encode (o + 11) pk).2 + 10) ud).2)%nat,
      [0x65] ++ bytes_of_string "nonce")] ++
    (encode (o + 11 + (encode (o + 11) pk).2 + 10 + (encode (o + 11 + (encode (o + 11) pk).2 + 10) ud).2 + 6) nonce).1 in
  concat (map snd ws) = mock_payload ROOT_CERT LEAF_CERT ts pk ud nonce /\
  contiguous 10 ws = Some (o + 27 + (field_len pk + field_len ud + field_len nonce))%nat.
Proof.
  intros Hfixed ws. unfold ws. clear ws. rewrite !map_app, !concat_app.
  destruct (encode_contiguous (o + 11) pk) as (-> & -> & Hc1).
  set (n1 := length (encoded pk)) in *.
  destruct (encode_contiguous (o + 11 + n1 + 10) ud) as (-> & -> & Hc2). set (n2 := length (encoded ud)) in *.
  destruct (encode_contiguous (o + 11 + n1 + 10 + n2 + 6) nonce) as (-> & Hn3 & Hc3).
  split; [unfold mock_payload; cbn [map concat snd]; by rewrite !app_nil_r |].
  assert (Hone : forall n l, contiguous n [(n, l)] = Some (n + length l)%nat).
  { intros n l. cbn [contiguous]. by rewrite Nat.eqb_refl. }
  rewrite contiguous_app, Hfixed. cbn [mbind option_bind].
  rewrite contiguous_app, Hone. cbn [mbind option_bind].
  change (length ([0x6a] ++ bytes_of_string "public_key")) with 11%nat.
  rewrite contiguous_app, Hc1. cbn [mbind option_bind]. rewrite contiguous_app, Hone. cbn [mbind option_bind].
  change (length ([0x69] ++ bytes_of_string "user_data")) with 10%nat.
  rewrite contiguous_app, Hc2. cbn [mbind option_bind]. rewrite contiguous_app, Hone. cbn [mbind option_bind].
  change (length ([0x65] ++ bytes_of_string "nonce")) with 6%nat. rewrite Hc3, Hn3.
  rewrite !field_len_encoded. fold n1 n2. apply f_equal. lia.
Qed.

Lemma mock_payload_length ts pk ud nonce :
  length (mock_payload ROOT_CERT LEAF_CERT ts pk ud nonce) = (1832 + field_len pk + field_len ud + field_len nonce)%nat.
Proof.
  pose proof (fixed_contiguous ts) as Hf. assert (Ho : (1832 = 1815 + 17)%nat) by done. rewrite Ho. clear Ho.
  revert Hf. generalize 1815%nat as o. intros o Hf. destruct (payload_copies o ts pk ud nonce Hf) as [Hp Hc].
  pose proof (copies_contiguous _ _ _ (replicate (o + 27 + (field_len pk + field_len ud + field_len nonce)) 0) Hc) as [He _].
  { by rewrite length_replicate. }
  rewrite Hp in He. lia.
Qed.

(** The payload fields replace the zeros they cover. *)
Lemma fill_payload_ok ts pk ud nonce pre mid post :
  length pre = 10%nat -> length mid = length (mock_payload ROOT_CERT LEAF_CERT ts pk ud nonce) ->
  fill_payload ROOT_CERT LEAF_CERT (pre ++ mid ++ post) ts pk ud nonce =
    Ok (pre ++ mock_payload ROOT_CERT LEAF_CERT ts pk ud nonce ++ post,
        (10 + length (mock_payload ROOT_CERT LEAF_CERT ts pk ud nonce))%nat).
Proof.
  intros Hpre Hmid. rewrite mock_payload_length in Hmid |- *. unfold fill_payload.
  pose proof (fixed_contiguous ts) as Hf. assert (Ho : (1832 = 1815 + 17)%nat) by done. rewrite Ho in *. clear Ho.
  revert Hf Hmid. generalize 1815%nat as o. intros o Hf Hmid.
  destruct (payload_copies o ts pk ud nonce Hf) as [<- Hc]. clear Hf.
  match type of Hc with contiguous 10 ?ws = _ =>
    assert (Hall : copies (pre ++ mid ++ post) ws = Ok (pre ++ concat (map snd ws) ++ post)) end.
  { apply copies_mid. rewrite Hpre, Hc, Hmid. apply f_equal. lia. }
  revert Hall. generalize (pre ++ mid ++ post) as a. intros a. clear Hc Hmid.
  destruct (encode_contiguous (o + 11) pk) as (_ & Hn1 & _).
  destruct (encode_contiguous (o + 11 + (encode (o + 11) pk).2 + 10) ud) as (_ & Hn2 & _).
  destruct (encode_contiguous (o + 11 + (encode (o + 11) pk).2 + 10 + (encode (o + 11 + (encode (o + 11) pk).2 + 10) ud).2 + 6) nonce)
    as (_ & Hn3 & _). rewrite !field_len_encoded.
  destruct (encode (o + 11) pk) as [ws1 n1]. cbn [fst snd] in *.
  destruct (encode (o + 11 + n1 + 10) ud) as [ws2 n2]. cbn [fst snd] in *.
  destruct (encode (o + 11 + n1 + 10 + n2 + 6) nonce) as [ws3 n3]. cbn [fst snd] in *. subst n1 n2 n3.
  do 6 (rewrite copies_app;
    match goal with |- context [copies ?b ?ws ≫= _] => destruct (copies b ws) end;
    [| done | done]; cbn [mbind outcome_bind]).
  intros ->. cbn [mbind outcome_bind mret outcome_ret]. do 2 f_equal. lia.
Qed.

(** The document is the COSE array of the payload and its signature. *)
Lemma mock_doc_shape ts pk ud nonce att :
  (forall k h sg, sign_prehash_recoverable k h = Some sg -> length sg = 96%nat) ->
  get_attestation_doc ROOT_CERT LEAF_CERT LEAF_KEY ts pk ud nonce = Ok att ->
  let P := mock_payload ROOT_CERT LEAF_CERT ts pk ud nonce in
  let len := be_bytes 2 (Z.of_nat (length P)) in
  (length P <= Z.to_nat 65427)%nat /\
  exists signer sg, from_sec1_der LEAF_KEY = Some signer /\
    sign_prehash_recoverable signer (sha384 (sig_structure len P)) = Some sg /\ length sg = 96%nat /\
    att = cose_header ++ len ++ P ++ [0x58; 0x60] ++ sg.
Proof.
  intros Hsign Hdoc P len. unfold get_attestation_doc in Hdoc.
  destruct (Nat.ltb _ (opt_len pk)); [done |]. destruct (Nat.ltb _ (opt_len ud)); [done |].
  destruct (Nat.ltb _ (opt_len nonce)); [done |].
  rewrite <- (mock_payload_length ts pk ud nonce) in Hdoc. fold P len in Hdoc.
  destruct (Nat.ltb_spec (Z.to_nat 65535) (length P + 108)) as [| Hmax]; [done |].
  replace (length P + 108)%nat with (10 + (length P + (2 + 96)))%nat in Hdoc by lia.
  rewrite (replicate_add 10), (replicate_add (length P)), (replicate_add 2 96) in Hdoc.
  rewrite fill_payload_ok in Hdoc by (rewrite ?length_replicate; done). fold P in Hdoc.
  cbn [mbind outcome_bind] in Hdoc.
  rewrite cose_copies in Hdoc by (rewrite ?length_replicate; done). cbn [mbind outcome_bind] in Hdoc.
  set (B := cose_header ++ len) in *. assert (HB : length B = 10%nat) by reflexivity.
  rewrite !slice_field in Hdoc by (lengths). cbn [unwrap mbind outcome_bind] in Hdoc.
  assert (Hl : field (B ++ P ++ [88; 96] ++ replicate 96 0) 8 (10 - 8) = len) by reflexivity.
  assert (Hp : field (B ++ P ++ [88; 96] ++ replicate 96 0) 10 (10 + length P - 10) = P).
  { unfold field. rewrite drop_app_length' by done. apply take_app_length'. lia. }
  rewrite Hl, Hp in Hdoc. clear Hl Hp.
  apply bind_Ok in Hdoc as (signer & Hsigner%ok_or_Ok & Hdoc).
  apply bind_Ok in Hdoc as (sg & Hsg%ok_or_Ok & Hdoc).
  pose proof (Hsign _ _ _ Hsg) as H96. split; [lia |]. exists signer, sg. do 3 (split; [done |]).
  rewrite (app_assoc P), (app_assoc B) in Hdoc. rewrite <- (app_nil_r (replicate 96 0)) in Hdoc.
  rewrite copies_mid in Hdoc.
  2: { rewrite length_replicate, !length_app, HB. cbn [contiguous length].
       rewrite (proj2 (Nat.eqb_eq _ _)) by lia. apply f_equal. lia. }
  assert (Hatt : Ok (E := string) att = Ok (cose_header ++ len ++ P ++ [0x58; 0x60] ++ sg)); [| congruence].
  rewrite <- Hdoc. cbn [map snd concat]. unfold B. by rewrite !app_nil_r, <- !app_assoc.
Qed.

End layout.

(** ** Reading a document by its chunks *)

Section reading.
Context `{Cr : Crypto}.
Variable att : bytes.

Lemma drop_length_bound off (p rest : bytes) : drop off att = p ++ rest -> p <> [] ->
  (off + length p <= length att)%nat.
Proof.
  intros Hd Hp. assert (Hl : length (drop off att) = length (p ++ rest)) by by rewrite Hd.
  rewrite length_drop, length_app in Hl. destruct p; [done |]. simpl in *. lia.
Qed.

Lemma next_chunk off p rest n : drop off att = p ++ rest -> n = (off + length p)%nat -> drop n att = rest.
Proof. intros Hd ->. rewrite <- drop_drop, Hd. apply drop_app_length. Qed.

Lemma byte_at_ok off k p rest v j : drop off att = p ++ rest -> p !! k = Some v ->
  byte_at att (off + k) j = (j, Some (Ok v)).
Proof.
  intros Hd Hk. unfold byte_at. rewrite <- lookup_drop, Hd.
  rewrite lookup_app_l by by eapply lookup_lt_Some. by rewrite Hk.
Qed.

Lemma range_ok off a b p rest j : drop off att = p ++ rest -> (a <= b)%nat -> (0 < b <= length p)%nat ->
  range att (off + a) (off + b) j = (j, Some (Ok (field p a (b - a)))).
Proof.
  intros Hd Hab Hb. unfold range.
  pose proof (drop_length_bound off p rest Hd) as Hl.
  rewrite slice_field; [| lia | assert (p <> []) by (destruct p; [simpl in *; lia | done]); specialize (Hl H); lia].
  unfold lift, unwrap. do 3 f_equal. replace (off + b - (off + a))%nat with (b - a)%nat by lia.
  unfold field at 1. rewrite <- drop_drop, Hd. fold (field (p ++ rest) a (b - a)). apply field_app. lia.
Qed.

Lemma expect_byte_ok off k p rest v j : drop off att = p ++ rest -> p !! k = Some v ->
  expect_byte att (off + k) v j = (j, Some (Ok tt)).
Proof.
  intros Hd Hk. unfold expect_byte. erewrite io_bind_Ok by (by eapply byte_at_ok).
  by rewrite Z.eqb_refl.
Qed.

Lemma expect_byte_wrong off k p rest v w j : drop off att = p ++ rest -> p !! k = Some w -> w <> v ->
  expect_byte att (off + k) v j = (j, Some Panic).
Proof.
  intros Hd Hk Hw. unfold expect_byte. erewrite io_bind_Ok by (by eapply byte_at_ok).
  by rewrite (proj2 (Z.eqb_neq _ _)).
Qed.

Lemma expect_bytes_ok off k p rest l j : drop off att = p ++ rest -> (0 < length l)%nat ->
  (k + length l <= length p)%nat -> field p k (length l) = l ->
  expect_bytes att (off + k) l j = (j, Some (Ok tt)).
Proof.
  intros Hd Hl Hk Hf. unfold expect_bytes. rewrite <- Nat.add_assoc.
  erewrite io_bind_Ok by (eapply range_ok; [exact Hd | lia | lia]).
  replace (k + length l - k)%nat with (length l) by lia. rewrite Hf.
  unfold list_eqb. by rewrite bool_decide_eq_true_2.
Qed.

Lemma u16_at_ok off k p rest a b j : drop off att = p ++ rest -> p !! k = Some a -> p !! (k + 1)%nat = Some b ->
  u16_at att (off + k) j = (j, Some (Ok (Z.to_nat (from_be [a; b])))).
Proof.
  intros Hd Ha Hb. unfold u16_at. erewrite io_bind_Ok by (by eapply byte_at_ok).
  rewrite <- Nat.add_assoc. erewrite io_bind_Ok by (by eapply byte_at_ok). done.
Qed.

Lemma commit_ok l j : @commit_slice l j = (j ++ l, Some (Ok tt)).
Proof. done. Qed.

End reading.

(** Offsets without an explicit zero. *)
Ltac zero_offset off :=
  match goal with
  | |- context [expect_byte ?att off] => rewrite <- (Nat.add_0_r off) at 1
  | |- context [expect_bytes ?att off] => rewrite <- (Nat.add_0_r off) at 1
  end.

(** One read of a known chunk, described by [H : drop off att = p ++ rest]. *)
Ltac read H :=
  first
    [ erewrite io_bind_Ok by (eapply expect_byte_ok; [exact H | reflexivity])
    | erewrite io_bind_Ok by (eapply expect_bytes_ok; [exact H | cbn; lia | cbn; lia | reflexivity])
    | erewrite io_bind_Ok by (eapply byte_at_ok; [exact H | reflexivity])
    | erewrite io_bind_Ok by (eapply u16_at_ok; [exact H | reflexivity | reflexivity]) ].

(** The same from the start of the document. *)
Ltac read0 H :=
  first
    [ erewrite io_bind_Ok by (eapply (expect_byte_ok _ 0); [exact H | reflexivity])
    | erewrite io_bind_Ok by (eapply (expect_bytes_ok _ 0); [exact H | cbn; lia | cbn; lia | reflexivity])
    | erewrite io_bind_Ok by (eapply (byte_at_ok _ 0); [exact H | reflexivity])
    | erewrite io_bind_Ok by (eapply (u16_at_ok _ 0); [exact H | reflexivity | reflexivity]) ].

Section sections.
Context `{Cr : Crypto}.
Variable att : bytes.

Definition module_id : bytes := bytes_of_string "i-0d69bec447a037a2a-enc01939aab191aadd2".
Definition chunk_initial (len : bytes) : bytes :=
  cose_header ++ len ++ [0xa9; 0x69] ++ bytes_of_string "module_id" ++ [0x78; 0x27] ++ module_id.
Definition chunk_timestamp (ts : Z) : bytes :=
  [0x66] ++ bytes_of_string "digest" ++ [0x66] ++ bytes_of_string "SHA384" ++ [0x69] ++
  bytes_of_string "timestamp" ++ [0x1b] ++ be_bytes 8 ts.
Definition chunk_pcr (i : Z) : bytes := [i; 0x58; 0x30] ++ replicate 48 i.
Definition chunk_pcrs : bytes := [0x64] ++ bytes_of_string "pcrs" ++ [0xb0].

Lemma initial_fields_ok n rest j :
  drop 0 att = chunk_initial (be_bytes 2 n) ++ rest -> 0 <= n < 65536 ->
  length att = (10 + Z.to_nat n + 98)%nat ->
  initial_fields att j = (j, Some (Ok (Z.to_nat n, 62%nat))).
Proof.
  intros Hd Hn Hlen. unfold initial_fields.
  read0 Hd. read0 Hd.
  replace (from_be _) with n.
  2: { rewrite <- (Z.mod_small n (256 ^ Z.of_nat 2)) at 1 by lia. rewrite <- from_be_be_bytes. reflexivity. }
  rewrite Hlen, Nat.eqb_refl. cbn [assert_that]. erewrite io_bind_Ok by reflexivity.
  read0 Hd. read0 Hd. read0 Hd. reflexivity.
Qed.

Lemma timestamp_section_ok off ts rest j :
  drop off att = chunk_timestamp ts ++ rest ->
  timestamp_section att off j = (j ++ be_bytes 8 ts, Some (Ok (from_be (be_bytes 8 ts) / 1000, (off + 33)%nat))).
Proof.
  intros Hd. unfold timestamp_section. zero_offset off. read Hd. do 4 read Hd.
  erewrite io_bind_Ok by (eapply range_ok; [exact Hd | lia | cbn; lia]).
  reflexivity.
Qed.

Lemma pcr_entries_ok l : forall off rest j,
  drop off att = concat (map chunk_pcr l) ++ rest ->
  pcr_entries att l off j =
    (j ++ concat (map (fun i => if i <? 3 then replicate 48 i else []) l), Some (Ok (off + 51 * length l)%nat)).
Proof.
  induction l as [| i l IH]; intros off rest j Hd; cbn [pcr_entries].
  - cbn. rewrite app_nil_r. unfold mret, io_ret. do 3 f_equal. lia.
  - cbn [map concat] in Hd. rewrite <- app_assoc in Hd.
    assert (He : pcr_entry att i off j = (j ++ (if i <? 3 then replicate 48 i else []), Some (Ok (off + 51)%nat))).
    { unfold pcr_entry. zero_offset off. read Hd. destruct (i <? 3).
      - erewrite io_bind_Ok; [reflexivity |].
        erewrite io_bind_Ok by (eapply range_ok; [exact Hd | lia | cbn; lia]). reflexivity.
      - erewrite io_bind_Ok by reflexivity. by rewrite app_nil_r. }
    erewrite io_bind_Ok by exact He.
    rewrite (IH (off + 51)%nat rest) by (eapply next_chunk; [exact Hd | reflexivity]).
    cbn [map concat length]. rewrite <- app_assoc. do 3 f_equal. lia.
Qed.

Lemma pcrs_section_ok off rest j :
  drop off att = chunk_pcrs ++ concat (map chunk_pcr (seqZ 0 16)) ++ rest ->
  pcrs_section att off j =
    (j ++ replicate 48 0 ++ replicate 48 1 ++ replicate 48 2, Some (Ok (off + 822)%nat)).
Proof.
  intros Hd. unfold pcrs_section. zero_offset off. do 3 read Hd.
  rewrite (pcr_entries_ok (seqZ 0 16) (off + 6) rest) by (eapply next_chunk; [exact Hd | reflexivity]).
  apply f_equal2; [reflexivity |]. do 2 apply f_equal. change (length (seqZ 0 16)) with 16%nat. lia.
Qed.

End sections.

(** ** The certificates of the mock server *)

(** What the mock server's certificates and keys satisfy at a time in
    milliseconds. *)
Record mock_pki `{Cr : Crypto} (ROOT_CERT LEAF_CERT LEAF_KEY : bytes) (timestamp_ms : Z) (root_key : bytes) : Prop := {
  root_length : length ROOT_CERT = 404%nat;
  leaf_length : length LEAF_CERT = 466%nat;
  pki_chain : exists root leaf key lkey tbs sig c d,
    from_der ROOT_CERT = Some root /\ from_der LEAF_CERT = Some leaf /\
    valid_at (timestamp_ms / 1000) root /\ valid_at (timestamp_ms / 1000) leaf /\
    public_key_bytes root = 0x04 :: root_key /\ length root_key = 96%nat /\
    field LEAF_CERT 0 2 = [0x30; 0x82] /\ field LEAF_CERT 4 4 = [0x30; 0x82; c; d] /\
    slice LEAF_CERT 4 (8 + Z.to_nat (from_be [c; d])) = Some tbs /\
    signature_from_der (signature_bytes leaf) = Some sig /\
    from_sec1_bytes (public_key_bytes root) = Some key /\ verify key tbs sig = true /\
    from_sec1_bytes (public_key_bytes leaf) = Some lkey /\
    forall signer h sg, from_sec1_der LEAF_KEY = Some signer -> sign_prehash_recoverable signer h = Some sg ->
      exists s, signature_from_scalars (take 48 sg) (drop 48 sg) = Some s /\ verify_prehash lkey h s = true;
  signature_length : forall k h sg, sign_prehash_recoverable k h = Some sg -> length sg = 96%nat
}.

(** The optional fields the guest can read. *)
Definition readable (public_key user_data : option bytes) : bool :=
  match public_key with Some k => (24 <=? length k)%nat && (length k <? 256)%nat | None => false end &&
  match user_data with Some u => (24 <=? length u)%nat | None => true end.

Section optional.
Context `{Cr : Crypto}.
Variable att : bytes.

Lemma io_panic_l {W E A B} (m : io W E A) (f : A -> io W E B) w w' :
  m w = (w', Some Panic) -> ((m ≫= f) w).2 = Some Panic.
Proof. intros Hm. unfold mbind, io_bind. by rewrite Hm. Qed.

Definition chunk_public_key (o : option bytes) : bytes := ([0x6a] ++ bytes_of_string "public_key") ++ encoded o.
Definition chunk_user_data (o : option bytes) : bytes := ([0x69] ++ bytes_of_string "user_data") ++ encoded o.

Lemma encoded_short x : (length x < 24)%nat -> encoded (Some x) = (0x40 + Z.of_nat (length x)) :: x.
Proof. intros H. unfold encoded. cbn [encode]. rewrite (proj2 (Nat.ltb_lt _ _) H). cbn. by rewrite app_nil_r. Qed.

Lemma encoded_medium x : (24 <= length x < 256)%nat -> encoded (Some x) = 0x58 :: Z.of_nat (length x) :: x.
Proof.
  intros H. unfold encoded. cbn [encode]. rewrite (proj2 (Nat.ltb_ge _ 24)), (proj2 (Nat.ltb_lt _ 256)) by lia.
  cbn. by rewrite app_nil_r.
Qed.

Lemma encoded_long x : (256 <= length x)%nat ->
  encoded (Some x) = 0x59 :: be_bytes 2 (Z.of_nat (length x)) ++ x.
Proof.
  intros H. unfold encoded. cbn [encode]. rewrite (proj2 (Nat.ltb_ge _ 24)), (proj2 (Nat.ltb_ge _ 256)) by lia.
  cbn [fst map snd concat app]. by rewrite app_nil_r.
Qed.

Lemma public_key_section_ok off k rest j : (24 <= length k < 256)%nat ->
  drop off att = chunk_public_key (Some k) ++ rest ->
  public_key_section att off j =
    (j ++ [Z.of_nat (length k)] ++ k, Some (Ok (off + 13 + length k)%nat)).
Proof.
  intros Hk Hd. unfold chunk_public_key in Hd. rewrite encoded_medium in Hd by done.
  unfold public_key_section. zero_offset off. do 4 read Hd. rewrite Nat2Z.id.
  rewrite <- Nat.add_assoc.
  erewrite io_bind_Ok by (eapply range_ok; [exact Hd | lia | cbn [app length bytes_of_string]; lia]).
  replace (13 + length k - 13)%nat with (length k) by lia.
  unfold field. cbn [app bytes_of_string drop]. rewrite firstn_all.
  unfold commit_slice, modify, mbind, io_bind, mret, io_ret. by rewrite <- !app_assoc.
Qed.

Lemma public_key_section_panics off o rest j : readable o None = false ->
  drop off att = chunk_public_key o ++ rest ->
  (public_key_section att off j).2 = Some Panic.
Proof.
  intros Hr Hd. unfold chunk_public_key in Hd.
  assert (Hb : exists v p, encoded o = v :: p /\ v <> 0x58).
  { destruct o as [k |]; [| by eexists _, _]. unfold readable in Hr. rewrite andb_true_r in Hr.
    destruct (decide (length k < 24)%nat); [rewrite encoded_short by done; do 2 eexists; split; [done | lia] |].
    destruct (decide (length k < 256)%nat).
    - rewrite (proj2 (Nat.leb_le _ _)), (proj2 (Nat.ltb_lt _ _)) in Hr by lia. done.
    - rewrite encoded_long by lia. by do 2 eexists. }
  destruct Hb as (v & p & Hb & Hv). rewrite Hb in Hd.
  unfold public_key_section. zero_offset off. do 2 read Hd.
  eapply io_panic_l, expect_byte_wrong; [exact Hd | reflexivity | done].
Qed.

Lemma user_data_section_ok off o rest j : (opt_len o <= Z.to_nat 65535)%nat ->
  match o with Some u => (24 <=? length u)%nat | None => true end = true ->
  drop off att = chunk_user_data o ++ rest ->
  user_data_section att off j =
    (j ++ be_bytes 2 (Z.of_nat (opt_len o)) ++ default [] o, Some (Ok tt)).
Proof.
  intros Hmax Hr Hd. unfold chunk_user_data in Hd. unfold user_data_section.
  destruct o as [u |]; cbn [opt_len default] in *.
  2: { zero_offset off. do 3 read Hd. erewrite io_bind_Ok by reflexivity. rewrite app_assoc. reflexivity. }
  apply Nat.leb_le in Hr. destruct (decide (length u < 256)%nat) as [Hu | Hu].
  - rewrite encoded_medium in Hd by lia. zero_offset off. do 3 read Hd.
    erewrite io_bind_Ok; cycle 1.
    { cbn [Z.eqb Pos.eqb]. read Hd. rewrite <- Nat.add_assoc, Nat2Z.id.
      erewrite io_bind_Ok by (eapply range_ok; [exact Hd | lia | cbn [app length bytes_of_string]; lia]). reflexivity. }
    replace (12 + length u - 12)%nat with (length u) by lia. unfold field. cbn [app bytes_of_string drop].
    rewrite firstn_all. unfold commit_slice, modify, mbind, io_bind. by rewrite <- app_assoc.
  - rewrite encoded_long in Hd by lia. zero_offset off. do 3 read Hd.
    erewrite io_bind_Ok; cycle 1.
    { cbn [Z.eqb Pos.eqb]. read Hd. read Hd.
      replace (from_be _) with (Z.of_nat (length u)).
      2: { rewrite <- (Z.mod_small (Z.of_nat (length u)) (256 ^ Z.of_nat 2)) at 1 by (change (256 ^ Z.of_nat 2) with 65536; lia).
           rewrite <- from_be_be_bytes. reflexivity. }
      rewrite <- Nat.add_assoc, Nat2Z.id.
      erewrite io_bind_Ok by (eapply range_ok; [exact Hd | lia | cbn [app length bytes_of_string be_bytes]; lia]). reflexivity. }
    replace (13 + length u - 13)%nat with (length u) by lia. unfold field. cbn [app bytes_of_string be_bytes drop].
    rewrite firstn_all. unfold commit_slice, modify, mbind, io_bind. by rewrite <- app_assoc.
Qed.

Lemma user_data_section_panics off u rest j : (length u < 24)%nat ->
  drop off att = chunk_user_data (Some u) ++ rest ->
  (user_data_section att off j).2 = Some Panic.
Proof.
  intros Hu Hd. unfold chunk_user_data in Hd. rewrite encoded_short in Hd by done.
  unfold user_data_section. zero_offset off. do 3 read Hd.
  rewrite (proj2 (Z.eqb_neq _ 0xf6)), (proj2 (Z.eqb_neq _ 0x58)) by lia.
  eapply io_panic_l. unfold mbind at 1, io_bind at 1.
  erewrite expect_byte_wrong; [reflexivity | exact Hd | reflexivity | lia].
Qed.

End optional.

(** ** The certificate sections on a mock document *)

Section certificates.
Context `{Cr : Crypto}.
Variable att : bytes.

(** A certificate behind its length. *)
Definition with_length (cert : bytes) : bytes := [0x59] ++ be_bytes 2 (Z.of_nat (length cert)) ++ cert.

Lemma certificate_at_ok off cert rest j c : drop off att = with_length cert ++ rest ->
  0 < Z.of_nat (length cert) < 65536 -> from_der cert = Some c ->
  certificate_at att off j = (j, Some (Ok (c, length cert))).
Proof.
  intros Hd Hlen Hc. unfold certificate_at. zero_offset off. read Hd. read Hd.
  replace (from_be _) with (Z.of_nat (length cert)).
  2: { rewrite <- (Z.mod_small (Z.of_nat (length cert)) (256 ^ Z.of_nat 2)) at 1
         by (change (256 ^ Z.of_nat 2) with 65536; lia).
       rewrite <- from_be_be_bytes. reflexivity. }
  rewrite <- Nat.add_assoc, Nat2Z.id.
  erewrite io_bind_Ok by (eapply range_ok; [exact Hd | lia |
    unfold with_length; rewrite !length_app, length_be_bytes; cbn [length]; lia]).
  replace (3 + length cert - 3)%nat with (length cert) by lia.
  replace (field _ _ _) with cert by (unfold field, with_length; cbn [app be_bytes drop]; by rewrite firstn_all).
  by rewrite Hc.
Qed.

Lemma check_validity_ok c t j : valid_at t c -> check_validity c t j = (j, Some (Ok tt)).
Proof.
  intros [Hb Ha]. unfold check_validity. rewrite (proj2 (Z.ltb_lt _ _) Hb).
  erewrite io_bind_Ok by reflexivity. by rewrite (proj2 (Z.ltb_lt _ _) Ha).
Qed.

Lemma field_lookup (l : bytes) a n k v : field l a n !! k = Some v -> l !! (a + k)%nat = Some v.
Proof.
  intros H. pose proof (lookup_lt_Some _ _ _ H) as Hk. unfold field in *.
  rewrite length_take in Hk. rewrite lookup_take in H.
  case_decide; [| done]. by rewrite <- lookup_drop.
Qed.

Lemma verify_child_ok parent child off cert rest j c d tbs key sig :
  drop off att = cert ++ rest -> field cert 0 2 = [0x30; 0x82] -> field cert 4 4 = [0x30; 0x82; c; d] ->
  slice cert 4 (8 + Z.to_nat (from_be [c; d])) = Some tbs ->
  from_sec1_bytes (public_key_bytes parent) = Some key ->
  signature_from_der (signature_bytes child) = Some sig -> verify key tbs sig = true ->
  verify_child att parent child off j = (j, Some (Ok tt)).
Proof.
  intros Hd H0 H4 Htbs Hkey Hsig Hv. unfold verify_child. zero_offset off.
  assert (Hl : forall k v, (k < 2)%nat -> [0x30; 0x82] !! k = Some v -> cert !! (0 + k)%nat = Some v)
    by (intros k v _ Hk; apply (field_lookup cert 0 2); by rewrite H0).
  assert (Hl4 : forall k v, [0x30; 0x82; c; d] !! k = Some v -> cert !! (4 + k)%nat = Some v)
    by (intros k v Hk; apply (field_lookup cert 4 4); by rewrite H4).
  erewrite io_bind_Ok by (eapply expect_byte_ok; [exact Hd | apply (Hl 0%nat); [lia | reflexivity]]).
  erewrite io_bind_Ok by (eapply expect_byte_ok; [exact Hd | apply (Hl 1%nat); [lia | reflexivity]]).
  erewrite io_bind_Ok by (eapply expect_byte_ok; [exact Hd | apply (Hl4 0%nat); reflexivity]).
  erewrite io_bind_Ok by (eapply expect_byte_ok; [exact Hd | apply (Hl4 1%nat); reflexivity]).
  erewrite io_bind_Ok by (eapply u16_at_ok; [exact Hd | apply (Hl4 2%nat); reflexivity | apply (Hl4 3%nat); reflexivity]).
  unfold slice in Htbs. case_decide as Hdec; [| done]. injection Htbs as Htbs.
  rewrite <- Nat.add_assoc. erewrite io_bind_Ok by (eapply range_ok; [exact Hd | lia | lia]).
  replace (field cert 4 _) with tbs by (rewrite <- Htbs; unfold field; f_equal; lia).
  rewrite Hsig. erewrite io_bind_Ok by reflexivity.
  rewrite Hkey. erewrite io_bind_Ok by reflexivity. by rewrite Hv.
Qed.

Lemma certificate_section_ok off cert rest j c :
  drop off att = ([0x6b] ++ bytes_of_string "certificate") ++ with_length cert ++ rest ->
  0 < Z.of_nat (length cert) < 65536 -> from_der cert = Some c ->
  certificate_section att off j = (j, Some (Ok (c, (off + 15)%nat, (off + 15 + length cert)%nat))).
Proof.
  intros Hd Hlen Hc. unfold certificate_section. zero_offset off. do 2 read Hd.
  apply (next_chunk att off _ _ (off + 12)) in Hd; [| reflexivity].
  erewrite io_bind_Ok by (by eapply certificate_at_ok). reflexivity.
Qed.

Lemma cabundle_section_ok off cert rest j root leaf leaf_off leaf_cert rest' c d tbs key sig t root_key :
  drop off att = ([0x68] ++ bytes_of_string "cabundle" ++ [0x81]) ++ with_length cert ++ rest ->
  0 < Z.of_nat (length cert) < 65536 -> from_der cert = Some root ->
  drop leaf_off att = leaf_cert ++ rest' -> field leaf_cert 0 2 = [0x30; 0x82] ->
  field leaf_cert 4 4 = [0x30; 0x82; c; d] -> slice leaf_cert 4 (8 + Z.to_nat (from_be [c; d])) = Some tbs ->
  from_sec1_bytes (public_key_bytes root) = Some key ->
  signature_from_der (signature_bytes leaf) = Some sig -> verify key tbs sig = true ->
  valid_at t root -> valid_at t leaf -> public_key_bytes root = 0x04 :: root_key -> length root_key = 96%nat ->
  cabundle_section att off leaf leaf_off t j =
    (j ++ root_key, Some (Ok (off + 10 + 3 + length cert)%nat)).
Proof.
  intros Hd Hlen Hc Hleaf H0 H4 Htbs Hkey Hsig Hv Hvr Hvl Hpk Hrk. unfold cabundle_section. zero_offset off.
  do 3 read Hd. erewrite io_bind_Ok by reflexivity.
  apply (next_chunk att off _ _ (off + 10)) in Hd; [| reflexivity].
  assert (Hroot : root_section att (off + 10) t j = (j ++ root_key, Some (Ok (root, (off + 10 + 3 + length cert)%nat)))).
  { unfold root_section. erewrite io_bind_Ok by (by eapply certificate_at_ok). cbv beta iota.
    erewrite io_bind_Ok by (by apply check_validity_ok). rewrite Hpk. cbn [length head drop]. rewrite Hrk.
    erewrite io_bind_Ok by reflexivity. rewrite bool_decide_eq_true_2 by done. reflexivity. }
  erewrite io_bind_Ok by exact Hroot. cbv beta iota.
  change (Z.to_nat (129 - 128 - 1)) with 0%nat. cbn [chain_section]. erewrite io_bind_Ok by reflexivity. cbv beta iota.
  erewrite io_bind_Ok by (by apply check_validity_ok).
  erewrite io_bind_Ok by (by eapply verify_child_ok). reflexivity.
Qed.

End certificates.

(** ** The payload as chunks *)

Lemma mock_payload_chunks `{Cr : Crypto} ROOT_CERT LEAF_CERT ts pk ud nonce :
  cose_header ++ be_bytes 2 (Z.of_nat (length (mock_payload ROOT_CERT LEAF_CERT ts pk ud nonce))) ++
    mock_payload ROOT_CERT LEAF_CERT ts pk ud nonce =
  chunk_initial (be_bytes 2 (Z.of_nat (length (mock_payload ROOT_CERT LEAF_CERT ts pk ud nonce)))) ++
  chunk_timestamp ts ++ chunk_pcrs ++ concat (map chunk_pcr (seqZ 0 16)) ++
  ([0x6b] ++ bytes_of_string "certificate") ++ with_length LEAF_CERT ++
  ([0x68] ++ bytes_of_string "cabundle" ++ [0x81]) ++ with_length ROOT_CERT ++
  chunk_public_key pk ++ chunk_user_data ud ++ ([0x65] ++ bytes_of_string "nonce") ++ encoded nonce.
Proof.
  set (n := be_bytes 2 _). clearbody n. unfold mock_payload, fixed_copies, chunk_public_key, chunk_user_data, with_length.
  rewrite !map_app, !concat_app.
  replace (concat (map snd (concat (map pcr_copies (seq 0 16))))) with (concat (map chunk_pcr (seqZ 0 16)))
    by (vm_compute; reflexivity).
  generalize (concat (map chunk_pcr (seqZ 0 16))) as pcrs. intros pcrs. rewrite <- !app_assoc.
  unfold chunk_initial, chunk_timestamp, chunk_pcrs, module_id, cose_header.
  cbn [map snd concat app bytes_of_string be_bytes]. rewrite ?app_nil_r, <- ?app_assoc. cbn [app]. reflexivity.
Qed.
