(* ===== verification/NitroDocument.v ===== *)
(** * Attestation documents: the grammar the guest accepts

    The text of a document as a concatenation of its fields, the certificates
    and signatures in it, and one lemma per section of the guest: a section
    that succeeds has read that part of the text, where it stands. *)

From S2P Require Import Prelude Io ByteOrder RawProxy RawProxyProps NitroGuest NitroLayout.

(** ** The text of a document *)

(** The fields of a document, with the bytes that the guest skips:
    [doc_key] is the text of the first key, [doc_digest_key] and [doc_digest]
    those of the second entry, [doc_tail] what follows the user data. *)
Record Document := mkDocument {
  doc_key : bytes;
  doc_module_id : bytes;
  doc_digest_key : bytes;
  doc_digest : bytes;
  doc_timestamp : bytes;
  doc_pcrs : list bytes;
  doc_leaf : bytes;
  doc_root : bytes;
  doc_chain : list bytes;
  doc_public_key : bytes;
  doc_user_data : bytes;
  doc_user_data_text : bytes;
  doc_tail : bytes
}.

Definition doc_pcr (d : Document) (i : nat) : bytes := nth i (doc_pcrs d) [].

(** The encodings of user data that the guest reads. *)
Definition user_data_encoding (u text : bytes) : Prop :=
  u = [] /\ text = [0xf6] \/
  text = [0x58; Z.of_nat (length u)] ++ u /\ (length u < 256)%nat \/
  text = [0x59] ++ be_bytes 2 (Z.of_nat (length u)) ++ u /\ Z.of_nat (length u) < 65536.

Record well_formed (d : Document) : Prop := {
  key_length : length (doc_key d) = 9%nat;
  module_id_length : (length (doc_module_id d) < 256)%nat;
  digest_key_length : length (doc_digest_key d) = 6%nat;
  digest_length : length (doc_digest d) = 6%nat;
  timestamp_length : length (doc_timestamp d) = 8%nat;
  pcrs_number : length (doc_pcrs d) = 16%nat;
  pcrs_length : Forall (fun p => length p = 48%nat) (doc_pcrs d);
  chain_length : (length (doc_chain d) < 16)%nat;
  public_key_length : (length (doc_public_key d) < 256)%nat;
  user_data_text : user_data_encoding (doc_user_data d) (doc_user_data_text d)
}.

Definition pcr_text (i : Z) (pcr : bytes) : bytes := [i; 0x58; 0x30] ++ pcr.
Definition certificates (ders : list bytes) : bytes := concat (map with_length ders).

Definition initial_text (key module_id : bytes) : bytes :=
  [0xa9; 0x69] ++ key ++ [0x78] ++ [Z.of_nat (length module_id)] ++ module_id.
Definition timestamp_text (digest_key digest timestamp : bytes) : bytes :=
  [0x66] ++ digest_key ++ [0x66] ++ digest ++ [0x69] ++ bytes_of_string "timestamp" ++ [0x1b] ++ timestamp.
Definition pcrs_text (pcrs : list bytes) : bytes :=
  [0x64] ++ bytes_of_string "pcrs" ++ [0xb0] ++ concat (zip_with pcr_text (seqZ 0 16) pcrs).
Definition certificate_text (leaf : bytes) : bytes := [0x6b] ++ bytes_of_string "certificate" ++ with_length leaf.
Definition cabundle_text (root : bytes) (chain : list bytes) : bytes :=
  [0x68] ++ bytes_of_string "cabundle" ++ [0x80 + Z.of_nat (S (length chain))] ++ with_length root ++ certificates chain.
Definition public_key_text (pk : bytes) : bytes :=
  [0x6a] ++ bytes_of_string "public_key" ++ [0x58] ++ [Z.of_nat (length pk)] ++ pk.
Definition user_data_field (text : bytes) : bytes := [0x69] ++ bytes_of_string "user_data" ++ text.

(** What follows the certificates, what follows the leaf certificate, and the
    whole from the payload on. *)
Definition after_cabundle (d : Document) : bytes :=
  public_key_text (doc_public_key d) ++ user_data_field (doc_user_data_text d) ++ doc_tail d.
Definition after_leaf (d : Document) : bytes := cabundle_text (doc_root d) (doc_chain d) ++ after_cabundle d.
Definition document (d : Document) : bytes :=
  initial_text (doc_key d) (doc_module_id d) ++
  timestamp_text (doc_digest_key d) (doc_digest d) (doc_timestamp d) ++
  pcrs_text (doc_pcrs d) ++ certificate_text (doc_leaf d) ++ after_leaf d.

(** ** Certificates *)

(** The signed part of the certificate that [text] begins with: the sequence
    four bytes into it, as long as its header says. *)
Definition tbs_of (text : bytes) : option bytes :=
  if bool_decide (slice text 0 2 = Some [0x30; 0x82]) && bool_decide (slice text 4 6 = Some [0x30; 0x82])
  then size ← slice text 6 8; slice text 4 (8 + Z.to_nat (from_be size)) else None.

Section certificates.
Context `{Cr : Crypto}.

(** The certificate [child], whose bytes begin [text], carries a signature of
    its signed part that verifies under [parent]'s key. *)
Definition signed_by (parent child : Certificate) (text : bytes) : Prop :=
  exists tbs key sig, tbs_of text = Some tbs /\
    from_sec1_bytes (public_key_bytes parent) = Some key /\
    signature_from_der (signature_bytes child) = Some sig /\ verify key tbs sig = true.

(** The certificates [ders], which are followed by [tail], lead from [parent]
    to [last]: each is valid at the time and signed by the one before it. *)
Fixpoint chain_of (timestamp : Z) (parent : Certificate) (ders : list bytes) (tail : bytes)
    (last : Certificate) : Prop :=
  match ders with
  | [] => last = parent
  | der :: ders => exists child, from_der der = Some child /\ valid_at timestamp child /\
      signed_by parent child (der ++ certificates ders ++ tail) /\ chain_of timestamp child ders tail last
  end.

(** The chain of a document, from its root to its leaf. *)
Definition certified (d : Document) (root leaf : Certificate) : Prop :=
  let timestamp := from_be (doc_timestamp d) / 1000 in
  from_der (doc_root d) = Some root /\ valid_at timestamp root /\
  from_der (doc_leaf d) = Some leaf /\ valid_at timestamp leaf /\
  exists last, chain_of timestamp root (doc_chain d) (after_cabundle d) last /\
    signed_by last leaf (doc_leaf d ++ after_leaf d).

(** The COSE signature [r], [s] of a payload verifies under [leaf]'s key. *)
Definition cose_signed (leaf : Certificate) (payload r s : bytes) : Prop :=
  exists key sig, from_sec1_bytes (public_key_bytes leaf) = Some key /\ signature_from_scalars r s = Some sig /\
    verify_prehash key (sha384 (sig_structure (be_bytes 2 (Z.of_nat (length payload))) payload)) sig = true.

End certificates.

(** ** Texts and where they stand *)

(** A text that holds all of it can be continued. *)
Lemma tbs_of_app der rest tbs : tbs_of der = Some tbs -> tbs_of (der ++ rest) = Some tbs.
Proof.
  assert (Hs : forall a b x, slice der a b = Some x -> slice (der ++ rest) a b = Some x).
  { intros a b x. unfold slice. case_decide as Hd; [| done]. intros [= <-].
    rewrite decide_True by lengths. rewrite drop_app_le by lia. rewrite take_app_le by lengths. done. }
  unfold tbs_of. destruct (_ && _) eqn:He; [| done].
  apply andb_true_iff in He as [H1%bool_decide_eq_true H2%bool_decide_eq_true].
  rewrite (Hs _ _ _ H1), (Hs _ _ _ H2), !bool_decide_eq_true_2 by done. cbn [andb].
  intros (size & Hsize & Ht)%bind_Some. rewrite (Hs _ _ _ Hsize). cbn. by apply Hs.
Qed.

Lemma slice_length (l : bytes) a b x : slice l a b = Some x -> length x = (b - a)%nat.
Proof. unfold slice. case_decide as Hd; [| done]. intros [= <-]. lengths. Qed.

Lemma slice_bounds (l : bytes) a b x : slice l a b = Some x -> (a <= b)%nat /\ (b <= length l)%nat.
Proof. unfold slice. by case_decide. Qed.

(** A slice is where it is, up to arithmetic. *)
Lemma slice_at (l : bytes) a b a' b' x : slice l a b = Some x -> a = a' -> b = b' -> slice l a' b' = Some x.
Proof. by intros ? -> ->. Qed.

Lemma slice_app (l : bytes) a b c x y : slice l a b = Some x -> slice l b c = Some y -> slice l a c = Some (x ++ y).
Proof.
  unfold slice. intros H1 H2. case_decide as Hb; [| done]. case_decide as Hc; [| done].
  injection H1 as <-. injection H2 as <-. rewrite decide_True by lia. f_equal.
  replace (drop b l) with (drop (b - a) (drop a l)) by (rewrite drop_drop; f_equal; lia).
  rewrite take_take_drop. f_equal. lia.
Qed.

Lemma slice_gap (l : bytes) a b : (a <= b)%nat -> (b <= length l)%nat ->
  exists x, slice l a b = Some x /\ length x = (b - a)%nat.
Proof. intros Ha Hb. eexists. unfold slice. rewrite decide_True by done. split; [done |]. lengths. Qed.

Lemma slice_one (l : bytes) i v : l !! i = Some v -> slice l i (i + 1) = Some [v].
Proof.
  intros Hv. pose proof (lookup_lt_Some _ _ _ Hv). unfold slice. rewrite decide_True by lia.
  rewrite (drop_S _ v i) by done. by replace (i + 1 - i)%nat with 1%nat by lia.
Qed.

Lemma slice_rest (l : bytes) a : (a <= length l)%nat -> slice l a (length l) = Some (drop a l).
Proof. intros Ha. unfold slice. rewrite decide_True by done. by rewrite firstn_all2 by lengths. Qed.

Lemma slice_to_end (l : bytes) a x : slice l a (length l) = Some x -> drop a l = x.
Proof. intros H. destruct (slice_bounds _ _ _ _ H) as [Ha _]. rewrite slice_rest in H by done. by injection H. Qed.

Lemma slice_drop (l : bytes) a b x : slice l a b = Some x -> drop a l = x ++ drop b l.
Proof.
  intros H. destruct (slice_bounds _ _ _ _ H) as [Ha Hb].
  pose proof (slice_app _ _ _ _ _ _ H (slice_rest l b Hb)) as He. rewrite slice_rest in He by lia. by injection He.
Qed.

Lemma slice_of_drop (l : bytes) o a b x : slice l (o + a) (o + b) = Some x -> slice (drop o l) a b = Some x.
Proof.
  unfold slice. intros H. case_decide as Hd; [| done]. rewrite decide_True by lengths.
  rewrite drop_drop. rewrite <- H. do 2 f_equal. lia.
Qed.

(** Put the pieces of a text together. *)
Ltac piece :=
  match goal with
  | H : slice ?l _ _ = Some ?x |- slice ?l _ _ = Some ?x =>
      eapply slice_at; [exact H | solve [cbn; lia] | first [reflexivity | solve [cbn; lia]]]
  end.
Ltac pieces := repeat (eapply slice_app; [piece |]); piece.

Lemma be_bytes_u16 a b : is_byte a = true -> is_byte b = true ->
  be_bytes 2 (Z.of_nat (Z.to_nat (from_be [a; b]))) = [a; b] /\ Z.of_nat (Z.to_nat (from_be [a; b])) < 65536.
Proof.
  intros Ha Hb. assert (Ho : octets [a; b]) by (by repeat constructor).
  pose proof (from_be_range _ Ho) as Hr. cbn [length] in Hr. change (256 ^ Z.of_nat 2) with 65536 in Hr.
  rewrite Z2Nat.id by lia. split; [exact (be_bytes_from_be _ Ho) | lia].
Qed.

(** ** What a read that succeeds has read *)

Section reads.
Context `{Cr : Crypto}.
Variable att : bytes.
Hypothesis Hbytes : octets att.

Lemma lift_inv {A} (o : outcome Empty_set A) (j j' : bytes) a : lift o j = (j', Some (Ok a)) -> j' = j /\ o = Ok a.
Proof. unfold lift. intros [= -> ->]. done. Qed.

Lemma lift_unwrap_inv {A} (o : option A) (j j' : bytes) a :
  @lift bytes Empty_set A (unwrap o) j = (j', Some (Ok a)) -> j' = j /\ o = Some a.
Proof. intros [-> H]%lift_inv. split; [done |]. by apply unwrap_Ok in H. Qed.

Lemma lift_assert_inv b (j j' : bytes) u :
  @lift bytes Empty_set unit (assert_that b) j = (j', Some (Ok u)) -> j' = j /\ b = true.
Proof. intros [-> H]%lift_inv. by destruct b. Qed.

Lemma byte_at_inv i j j' v : byte_at att i j = (j', Some (Ok v)) -> j' = j /\ slice att i (i + 1) = Some [v] /\ is_byte v = true.
Proof using Hbytes.
  intros [-> Hv]%lift_unwrap_inv. split; [done |]. split; [by apply slice_one |].
  rewrite Forall_lookup in Hbytes. by eapply Hbytes.
Qed.

Lemma expect_bytes_inv a l j j' u : expect_bytes att a l j = (j', Some (Ok u)) ->
  j' = j /\ slice att a (a + length l) = Some l.
Proof.
  unfold expect_bytes. intros (j1 & s & [-> Hs]%lift_unwrap_inv & [-> He]%lift_assert_inv)%io_bind_inv.
  split; [done |]. unfold list_eqb in He. apply bool_decide_eq_true in He. by subst.
Qed.

Lemma expect_byte_inv i v j j' u : expect_byte att i v j = (j', Some (Ok u)) -> j' = j /\ slice att i (i + 1) = Some [v].
Proof.
  unfold expect_byte. intros (j1 & s & [-> Hs]%lift_unwrap_inv & [-> He]%lift_assert_inv)%io_bind_inv.
  split; [done |]. apply Z.eqb_eq in He. subst. by apply slice_one.
Qed.

Lemma u16_at_inv i j j' n : u16_at att i j = (j', Some (Ok n)) ->
  j' = j /\ slice att i (i + 2) = Some (be_bytes 2 (Z.of_nat n)) /\ Z.of_nat n < 65536.
Proof using Hbytes.
  unfold u16_at. intros (j1 & a & (-> & Ha & Hab)%byte_at_inv & H)%io_bind_inv.
  apply io_bind_inv in H as (j2 & b & (-> & Hb & Hbb)%byte_at_inv & [= <- <-]). split; [done |].
  destruct (be_bytes_u16 a b Hab Hbb) as [-> Hn]. split; [| done].
  change [a; b] with ([a] ++ [b]). pieces.
Qed.

End reads.

(** Take an accepting run apart. *)
Ltac inv_guest :=
  repeat match goal with
  | H : (_ ≫= _) _ = (_, Some (Ok _)) |- _ => apply io_bind_inv in H as (? & ? & ? & ?)
  | H : expect_bytes _ _ _ _ = (_, Some (Ok _)) |- _ => apply expect_bytes_inv in H as [-> ?]
  | H : expect_byte _ _ _ _ = (_, Some (Ok _)) |- _ => apply expect_byte_inv in H as [-> ?]
  | H : byte_at _ _ _ = (_, Some (Ok _)) |- _ => apply byte_at_inv in H as (-> & ? & ?); [| assumption]
  | H : range _ _ _ _ = (_, Some (Ok _)) |- _ => apply lift_unwrap_inv in H as [-> ?]
  | H : lift (unwrap _) _ = (_, Some (Ok _)) |- _ => apply lift_unwrap_inv in H as [-> ?]
  | H : lift (assert_that _) _ = (_, Some (Ok _)) |- _ => apply lift_assert_inv in H as [-> ?]
  | H : u16_at _ _ _ = (_, Some (Ok _)) |- _ => apply u16_at_inv in H as (-> & ? & ?); [| assumption]
  | H : commit_slice _ _ = (_, Some (Ok _)) |- _ => injection H as <- <-
  | H : mret _ _ = (_, Some (Ok _)) |- _ => first [injection H as <- <- | injection H as <-]
  | x : _ * _ |- _ => destruct x
  end; simplify_eq.

(** The bytes that are skipped between two reads. *)
Ltac gap a b x :=
  let Hs := fresh "Hs" in let Hx := fresh "Hx" in
  match goal with |- context [slice ?l _ _] => destruct (slice_gap l a b) as (x & Hs & Hx) end;
  [lia | repeat match goal with H : slice _ _ _ = Some _ |- _ => apply slice_bounds in H end; lia |].

Section sections.
Context `{Cr : Crypto}.
Variable att : bytes.
Hypothesis Hbytes : octets att.
#[local] Set Default Proof Using "Type*".

Lemma initial_fields_inv j j' n off : initial_fields att j = (j', Some (Ok (n, off))) ->
  j' = j /\ slice att 0 10 = Some (cose_header ++ be_bytes 2 (Z.of_nat n)) /\ Z.of_nat n < 65536 /\
  length att = (10 + n + 98)%nat /\ ((off <= length att)%nat -> exists key module_id,
    length key = 9%nat /\ (length module_id < 256)%nat /\ slice att 10 off = Some (initial_text key module_id)).
Proof.
  unfold initial_fields. intros H. inv_guest. split; [done |]. split; [pieces |]. split; [done |].
  match goal with H : (_ =? _)%nat = true |- _ => apply Nat.eqb_eq in H end. split; [done |]. intros Hoff.
  match goal with H : is_byte ?v = true |- _ => rename v into size, H into Hsize; apply is_byte_range in Hsize end.
  gap 12%nat 21%nat key. gap 23%nat (23 + Z.to_nat size)%nat module. exists key, module.
  split_and!; [lia | lia |]. unfold initial_text.
  replace (Z.of_nat (length module)) with size by lia. pieces.
Qed.

Lemma timestamp_section_inv off j j' t off' : timestamp_section att off j = (j', Some (Ok (t, off'))) ->
  exists digest_key digest timestamp, j' = j ++ timestamp /\ length digest_key = 6%nat /\ length digest = 6%nat /\
    length timestamp = 8%nat /\ t = from_be timestamp / 1000 /\
    slice att off off' = Some (timestamp_text digest_key digest timestamp).
Proof.
  unfold timestamp_section. intros H. inv_guest.
  gap (off + 1)%nat (off + 7)%nat digest_key. gap (off + 8)%nat (off + 14)%nat digest.
  exists digest_key, digest. eexists. split; [done |].
  split_and!; [lia | lia | erewrite slice_length by done; lia | done |].
  unfold timestamp_text. pieces.
Qed.

Lemma pcr_entry_inv i off j j' off' : pcr_entry att i off j = (j', Some (Ok off')) ->
  off' = (off + 51)%nat /\ ((off' <= length att)%nat -> exists pcr, length pcr = 48%nat /\
    j' = j ++ (if i <? 3 then pcr else []) /\ slice att off off' = Some (pcr_text i pcr)).
Proof.
  unfold pcr_entry. intros H. assert (Ho : off' = (off + 51)%nat) by (destruct (i <? 3); by inv_guest).
  split; [done |]. subst off'. intros Hoff. gap (off + 3)%nat (off + 51)%nat pcr.
  exists pcr. destruct (i <? 3); inv_guest; (split; [lia |]); (split; [| unfold pcr_text; pieces]).
  - done.
  - by rewrite app_nil_r.
Qed.

Lemma pcr_entries_inv l : forall off j j' off', pcr_entries att l off j = (j', Some (Ok off')) ->
  (off' <= length att)%nat -> off' = (off + 51 * length l)%nat /\
  exists pcrs, length pcrs = length l /\ Forall (fun p => length p = 48%nat) pcrs /\
    j' = j ++ concat (zip_with (fun i p => if i <? 3 then p else []) l pcrs) /\
    slice att off off' = Some (concat (zip_with pcr_text l pcrs)).
Proof.
  induction l as [| i l IH]; intros off j j' off'; cbn [pcr_entries length].
  - intros [= <- <-] Hoff. split; [lia |]. exists []. rewrite app_nil_r. split_and!; [done | done | done |].
    unfold slice. rewrite decide_True by lia. by rewrite Nat.sub_diag.
  - intros (j1 & o1 & [-> He]%pcr_entry_inv & Hr)%io_bind_inv Hoff.
    apply IH in Hr as (-> & pcrs & Hlen & Hps & -> & Hs); [| done].
    destruct He as (pcr & Hpcr & -> & Hone); [lia |]. split; [lia |].
    exists (pcr :: pcrs). split_and!; [cbn; lia | by constructor | by rewrite <- app_assoc |].
    cbn [zip_with concat]. eapply slice_app; [exact Hone | exact Hs].
Qed.

Lemma pcrs_section_inv off j j' off' : pcrs_section att off j = (j', Some (Ok off')) -> (off' <= length att)%nat ->
  exists pcrs, length pcrs = 16%nat /\ Forall (fun p => length p = 48%nat) pcrs /\
    j' = j ++ nth 0 pcrs [] ++ nth 1 pcrs [] ++ nth 2 pcrs [] /\ slice att off off' = Some (pcrs_text pcrs).
Proof.
  unfold pcrs_section. do 3 (intros H; apply io_bind_inv in H as (? & ? & ? & H); revert H). intros H Hoff.
  apply pcr_entries_inv in H as (_ & pcrs & Hlen & Hps & -> & Hs); [| done]. inv_guest.
  change (length (seqZ 0 16)) with 16%nat in Hlen.
  exists pcrs. split_and!; [exact Hlen | exact Hps | | unfold pcrs_text; pieces].
  do 16 (destruct pcrs as [| ? pcrs]; [discriminate Hlen |]). destruct pcrs; [| discriminate Hlen].
  change (seqZ 0 16) with [0; 1; 2; 3; 4; 5; 6; 7; 8; 9; 10; 11; 12; 13; 14; 15].
  cbn. by rewrite ?app_nil_r.
Qed.

Lemma certificate_at_inv off j j' c n : certificate_at att off j = (j', Some (Ok (c, n))) ->
  j' = j /\ exists der, from_der der = Some c /\ length der = n /\
    slice att (off + 3) (off + 3 + n) = Some der /\ slice att off (off + 3 + n) = Some (with_length der).
Proof.
  unfold certificate_at. intros H. inv_guest. split; [done |]. eexists. split; [done |].
  match goal with H : slice _ _ _ = Some ?d, _ : from_der ?d = _ |- _ => assert (length d = n) as Hn;
    [rewrite (slice_length _ _ _ _ H); lia |] end.
  split_and!; [done | done |]. unfold with_length. rewrite Hn. pieces.
Qed.

Lemma certificate_section_inv off j j' c o off' : certificate_section att off j = (j', Some (Ok (c, o, off'))) ->
  j' = j /\ exists der, from_der der = Some c /\ slice att o off' = Some der /\
    slice att off off' = Some (certificate_text der).
Proof.
  unfold certificate_section. intros H. apply io_bind_inv in H as (? & ? & ? & H).
  apply io_bind_inv in H as (? & ? & ? & H). apply io_bind_inv in H as (j3 & [c1 n] & [-> Hc]%certificate_at_inv & H).
  inv_guest. split; [done |]. destruct Hc as (der & Hder & Hn & Hs & Ht). exists der. split; [done |].
  split; [piece | unfold certificate_text; pieces].
Qed.

Lemma check_validity_inv c t j j' u : check_validity c t j = (j', Some (Ok u)) -> j' = j /\ valid_at t c.
Proof.
  unfold check_validity. intros H. inv_guest. split; [done |].
  by split; apply Z.ltb_lt.
Qed.

Lemma verify_child_inv parent child off j j' u : verify_child att parent child off j = (j', Some (Ok u)) ->
  j' = j /\ signed_by parent child (drop off att).
Proof.
  unfold verify_child. intros H. inv_guest. split; [done |]. do 3 eexists. split; [| split_and!; done].
  assert (Ha : slice (drop off att) 0 2 = Some ([0x30] ++ [0x82])) by (apply slice_of_drop; pieces).
  assert (Hb : slice (drop off att) 4 6 = Some ([0x30] ++ [0x82])) by (apply slice_of_drop; pieces).
  match goal with Hn : Z.of_nat ?n < 65536, Hs : slice att (off + 6) _ = Some (be_bytes 2 (Z.of_nat ?n)) |- _ =>
    assert (Hc : slice (drop off att) 6 8 = Some (be_bytes 2 (Z.of_nat n))) by (apply slice_of_drop; pieces);
    unfold tbs_of; rewrite Ha, Hb, !bool_decide_eq_true_2 by done; cbn [andb]; rewrite Hc; cbn [mbind option_bind];
    rewrite (from_be_octets 2), Nat2Z.id by (change (256 ^ Z.of_nat 2) with 65536; lia) end.
  apply slice_of_drop. by rewrite Nat.add_assoc.
Qed.

Lemma root_section_inv off t j j' c o : root_section att off t j = (j', Some (Ok (c, o))) ->
  exists der root_key, from_der der = Some c /\ valid_at t c /\ public_key_bytes c = 0x04 :: root_key /\
    length root_key = 96%nat /\ j' = j ++ root_key /\ slice att off o = Some (with_length der).
Proof.
  unfold root_section. intros (j1 & [c1 n1] & [-> (der & Hder & Hn & Hs & Ht)]%certificate_at_inv & H)%io_bind_inv.
  apply io_bind_inv in H as (j2 & u2 & [-> Hv]%check_validity_inv & H). inv_guest.
  destruct (public_key_bytes _) as [| b rk] eqn:Hpk; [done |]. exists der, rk.
  match goal with H : bool_decide _ = true |- _ => apply bool_decide_eq_true in H; injection H as -> end.
  match goal with H : (_ =? _)%nat = true |- _ => apply Nat.eqb_eq in H; cbn in H end.
  split_and!; [done | done | done | lia | done | exact Ht].
Qed.

Lemma chain_section_inv t n : forall parent off j j' last o, (off <= length att)%nat ->
  chain_section att n parent off t j = (j', Some (Ok (last, o))) ->
  j' = j /\ exists ders, length ders = n /\ slice att off o = Some (certificates ders) /\
    chain_of t parent ders (drop o att) last.
Proof.
  induction n as [| n IH]; intros parent off j j' last o Hoff; cbn [chain_section].
  - intros [= <- <- <-]. split; [done |]. exists []. split_and!; [done | | done].
    unfold slice. rewrite decide_True by lia. by rewrite Nat.sub_diag.
  - intros (j1 & [c1 n1] & [-> (der & Hder & Hn & Hs & Ht)]%certificate_at_inv & H)%io_bind_inv.
    apply io_bind_inv in H as (j2 & u2 & [-> Hv]%check_validity_inv & H).
    apply io_bind_inv in H as (j3 & u3 & [-> Hsig]%verify_child_inv & H).
    apply IH in H as [-> (ders & Hlen & Htext & Hchain)]; [| apply slice_bounds in Hs; lia].
    split; [done |]. exists (der :: ders). split; [cbn; lia |]. split; [by eapply slice_app |].
    exists c1. split; [done |]. split; [done |]. split; [| done].
    rewrite <- (slice_drop _ _ _ _ Htext), <- (slice_drop _ _ _ _ Hs). exact Hsig.
Qed.

Lemma cabundle_section_inv off leaf lo t j j' o : cabundle_section att off leaf lo t j = (j', Some (Ok o)) ->
  exists root_der ders root root_key last, from_der root_der = Some root /\ valid_at t root /\
    public_key_bytes root = 0x04 :: root_key /\ length root_key = 96%nat /\ j' = j ++ root_key /\
    (length ders < 16)%nat /\ slice att off o = Some (cabundle_text root_der ders) /\
    chain_of t root ders (drop o att) last /\ valid_at t leaf /\ signed_by last leaf (drop lo att).
Proof.
  unfold cabundle_section. intros H. do 4 (apply io_bind_inv in H as (? & ? & ? & H)).
  apply io_bind_inv in H as (j1 & [root o1] & (der & rk & Hder & Hv & Hpk & Hrk & -> & Hroot)%root_section_inv & H).
  apply io_bind_inv in H as (j2 & [last o2] & [-> (ders & Hlen & Hs & Hchain)]%chain_section_inv & H);
    [| apply slice_bounds in Hroot; lia].
  apply io_bind_inv in H as (j3 & u3 & [-> Hvl]%check_validity_inv & H).
  apply io_bind_inv in H as (j4 & u4 & [-> Hsl]%verify_child_inv & H). inv_guest.
  match goal with H : slice att (off + 9) _ = Some [?n], Hb : _ && _ = true |- _ =>
    rename n into size; apply andb_true_iff in Hb as [Hlow%Z.ltb_lt Hhigh%Z.leb_le] end.
  exists der, ders, root, rk, last. split_and!; try done; [lia |].
  unfold cabundle_text. replace (0x80 + Z.of_nat (S (length ders))) with size by lia. pieces.
Qed.

Lemma public_key_section_inv off j j' o : public_key_section att off j = (j', Some (Ok o)) ->
  exists pk, (length pk < 256)%nat /\ j' = j ++ [Z.of_nat (length pk)] ++ pk /\
    slice att off o = Some (public_key_text pk).
Proof.
  unfold public_key_section. intros H. inv_guest.
  match goal with H : is_byte ?n = true, Hs : slice _ _ (_ + Z.to_nat ?n) = Some ?k |- _ =>
    rename n into size; rename k into pk; apply is_byte_range in H; pose proof (slice_length _ _ _ _ Hs) as Hpk end.
  exists pk. replace (Z.of_nat (length pk)) with size by lia. split; [lia |]. split; [by rewrite <- app_assoc |].
  unfold public_key_text. replace (Z.of_nat (length pk)) with size by lia. pieces.
Qed.

Lemma user_data_section_inv off j j' u : user_data_section att off j = (j', Some (Ok u)) ->
  exists d text tail, user_data_encoding d text /\ j' = j ++ be_bytes 2 (Z.of_nat (length d)) ++ d /\
    drop off att = user_data_field text ++ tail.
Proof.
  unfold user_data_section. intros (j1 & [] & [-> H1]%expect_byte_inv & H)%io_bind_inv.
  apply io_bind_inv in H as (j2 & [] & [-> H2]%expect_bytes_inv & H).
  apply io_bind_inv in H as (j3 & b & (-> & H3 & Hb%is_byte_range)%byte_at_inv & H); [| done].
  apply io_bind_inv in H as (j4 & [n d] & Hd & H). injection H as <- _.
  assert (Htext : j4 = j /\ length d = n /\ exists text e, user_data_encoding d text /\ slice att (off + 10) e = Some text).
  { destruct (Z.eqb_spec b 0xf6) as [-> | _].
    { injection Hd as <- <- <-. split; [done |]. split; [done |]. exists [0xf6]. eexists.
      split; [by left | exact H3]. }
    destruct (Z.eqb_spec b 0x58) as [-> | _]; inv_guest; (split; [done |]);
      match goal with Hs : slice _ _ _ = Some d |- _ => pose proof (slice_length _ _ _ _ Hs) as Hl end.
    - match goal with H : is_byte ?v = true |- _ => rename v into size, H into Hsize; apply is_byte_range in Hsize end.
      split; [lia |]. do 2 eexists. split; [right; left; split; [reflexivity | lia] |].
      change [0x58; Z.of_nat (length d)] with ([0x58] ++ [Z.of_nat (length d)]). rewrite <- app_assoc.
      replace (Z.of_nat (length d)) with size by lia. pieces.
    - split; [lia |]. do 2 eexists. split; [right; right; split; [reflexivity | lia] |].
      match goal with H : Z.of_nat ?n < 65536 |- _ => replace (length d) with n by lia end. pieces. }
  destruct Htext as (-> & <- & text & e & Henc & Ht). exists d, text, (drop e att).
  split; [done |]. split; [by rewrite <- app_assoc |]. apply slice_drop. unfold user_data_field. pieces.
Qed.

Lemma cose_section_inv n leaf j j' u : Z.of_nat n < 65536 -> length att = (10 + n + 98)%nat ->
  slice att 0 10 = Some (cose_header ++ be_bytes 2 (Z.of_nat n)) ->
  cose_section att n leaf j = (j', Some (Ok u)) ->
  j' = j /\ exists payload r s, length r = 48%nat /\ length s = 48%nat /\
    att = cose_header ++ be_bytes 2 (Z.of_nat (length payload)) ++ payload ++ [0x58; 0x60] ++ r ++ s /\
    drop 10 att = payload ++ [0x58; 0x60] ++ r ++ s /\ cose_signed leaf payload r s.
Proof.
  unfold cose_section. intros Hn Hlen Hhead H. inv_guest. split; [done |].
  match goal with Hl : slice att 8 10 = Some ?l, Hp : slice att 10 _ = Some ?p,
    Hr : slice att (12 + n) _ = Some ?r, Hs : slice att (60 + n) _ = Some ?s |- _ =>
    rename p into payload; rename r into r0; rename s into s0;
    pose proof (slice_length _ _ _ _ Hp) as Hpl; pose proof (slice_length _ _ _ _ Hr) as Hrl;
    pose proof (slice_length _ _ _ _ Hs) as Hsl; assert (l = be_bytes 2 (Z.of_nat n)) as -> end.
  { destruct (slice_gap att 0 8) as (h & Hh & Hlh); [lia | lia |].
    match goal with Hl : slice att 8 10 = Some ?l |- _ => pose proof (slice_app _ _ _ _ _ _ Hh Hl) as Hhl end.
    rewrite Hhead in Hhl. apply Some_inj, app_inj_1 in Hhl; [symmetry; apply Hhl | by rewrite Hlh]. }
  assert (Hn' : length payload = n) by lia. exists payload, r0, s0.
  assert (Hrest : slice att 10 (length att) = Some (payload ++ [0x58] ++ [0x60] ++ r0 ++ s0)) by pieces.
  split; [lia |]. split; [lia |]. rewrite Hn'.
  pose proof (slice_app _ _ _ _ _ _ Hhead Hrest) as Hall.
  apply slice_to_end in Hrest, Hall. rewrite drop_0, <- app_assoc in Hall.
  split; [exact Hall |]. split; [exact Hrest |]. unfold cose_signed. rewrite Hn'. eauto.
Qed.

End sections.
