(* ===== verification/NitroGuestProps.v ===== *)
(** * The attestation guest: soundness, and completeness on mock documents

    [guest_accepts_sound] reads off what an accepted document proves and what
    the journal holds; [mock_documents_accepted] says which documents laid out
    by the mock server are accepted. *)

From S2P Require Import Prelude Io RawProxy RawProxyProps NitroGuest NitroLayout NitroDocument.

(** ** Acceptance and refusal of mock documents *)

(** The end of a document, once its fields are read. *)
Lemma cose_section_ok `{Cr : Crypto} att n P sg leaf lkey s j :
  length P = n -> length sg = 96%nat ->
  att = (cose_header ++ be_bytes 2 (Z.of_nat n)) ++ P ++ [0x58; 0x60] ++ sg ->
  from_sec1_bytes (public_key_bytes leaf) = Some lkey ->
  signature_from_scalars (take 48 sg) (drop 48 sg) = Some s ->
  verify_prehash lkey (sha384 (sig_structure (be_bytes 2 (Z.of_nat n)) P)) s = true ->
  cose_section att n leaf j = (j, Some (Ok tt)).
Proof.
  intros HP H96 Hatt Hkey Hs Hv. unfold cose_section.
  set (B := cose_header ++ be_bytes 2 (Z.of_nat n)) in *. assert (HB : length B = 10%nat) by reflexivity.
  assert (Hd0 : drop 0 att = B ++ P ++ [0x58; 0x60] ++ sg) by (by rewrite drop_0).
  assert (Hd1 : drop 0 att = (B ++ P) ++ [0x58; 0x60] ++ sg) by (by rewrite Hd0, <- app_assoc).
  pose proof (next_chunk att _ _ _ (n + 10) Hd1 ltac:(lengths)) as Hd2.
  pose proof (next_chunk att _ _ _ (n + 12) Hd2 ltac:(cbn; lia)) as Hd3. rewrite <- (app_nil_r sg) in Hd3.
  erewrite io_bind_Ok by (eapply (range_ok att 0 8 10); [exact Hd0 | lia | lia]).
  erewrite io_bind_Ok by (eapply (range_ok att 0 10 (10 + n)); [exact Hd1 | lia | lengths]).
  replace (field B 8 (10 - 8)) with (be_bytes 2 (Z.of_nat n)) by reflexivity.
  replace (field (B ++ P) 10 (10 + n - 10)) with P.
  2: { unfold field. rewrite drop_app_length' by done. rewrite firstn_all2; [done | lia]. }
  rewrite <- (Nat.add_0_r (n + 10)).
  erewrite io_bind_Ok by (eapply expect_byte_ok; [exact Hd2 | reflexivity]).
  replace (n + 11)%nat with (n + 10 + 1)%nat by lia.
  erewrite io_bind_Ok by (eapply expect_byte_ok; [exact Hd2 | reflexivity]).
  rewrite Hkey. erewrite io_bind_Ok by reflexivity.
  replace (12 + n)%nat with (n + 12 + 0)%nat by lia. replace (60 + n)%nat with (n + 12 + 48)%nat by lia.
  replace (108 + n)%nat with (n + 12 + 96)%nat by lia.
  erewrite io_bind_Ok by (eapply range_ok; [exact Hd3 | lia | lia]).
  erewrite io_bind_Ok by (eapply range_ok; [exact Hd3 | lia | lia]).
  replace (field sg 48 _) with (drop 48 sg) by (unfold field; rewrite firstn_all2; [done | lengths]).
  change (field sg 0 _) with (take 48 (drop 0 sg)). rewrite drop_0, Hs.
  erewrite io_bind_Ok by reflexivity. by rewrite Hv.
Qed.

Section mock_runs.
Context `{Cr : Crypto}.
Variables (ROOT_CERT LEAF_CERT LEAF_KEY : bytes) (ts : Z) (root_key : bytes).
Hypothesis Hpki : mock_pki ROOT_CERT LEAF_CERT LEAF_KEY ts root_key.
Hypothesis Hts : 0 <= ts < 2 ^ 64.
#[local] Set Default Proof Using "Type*".

(** Where the sections of a mock document start. *)
Lemma mock_chunks att pk ud nonce sg :
  let P := mock_payload ROOT_CERT LEAF_CERT ts pk ud nonce in
  let len := be_bytes 2 (Z.of_nat (length P)) in
  length sg = 96%nat -> att = cose_header ++ len ++ P ++ [0x58; 0x60] ++ sg ->
  length att = (10 + length P + 98)%nat /\ exists tail,
  let last := chunk_public_key pk ++ chunk_user_data ud ++ tail in
  let certs := ([0x6b] ++ bytes_of_string "certificate") ++ with_length LEAF_CERT ++
    ([0x68] ++ bytes_of_string "cabundle" ++ [0x81]) ++ with_length ROOT_CERT ++ last in
  let pcrs := chunk_pcrs ++ concat (map chunk_pcr (seqZ 0 16)) ++ certs in
  drop 0 att = chunk_initial len ++ chunk_timestamp ts ++ pcrs /\ drop 62 att = chunk_timestamp ts ++ pcrs /\
  drop (62 + 33) att = pcrs /\ drop (62 + 33 + 822) att = certs.
Proof using Cr.
  intros P len H96 Hatt. split.
  { rewrite Hatt, !length_app. change (length len) with 2%nat. change (length cose_header) with 8%nat.
    cbn [length]. lia. }
  exists (([0x65] ++ bytes_of_string "nonce") ++ encoded nonce ++ [0x58; 0x60] ++ sg). intros last certs pcrs.
  pose proof (mock_payload_chunks ROOT_CERT LEAF_CERT ts pk ud nonce) as Hchunks. fold P len in Hchunks.
  assert (Hd0 : drop 0 att = chunk_initial len ++ chunk_timestamp ts ++ pcrs).
  { rewrite drop_0, Hatt. rewrite (app_assoc cose_header), (app_assoc _ P). rewrite <- (app_assoc cose_header), Hchunks.
    unfold pcrs, certs, last. by rewrite <- !app_assoc. }
  pose proof (next_chunk att 0 _ _ 62 Hd0 eq_refl) as Hd1.
  pose proof (next_chunk att 62 _ _ (62 + 33) Hd1 eq_refl) as Hd2. split_and!; try done.
  apply (next_chunk att (62 + 33) (chunk_pcrs ++ concat (map chunk_pcr (seqZ 0 16)))); [| reflexivity].
  rewrite Hd2. unfold pcrs. by rewrite <- app_assoc.
Qed.

(** The guest up to the public key. *)
Lemma guest_prefix att pk ud nonce (k : nat -> Certificate -> nat -> io bytes Empty_set unit) :
  get_attestation_doc ROOT_CERT LEAF_CERT LEAF_KEY ts pk ud nonce = Ok att ->
  exists n leaf lkey sg P rest off, length P = n /\ Z.of_nat n < 65536 /\
    (opt_len ud <= Z.to_nat 65535)%nat /\
    from_sec1_bytes (public_key_bytes leaf) = Some lkey /\
    drop off att = chunk_public_key pk ++ chunk_user_data ud ++ rest /\
    att = (cose_header ++ be_bytes 2 (Z.of_nat n)) ++ P ++ [0x58; 0x60] ++ sg /\ length sg = 96%nat /\
    (exists s, signature_from_scalars (take 48 sg) (drop 48 sg) = Some s /\
      verify_prehash lkey (sha384 (sig_structure (be_bytes 2 (Z.of_nat n)) P)) s = true) /\
    ('(payload_size, offset) ← initial_fields att;
     '(timestamp, offset) ← timestamp_section att offset;
     offset ← pcrs_section att offset;
     '(leaf_cert, leaf_cert_offset, offset) ← certificate_section att offset;
     offset ← cabundle_section att offset leaf_cert leaf_cert_offset timestamp;
     k payload_size leaf_cert offset) [] =
    k n leaf off (be_bytes 8 ts ++ replicate 48 0 ++ replicate 48 1 ++ replicate 48 2 ++ root_key).
Proof.
  intros Hdoc. destruct Hpki as [Hroot Hleaf (root & leaf & key & lkey & tbs & sig & c & d & Hr & Hl & Hvr & Hvl & Hpk & Hrk
    & H0 & H4 & Htbs & Hsig & Hkey & Hver & Hlkey & Hsigner) Hsl].
  assert (Hud : (opt_len ud <= Z.to_nat 65535)%nat).
  { unfold get_attestation_doc in Hdoc. destruct (Nat.ltb _ (opt_len pk)); [done |].
    destruct (Nat.ltb_spec (Z.to_nat 65535) (opt_len ud)); [done | lia]. }
  destruct (mock_doc_shape ROOT_CERT LEAF_CERT LEAF_KEY Hroot Hleaf ts pk ud nonce att Hsl Hdoc)
    as (Hmax & signer & sg & Hsgn & Hsg & H96 & Hatt). clear Hdoc.
  set (P := mock_payload ROOT_CERT LEAF_CERT ts pk ud nonce) in *.
  destruct (mock_chunks att pk ud nonce sg H96 Hatt) as (Hlen & tail & Hd0 & Hd1 & Hd2 & Hd3). fold P in Hlen, Hd0.
  assert (Hn : 0 <= Z.of_nat (length P) < 65536) by lia.
  assert (Hinit : initial_fields att [] = ([], Some (Ok (length P, 62%nat)))).
  { erewrite (initial_fields_ok att (Z.of_nat (length P))); [by rewrite Nat2Z.id | exact Hd0 | done |].
    rewrite Nat2Z.id. exact Hlen. }
  exists (length P), leaf, lkey, sg, P, tail, (62 + 33 + 822 + 15 + length LEAF_CERT + 10 + 3 + length ROOT_CERT)%nat.
  split_and!; try done.
  - lia.
  - eapply next_chunk; [eapply next_chunk; [eapply next_chunk; [eapply next_chunk; [exact Hd3 | reflexivity] | reflexivity] | reflexivity] |].
    unfold with_length. rewrite !length_app, !length_be_bytes. cbn [length app bytes_of_string]. lia.
  - eauto.
  - erewrite io_bind_Ok by exact Hinit. cbv beta iota.
    erewrite io_bind_Ok by (by eapply timestamp_section_ok). cbv beta iota.
    erewrite io_bind_Ok by (by eapply pcrs_section_ok).
    erewrite io_bind_Ok by (eapply certificate_section_ok; [exact Hd3 | lia | exact Hl]). cbv beta iota.
    rewrite from_be_be_bytes, Z.mod_small by done.
    pose proof (next_chunk att _ _ _ (62 + 33 + 822 + 12) Hd3 eq_refl) as Hd4. unfold with_length at 1 in Hd4.
    rewrite <- app_assoc in Hd4. rewrite (app_assoc [89]) in Hd4. rewrite <- app_assoc in Hd4. rewrite <- app_assoc in Hd4.
    rewrite (app_assoc [89]) in Hd4.
    pose proof (next_chunk att _ _ _ (62 + 33 + 822 + 15) Hd4 eq_refl) as Hd5.
    pose proof (next_chunk att _ _ _ (62 + 33 + 822 + 15 + length LEAF_CERT) Hd5 eq_refl) as Hd6.
    erewrite io_bind_Ok by (eapply cabundle_section_ok; [exact Hd6 | lia | exact Hr | exact Hd5 | done ..]).
    by rewrite <- !app_assoc.
Qed.

End mock_runs.

(** ** A concrete instance for the witnesses *)
Module ToyNitro.

(** Certificates are their bytes; valid from second 10 to second 1000.  A
    signature is 96 bytes whose first is a checksum under key 7. *)
Definition toy_sum (l : bytes) : Z := foldl (fun a b => (a * 31 + b) mod 251) 0 l.
Definition toy_root_key : bytes := replicate 96 7.

#[export] Instance toy_crypto : Crypto := {|
  Certificate := bytes;
  from_der b := Some b;
  not_before _ := 10;
  not_after _ := 1000;
  public_key_bytes _ := 0x04 :: toy_root_key;
  signature_bytes c := take 1 (rev c);
  Signature := Z;
  signature_from_der b := head b;
  signature_from_scalars r _ := head r;
  VerifyingKey := bytes;
  from_sec1_bytes b := Some b;
  verify k msg s := (length msg =? 442)%nat && (s =? 9);
  verify_prehash k h s := toy_sum h =? s;
  sha384 b := [toy_sum b];
  SigningKey := bytes;
  from_sec1_der b := Some b;
  sign_prehash_recoverable _ h := Some (toy_sum h :: replicate 95 0)
|}.

Definition toy_leaf : bytes := [0x30; 0x82; 1; 0xce; 0x30; 0x82; 1; 0xb6] ++ replicate 457 5 ++ [9].
Definition toy_root : bytes := replicate 404 3.
Definition toy_ts : Z := 500123.
Definition toy_pk : bytes := replicate 64 17.
Definition toy_doc (pk ud : option bytes) : bytes :=
  match get_attestation_doc toy_root toy_leaf [1] toy_ts pk ud (Some [1; 2; 3]) with Ok d => d | _ => [] end.

Lemma toy_pki : mock_pki toy_root toy_leaf [1] toy_ts toy_root_key.
Proof.
  split; [reflexivity | reflexivity | |].
  - exists toy_root, toy_leaf, (0x04 :: toy_root_key), (0x04 :: toy_root_key),
      (field toy_leaf 4 442), 9, 1, 0xb6.
    do 2 (split; [reflexivity |]). do 2 (split; [split; vm_compute; reflexivity |]).
    do 8 (split; [vm_compute; reflexivity |]). split; [reflexivity |].
    intros signer h sg _ [= <-]. eexists. split; [reflexivity |]. cbn. apply Z.eqb_refl.
  - intros k h sg [= <-]. reflexivity.
Qed.

End ToyNitro.

Lemma io_panic_snd {W E A B} (m : io W E A) (f : A -> io W E B) w :
  (m w).2 = Some Panic -> ((m ≫= f) w).2 = Some Panic.
Proof. unfold mbind, io_bind. destruct (m w) as [w' r]. cbn. by intros ->. Qed.

(** ** Properties *)

Section properties.
Context `{Cr : Crypto}.

(** C4: Soundness of the guest.  If the guest accepts a byte string, then the
    string is the fixed COSE header, the length of the payload, the payload, two
    fixed bytes and the two halves of a signature; from the payload on it reads,
    field after field, as the text of a document [d]; the root certificate of
    [d] is valid at the time of [d] and heads the chain of its certificate
    bundle, each valid at that time and carrying a signature of the signed part
    of its own bytes under the key of the one before it, down to the leaf
    certificate of [d]; the leaf's key verifies the COSE signature over the
    payload; and the journal is the timestamp of [d], its PCRs 0, 1 and 2, the
    root's key and the length-prefixed public key and user data of [d]. *)
Theorem guest_accepts_sound (att journal : bytes) (Hbytes : Forall (fun b => is_byte b = true) att)
  (Haccept : guest_main att [] = (journal, Some (Ok tt))) :
  exists d root root_key leaf payload r s,
    att = cose_header ++ be_bytes 2 (Z.of_nat (length payload)) ++ payload ++ [0x58; 0x60] ++ r ++ s /\
    length r = 48%nat /\ length s = 48%nat /\
    payload ++ [0x58; 0x60] ++ r ++ s = document d /\ well_formed d /\
    certified d root leaf /\ cose_signed leaf payload r s /\
    public_key_bytes root = 0x04 :: root_key /\ length root_key = 96%nat /\
    journal = journal_of (doc_timestamp d) (doc_pcr d 0) (doc_pcr d 1) (doc_pcr d 2) root_key
      (doc_public_key d) (doc_user_data d).
Proof.
  unfold guest_main in Haccept.
  apply io_bind_inv in Haccept as (j1 & [n off1] & (-> & Hhead & Hn & Hlen & Hi)%initial_fields_inv & H); [| done].
  apply io_bind_inv in H as (j2 & [t off2] & (dk & dg & ts & -> & Hdk & Hdg & Hts & -> & Ht)%timestamp_section_inv & H);
    [| done].
  apply io_bind_inv in H as (j3 & off3 & Hp & H).
  apply io_bind_inv in H as (j4 & [[leaf lo] off4] & [-> (ld & Hld & Hleaf & Hl)]%certificate_section_inv & H); [| done].
  destruct (slice_bounds _ _ _ _ Ht) as [Ht1 Ht2]. destruct (slice_bounds _ _ _ _ Hl) as [Hl1 Hl2].
  apply pcrs_section_inv in Hp as (pcrs & Hpcrs & H48 & -> & Hp); [| done | lia].
  destruct Hi as (key & name & Hkey & Hname & Hi); [lia |].
  apply io_bind_inv in H as (j5 & off5 & Hc & H). apply cabundle_section_inv in Hc
    as (rd & ders & root & rk & last & Hrd & Hv & Hpk & Hrk & -> & Hders & Hc & Hchain & Hvl & Hsl); [| done].
  apply io_bind_inv in H as (j6 & off6 & (pk & Hpkl & -> & Hk)%public_key_section_inv & H); [| done].
  apply io_bind_inv in H as (j7 & [] & (ud & udt & tail & Hud & -> & Hu)%user_data_section_inv & H); [| done].
  apply cose_section_inv in H as [-> (payload & r & s & Hr & Hs & Hatt & Hrest & Hcose)]; try done.
  set (d := mkDocument key name dk dg ts pcrs ld rd ders pk ud udt tail).
  assert (H5 : drop off5 att = after_cabundle d) by (by rewrite (slice_drop _ _ _ _ Hk), Hu).
  assert (H4 : drop off4 att = after_leaf d) by (by rewrite (slice_drop _ _ _ _ Hc), H5).
  rewrite H5 in Hchain. rewrite (slice_drop _ _ _ _ Hleaf), H4 in Hsl.
  exists d, root, rk, leaf, payload, r, s. split_and!; try done.
  - rewrite <- Hrest, (slice_drop _ _ _ _ Hi), (slice_drop _ _ _ _ Ht), (slice_drop _ _ _ _ Hp), (slice_drop _ _ _ _ Hl).
    by rewrite H4.
  - split_and!; try done. by exists last.
  - unfold journal_of, doc_pcr. cbn. by rewrite <- !app_assoc.
Qed.

(** C19: The mock server and the guest.  With certificates and a key that fit
    together, a document of the mock server is accepted -- with the journal of
    its own fields -- exactly when its public key has 24 to 255 bytes and its
    user data is absent or has at least 24 bytes; any other document it makes
    is refused by a panic. *)
Theorem mock_documents_accepted (ROOT_CERT LEAF_CERT LEAF_KEY root_key : bytes) (timestamp_ms : Z)
  (public_key user_data nonce : option bytes) (att : bytes)
  (Hpki : mock_pki ROOT_CERT LEAF_CERT LEAF_KEY timestamp_ms root_key) (Hts : 0 <= timestamp_ms < 2 ^ 64)
  (Hdoc : get_attestation_doc ROOT_CERT LEAF_CERT LEAF_KEY timestamp_ms public_key user_data nonce = Ok att) :
  if readable public_key user_data then
    guest_main att [] =
      (journal_of (be_bytes 8 timestamp_ms) (replicate 48 0) (replicate 48 1) (replicate 48 2) root_key
         (default [] public_key) (default [] user_data), Some (Ok tt))
  else (guest_main att []).2 = Some Panic.
Proof.
  destruct (guest_prefix _ _ _ _ _ Hpki Hts att public_key user_data nonce
    (fun n leaf off => off ← public_key_section att off; _ ← user_data_section att off; cose_section att n leaf) Hdoc)
    as (n & leaf & lkey & sg & P & rest & off & HP & Hn & Hud & Hlkey & Hd & Hatt & H96 & (s & Hs & Hv) & Hrun).
  unfold guest_main. rewrite Hrun. clear Hrun Hdoc. destruct (readable public_key user_data) eqn:Hr.
  - destruct public_key as [k |]; [| done]. unfold readable in Hr.
    apply andb_true_iff in Hr as [[Hk1%Nat.leb_le Hk2%Nat.ltb_lt]%andb_true_iff Hu].
    erewrite io_bind_Ok by (by eapply public_key_section_ok).
    assert (Hd' : drop (off + 13 + length k) att = chunk_user_data user_data ++ rest).
    { eapply next_chunk; [exact Hd |]. unfold chunk_public_key. rewrite encoded_medium by done.
      cbn [app bytes_of_string length]. lia. }
    erewrite io_bind_Ok by (by eapply user_data_section_ok).
    rewrite (cose_section_ok att n P sg leaf lkey s) by done. f_equal.
    unfold journal_of. cbn [default]. rewrite <- !app_assoc. by destruct user_data.
  - destruct public_key as [k |]; [| apply io_panic_snd; eapply public_key_section_panics with (2 := Hd); first [exact Hk | reflexivity]].
    destruct (readable (Some k) None) eqn:Hk; [| apply io_panic_snd; eapply public_key_section_panics with (2 := Hd); first [exact Hk | reflexivity]].
    unfold readable in Hr, Hk. rewrite andb_true_r in Hk. rewrite Hk in Hr. cbn [andb] in Hr.
    apply andb_true_iff in Hk as [Hk1%Nat.leb_le Hk2%Nat.ltb_lt].
    destruct user_data as [u |]; [| done]. apply Nat.leb_gt in Hr.
    erewrite io_bind_Ok by (by eapply public_key_section_ok).
    apply io_panic_snd. eapply user_data_section_panics with (1 := Hr).
    eapply next_chunk; [exact Hd |]. unfold chunk_public_key. rewrite encoded_medium by done.
    cbn [app bytes_of_string length]. lia.
Qed.

End properties.

(** ** Witnesses *)
Module NitroWitnesses.
Import ToyNitro.

Lemma guest_accepts_sound_witness :
  let att := toy_doc (Some toy_pk) None in
  let journal := journal_of (be_bytes 8 toy_ts) (replicate 48 0) (replicate 48 1) (replicate 48 2) toy_root_key toy_pk [] in
  exists d root root_key leaf payload r s,
    att = cose_header ++ be_bytes 2 (Z.of_nat (length payload)) ++ payload ++ [0x58; 0x60] ++ r ++ s /\
    length r = 48%nat /\ length s = 48%nat /\
    payload ++ [0x58; 0x60] ++ r ++ s = document d /\ well_formed d /\
    certified d root leaf /\ cose_signed leaf payload r s /\
    public_key_bytes root = 0x04 :: root_key /\ length root_key = 96%nat /\
    journal = journal_of (doc_timestamp d) (doc_pcr d 0) (doc_pcr d 1) (doc_pcr d 2) root_key
      (doc_public_key d) (doc_user_data d).
Proof.
  intros att journal. apply (guest_accepts_sound att journal).
  - apply (bool_decide_eq_true_1 _). vm_compute. reflexivity.
  - vm_compute. reflexivity.
Defined.

Lemma mock_documents_accepted_witness :
  guest_main (toy_doc (Some toy_pk) None) [] =
    (journal_of (be_bytes 8 toy_ts) (replicate 48 0) (replicate 48 1) (replicate 48 2) toy_root_key
       (default [] (Some toy_pk)) (default [] None), Some (Ok tt)) /\
  (guest_main (toy_doc None None) []).2 = Some Panic.
Proof.
  split.
  - apply (mock_documents_accepted toy_root toy_leaf [1] toy_root_key toy_ts (Some toy_pk) None (Some [1; 2; 3])).
    + exact toy_pki.
    + unfold toy_ts. lia.
    + vm_compute. reflexivity.
  - apply (mock_documents_accepted toy_root toy_leaf [1] toy_root_key toy_ts None None (Some [1; 2; 3])).
    + exact toy_pki.
    + unfold toy_ts. lia.
    + vm_compute. reflexivity.
Defined.

End NitroWitnesses.
