(* ===== verification/Async.v ===== *)
(** * Asynchronous tasks over a shared state

    A tokio task as the tree of its interactions: awaits answered by the
    environment, atomic accesses to the shared state (one lock each), spawns
    and sleeps.  Functions are written in a monad over tasks whose calls may
    return, be dropped at an await (by a timeout) or unwind; a scope guard runs
    in all three cases.  A system is a list of tasks over one state, and its
    steps interleave them.

    [owns] accounts for resources taken from a pool of the shared state by the
    tasks, and [wp] is its program logic. *)

From stdpp Require Import sets.
From S2P Require Import Prelude.

Create HintDb keeps discriminated.

Section async.
(** A state, and calls with the type of their answers. *)
Context {St C : Type} {Resp : C -> Type}.

(** ** Tasks *)

Inductive task : Type :=
| Done
| Await (c : C) (k : Resp c -> task)
(* an await at which the future may be dropped *)
| AwaitIn (c : C) (k : option (Resp c) -> task)
| Atomic (X : Type) (f : St -> St * X) (k : X -> task)
| Spawn (t k : task)
| Now (k : Z -> task)
| Sleep (d : Z) (k : task)
| Asleep (until : Z) (k : task).

(** How a call ends. *)
Inductive exit (A : Type) : Type :=
| Returned (a : A)
| Dropped
| Unwound.
#[global] Arguments Returned {A} a.
#[global] Arguments Dropped {A}.
#[global] Arguments Unwound {A}.

Definition async (A : Type) : Type := (exit A -> task) -> task.

#[export] Instance async_ret : MRet async := fun A a k => k (Returned a).
#[export] Instance async_bind : MBind async := fun A B f m k =>
  m (fun r => match r with Returned a => f a k | Dropped => k Dropped | Unwound => k Unwound end).

Definition await (c : C) : async (Resp c) := fun k => Await c (fun x => k (Returned x)).
Definition await_in (c : C) : async (Resp c) := fun k =>
  AwaitIn c (fun o => match o with Some x => k (Returned x) | None => k Dropped end).
Definition atomic {X} (f : St -> St * X) : async X := fun k => Atomic X f (fun x => k (Returned x)).
Definition reading {X} (f : St -> X) : async X := atomic (fun s => (s, f s)).
Definition writing (f : St -> St) : async unit := atomic (fun s => (f s, tt)).
Definition spawn (t : task) : async unit := fun k => Spawn t (k (Returned tt)).
(** [Instant::now()]; instants and durations are in nanoseconds. *)
Definition instant_now : async Z := fun k => Now (fun n => k (Returned n)).
Definition sleep (d : Z) : async unit := fun k => Sleep d (k (Returned tt)).
Definition unwind {A} : async A := fun k => k Unwound.
(** An option whose [None] is a panic. *)
Definition expect {A} (o : option A) : async A := match o with Some a => mret a | None => unwind end.

(** [timeout(d, m).await]: [None] when [m] has been dropped. *)
Definition timeout {A} (m : async A) : async (option A) := fun k =>
  m (fun r => match r with
              | Returned a => k (Returned (Some a))
              | Dropped => k (Returned None)
              | Unwound => k Unwound
              end).

(** [defer! { g }] before [m]. *)
Definition defer {A} (g : async unit) (m : async A) : async A := fun k => m (fun r => g (fun _ => k r)).

Definition run_task (m : async unit) : task := m (fun _ => Done).

(** What a task is waiting for. *)
Definition current_call (t : task) : option C :=
  match t with Await c _ | AwaitIn c _ => Some c | _ => None end.

(** ** Systems *)

Record system := mkSystem { clock : Z; shared : St; tasks : list task }.

(** A step of a task at a time: the new state, the rest of the task and what
    it has spawned. *)
Inductive task_step (now : Z) : task -> St -> task -> St -> list task -> Prop :=
| step_await c k x s : task_step now (Await c k) s (k x) s []
| step_await_in c k x s : task_step now (AwaitIn c k) s (k x) s []
| step_atomic X f k s s' (x : X) : f s = (s', x) -> task_step now (Atomic X f k) s (k x) s' []
| step_spawn t k s : task_step now (Spawn t k) s k s [t]
| step_now k s : task_step now (Now k) s (k now) s []
| step_sleep d k s : task_step now (Sleep d k) s (Asleep (now + d) k) s []
| step_wake until k s : until <= now -> task_step now (Asleep until k) s k s [].

Inductive system_step : relation system :=
| system_task now s s' l t t' l' ts : task_step now t s t' s' ts ->
    system_step (mkSystem now s (l ++ t :: l')) (mkSystem now s' (l ++ t' :: l' ++ ts))
| system_clock now now' s ts : now <= now' -> system_step (mkSystem now s ts) (mkSystem now' s ts).

(** ** Runs *)

(** One turn of a task under answers chosen by call; an answer of [None] drops
    the future where it can be. *)
Definition turn (answer : forall c, option (Resp c)) (now : Z) (t : task) (s : St) : option (task * St * list task) :=
  match t with
  | Done => None
  | Await c k => x ← answer c; Some (k x, s, [])
  | AwaitIn c k => Some (k (answer c), s, [])
  | Atomic X f k => Some (k (f s).2, (f s).1, [])
  | Spawn t k => Some (k, s, [t])
  | Now k => Some (k now, s, [])
  | Sleep d k => Some (Asleep (now + d) k, s, [])
  | Asleep until k => if until <=? now then Some (k, s, []) else None
  end.

(** A schedule is a list of turns of tasks and of moves of the clock. *)
Inductive choice := Run (i : nat) | Tick (now : Z).

Fixpoint schedule (answer : forall c, option (Resp c)) (choices : list choice) (sys : system) : option system :=
  match choices with
  | [] => Some sys
  | Tick now' :: choices =>
      if clock sys <=? now' then schedule answer choices (mkSystem now' (shared sys) (tasks sys)) else None
  | Run i :: choices =>
      t ← tasks sys !! i;
      '(t', s', ts) ← turn answer (clock sys) t (shared sys);
      schedule answer choices (mkSystem (clock sys) s' (<[i := t']> (tasks sys) ++ ts))
  end.

Lemma schedule_run answer i choices now s ts t t' s' new sys :
  ts !! i = Some t -> turn answer now t s = Some (t', s', new) ->
  schedule answer choices (mkSystem now s' (<[i := t']> ts ++ new)) = Some sys ->
  schedule answer (Run i :: choices) (mkSystem now s ts) = Some sys.
Proof. intros Ht Hturn Hrest. cbn. rewrite Ht. cbn. by rewrite Hturn. Qed.

Lemma turn_step answer now t s t' s' ts : turn answer now t s = Some (t', s', ts) -> task_step now t s t' s' ts.
Proof.
  destruct t; cbn; intros Ht; inv_ok; try by constructor.
  - constructor. apply surjective_pairing.
  - revert Ht. case_match eqn:Hnow; intros Ht; inv_ok. constructor. lia.
Qed.

Lemma schedule_steps answer choices sys sys' : schedule answer choices sys = Some sys' -> rtc system_step sys sys'.
Proof.
  revert sys. induction choices as [| [i | now'] choices IH]; intros [now s ts] Hrun; cbn in Hrun.
  - by injection Hrun as <-.
  - apply bind_Some in Hrun as (t & Ht & Hrun). apply bind_Some in Hrun as ([[t' s'] ts'] & Hturn & Hrun).
    apply list_elem_of_split_length in Ht as (l & l' & -> & ->).
    eapply rtc_l; [| by apply IH]. rewrite insert_app_r_alt, Nat.sub_diag, <- (assoc_L (++)) by done. cbn.
    constructor. by eapply turn_step.
  - destruct (now <=? now') eqn:Hnow; [| done]. eapply rtc_l; [| by apply IH]. constructor. lia.
Qed.

(** [m] goes from [s] to [s'] without a call, with result [r] and the tasks it
    spawns. *)
Inductive locally : task -> St -> task -> St -> list task -> Prop :=
| locally_refl t s : locally t s t s []
| locally_atomic X (f : St -> St * X) k s t' s' ts : locally (k (f s).2) (f s).1 t' s' ts -> locally (Atomic X f k) s t' s' ts
| locally_spawn t k s t' s' ts : locally k s t' s' ts -> locally (Spawn t k) s t' s' (t :: ts).

Definition runs {A} (m : async A) (s : St) (r : exit A) (s' : St) (ts : list task) : Prop :=
  forall k, locally (m k) s (k r) s' ts.

Lemma locally_trans t s t' s' ts t'' s'' ts' : locally t s t' s' ts -> locally t' s' t'' s'' ts' -> locally t s t'' s'' (ts ++ ts').
Proof. induction 1; intros H'; [done | constructor; auto ..]. Qed.

Lemma runs_ret {A} (a : A) s : runs (mret a) s (Returned a) s [].
Proof. intros k. constructor. Qed.
Lemma runs_unwind {A} s : runs (@unwind A) s Unwound s [].
Proof. intros k. constructor. Qed.
Lemma runs_atomic {X} (f : St -> St * X) s : runs (atomic f) s (Returned (f s).2) (f s).1 [].
Proof. intros k. do 2 constructor. Qed.
Lemma runs_spawn t s : runs (spawn t) s (Returned tt) s [t].
Proof. intros k. do 2 constructor. Qed.
Lemma runs_bind {A B} (m : async A) (f : A -> async B) s a s' ts r s'' ts' :
  runs m s (Returned a) s' ts -> runs (f a) s' r s'' ts' -> runs (m ≫= f) s r s'' (ts ++ ts').
Proof. intros Hm Hf k. eapply locally_trans; [apply Hm | apply Hf]. Qed.

(** A run of a task in a system. *)
Lemma locally_steps t s t' s' ts now l l' : locally t s t' s' ts ->
  rtc system_step (mkSystem now s (l ++ t :: l')) (mkSystem now s' (l ++ t' :: l' ++ ts)).
Proof.
  intros Hrun. revert l'. induction Hrun as [t s | X f k s t' s' ts _ IH | t k s t' s' ts _ IH]; intros l'.
  - by rewrite app_nil_r.
  - eapply rtc_l; [| apply IH]. rewrite <- (app_nil_r l') at 2. constructor. constructor. apply surjective_pairing.
  - eapply rtc_l; [by constructor; constructor |]. specialize (IH (l' ++ [t])). by rewrite <- (assoc_L (++)) in IH.
Qed.

(** ** Rely and guarantee

    Every atomic access of every task keeps an invariant [I] and follows a
    preorder [G], so that what [G] preserves can be relied on at later
    accesses.  [safe s t]: so does [t], from any state after [s]. *)

(** The discipline of a system: [I] and [G]. *)
Record discipline := Discipline {
  disc_inv : St -> Prop;
  disc_step : relation St;
  disc_preorder : PreOrder disc_step;
}.

Section guarantee.
Context (D : discipline).
#[local] Abbreviation I := (disc_inv D).
#[local] Abbreviation G := (disc_step D).
#[local] Existing Instance disc_preorder.

Fixpoint safe (s0 : St) (t : task) : Prop :=
  match t with
  | Done => True
  | Await c k => forall x, safe s0 (k x)
  | AwaitIn c k => forall x, safe s0 (k x)
  | Atomic X f k => forall s, G s0 s -> I s -> I (f s).1 /\ G s (f s).1 /\ safe (f s).1 (k (f s).2)
  | Spawn t k => safe s0 t /\ safe s0 k
  | Now k => forall n, 0 <= n -> safe s0 (k n)
  | Sleep _ k | Asleep _ k => safe s0 k
  end.

Lemma safe_mono s s' t : G s s' -> safe s t -> safe s' t.
Proof.
  revert s s'. induction t; cbn; intros s0 s1 HG Ht; eauto.
  - intros s HG1. apply Ht. by etrans.
  - destruct Ht. eauto.
Qed.

(** The tasks of a system are safe from its state; the clock starts at zero. *)
Definition guarded (sys : system) : Prop :=
  0 <= clock sys /\ I (shared sys) /\ Forall (safe (shared sys)) (tasks sys).

Lemma safe_step now t s t' s' ts : 0 <= now -> task_step now t s t' s' ts -> I s -> safe s t ->
  I s' /\ G s s' /\ safe s' t' /\ Forall (safe s') ts.
Proof.
  intros Hnow. destruct 1 as [c k x s | c k x s | X f k s s' x Hf | t k s | k s | d k s | u k s _]; cbn; intros HI Ht;
    try by (split; [done |]; split; [done |]; split; [by apply Ht |]).
  - destruct (Ht s) as (HI' & HG & Hk); [done .. |]. by rewrite Hf in *.
  - split; [done |]. split; [done |]. destruct Ht as [Ht Hk]. split; [done |]. by constructor.
Qed.

Lemma guarded_step sys sys' : system_step sys sys' -> guarded sys -> guarded sys' /\ G (shared sys) (shared sys').
Proof.
  destruct 1 as [now s s' l t t' l' ts Ht | now now' s ts Hle]; intros (Hnow & HI & Hsafe); cbn in *;
    [| by split; [split_and!; [cbn; lia | done | done] |]]. apply Forall_app in Hsafe as [Hl [Hsafe Hl']%Forall_cons].
  destruct (safe_step _ _ _ _ _ _ Hnow Ht) as (HI' & HG & Ht' & Hts); [done .. |].
  split; [| done]. split_and!; [done .. |]. cbn.
  apply Forall_app. split; [eapply Forall_impl; [exact Hl |]; eauto using safe_mono |].
  constructor; [done |]. apply Forall_app. split; [| done]. eapply Forall_impl; [exact Hl' |]. eauto using safe_mono.
Qed.

Lemma guarded_reachable sys sys' : rtc system_step sys sys' -> guarded sys ->
  guarded sys' /\ G (shared sys) (shared sys').
Proof.
  induction 1 as [sys | sys sys1 sys2 Hstep _ IH]; intros Hg; [done |].
  destruct (guarded_step _ _ Hstep Hg) as [Hg1 HG1]. destruct (IH Hg1) as [Hg2 HG2]. split; [done |]. by etrans.
Qed.

(** After [s0], [m] is safe and ends only as [Q] allows. *)
Definition ensures {A} (m : async A) (s0 : St) (Q : exit A -> St -> Prop) : Prop :=
  forall k, (forall r s, G s0 s -> Q r s -> safe s (k r)) -> safe s0 (m k).

Lemma ensures_mono {A} (m : async A) s0 (P Q : exit A -> St -> Prop) :
  ensures m s0 P -> (forall r s, G s0 s -> P r s -> Q r s) -> ensures m s0 Q.
Proof. intros Hm HPQ k Hk. apply Hm. auto. Qed.

Lemma ensures_ret {A} (a : A) s0 (Q : _ -> _ -> Prop) : Q (Returned a) s0 -> ensures (mret a) s0 Q.
Proof. intros H k Hk. by apply Hk. Qed.

Lemma ensures_bind {A B} (m : async A) (f : A -> async B) s0 (Q : _ -> _ -> Prop) :
  ensures m s0 (fun r s => match r with Returned a => ensures (f a) s Q | Dropped => Q Dropped s | Unwound => Q Unwound s end) ->
  ensures (m ≫= f) s0 Q.
Proof.
  intros Hm k Hk. apply Hm. intros [a | |] s HG Hr; [| by apply Hk ..].
  apply Hr. intros r s' HG' HQ. apply Hk; [by etrans | done].
Qed.

Lemma ensures_atomic {X} (f : St -> St * X) s0 (Q : exit X -> _ -> Prop) :
  (forall s, G s0 s -> I s -> I (f s).1 /\ G s (f s).1 /\ Q (Returned (f s).2) (f s).1) -> ensures (atomic f) s0 Q.
Proof.
  intros Hf k Hk s HG HI. destruct (Hf s HG HI) as (HI' & HG' & HQ).
  split; [done |]. split; [done |]. apply Hk; [by etrans | done].
Qed.

Lemma ensures_spawn t s0 (Q : exit unit -> _ -> Prop) : safe s0 t -> Q (Returned tt) s0 -> ensures (spawn t) s0 Q.
Proof. intros Ht HQ k Hk. split; [done |]. by apply Hk. Qed.

Lemma ensures_expect {A} (o : option A) s0 (Q : exit A -> _ -> Prop) :
  (o = None -> Q Unwound s0) -> (forall a, o = Some a -> Q (Returned a) s0) -> ensures (expect o) s0 Q.
Proof. intros Hn Hs k Hk. destruct o; (apply Hk; [done | auto]). Qed.

Lemma safe_run_task (m : async unit) s0 : ensures m s0 (fun _ _ => True) -> safe s0 (run_task m).
Proof. intros Hm. by apply Hm. Qed.

(** [m] is safe whatever is known, and returns only what [P] allows. *)
Definition yields {A} (P : A -> Prop) (m : async A) : Prop :=
  forall s0, ensures m s0 (fun r _ => match r with Returned a => P a | _ => True end).
Abbreviation quiet m := (yields (fun _ => True) m).

Lemma yields_mono {A} (P Q : A -> Prop) (m : async A) : yields P m -> (forall a, P a -> Q a) -> yields Q m.
Proof. intros Hm HPQ s0. eapply ensures_mono; [apply Hm |]. intros [a | |] s _; auto. Qed.
Lemma yields_ret {A} (P : A -> Prop) a : P a -> yields P (mret a).
Proof. intros Ha s0. by apply ensures_ret. Qed.
Lemma yields_unwind {A} (P : A -> Prop) : yields P unwind.
Proof. intros s0 k Hk. by apply Hk. Qed.
Lemma yields_seq {A B} (P : A -> Prop) (Q : B -> Prop) (m : async A) (f : A -> async B) :
  yields P m -> (forall a, P a -> yields Q (f a)) -> yields Q (m ≫= f).
Proof. intros Hm Hf s0. apply ensures_bind. eapply ensures_mono; [apply Hm |]. intros [a | |] s _ Ha; [by apply Hf | done ..]. Qed.
(** What follows a step of which nothing is known. *)
Lemma yields_bind_quiet {A B} (Q : B -> Prop) (m : async A) (f : A -> async B) :
  quiet m -> (forall a, yields Q (f a)) -> yields Q (m ≫= f).
Proof. intros Hm Hf. eapply yields_seq; [exact Hm | auto]. Qed.
Lemma quiet_await c : quiet (await c).
Proof. intros s0 k Hk x. by apply Hk. Qed.
Lemma quiet_await_in c : quiet (await_in c).
Proof. intros s0 k Hk [x |]; by apply Hk. Qed.
Lemma yields_atomic {X} (P : X -> Prop) (f : St -> St * X) :
  (forall s, I s -> I (f s).1 /\ G s (f s).1 /\ P (f s).2) -> yields P (atomic f).
Proof. intros Hf s0. apply ensures_atomic. intros s _ HI. by apply Hf. Qed.
Lemma quiet_reading {X} (f : St -> X) : quiet (reading f).
Proof. by apply yields_atomic. Qed.
Lemma quiet_writing f : (forall s, I s -> I (f s) /\ G s (f s)) -> quiet (writing f).
Proof. intros Hf. apply yields_atomic. intros s HI. cbn. by destruct (Hf s HI). Qed.
Lemma yields_now (P : Z -> Prop) : (forall n, 0 <= n -> P n) -> yields P instant_now.
Proof. intros HP s0 k Hk n Hn. by apply Hk; [| apply HP]. Qed.
Lemma quiet_sleep d : quiet (sleep d).
Proof. intros s0 k Hk. by apply Hk. Qed.
Lemma yields_expect {A} (P : A -> Prop) (o : option A) : (forall a, o = Some a -> P a) -> yields P (expect o).
Proof. intros Ho. destruct o; [by apply yields_ret, Ho | apply yields_unwind]. Qed.
Lemma yields_timeout {A} (P : A -> Prop) (m : async A) :
  yields P m -> yields (fun o => match o with Some a => P a | None => True end) (timeout m).
Proof. intros Hm s0 k Hk. apply Hm. intros [a | |] s HG HP; by apply Hk. Qed.
Lemma yields_defer {A} (P : A -> Prop) (g : async unit) (m : async A) : quiet g -> yields P m -> yields P (defer g m).
Proof. intros Hg Hm s0 k Hk. apply Hm. intros r s HG HP. apply Hg. intros _ s' HG' _. apply Hk; [by etrans | done]. Qed.
Lemma quiet_spawn m : quiet m -> quiet (spawn (run_task m)).
Proof. intros Hm s0. apply ensures_spawn; [| done]. apply safe_run_task. by eapply ensures_mono; [apply Hm |]. Qed.

(** Before a continuation that relies on what is known at [s0]. *)
Lemma ensures_bind_quiet {A B} (m : async A) (f : A -> async B) s0 :
  quiet m -> (forall a s, G s0 s -> ensures (f a) s (fun _ _ => True)) -> ensures (m ≫= f) s0 (fun _ _ => True).
Proof. intros Hm Hf. apply ensures_bind. eapply ensures_mono; [apply Hm |]. intros [a | |] s HG _; [by apply Hf | done ..]. Qed.

End guarantee.

(** ** Accounting for a pool of resources *)

Section accounting.
(** [total] is all there is, each resource once. *)
Context {R : Type} (total : list R) (pool : St -> list R) (uses : C -> list R).

(** [owns h t]: task [t] has [h] out of the pool, calls the environment only
    with what it has, and gives all of it back or to the tasks it spawns. *)
Fixpoint owns (held : list R) (t : task) : Prop :=
  match t with
  | Done => held = []
  | Await c k => uses c ⊆ held /\ forall x, owns held (k x)
  | AwaitIn c k => uses c ⊆ held /\ forall x, owns held (k x)
  | Atomic X f k => forall s, held ++ pool s ⊆+ total -> exists held', held ++ pool s ≡ₚ held' ++ pool (f s).1 /\ owns held' (k (f s).2)
  | Spawn t k => exists h h', held ≡ₚ h ++ h' /\ owns h t /\ owns h' k
  | Now k => forall n, owns held (k n)
  | Sleep _ k | Asleep _ k => owns held k
  end.

Lemma owns_step now t s t' s' ts held : task_step now t s t' s' ts -> held ++ pool s ⊆+ total -> owns held t ->
  exists held' hts, held ++ pool s ≡ₚ held' ++ concat hts ++ pool s' /\ owns held' t' /\ Forall2 owns hts ts.
Proof.
  intros Hstep Hsub Hown. destruct Hstep as [c k x s | c k x s | X f k s s' x Hf | t k s | k s | d k s | u k s _]; cbn in Hown.
  - exists held, []. split; [done |]. split; [by apply Hown | done].
  - exists held, []. split; [done |]. split; [by apply Hown | done].
  - destruct (Hown s Hsub) as (h & Hp & Hk). rewrite Hf in Hp, Hk. by exists h, [].
  - destruct Hown as (h & h' & Hp & Ht & Hk). exists h', [h]. cbn. rewrite app_nil_r.
    split; [| by repeat constructor]. by rewrite Hp, (assoc (++)), (comm (++) h').
  - by exists held, [].
  - by exists held, [].
  - by exists held, [].
Qed.

(** All of the resources are in the state or with the tasks. *)
Definition accounted (sys : system) : Prop :=
  exists helds, Forall2 owns helds (tasks sys) /\ concat helds ++ pool (shared sys) ≡ₚ total.

Lemma accounted_step sys sys' : system_step sys sys' -> accounted sys -> accounted sys'.
Proof.
  intros Hstep (helds & Hall & Htotal).
  destruct Hstep as [now s s' l t t' l' ts Ht | now now' s ts _]; [| by exists helds].
  cbn in Hall, Htotal. apply Forall2_app_inv_r in Hall as (h1 & h2 & H1 & H2 & ->).
  inversion H2 as [| h t0 h3 l0 Hown H3]; subst.
  assert (h ++ pool s ⊆+ total) as Hsub.
  { rewrite <- Htotal, concat_app. cbn. rewrite <- !(assoc_L (++)).
    by apply submseteq_inserts_l, submseteq_skips_l, submseteq_inserts_l. }
  destruct (owns_step _ _ _ _ _ _ _ Ht Hsub Hown) as (h' & hts & Hp & Hown' & Hts).
  exists (h1 ++ h' :: h3 ++ hts). split; cbn.
  - apply Forall2_app; [done |]. constructor; [done |]. by apply Forall2_app.
  - rewrite <- Htotal, !concat_app. cbn. rewrite concat_app, <- !(assoc_L (++)). f_equiv.
    rewrite (assoc (++) h), (comm (++) h), <- (assoc (++) (concat h3)), Hp.
    by rewrite (assoc (++) h'), (comm (++) h'), <- (assoc (++) (concat h3)).
Qed.

Lemma accounted_reachable sys sys' : rtc system_step sys sys' -> accounted sys -> accounted sys'.
Proof. induction 1; eauto using accounted_step. Qed.

Lemma accounted_done sys : accounted sys -> Forall (fun t => t = Done) (tasks sys) -> pool (shared sys) ≡ₚ total.
Proof.
  intros (helds & Hall & Htotal) Hdone. rewrite <- Htotal. clear Htotal.
  assert (concat helds = []) as ->; [| done].
  revert Hdone. induction Hall as [| h t hs ts Hown _ IH]; [done |]. intros [-> Hdone]%Forall_cons. cbn in Hown. subst h.
  by apply IH.
Qed.

Lemma owns_uses held t c : owns held t -> current_call t = Some c -> uses c ⊆ held.
Proof. destruct t; intros Hown Hc; try discriminate Hc; injection Hc as <-; apply Hown. Qed.

(** What is used at an await is not in the pool. *)
Lemma accounted_used sys i t c r :
  NoDup total -> accounted sys -> tasks sys !! i = Some t -> current_call t = Some c -> r ∈ uses c -> r ∉ pool (shared sys).
Proof.
  intros Hnd (helds & Hall & Htotal) Hi Hc Hr. rewrite <- Htotal in Hnd. apply NoDup_app in Hnd as (_ & Hout & _).
  destruct (Forall2_lookup_r _ _ _ _ _ Hall Hi) as (h & Hh & Hown). pose proof (owns_uses _ _ _ Hown Hc) as Hu.
  apply Hout, list_elem_of_In, in_concat. exists h.
  split; apply list_elem_of_In; [by eapply list_elem_of_lookup_2 | by apply Hu].
Qed.

(** What is used at two awaits is different. *)
Lemma accounted_exclusive sys i j t t' c d r r' :
  NoDup total -> accounted sys -> i <> j ->
  tasks sys !! i = Some t -> tasks sys !! j = Some t' -> current_call t = Some c -> current_call t' = Some d ->
  r ∈ uses c -> r' ∈ uses d -> r <> r'.
Proof.
  intros Hnd (helds & Hall & Htotal) Hij Hi Hj Hc Hd Hr Hr'.
  rewrite <- Htotal in Hnd. apply NoDup_app in Hnd as (Hnd & _ & _).
  destruct (Forall2_lookup_r _ _ _ _ _ Hall Hi) as (h & Hh & Hown).
  destruct (Forall2_lookup_r _ _ _ _ _ Hall Hj) as (h' & Hh' & Hown').
  apply (owns_uses _ _ _ Hown Hc) in Hr. apply (owns_uses _ _ _ Hown' Hd) in Hr'. intros <-. clear -Hnd Hij Hh Hh' Hr Hr'.
  revert i j Hij Hh Hh'. induction helds as [| a l IH]; intros [| i] [| j] Hij Hh Hh'; cbn in *; try done;
    apply NoDup_app in Hnd as (Ha & Hal & Hl).
  - injection Hh as ->. apply (Hal r); [done |]. apply list_elem_of_In, in_concat. exists h'.
    split; apply list_elem_of_In; [by eapply list_elem_of_lookup_2 | done].
  - injection Hh' as ->. apply (Hal r); [done |]. apply list_elem_of_In, in_concat. exists h.
    split; apply list_elem_of_In; [by eapply list_elem_of_lookup_2 | done].
  - eapply (IH Hl i j); [congruence | done | done].
Qed.

(** ** The program logic of [owns] *)

(** From [held], [m] ends only in ways and with resources that [Q] allows. *)
Definition wp {A} (m : async A) (held : list R) (Q : exit A -> list R -> Prop) : Prop :=
  forall k, (forall r h, Q r h -> owns h (k r)) -> owns held (m k).

Lemma wp_ret {A} (a : A) held (Q : _ -> _ -> Prop) : Q (Returned a) held -> wp (mret a) held Q.
Proof. intros H k Hk. by apply Hk. Qed.

Lemma wp_unwind {A} held (Q : exit A -> _ -> Prop) : Q Unwound held -> wp unwind held Q.
Proof. intros H k Hk. by apply Hk. Qed.

Lemma wp_mono {A} (m : async A) held (P Q : _ -> _ -> Prop) : wp m held P -> (forall r h, P r h -> Q r h) -> wp m held Q.
Proof. intros Hm HPQ k Hk. apply Hm. auto. Qed.

Lemma wp_bind {A B} (m : async A) (f : A -> async B) held (Q : _ -> _ -> Prop) :
  wp m held (fun r h => match r with Returned a => wp (f a) h Q | Dropped => Q Dropped h | Unwound => Q Unwound h end) ->
  wp (m ≫= f) held Q.
Proof. intros Hm k Hk. apply Hm. intros [a | |] h Hr; [by apply Hr | by apply Hk | by apply Hk]. Qed.

Lemma wp_await c held (Q : exit (Resp c) -> _ -> Prop) : uses c ⊆ held -> (forall x, Q (Returned x) held) -> wp (await c) held Q.
Proof. intros Hu HQ k Hk. split; [done |]. intros x. by apply Hk. Qed.

Lemma wp_await_in c held (Q : exit (Resp c) -> _ -> Prop) : uses c ⊆ held -> Q Dropped held -> (forall x, Q (Returned x) held) ->
  wp (await_in c) held Q.
Proof. intros Hu Hd HQ k Hk. split; [done |]. intros [x |]; by apply Hk. Qed.

Lemma wp_atomic {X} (f : St -> St * X) held (Q : exit X -> _ -> Prop) :
  (forall s, held ++ pool s ⊆+ total -> exists h, held ++ pool s ≡ₚ h ++ pool (f s).1 /\ Q (Returned (f s).2) h) ->
  wp (atomic f) held Q.
Proof. intros Hf k Hk s Hsub. destruct (Hf s Hsub) as (h & Hp & HQ). exists h. split; [done |]. by apply Hk. Qed.

(** An access that leaves the pool alone. *)
Lemma wp_atomic_frame {X} (f : St -> St * X) held (Q : exit X -> _ -> Prop) :
  (forall s, pool (f s).1 = pool s) -> (forall x, Q (Returned x) held) -> wp (atomic f) held Q.
Proof. intros Hf HQ. apply wp_atomic. intros s _. exists held. by rewrite Hf. Qed.

Lemma wp_spawn t held (Q : _ -> _ -> Prop) : owns [] t -> Q (Returned tt) held -> wp (spawn t) held Q.
Proof. intros Ht HQ k Hk. exists [], held. split; [done |]. split; [done |]. by apply Hk. Qed.

(** A task that is given what its parent holds. *)
Lemma wp_spawn_give t held (Q : _ -> _ -> Prop) : owns held t -> Q (Returned tt) [] -> wp (spawn t) held Q.
Proof. intros Ht HQ k Hk. exists held, []. rewrite app_nil_r. split; [done |]. split; [done |]. by apply Hk. Qed.

Lemma wp_now held (Q : exit Z -> _ -> Prop) : (forall n, Q (Returned n) held) -> wp instant_now held Q.
Proof. intros HQ k Hk n. by apply Hk. Qed.

Lemma wp_sleep d held (Q : _ -> _ -> Prop) : Q (Returned tt) held -> wp (sleep d) held Q.
Proof. intros HQ k Hk. by apply Hk. Qed.

Lemma wp_timeout {A} (m : async A) held (Q : _ -> _ -> Prop) :
  wp m held (fun r h => match r with Returned a => Q (Returned (Some a)) h | Dropped => Q (Returned None) h | Unwound => Q Unwound h end) ->
  wp (timeout m) held Q.
Proof. intros Hm k Hk. apply Hm. intros [a | |] h Hr; by apply Hk. Qed.

Lemma wp_defer {A} (g : async unit) (m : async A) held (Q : _ -> _ -> Prop) :
  wp m held (fun r h => wp g h (fun _ h' => Q r h')) -> wp (defer g m) held Q.
Proof. intros Hm k Hk. apply Hm. intros r h Hr. apply Hr. intros _ h' HQ. by apply Hk. Qed.

Lemma wp_expect {A} (o : option A) held (Q : _ -> _ -> Prop) :
  Q Unwound held -> (forall a, o = Some a -> Q (Returned a) held) -> wp (expect o) held Q.
Proof. intros Hn Hs. destruct o; [by apply wp_ret, Hs | by apply wp_unwind]. Qed.

Lemma owns_run_task (m : async unit) : wp m [] (fun _ h => h = []) -> owns [] (run_task m).
Proof. intros Hm. apply Hm. by intros r h ->. Qed.

(** [m] needs the resources [need] and leaves its holdings as they are,
    however it ends. *)
Definition keeps (need : list R) {A} (m : async A) : Prop :=
  forall held, need ⊆ held -> wp m held (fun _ h => h = held).

Lemma keeps_ret need {A} (a : A) : keeps need (mret a).
Proof. intros held _. by apply wp_ret. Qed.
Lemma keeps_ret_bind need {A B} (a : A) (f : A -> async B) : keeps need (f a) -> keeps need (mret a ≫= f).
Proof. done. Qed.
Lemma keeps_unwind need {A} : keeps need (@unwind A).
Proof. intros held _. by apply wp_unwind. Qed.
Lemma keeps_unwind_bind need {A B} (f : A -> async B) : keeps need (unwind ≫= f).
Proof. apply (keeps_unwind need). Qed.
Lemma keeps_bind need {A B} (m : async A) (f : A -> async B) :
  keeps need m -> (forall a, keeps need (f a)) -> keeps need (m ≫= f).
Proof.
  intros Hm Hf held Hneed. apply wp_bind. eapply wp_mono; [by apply Hm |].
  intros [a | |] h ->; [by apply Hf | done | done].
Qed.
(** Before a continuation that does more than keep its holdings. *)
Lemma wp_bind_keeps {A B} (m : async A) (f : A -> async B) held (Q : _ -> _ -> Prop) :
  keeps held m -> Q Dropped held -> Q Unwound held -> (forall a, wp (f a) held Q) -> wp (m ≫= f) held Q.
Proof. intros Hm Hd Hu Hf. apply wp_bind. eapply wp_mono; [by apply Hm |]. by intros [a | |] h ->. Qed.
Lemma keeps_await need c : uses c ⊆ need -> keeps need (await c).
Proof. intros Hu held Hneed. apply wp_await; [by etrans | done]. Qed.
Lemma keeps_await_in need c : uses c ⊆ need -> keeps need (await_in c).
Proof. intros Hu held Hneed. apply wp_await_in; [by etrans | done | done]. Qed.
Lemma keeps_atomic need {X} (f : St -> St * X) : (forall s, pool (f s).1 = pool s) -> keeps need (atomic f).
Proof. intros Hf held Hneed. by apply wp_atomic_frame. Qed.
Lemma keeps_reading need {X} (f : St -> X) : keeps need (reading f).
Proof. by apply keeps_atomic. Qed.
Lemma keeps_writing need f : (forall s, pool (f s) = pool s) -> keeps need (writing f).
Proof. intros H. by apply keeps_atomic. Qed.
Lemma keeps_spawn need t : owns [] t -> keeps need (spawn t).
Proof. intros Ht held _. by apply wp_spawn. Qed.
Lemma keeps_now need : keeps need instant_now.
Proof. intros held _. by apply wp_now. Qed.
Lemma keeps_sleep need d : keeps need (sleep d).
Proof. intros held _. by apply wp_sleep. Qed.
Lemma keeps_timeout need {A} (m : async A) : keeps need m -> keeps need (timeout m).
Proof. intros Hm held Hneed. apply wp_timeout. eapply wp_mono; [by apply Hm |]. by intros [a | |] h ->. Qed.
Lemma keeps_defer need {A} (g : async unit) (m : async A) : keeps need g -> keeps need m -> keeps need (defer g m).
Proof.
  intros Hg Hm held Hneed. apply wp_defer. eapply wp_mono; [by apply Hm |].
  intros r h ->. eapply wp_mono; [by apply Hg |]. by intros _ h ->.
Qed.
Lemma keeps_expect need {A} (o : option A) : keeps need (expect o).
Proof. destruct o; [apply keeps_ret | apply keeps_unwind]. Qed.
Lemma keeps_weaken need need' {A} (m : async A) : keeps need m -> need ⊆ need' -> keeps need' m.
Proof. intros Hm Hsub held Hneed. apply Hm. by etrans. Qed.

(** A resource taken by [acquire] and given back by a guard. *)
Lemma keeps_bracket {X A} (acquire : St -> St * X) (g : X -> async unit) (m : X -> async A) (res : X -> list R) :
  (forall s, pool s ≡ₚ res (acquire s).2 ++ pool (acquire s).1) ->
  (forall x held, wp (g x) (res x ++ held) (fun _ h => h = held)) ->
  (forall x, keeps (res x) (m x)) ->
  keeps [] (atomic acquire ≫= fun x => defer (g x) (m x)).
Proof.
  intros Hacq Hg Hm held _. apply wp_bind, wp_atomic. intros s _.
  exists (res (acquire s).2 ++ held). split.
  - rewrite Hacq. by rewrite (assoc (++)), (comm (++) held).
  - apply wp_defer. eapply wp_mono; [apply Hm; set_solver |]. intros r h ->. apply Hg.
Qed.

Lemma owns_keeps (m : async unit) : keeps [] m -> owns [] (run_task m).
Proof. intros Hm. apply owns_run_task, Hm. done. Qed.

End accounting.

End async.

#[global] Arguments discipline St : clear implicits.
#[global] Arguments task St {C} Resp.
#[global] Arguments system St {C} Resp.
#[global] Arguments async St {C} Resp A.
