(* ===== verification/ExecState.v ===== *)
(** * Serverless executor: data and shared state

    serverless/executor/src/utils.rs and cgroups.rs: the constants and data of
    the executor, the mutable part of [AppState] (one field per lock), the
    pool of cgroups, and the classification of rpc errors.  [Call] lists what
    the executor asks of the world outside; third-party codecs and the signer
    are the operations of [ExecApi]. *)

From S2P Require Import Prelude Async.

#[local] Set Warnings "-register-all".

Definition EXECUTION_ENV_ID : Z := 1.
Definition HTTP_CALL_RETRY_DELAY : Z := 10.
Definition GAS_LIMIT_BUFFER : Z := 200000.
Definition TIMEOUT_TXN_RESEND_DEADLINE : Z := 20.
Definition RESEND_TXN_INTERVAL : Z := 5.
Definition RESEND_GAS_PRICE_INCREMENT_PERCENT : Z := 10.

Definition secs (n : Z) : Z := n * 10 ^ 9.
Definition millis (n : Z) : Z := n * 10 ^ 6.
(** [u64] arithmetic of the release build wraps. *)
Definition u64_add (a b : Z) : Z := wrap 64 (a + b).
Definition u64_sub (a b : Z) : Z := wrap 64 (a - b).
Definition u64_mul (a b : Z) : Z := wrap 64 (a * b).
(** [Instant + Duration] panics past the last instant. *)
Definition instant_add (t d : Z) : option Z := if t + d <? secs (2 ^ 63) then Some (t + d) else None.

(** ** Jobs transactions *)

Inductive JobsTxnType := OUTPUT | TIMEOUT.

Record JobOutput := mkJobOutput {
  output : bytes;
  error_code : Z;
  total_time : Z;
  sign_timestamp : Z;
  signature : bytes;
}.

Record JobsTxnMetadata := mkJobsTxnMetadata {
  txn_type : JobsTxnType;
  job_id : Z;
  job_output : option JobOutput;
  retry_deadline : Z;
}.

(** A signer client is known by its address. *)
Abbreviation Client := Z.

Record PendingTxnData := mkPendingTxnData {
  txn_hash : Z;
  txn_data : JobsTxnMetadata;
  pending_client : Client;
  nonce : Z;
  gas_limit : Z;
  gas_price : Z;
  last_monitor_instant : Z;
}.

#[export] Instance eta_PendingTxnData : Settable PendingTxnData :=
  fun p => mkPendingTxnData (txn_hash p) (txn_data p) (pending_client p) (nonce p) (gas_limit p) (gas_price p)
                            (last_monitor_instant p).

(** ** The configuration and the shared state *)

Class ExecConfig := {
  workerd_runtime_path : string;
  execution_buffer_time : Z;
  http_rpc_url : string;
  code_contract_addr : string;
  num_selected_executors : Z;
  enclave_address : Z;
  (* the verifying key of the signer, 64 bytes without the prefix of its form *)
  enclave_public_key : bytes;
  job_capacity : Z;
}.

(** A listening session: its channel of responses, and the transactions
    waiting for confirmation. *)
Record Session := mkSession { channel : list JobsTxnMetadata; pending_txns : list PendingTxnData }.

#[export] Instance eta_Session : Settable Session := fun s => mkSession (channel s) (pending_txns s).

Record AppState := mkAppState {
  cgroups_free : list string;
  job_requests_running : gset Z;
  last_block_seen : Z;
  enclave_registered : bool;
  immutable_params_injected : bool;
  mutable_params_injected : bool;
  events_listener_active : bool;
  enclave_owner : Z;
  http_rpc_client : option Client;
  nonce_to_send : Z;
  sessions : list Session;
}.

#[export] Instance eta_AppState : Settable AppState :=
  fun s => mkAppState (cgroups_free s) (job_requests_running s) (last_block_seen s) (enclave_registered s)
                      (immutable_params_injected s) (mutable_params_injected s) (events_listener_active s)
                      (enclave_owner s) (http_rpc_client s) (nonce_to_send s) (sessions s).

(** ** The pool of cgroups *)

Definition has_prefix (p s : string) : bool := String.prefix p s.

(** [get_cgroups]: the directory entries whose names are readable. *)
Definition get_cgroups (entries : list (option string)) : list string :=
  omap (fun name => match name with Some x => if has_prefix "workerd_" x then Some x else None | None => None end) entries.

(** [Vec::swap_remove(0)] of a non-empty vector. *)
Definition swap_remove0 {A} (x : A) (rest : list A) : A * list A :=
  (x, match last rest with Some y => y :: removelast rest | None => [] end).

Definition reserve (s : AppState) : AppState * option string :=
  match cgroups_free s with
  | [] => (s, None)
  | x :: rest => let '(c, free) := swap_remove0 x rest in (s <| cgroups_free := free |>, Some c)
  end.

Definition release (cgroup : string) (s : AppState) : AppState :=
  s <| cgroups_free := cgroups_free s ++ [cgroup] |>.

(** ** Errors of the rpc *)

Inductive JobsTxnSendError :=
| NonceTooLow | NonceTooHigh | OutOfGas | GasTooHigh | GasPriceLow | ContractExecution | NetworkConnectivity
| OtherRetryable.

Definition parse_send_error (error : string) : JobsTxnSendError :=
  if contains "nonce too low" error then NonceTooLow else
  if contains "nonce too high" error || contains "too many pending transactions" error then NonceTooHigh else
  if contains "out of gas" error then OutOfGas else
  if contains "gas limit too high" error || contains "transaction exceeds block gas limit" error then GasTooHigh else
  if contains "gas price too low" error || contains "transaction underpriced" error then GasPriceLow else
  if contains "connection" error || contains "network" error then NetworkConnectivity else
  if contains "reverted" error || contains "failed" error then ContractExecution else
  OtherRetryable.

(** ** The world outside *)

(** [serde_json::Value] as far as it is read. *)
Inductive Value :=
| Null
| VString (s : string)
| VObject (fields : list (string * Value))
| VOther.

(** [value[key].take()]: a missing field is [Null]; anything but an object or
    [Null] panics. *)
Definition take_field (v : Value) (key : string) : option Value :=
  match v with
  | Null => Some Null
  | VObject fields => Some (default Null (snd <$> find (fun f => String.eqb f.1 key) fields))
  | _ => None
  end.

(** ABI tokens, parameter types and event logs of the [ethers] crate. *)
Inductive Token :=
| TFixedBytes (b : bytes)
| TBytes (b : bytes)
| TUint (n : Z)
| TAddress (a : Z)
| TString (s : bytes)
| TArray (l : list Token).

Inductive ParamType := PFixedBytes (n : Z) | PBytes | PUint (w : Z) | PAddress | PArray (p : ParamType).

Record ELog := mkELog {
  etopics : list Z;
  edata : bytes;
  eblock : option Z;
  eremoved : option bool;
}.

(** The failures whose errors the endpoints print, with what they are about. *)
Inductive Failure :=
| NotHex (text : string)
| BadWallet (key : bytes)
| BadRpcUrl (url : string)
| NoTransactionCount (client : Client)
| NotEncodable
| NotSigned (digest : bytes)
| NoBlockNumber (client : Client).

Class ExecApi := {
  keccak256 : bytes -> bytes;
  encode : list Token -> bytes;
  encode_packed : list Token -> option bytes;
  decode : list ParamType -> bytes -> option (list Token);
  hex_decode : string -> option bytes;
  hex_lower : bytes -> string;
  (* sign_prehash_recoverable: r and s, and the recovery id *)
  sign_prehash : bytes -> option (bytes * Z);
  (* Function::encode_input of a function of the Jobs contract *)
  encode_input : string -> list Token -> bytes;
  (* str::to_lowercase of the debug form of an error *)
  to_lowercase : string -> string;
  (* the debug form of the error of a failure *)
  debug_error : Failure -> string;
}.

(** A transaction to the Jobs contract, or a payment of nothing to oneself. *)
Inductive Payload := JobsCall (data : bytes) | Dummy.

Record Txn := mkTxn { t_from : Client; t_nonce : Z; t_gas : Z; t_gas_price : Z; t_payload : Payload }.

Inductive Stream := Deregistered | JobCreated | JobResponded.

Inductive Call :=
(* the deadline of a job, which may pass during a sleep *)
| Deadline
| RandomSlug
| UnixTime
| GetTransactionByHash (tx_hash rpc : string)
| CreateFile (path : string)
| WriteFile (path : string) (data : bytes)
| RemoveFile (path : string)
| CgExec (cgroup : string) (args : list string)
| KillChild (cgroup : string)
| ReadStderr (cgroup : string)
| Connect (port : Z)
| PostWorkerd (port : Z) (inputs : bytes)
| ChannelSlot (session : nat)
| ChannelRecv (session : nat)
| NextEvent (session : nat)
| WsConnect
| Subscribe (from_block : Z)
| NextRegistration
| GasPrice (client : Client)
| EstimateGas (client : Client) (data : bytes)
| TransactionCount (client : Client)
| SendTransaction (txn : Txn)
| Receipt (client : Client) (hash : Z)
| Confirm (hash : Z)
| BlockNumber (client : Client).

(** The answer of the rpc to a transaction: its hash, or the error's text. *)
Abbreviation Answer := (string + Z)%type.

(** The type of the answer to a call; [None] and [false] are failures. *)
Definition Response (c : Call) : Type :=
  match c with
  | Deadline => unit
  | RandomSlug => string
  | UnixTime => Z
  | GetTransactionByHash _ _ => option Value
  | CreateFile _ | WriteFile _ _ | RemoveFile _ | CgExec _ _ | KillChild _ | Connect _ => bool
  | ReadStderr _ => option string
  | PostWorkerd _ _ => option bytes
  | ChannelSlot _ | ChannelRecv _ | WsConnect | Subscribe _ | Confirm _ => bool
  | NextEvent _ => option (Stream * ELog)
  | NextRegistration => option ELog
  | GasPrice _ | TransactionCount _ | BlockNumber _ => option Z
  | EstimateGas _ _ | SendTransaction _ => Answer
  | Receipt _ _ => option (option unit)
  end.

Abbreviation exec := (async AppState Response).
Abbreviation exec_task := (task AppState Response).
Abbreviation exec_system := (system AppState Response).

(** A sleep under a timeout, which is dropped or slept to its end. *)
Definition sleep_in (d : Z) : exec unit := _ ← await_in Deadline; sleep d.

(** [Retry::spawn] with three retries of an attempt. *)
Fixpoint retry {A} (n : nat) (attempt : exec (option A)) : exec (option A) :=
  r ← attempt;
  match r, n with
  | Some a, _ => mret (Some a)
  | None, O => mret None
  | None, S n => retry n attempt
  end.

Definition retry3 {A} (attempt : exec (option A)) : exec (option A) := retry 3 attempt.
