(* ===== verification/ExecWorkerd.v ===== *)
(** * Serverless executor: running user code

    serverless/executor/src/workerd.rs: fetching the code from its transaction,
    the files of a worker, its port, and the requests to it.  A function of
    [execute_job] may be dropped by its timeout at every await ([await_in]). *)

From stdpp Require Import pretty.
From S2P Require Import Prelude Text Async ExecState.

Inductive ServerlessError :=
| TxDataRetrieve
| TxNotFound
| InvalidTxToType
| InvalidTxToValue (got expected : string)
| InvalidTxCalldataType
| InvalidTxCalldataLength
| InvalidTxCalldata
| BadCalldata
| CodeFileCreate
| ConfigFileCreate
| Execute
| WorkerRequestError
| CodeFileDelete
| ConfigFileDelete
| BadPort.

Section workerd.
Context `{Cfg : ExecConfig} `{Api : ExecApi}.

(** ** The code of a transaction *)

(** A byte that continues a UTF-8 character. *)
Definition continuation (c : Ascii.ascii) : bool :=
  let n := Z.of_N (Ascii.N_of_ascii c) in (128 <=? n) && (n <? 192).

(** [&s[n..]] of a string: panics inside a character or past the end. *)
Definition str_from (s : string) (n : nat) : option string :=
  if (String.length s <? n)%nat then None else
  match String.get n s with
  | Some c => if continuation c then None else Some (String.substring n (String.length s - n) s)
  | None => Some EmptyString
  end.

(** [calldata.iter().rev().position(|x| *x != 0)] *)
Fixpoint position_nonzero (l : bytes) : option nat :=
  match l with
  | [] => None
  | x :: l => if x =? 0 then S <$> position_nonzero l else Some O
  end.

Definition strip_trailing_zeros (calldata : bytes) : bytes :=
  let idx := default O (position_nonzero (rev calldata)) in
  take (length calldata - idx) calldata.

Definition CODE_CALL_PREFIX : string :=
  "0xff7cdaf30000000000000000000000000000000000000000000000000000000000000020".

(** The part of [create_code_file] between the rpc and the file: the code in
    an rpc response. *)
Definition code_of_response (contract : string) (response : Value) : outcome ServerlessError bytes :=
  result ← unwrap (take_field response "result");
  match result with
  | Null => Err TxNotFound
  | tx_data =>
      to ← unwrap (take_field tx_data "to");
      match to with
      | VString contract_address =>
          if negb (String.eqb contract_address contract)
          then Err (InvalidTxToValue contract_address contract) else
          input ← unwrap (take_field tx_data "input");
          match input with
          | VString calldata =>
              if (String.length calldata <? 138)%nat then Err InvalidTxCalldataLength else
              if negb (has_prefix CODE_CALL_PREFIX calldata) then Err InvalidTxCalldata else
              payload ← unwrap (str_from calldata 138);
              decoded ← ok_or BadCalldata (hex_decode payload);
              mret (strip_trailing_zeros decoded)
          | _ => Err InvalidTxCalldataType
          end
      | _ => Err InvalidTxToType
      end
  end.

(** ** Files *)

Definition code_path (tx_hash slug : string) : string :=
  workerd_runtime_path +:+ "/" +:+ tx_hash +:+ "-" +:+ slug +:+ ".js".
Definition config_path (tx_hash slug : string) : string :=
  workerd_runtime_path +:+ "/" +:+ tx_hash +:+ "-" +:+ slug +:+ ".capnp".

(** [create_and_populate_file]: both calls answer whether they succeeded. *)
Definition create_and_populate_file (path : string) (data : bytes) : exec (option unit) :=
  created ← await_in (CreateFile path);
  if negb (created : bool) then mret None else
  written ← await_in (WriteFile path data);
  mret (if written : bool then Some tt else None).

(** A pure step of an [async] function. *)
Definition try {E A} (o : outcome E A) : exec (E + A) :=
  match o with Ok a => mret (inr a) | Err e => mret (inl e) | Panic => unwind end.

Definition create_code_file (tx_hash slug rpc contract : string) : exec (ServerlessError + unit) :=
  response ← retry3 (await_in (GetTransactionByHash tx_hash rpc));
  match response with
  | None => mret (inl TxDataRetrieve)
  | Some response =>
      code ← try (code_of_response contract response);
      match code with
      | inl e => mret (inl e)
      | inr calldata =>
          r ← retry3 (create_and_populate_file (code_path tx_hash slug) calldata);
          mret (match r with Some tt => inr tt | None => inl CodeFileCreate end)
      end
  end.

(** The capnp configuration. *)
Definition quoted (s : string) : string :=
  String (Ascii.ascii_of_nat 34) EmptyString +:+ s +:+ String (Ascii.ascii_of_nat 34) EmptyString.
Definition newline : string := String (Ascii.ascii_of_nat 10) EmptyString.

Definition capnp_data (tx_hash slug : string) (free_port : Z) : bytes :=
  bytes_of_string (String.concat newline
    [ EmptyString;
      "using Workerd = import " +:+ quoted "/workerd/workerd.capnp" +:+ ";";
      EmptyString;
      "const oysterConfig :Workerd.Config = (";
      "  services = [ (name = " +:+ quoted "main" +:+ ", worker = .oysterWorker) ],";
      "  sockets = [ ( name = " +:+ quoted "http" +:+ ", address = " +:+ quoted ("*:" +:+ pretty free_port) +:+
        ", http = (), service = " +:+ quoted "main" +:+ " ) ]";
      ");";
      EmptyString;
      "const oysterWorker :Workerd.Worker = (";
      "  modules = [";
      "    (name = " +:+ quoted "main" +:+ ", esModule = embed " +:+ quoted (tx_hash +:+ "-" +:+ slug +:+ ".js") +:+ ")";
      "  ],";
      "  compatibilityDate = " +:+ quoted "2023-03-07" +:+ ",";
      ");" ]%string).

Definition create_config_file (tx_hash slug : string) (free_port : Z) : exec (ServerlessError + unit) :=
  r ← retry3 (create_and_populate_file (config_path tx_hash slug) (capnp_data tx_hash slug free_port));
  mret (match r with Some tt => inr tt | None => inl ConfigFileCreate end).

(** The cleanups run after the timeout, and are not dropped. *)
Definition remove_file (path : string) : exec (option unit) :=
  ok ← await (RemoveFile path); mret (if ok : bool then Some tt else None).

Definition cleanup_code_file (tx_hash slug : string) : exec (ServerlessError + unit) :=
  r ← retry3 (remove_file (code_path tx_hash slug));
  mret (match r with Some tt => inr tt | None => inl CodeFileDelete end).

Definition cleanup_config_file (tx_hash slug : string) : exec (ServerlessError + unit) :=
  r ← retry3 (remove_file (config_path tx_hash slug));
  mret (match r with Some tt => inr tt | None => inl ConfigFileDelete end).

(** ** The worker *)

(** [u16::from_str_radix(s, 10)] *)
Definition parse_u16 : string -> option Z := parse_unsigned 16.

(** [&cgroup[8..]], parsed, plus 11000 in 16 bits. *)
Definition get_port (cgroup : string) : outcome ServerlessError Z :=
  suffix ← unwrap (str_from cgroup 8);
  x ← ok_or BadPort (parse_u16 suffix);
  mret (wrap 16 (x + 11000)).

(** [execute]: spawning the process does not await. *)
Definition execute (tx_hash slug cgroup : string) : exec bool :=
  await (CgExec cgroup [workerd_runtime_path +:+ "/workerd"; "serve"%string; config_path tx_hash slug;
                             "--verbose"%string]).

(** [wait_for_port]: a failed round sleeps for a millisecond, so the second
    is over after a thousand of them. *)
Fixpoint wait_for_port_loop (rounds : nat) (start_time port : Z) : exec bool :=
  match rounds with
  | O => mret false
  | S rounds =>
      now ← instant_now;
      if now - start_time <? secs 1 then
        connected ← await_in (Connect port);
        if connected : bool then mret true else
        _ ← sleep_in (millis 1);
        wait_for_port_loop rounds start_time port
      else mret false
  end.

Definition wait_for_port (port : Z) : exec bool :=
  start_time ← instant_now; wait_for_port_loop (Z.to_nat 1001) start_time port.

Definition get_workerd_response (port : Z) (inputs : bytes) : exec (ServerlessError + bytes) :=
  r ← retry3 (await_in (PostWorkerd port inputs));
  mret (match r with Some response => inr response | None => inl WorkerRequestError end).

End workerd.
