(* ===== verification/ExecJob.v ===== *)
(** * Serverless executor: jobs and their timeouts

    serverless/executor/src/job_handler.rs and timeout_handler.rs: executing a
    job under its deadline with a cgroup of the pool, signing and sending its
    response, and the task that reports a job nobody answered. *)

From S2P Require Import Prelude Async ExecState ExecWorkerd.

Section job.
Context `{Cfg : ExecConfig} `{Api : ExecApi}.

(** [JobOutput { output, error_code, total_time, ..Default::default() }] *)
Definition unsigned_output (output : bytes) (error_code total_time : Z) : JobOutput :=
  mkJobOutput output error_code total_time 0 [].

(** [execution_timer_start.elapsed().as_millis()] *)
Definition elapsed_millis (start : Z) : exec Z := now ← instant_now; mret ((now - start) / 10 ^ 6).

(** The error codes of the response to a failure to fetch the code. *)
Definition error_code_of (err : ServerlessError) : option Z :=
  match err with
  | TxNotFound | InvalidTxToType | InvalidTxToValue _ _ => Some 1
  | InvalidTxCalldata | InvalidTxCalldataType | InvalidTxCalldataLength | BadCalldata => Some 2
  | _ => None
  end.

Definition failed_output (start code : Z) : exec (option JobOutput) :=
  total_time ← elapsed_millis start; mret (Some (unsigned_output [] code total_time)).

(** The part of [execute_job] with a worker running in [cgroup]. *)
Definition with_worker (cgroup : string) (port start : Z) (code_inputs : bytes) : exec (option JobOutput) :=
  res ← wait_for_port port;
  if negb (res : bool) then
    (* reading the worker's stderr to its end blocks the task *)
    stderr ← await (ReadStderr cgroup);
    match stderr with
    | None => mret None
    | Some stderr_output =>
        if negb (String.eqb stderr_output EmptyString) && contains "SyntaxError" stderr_output
        then failed_output start 3 else mret None
    end
  else
    response ← get_workerd_response port code_inputs;
    match response with
    | inl _ => mret None
    | inr response => total_time ← elapsed_millis start; mret (Some (unsigned_output response 0 total_time))
    end.

(** The guard that kills the worker; a failure is only printed. *)
Definition kill_worker (cgroup : string) : exec unit := _ ← await (KillChild cgroup); mret tt.

(** The part of [execute_job] that holds [cgroup]. *)
Definition with_cgroup (cgroup code_hash slug : string) (start : Z) (code_inputs : bytes) : exec (option JobOutput) :=
  port ← try (get_port cgroup);
  match port with
  | inl _ => mret None
  | inr port =>
      config ← create_config_file code_hash slug port;
      match config with
      | inl _ => mret None
      | inr tt =>
          child ← execute code_hash slug cgroup;
          if negb (child : bool) then mret None else
          defer (kill_worker cgroup) (with_worker cgroup port start code_inputs)
      end
  end.

Definition execute_job (code_hash : string) (code_inputs : bytes) (slug : string) : exec (option JobOutput) :=
  start ← instant_now;
  code ← create_code_file code_hash slug http_rpc_url code_contract_addr;
  match code with
  | inl err => match error_code_of err with Some code => failed_output start code | None => mret None end
  | inr tt =>
      cgroup ← atomic reserve;
      match cgroup with
      | None => mret None
      | Some cgroup =>
          defer (writing (release cgroup)) (with_cgroup cgroup code_hash slug start code_inputs)
      end
  end.

(** [sign_response] *)
Definition literal (s : string) : bytes := bytes_of_string s.

Definition jobs_domain_separator : bytes :=
  keccak256 (encode [TFixedBytes (keccak256 (literal "EIP712Domain(string name,string version)"));
                     TFixedBytes (keccak256 (literal "marlin.oyster.Jobs"));
                     TFixedBytes (keccak256 (literal "1"))]).

Definition response_digest (job_id : Z) (output : bytes) (total_time error_code sign_timestamp : Z) : option bytes :=
  let submit_output_typehash := keccak256 (literal
    "SubmitOutput(uint256 jobId,bytes output,uint256 totalTime,uint8 errorCode,uint256 signTimestamp)") in
  let hash_struct := keccak256 (encode
    [TFixedBytes submit_output_typehash; TUint job_id; TFixedBytes (keccak256 output); TUint total_time;
     TUint error_code; TUint sign_timestamp]) in
  keccak256 <$> encode_packed [TString [0x19; 0x01]; TFixedBytes jobs_domain_separator; TFixedBytes hash_struct].

Definition sign_response (job_id : Z) (output : bytes) (total_time error_code sign_timestamp : Z) : option bytes :=
  digest ← response_digest job_id output total_time error_code sign_timestamp;
  '(rs, v) ← sign_prehash digest;
  mret (rs ++ [wrap 8 (27 + v)]).

(** [tx.send(..)]: waits for room in the channel. *)
Definition push_response (session : nat) (m : JobsTxnMetadata) (s : AppState) : AppState :=
  s <| sessions := alter (fun c => c <| channel := channel c ++ [m] |>) session (sessions s) |>.

Definition send_response (tx : nat) (m : JobsTxnMetadata) : exec unit :=
  open ← await (ChannelSlot tx);
  if open : bool then writing (push_response tx m) else mret tt.

(** [execution_buffer_time + user_deadline - (total_time as u64)], in
    [Duration::from_secs]. *)
Definition retry_window (user_deadline total_time : Z) : Z :=
  secs (u64_sub (u64_add execution_buffer_time user_deadline) (wrap 64 total_time)).

(** The part of [handle_job] after the job: signing and sending its output. *)
Definition report_job (job_id user_deadline : Z) (tx : nat) (o : JobOutput) : exec unit :=
  sign_timestamp ← await UnixTime;
  match sign_response job_id (output o) (total_time o) (error_code o) sign_timestamp with
  | None => mret tt
  | Some signature =>
      now ← instant_now;
      retry_deadline ← expect (instant_add now (retry_window user_deadline (total_time o)));
      send_response tx (mkJobsTxnMetadata OUTPUT job_id
        (Some (mkJobOutput (output o) (error_code o) (total_time o) sign_timestamp signature)) retry_deadline)
  end.

Definition handle_job (job_id : Z) (code_hash : string) (code_inputs : bytes) (user_deadline : Z) (tx : nat) : exec unit :=
  slug ← await RandomSlug;
  response ← timeout (execute_job code_hash code_inputs slug);
  _ ← cleanup_config_file code_hash slug;
  _ ← cleanup_code_file code_hash slug;
  let job_output := match response with
                    | Some r => r
                    | None => Some (unsigned_output [] 4 user_deadline)
                    end in
  match job_output with
  | None => mret tt
  | Some o => report_job job_id user_deadline tx o
  end.

(** ** timeout_handler.rs *)

Definition is_running (job_id : Z) (s : AppState) : bool := bool_decide (job_id ∈ job_requests_running s).
Definition mark_running (job_id : Z) (s : AppState) : AppState :=
  s <| job_requests_running := {[job_id]} ∪ job_requests_running s |>.
Definition mark_completed (job_id : Z) (s : AppState) : AppState :=
  s <| job_requests_running := job_requests_running s ∖ {[job_id]} |>.

Definition timeout_delay (timeout : Z) : Z :=
  millis (u64_add (u64_add timeout (u64_mul execution_buffer_time 1000)) 1000).

Definition handle_timeout (job_id timeout : Z) (tx : nat) : exec unit :=
  _ ← sleep (timeout_delay timeout);
  running ← reading (is_running job_id);
  if negb (running : bool) then mret tt else
  now ← instant_now;
  retry_deadline ← expect (instant_add now (secs TIMEOUT_TXN_RESEND_DEADLINE));
  _ ← send_response tx (mkJobsTxnMetadata TIMEOUT job_id None retry_deadline);
  writing (mark_completed job_id).

End job.
