(* ===== verification/ExecTxn.v ===== *)
(** * Serverless executor: sending transactions

    [generate_txn] and [estimate_gas_and_price] of utils.rs, and the two tasks
    of event_handler.rs that send the responses of a session to the Jobs
    contract and resend those that are not confirmed.  A loop that runs until
    a deadline or forever takes the number of its rounds; running out of rounds
    ends the task. *)

From S2P Require Import Prelude Async ExecState.

Section txn.
Context `{Api : ExecApi}.

(** [generate_txn]; an output without its data panics. *)
Definition generate_txn (m : JobsTxnMetadata) : option bytes :=
  match txn_type m with
  | OUTPUT =>
      o ← job_output m;
      Some (encode_input "submitOutput"
        [TBytes (signature o); TUint (job_id m); TBytes (output o); TUint (total_time o); TUint (error_code o);
         TUint (sign_timestamp o)])
  | TIMEOUT => Some (encode_input "slashOnExecutionTimeout" [TUint (job_id m)])
  end.

(** Polls for the gas price until the deadline. *)
Fixpoint poll_gas_price (n : nat) (client : Client) (deadline : Z) : exec Z :=
  match n with
  | O => mret 0
  | S n =>
      now ← instant_now;
      if deadline <=? now then mret 0 else
      price ← await (GasPrice client);
      match price with
      | Some price => mret price
      | None => _ ← sleep (millis HTTP_CALL_RETRY_DELAY); poll_gas_price n client deadline
      end
  end.

Fixpoint poll_gas_estimate (n : nat) (client : Client) (txn : bytes) (deadline : Z) : exec (option Z) :=
  match n with
  | O => mret None
  | S n =>
      now ← instant_now;
      if deadline <=? now then mret None else
      gas ← await (EstimateGas client txn);
      match gas with
      | inr gas => mret (Some gas)
      | inl err =>
          match parse_send_error (to_lowercase err) with
          | GasTooHigh | ContractExecution => mret None
          | _ => _ ← sleep (millis HTTP_CALL_RETRY_DELAY); poll_gas_estimate n client txn deadline
          end
      end
  end.

Definition estimate_gas_and_price (n : nat) (client : Client) (txn : bytes) (deadline : Z) : exec (option (Z * Z)) :=
  gas_price ← poll_gas_price n client deadline;
  if gas_price =? 0 then mret None else
  gas ← poll_gas_estimate n client txn deadline;
  mret ((fun gas => (gas, gas_price)) <$> gas).

(** [U256::from(100 + RESEND_GAS_PRICE_INCREMENT_PERCENT) * gas_price / 100];
    the multiplication and the additions of [U256] panic on overflow. *)
Definition u256_checked (n : Z) : option Z := if n <=? u256_MAX then Some n else None.
Definition raise_price (gas_price : Z) : option Z :=
  p ← u256_checked ((100 + RESEND_GAS_PRICE_INCREMENT_PERCENT) * gas_price); Some (p / 100).
Definition raise_limit (gas_limit : Z) : option Z := u256_checked (gas_limit + GAS_LIMIT_BUFFER).

(** ** The shared state of the sender *)

Definition set_nonce (n : Z) (s : AppState) : AppState := s <| nonce_to_send := n |>.
(** [*nonce_to_send += U256::one()] *)
Definition bump_nonce (s : AppState) : AppState * option unit :=
  match u256_checked (nonce_to_send s + 1) with
  | Some n => (s <| nonce_to_send := n |>, Some tt)
  | None => (s, None)
  end.

Definition update_session (session : nat) (f : Session -> Session) (s : AppState) : AppState :=
  s <| sessions := alter f session (sessions s) |>.

Definition push_pending (session : nat) (p : PendingTxnData) : AppState -> AppState :=
  update_session session (fun c => c <| pending_txns := pending_txns c ++ [p] |>).
Definition push_pending_front (session : nat) (p : PendingTxnData) : AppState -> AppState :=
  update_session session (fun c => c <| pending_txns := p :: pending_txns c |>).

Definition pop_pending (session : nat) (s : AppState) : AppState * option PendingTxnData :=
  match sessions s !! session with
  | Some c => match pending_txns c with
              | p :: ps => (update_session session (fun c => c <| pending_txns := ps |>) s, Some p)
              | [] => (s, None)
              end
  | None => (s, None)
  end.

Definition pop_response (session : nat) (s : AppState) : AppState * option JobsTxnMetadata :=
  match sessions s !! session with
  | Some c => match channel c with
              | m :: ms => (update_session session (fun c => c <| channel := ms |>) s, Some m)
              | [] => (s, None)
              end
  | None => (s, None)
  end.

(** ** Sending a response *)

(** The retry loop of [send_execution_output]. *)
Fixpoint send_loop (n : nat) (session : nat) (m : JobsTxnMetadata) (data : bytes) (gas_limit gas_price : Z)
    (update_nonce : bool) : exec unit :=
  match n with
  | O => mret tt
  | S n =>
      now ← instant_now;
      if retry_deadline m <=? now then mret tt else
      client ← reading http_rpc_client;
      client ← expect client;
      fetched ← (if update_nonce then
                   count ← await (TransactionCount client);
                   match count with
                   | Some count => _ ← writing (set_nonce count); mret true
                   | None => _ ← sleep (millis HTTP_CALL_RETRY_DELAY); mret false
                   end
                 else mret true);
      if negb (fetched : bool) then send_loop n session m data gas_limit gas_price true else
      current_nonce ← reading nonce_to_send;
      sent ← await (SendTransaction (mkTxn client current_nonce gas_limit gas_price (JobsCall data)));
      match sent with
      | inl err =>
          match parse_send_error (to_lowercase err) with
          | NonceTooLow => send_loop n session m data gas_limit gas_price true
          | OutOfGas =>
              gas_limit ← expect (raise_limit gas_limit);
              send_loop n session m data gas_limit gas_price false
          | GasPriceLow =>
              gas_price ← expect (raise_price gas_price);
              send_loop n session m data gas_limit gas_price false
          | GasTooHigh | ContractExecution => mret tt
          | _ => _ ← sleep (millis 200); send_loop n session m data gas_limit gas_price false
          end
      | inr hash =>
          now ← instant_now;
          _ ← writing (push_pending session (mkPendingTxnData hash m client current_nonce gas_limit gas_price now));
          ok ← atomic bump_nonce;
          expect ok
      end
  end.

(** One response of the channel. *)
Definition send_one (n : nat) (session : nat) (m : JobsTxnMetadata) : exec unit :=
  data ← expect (generate_txn m);
  client ← reading http_rpc_client;
  client ← expect client;
  gas ← estimate_gas_and_price n client data (retry_deadline m);
  match gas with
  | None => mret tt
  | Some (gas_limit, gas_price) => send_loop n session m data gas_limit gas_price false
  end.

Fixpoint send_execution_output (n : nat) (session : nat) : exec unit :=
  match n with
  | O => mret tt
  | S n' =>
      more ← await (ChannelRecv session);
      if negb (more : bool) then mret tt else
      m ← atomic (pop_response session);
      _ ← match m with Some m => send_one n session m | None => mret tt end;
      send_execution_output n' session
  end.

(** ** Resending a pending transaction *)

(** How the replacement loop ends: replaced, taken over by the sender, its
    nonce mined, or nothing of these, so that the nonce has to be unblocked. *)
Inductive Replacement := Replaced | HandedOver | NonceMined | Unresolved (p : PendingTxnData).

Fixpoint replace_loop (n : nat) (session : nat) (p : PendingTxnData) : exec Replacement :=
  match n with
  | O => mret (Unresolved p)
  | S n =>
      now ← instant_now;
      if retry_deadline (txn_data p) <=? now then mret (Unresolved p) else
      data ← expect (generate_txn (txn_data p));
      client ← reading http_rpc_client;
      client ← expect client;
      if negb (client =? pending_client p) then
        open ← await (ChannelSlot session);
        if open : bool
        then _ ← writing (update_session session (fun c => c <| channel := channel c ++ [txn_data p] |>)); mret HandedOver
        else replace_loop n session p
      else
      sent ← await (SendTransaction (mkTxn (pending_client p) (nonce p) (gas_limit p) (gas_price p) (JobsCall data)));
      match sent with
      | inl err =>
          match parse_send_error (to_lowercase err) with
          | NonceTooLow => mret NonceMined
          | OutOfGas =>
              l ← expect (raise_limit (gas_limit p)); replace_loop n session (p <| gas_limit := l |>)
          | GasPriceLow =>
              g ← expect (raise_price (gas_price p)); replace_loop n session (p <| gas_price := g |>)
          | GasTooHigh | ContractExecution => mret (Unresolved p)
          | _ => _ ← sleep (millis 200); replace_loop n session p
          end
      | inr hash =>
          now ← instant_now;
          _ ← writing (push_pending_front session (p <| txn_hash := hash |> <| last_monitor_instant := now |>));
          mret Replaced
      end
  end.

(** The loop that sends nothing to itself until the nonce is used up. *)
Fixpoint unblock_loop (n : nat) (p : PendingTxnData) : exec unit :=
  match n with
  | O => mret tt
  | S n =>
      client ← reading http_rpc_client;
      client ← expect client;
      if negb (client =? pending_client p) then mret tt else
      sent ← await (SendTransaction (mkTxn (pending_client p) (nonce p) (gas_limit p) (gas_price p) Dummy));
      match sent with
      | inl err =>
          match parse_send_error (to_lowercase err) with
          | NonceTooLow => mret tt
          | OutOfGas => l ← expect (raise_limit (gas_limit p)); unblock_loop n (p <| gas_limit := l |>)
          | GasPriceLow => g ← expect (raise_price (gas_price p)); unblock_loop n (p <| gas_price := g |>)
          | _ => _ ← sleep (millis 200); unblock_loop n p
          end
      | inr hash =>
          confirmed ← await (Confirm hash);
          if confirmed : bool then mret tt else unblock_loop n p
      end
  end.

Definition resend_one (n : nat) (session : nat) (p : PendingTxnData) : exec unit :=
  now ← instant_now;
  let resend_interval := RESEND_TXN_INTERVAL - Z.min RESEND_TXN_INTERVAL ((now - last_monitor_instant p) / secs 1) in
  now ← instant_now;
  let left := saturating_sub (retry_deadline (txn_data p)) now / secs 1 in
  _ ← sleep (secs (Z.min resend_interval left));
  receipt ← retry3 (await (Receipt (pending_client p) (txn_hash p)));
  match receipt with
  | Some (Some tt) => mret tt
  | _ =>
      l ← expect (raise_limit (gas_limit p));
      g ← expect (raise_price (gas_price p));
      r ← replace_loop n session (p <| gas_limit := l |> <| gas_price := g |>);
      match r with Unresolved p => unblock_loop n p | _ => mret tt end
  end.

Fixpoint resend_pending_transaction (n : nat) (session : nat) : exec unit :=
  match n with
  | O => mret tt
  | S n' =>
      p ← atomic (pop_pending session);
      match p with
      | None =>
          registered ← reading enclave_registered;
          if negb (registered : bool) then mret tt else
          _ ← sleep (millis 200);
          resend_pending_transaction n' session
      | Some p => _ ← resend_one n session p; resend_pending_transaction n' session
      end
  end.

End txn.
