(* ===== verification/ExecEvents.v ===== *)
(** * Serverless executor: contract events

    serverless/executor/src/event_handler.rs: the handlers of the three
    streams of a session, which share [last_block_seen], and the listener that
    opens sessions. *)

From S2P Require Import Prelude Async ExecState ExecWorkerd ExecJob ExecTxn.

Section events.
Context `{Cfg : ExecConfig} `{Api : ExecApi}.

(** Whether the loop of [handle_event_logs] goes on. *)
Inductive Flow := Continue | Return.

(** [event.removed.unwrap_or(true)] *)
Definition is_removed (event : ELog) : bool := default true (eremoved event).

Definition set_registered (b : bool) (s : AppState) : AppState := s <| enclave_registered := b |>.
Definition set_last_block (b : Z) (s : AppState) : AppState := s <| last_block_seen := b |>.

(** [U256::as_u64] panics above 64 bits. *)
Definition as_u64 (n : Z) : option Z := if n <=? u64_MAX then Some n else None.

Definition into_fixed_bytes (t : Token) : option bytes := match t with TFixedBytes b => Some b | _ => None end.
Definition into_bytes (t : Token) : option bytes := match t with TBytes b => Some b | _ => None end.
Definition into_uint (t : Token) : option Z := match t with TUint n => Some n | _ => None end.
Definition into_array (t : Token) : option (list Token) := match t with TArray l => Some l | _ => None end.
Definition into_address (t : Token) : option Z := match t with TAddress a => Some a | _ => None end.

(** [let Some(x) = event_tokens[i].clone().into() else { continue }] *)
Definition token_at {A} (tokens : list Token) (i : nat) (into : Token -> option A) (f : A -> exec Flow) : exec Flow :=
  t ← expect (tokens !! i);
  match into t with Some a => f a | None => mret Continue end.

(** The guards on a log of the job streams, which move [last_block_seen]. *)
Definition with_new_block (event : ELog) (f : exec Flow) : exec Flow :=
  if is_removed event then mret Continue else
  match eblock event with
  | None => mret Continue
  | Some current_block =>
      last ← reading last_block_seen;
      if current_block <? last then mret Continue else
      _ ← writing (set_last_block current_block);
      f
  end.

Definition on_deregistered (event : ELog) : exec Flow :=
  if is_removed event then mret Continue else
  _ ← writing (set_registered false);
  mret Return.

Definition job_created_types : list ParamType := [PFixedBytes 32; PBytes; PUint 256; PArray PAddress].
Definition job_responded_types : list ParamType := [PBytes; PUint 256; PUint 8; PUint 8].

Definition selected (nodes : list Token) : bool := existsb (Z.eqb enclave_address) (omap into_address nodes).

(** The tasks of a job; the deadline is read inside them. *)
Definition timeout_task (job_id user_deadline : Z) (tx : nat) : exec_task :=
  run_task (d ← expect (as_u64 user_deadline); handle_timeout job_id d tx).

Definition job_task (job_id : Z) (code_hash code_inputs : bytes) (user_deadline : Z) (tx : nat) : exec_task :=
  run_task (d ← expect (as_u64 user_deadline);
            handle_job job_id ("0x" +:+ hex_lower code_hash) code_inputs d tx).

Definition on_created (tx : nat) (event : ELog) : exec Flow :=
  with_new_block event (
    job_id ← expect (etopics event !! 1%nat);
    env_id ← expect (etopics event !! 2%nat);
    if negb (env_id =? EXECUTION_ENV_ID) then mret Continue else
    match decode job_created_types (edata event) with
    | None => mret Continue
    | Some tokens =>
        token_at tokens 0 into_fixed_bytes (fun code_hash =>
        token_at tokens 1 into_bytes (fun code_inputs =>
        token_at tokens 2 into_uint (fun user_deadline =>
        token_at tokens 3 into_array (fun selected_nodes =>
          _ ← writing (mark_running job_id);
          _ ← spawn (timeout_task job_id user_deadline tx);
          _ ← (if selected selected_nodes
               then spawn (job_task job_id code_hash code_inputs user_deadline tx) else mret tt);
          mret Continue))))
    end).

Definition on_responded (event : ELog) : exec Flow :=
  with_new_block event (
    job_id ← expect (etopics event !! 1%nat);
    match decode job_responded_types (edata event) with
    | None => mret Continue
    | Some tokens =>
        token_at tokens 3 into_uint (fun output_count =>
          _ ← (if output_count =? num_selected_executors then writing (mark_completed job_id) else mret tt);
          mret Continue)
    end).

Definition handle_event (tx : nat) (stream : Stream) (event : ELog) : exec Flow :=
  match stream with
  | Deregistered => on_deregistered event
  | JobCreated => on_created tx event
  | JobResponded => on_responded event
  end.

(** [handle_event_logs], for at most [n] events: the environment picks the
    stream that is ready, or says that all have ended. *)
Fixpoint handle_event_logs (n : nat) (tx : nat) : exec unit :=
  match n with
  | O => mret tt
  | S n =>
      next ← await (NextEvent tx);
      match next with
      | None => mret tt
      | Some (stream, event) =>
          flow ← handle_event tx stream event;
          match flow with Continue => handle_event_logs n tx | Return => mret tt end
      end
  end.

(** ** The listener *)

(** The registration stream, for at most [n] logs. *)
Fixpoint await_registration (n : nat) (starting_block : Z) : exec unit :=
  match n with
  | O => mret tt
  | S n =>
      next ← await NextRegistration;
      match next with
      | None => mret tt
      | Some event =>
          if is_removed event then await_registration n starting_block else
          _ ← writing (set_registered true);
          b ← expect (as_u64 (default starting_block (eblock event)));
          writing (set_last_block b)
      end
  end.

(** A new channel and an empty queue of pending transactions. *)
Definition open_session (s : AppState) : AppState * nat :=
  (s <| sessions := sessions s ++ [mkSession [] []] |>, length (sessions s)).

(** A session: the tasks of its transactions, then its events. *)
Definition session (n : nat) : exec unit :=
  tx ← atomic open_session;
  _ ← spawn (run_task (resend_pending_transaction n tx));
  _ ← spawn (run_task (send_execution_output n tx));
  handle_event_logs n tx.

(** One round of the loop of [events_listener]; [true] ends it. *)
Definition listen_once (n : nat) (starting_block : Z) : exec bool :=
  connected ← await WsConnect;
  if negb (connected : bool) then mret false else
  registered ← reading enclave_registered;
  subscribed ← (if negb (registered : bool) then
                  ok ← await (Subscribe starting_block);
                  if negb (ok : bool) then mret false else
                  _ ← await_registration n starting_block;
                  reading enclave_registered
                else mret true);
  if negb (subscribed : bool) then mret false else
  from ← reading last_block_seen;
  created ← await (Subscribe from);
  if negb (created : bool) then mret false else
  from ← reading last_block_seen;
  responded ← await (Subscribe from);
  if negb (responded : bool) then mret false else
  from ← reading last_block_seen;
  deregistered ← await (Subscribe from);
  if negb (deregistered : bool) then mret false else
  _ ← session n;
  registered ← reading enclave_registered;
  mret (negb registered).

Fixpoint listen (n : nat) (starting_block : Z) : exec unit :=
  match n with
  | O => mret tt
  | S n' =>
      over ← listen_once n starting_block;
      if over : bool then mret tt else listen n' starting_block
  end.

Definition set_listener (b : bool) (s : AppState) : AppState := s <| events_listener_active := b |>.

Definition events_listener (n : nat) (starting_block : Z) : exec unit :=
  defer (writing (set_listener false)) (listen n starting_block).

End events.
