(* ===== verification/ExecNode.v ===== *)
(** * Serverless executor: the configuration endpoints

    serverless/executor/src/node_handler.rs: injecting the owner and the gas
    key, and the signed registration message, which starts the listener of
    contract events; and the state that main.rs starts with.  A handler is a
    task of its own, and its result is the response. *)

From S2P Require Import Prelude Text Async ExecState ExecJob ExecEvents.

Inductive Status := Ok200 | BadRequest400 | InternalServerError500.

Record ExecutorDetails := mkExecutorDetails {
  details_enclave_address : Z;
  details_enclave_public_key : string;
  details_owner_address : Z;
  details_gas_address : Z;
}.

Record RegistrationMessage := mkRegistrationMessage {
  reg_job_capacity : Z;
  reg_sign_timestamp : Z;
  reg_env : Z;
  reg_owner : Z;
  reg_signature : string;
}.

(** A body is a text or one of the two json objects. *)
Inductive Body :=
| TextBody (text : string)
| DetailsBody (details : ExecutorDetails)
| RegistrationBody (message : RegistrationMessage).

Record HttpResponse := mkResponse { status : Status; body : Body }.

(** A line of text. *)
Definition says (status : Status) (text : string) : HttpResponse := mkResponse status (TextBody (text +:+ newline)).

Section node.
Context `{Cfg : ExecConfig} `{Api : ExecApi}.

(** [s.strip_prefix(p).unwrap_or(s)] for the prefix [0x]. *)
Definition strip_0x (s : string) : string :=
  if has_prefix "0x" s then String.substring 2 (String.length s - 2) s else s.

Definition index : exec HttpResponse := mret (mkResponse Ok200 (TextBody EmptyString)).

(** The body holds the lock of [immutable_params_injected] throughout. *)
Definition inject_owner (owner_address_hex : string) (s : AppState) : AppState * HttpResponse :=
  if immutable_params_injected s then (s, says BadRequest400 "Immutable params already configured!") else
  let text := strip_0x owner_address_hex in
  match hex_decode text with
  | None => (s, says BadRequest400 ("Invalid owner address hex string: " +:+ debug_error (NotHex text)))
  | Some owner_address =>
      if negb (length owner_address =? 20)%nat then (s, says BadRequest400 "Owner address must be 20 bytes long!") else
      (s <| enclave_owner := from_be owner_address |> <| immutable_params_injected := true |>,
       says Ok200 "Immutable params configured!")
  end.

Definition inject_immutable_config (owner_address_hex : string) : exec HttpResponse :=
  atomic (inject_owner owner_address_hex).

(** The wallet of a 32-byte key ([LocalWallet::from_bytes]), by its address,
    and whether the rpc url makes a provider: third-party parameters. *)
Context (wallet_of : bytes -> option Client) (provider_ok : bool).

Definition set_client (client : Client) (s : AppState) : AppState := s <| http_rpc_client := Some client |>.
Definition set_mutable_injected (s : AppState) : AppState := s <| mutable_params_injected := true |>.

Definition inject_mutable_config (gas_key_hex : string) : exec HttpResponse :=
  let text := strip_0x gas_key_hex in
  match hex_decode text with
  | None => mret (says BadRequest400 ("Invalid gas private key hex string: " +:+ debug_error (NotHex text)))
  | Some gas_key =>
      if negb (length gas_key =? 32)%nat
      then mret (says BadRequest400 "Gas private key must be 32 bytes long!") else
      match wallet_of gas_key with
      | None => mret (says BadRequest400 ("Invalid gas private key provided: " +:+ debug_error (BadWallet gas_key)))
      | Some client =>
          if negb provider_ok then
            mret (says InternalServerError500 ("Failed to initialize the http rpc server " +:+ http_rpc_url +:+ ": " +:+
                                               debug_error (BadRpcUrl http_rpc_url))) else
          count ← retry3 (await (TransactionCount client));
          match count with
          | None => mret (says InternalServerError500 ("Failed to fetch current nonce for the gas address: " +:+
                                                       debug_error (NoTransactionCount client)))
          | Some count =>
              (* the lock of [mutable_params_injected] does not cover the other two *)
              _ ← writing (ExecTxn.set_nonce count);
              _ ← writing (set_client client);
              _ ← writing set_mutable_injected;
              mret (says Ok200 "Mutable params configured!")
          end
      end
  end.

(** The enclave's address and key, the owner, and the address of the gas key. *)
Definition get_executor_details : exec HttpResponse :=
  mutable ← reading mutable_params_injected;
  gas_address ← (if mutable : bool then client ← reading http_rpc_client; expect client else mret 0%Z);
  owner ← reading enclave_owner;
  mret (mkResponse Ok200 (DetailsBody (mkExecutorDetails enclave_address
    ("0x" +:+ hex_lower enclave_public_key) owner gas_address))).

Definition executors_domain_separator : bytes :=
  keccak256 (encode [TFixedBytes (keccak256 (literal "EIP712Domain(string name,string version)"));
                     TFixedBytes (keccak256 (literal "marlin.oyster.Executors"));
                     TFixedBytes (keccak256 (literal "1"))]).

Definition registration_digest (owner sign_timestamp : Z) : option bytes :=
  let register_typehash := keccak256 (literal
    "Register(address owner,uint256 jobCapacity,uint8 env,uint256 signTimestamp)") in
  let hash_struct := keccak256 (encode
    [TFixedBytes register_typehash; TAddress owner; TUint job_capacity; TUint EXECUTION_ENV_ID; TUint sign_timestamp]) in
  keccak256 <$> encode_packed [TString [0x19; 0x01]; TFixedBytes executors_domain_separator; TFixedBytes hash_struct].

(** [*guard == false] and [*guard = true] under the lock of
    [events_listener_active]; [None] when the latest block is not known. *)
Definition claim_listener (current_block : option Z) (s : AppState) : AppState * option (option Z) :=
  if events_listener_active s then (s, Some None) else
  match current_block with
  | None => (s, None)
  | Some b => (set_listener true s, Some (Some b))
  end.

(** The registration message, for a listener of at most [n] rounds. *)
Definition export_signed_registration_message (n : nat) : exec HttpResponse :=
  immutable ← reading immutable_params_injected;
  if negb (immutable : bool) then mret (says BadRequest400 "Immutable params not configured yet!") else
  mutable ← reading mutable_params_injected;
  if negb (mutable : bool) then mret (says BadRequest400 "Mutable params not configured yet!") else
  owner ← reading enclave_owner;
  sign_timestamp ← await UnixTime;
  match registration_digest owner sign_timestamp with
  | None => mret (says InternalServerError500
                    ("Failed to encode the registration message for signing: " +:+ debug_error NotEncodable))
  | Some digest =>
      match sign_prehash digest with
      | None => mret (says InternalServerError500
                        ("Failed to sign the registration message using enclave key: " +:+
                         debug_error (NotSigned digest)))
      | Some (rs, v) =>
          let message := mkRegistrationMessage job_capacity sign_timestamp EXECUTION_ENV_ID owner
                           ("0x" +:+ hex_lower (rs ++ [wrap 8 (27 + v)])) in
          let response := mkResponse Ok200 (RegistrationBody message) in
          client ← reading http_rpc_client;
          client ← expect client;
          current_block_number ← await (BlockNumber client);
          claim ← atomic (claim_listener current_block_number);
          match claim with
          | None => mret (says InternalServerError500
                            ("Failed to fetch the latest block number of the common chain for initiating event listening: " +:+
                             debug_error (NoBlockNumber client)))
          | Some None => mret response
          | Some (Some b) => _ ← spawn (run_task (events_listener n b)); mret response
          end
      end
  end.

(** The endpoints a client can call. *)
Inductive Request :=
| GetIndex
| PostImmutableConfig (owner_address_hex : string)
| PostMutableConfig (gas_key_hex : string)
| GetExecutorDetails
| GetSignedRegistrationMessage.

Definition endpoint (n : nat) (r : Request) : exec HttpResponse :=
  match r with
  | GetIndex => index
  | PostImmutableConfig h => inject_immutable_config h
  | PostMutableConfig h => inject_mutable_config h
  | GetExecutorDetails => get_executor_details
  | GetSignedRegistrationMessage => export_signed_registration_message n
  end.

Definition request_task (n : nat) (r : Request) : exec_task := run_task (_ ← endpoint n r; mret tt).

(** Requests that arrive from given instants on. *)
Definition arrivals (n : nat) (requests : list (Z * Request)) : list exec_task :=
  (fun '(at_time, r) => Asleep at_time (request_task n r)) <$> requests.

(** The state of [main] for the entries of the cgroup directory; without a
    cgroup the program ends. *)
Definition initial_state (entries : list (option string)) : option AppState :=
  match get_cgroups entries with
  | [] => None
  | free => Some (mkAppState free ∅ 0 false false false false 0 None 0 [])
  end.

End node.
