(* ===== verification/ExecAccount.v ===== *)
(** * Serverless executor: the accounting of its resources

    A cgroup and the right to run the events listener are resources taken from
    a pool of the shared state.  Every function of the executor keeps the
    accounts: it calls the environment on a cgroup, or on the event streams,
    only while holding it, and gives it back however it ends. *)

From stdpp Require Import sets.
From S2P Require Import Prelude Async ExecState ExecWorkerd ExecJob ExecTxn ExecEvents ExecNode.

Inductive Resource := Cgroup (name : string) | Listener.

#[export] Instance Resource_eq_dec : EqDecision Resource.
Proof. solve_decision. Defined.

(** What is free: the cgroups, and the listener while none is active. *)
Definition free_resources (s : AppState) : list Resource :=
  (if events_listener_active s then [] else [Listener]) ++ (Cgroup <$> cgroups_free s).

(** The cgroups whose workers listen on a port. *)
Definition has_port (port : Z) (cgroup : string) : bool :=
  match get_port cgroup with Ok p => p =? port | _ => false end.
Definition on_port (names : list string) (port : Z) : list string := filter (has_port port) names.

(** What a call works on: the cgroup itself or the worker in it, or the
    streams of the listener. *)
Definition call_uses (names : list string) (c : Call) : list Resource :=
  match c with
  | CgExec cgroup _ | KillChild cgroup | ReadStderr cgroup => [Cgroup cgroup]
  | Connect port | PostWorkerd port _ => Cgroup <$> on_port names port
  | WsConnect | Subscribe _ | NextRegistration | NextEvent _ => [Listener]
  | _ => []
  end.

(** All there is, for the cgroups [names]; distinct cgroups have distinct
    ports. *)
Definition resources (names : list string) : list Resource := Listener :: (Cgroup <$> names).
Definition distinct_ports (names : list string) : Prop :=
  NoDup names /\ forall c c' p, c ∈ names -> c' ∈ names -> get_port c = Ok p -> get_port c' = Ok p -> c = c'.

#[export] Hint Resolve keeps_ret keeps_unwind keeps_reading keeps_now keeps_sleep keeps_expect : keeps.
#[export] Hint Resolve keeps_timeout keeps_defer : keeps.
#[export] Hint Extern 1 (keeps _ _ _ _ (await ?c)) => apply (keeps_await (Resp := Response) _ _ _ _ c); cbn; set_solver : keeps.
#[export] Hint Extern 1 (keeps _ _ _ _ (await_in ?c)) => apply (keeps_await_in (Resp := Response) _ _ _ _ c); cbn; set_solver : keeps.
#[export] Hint Extern 1 (keeps _ _ _ _ (writing _)) => apply keeps_writing; reflexivity : keeps.

(** Follows the structure of a function down to the calls the hints know. *)
Ltac keeps :=
  repeat match goal with
  | |- keeps _ _ _ _ (_ ≫= _) => apply keeps_bind; [| intros ?]
  | |- keeps _ _ _ _ (match ?x with _ => _ end) => destruct x
  | |- keeps _ _ _ _ _ => solve [eauto with keeps]
  end.

Section account.
Context `{Cfg : ExecConfig} `{Api : ExecApi} (names : list string) (Hports : distinct_ports names).
#[local] Set Default Proof Using "Type*".

#[local] Abbreviation exec_keeps := (keeps (Resp := Response) (resources names) free_resources (call_uses names)).
#[local] Abbreviation exec_owns := (owns (Resp := Response) (resources names) free_resources (call_uses names)).
#[local] Abbreviation exec_wp := (wp (Resp := Response) (resources names) free_resources (call_uses names)).

(** ** workerd.rs *)

Lemma keeps_retry need n {A} (attempt : exec (option A)) : exec_keeps need attempt -> exec_keeps need (retry n attempt).
Proof. intros Ha. induction n as [| n IH]; cbn [retry]; keeps. Qed.

Lemma keeps_retry3 need {A} (attempt : exec (option A)) : exec_keeps need attempt -> exec_keeps need (retry3 attempt).
Proof. apply keeps_retry. Qed.

Lemma keeps_try need {E A} (o : outcome E A) : exec_keeps need (try o).
Proof. unfold try. keeps. Qed.
#[local] Hint Resolve keeps_retry3 keeps_try : keeps.

Lemma keeps_populate need path data : exec_keeps need (create_and_populate_file path data).
Proof. unfold create_and_populate_file. keeps. Qed.
Lemma keeps_remove need path : exec_keeps need (remove_file path).
Proof. unfold remove_file. keeps. Qed.
#[local] Hint Resolve keeps_populate keeps_remove : keeps.

Lemma keeps_create_code need tx_hash slug rpc contract : exec_keeps need (create_code_file tx_hash slug rpc contract).
Proof. unfold create_code_file. keeps. Qed.
Lemma keeps_create_config need tx_hash slug port : exec_keeps need (create_config_file tx_hash slug port).
Proof. unfold create_config_file. keeps. Qed.
Lemma keeps_cleanup_code need tx_hash slug : exec_keeps need (cleanup_code_file tx_hash slug).
Proof. unfold cleanup_code_file. keeps. Qed.
Lemma keeps_cleanup_config need tx_hash slug : exec_keeps need (cleanup_config_file tx_hash slug).
Proof. unfold cleanup_config_file. keeps. Qed.
Lemma keeps_execute tx_hash slug cgroup : exec_keeps [Cgroup cgroup] (execute tx_hash slug cgroup).
Proof. unfold execute. keeps. Qed.

(** The worker on the port of a cgroup that is held. *)
Lemma on_port_held cgroup port : cgroup ∈ names -> get_port cgroup = Ok port ->
  Cgroup <$> on_port names port ⊆ [Cgroup cgroup].
Proof.
  intros Hin Hport x (c & -> & Hc)%list_elem_of_fmap. apply list_elem_of_filter in Hc as [Hc Hcin].
  unfold has_port in Hc. destruct (get_port c) as [p | |] eqn:Hp; [| done ..]. apply Is_true_eq_true, Z.eqb_eq in Hc as ->.
  destruct Hports as [_ Hinj]. rewrite (Hinj c cgroup port); [by left | done ..].
Qed.

Lemma keeps_port_loop rounds start port : exec_keeps (Cgroup <$> on_port names port) (wait_for_port_loop rounds start port).
Proof. induction rounds as [| n IH]; cbn [wait_for_port_loop]; unfold sleep_in; keeps. Qed.
Lemma keeps_wait_for_port port : exec_keeps (Cgroup <$> on_port names port) (wait_for_port port).
Proof.
  unfold wait_for_port. generalize (Z.to_nat 1001). intros n. apply keeps_bind; [keeps |]. intros. apply keeps_port_loop.
Qed.
Lemma keeps_response port inputs : exec_keeps (Cgroup <$> on_port names port) (get_workerd_response port inputs).
Proof. unfold get_workerd_response. keeps. Qed.
#[local] Hint Resolve keeps_create_code keeps_create_config keeps_cleanup_code keeps_cleanup_config keeps_execute : keeps.

(** ** job_handler.rs and timeout_handler.rs *)

Lemma keeps_failed need start code : exec_keeps need (failed_output start code).
Proof. unfold failed_output, elapsed_millis. keeps. Qed.
#[local] Hint Resolve keeps_failed : keeps.

Lemma keeps_with_worker cgroup port start inputs : cgroup ∈ names -> get_port cgroup = Ok port ->
  exec_keeps [Cgroup cgroup] (with_worker cgroup port start inputs).
Proof.
  intros Hin Hport. pose proof (on_port_held _ _ Hin Hport) as Hheld. unfold with_worker, elapsed_millis.
  apply keeps_bind; [by eapply keeps_weaken; [apply keeps_wait_for_port |] |]. intros res. destruct (negb res); [keeps |].
  apply keeps_bind; [by eapply keeps_weaken; [apply keeps_response |] | intros; keeps].
Qed.
Lemma keeps_kill cgroup : exec_keeps [Cgroup cgroup] (kill_worker cgroup).
Proof. unfold kill_worker. keeps. Qed.
#[local] Hint Resolve keeps_with_worker keeps_kill : keeps.

Lemma keeps_with_cgroup cgroup code_hash slug start inputs : cgroup ∈ names ->
  exec_keeps [Cgroup cgroup] (with_cgroup cgroup code_hash slug start inputs).
Proof.
  intros Hin. unfold with_cgroup. destruct (get_port cgroup) as [port | |] eqn:Hport; cbn [try];
    first [apply keeps_ret_bind | apply keeps_unwind_bind]; keeps.
Qed.
#[local] Hint Resolve keeps_with_cgroup : keeps.

Lemma swap_remove0_perm {A} (x : A) rest : (swap_remove0 x rest).1 :: (swap_remove0 x rest).2 ≡ₚ x :: rest.
Proof.
  unfold swap_remove0. cbn. f_equiv. destruct rest as [| y l _] using rev_ind; [done |].
  rewrite last_snoc, removelast_last. by rewrite (comm (++)).
Qed.

(** [reserve] moves a cgroup out of the pool, and the guard moves it back. *)
Lemma reserve_moves s : free_resources s ≡ₚ
  match (reserve s).2 with Some cgroup => [Cgroup cgroup] | None => [] end ++ free_resources (reserve s).1.
Proof.
  unfold reserve, free_resources. destruct (cgroups_free s) as [| x rest] eqn:Hfree; cbn; [by rewrite Hfree |].
  rewrite Permutation_middle. f_equiv. change (Cgroup <$> x :: rest ≡ₚ Cgroup <$> x :: (swap_remove0 x rest).2).
  f_equiv. symmetry. exact (swap_remove0_perm x rest).
Qed.

Lemma release_moves cgroup s : Cgroup cgroup :: free_resources s ≡ₚ free_resources (release cgroup s).
Proof.
  unfold free_resources. change (cgroups_free (release cgroup s)) with (cgroups_free s ++ [cgroup]).
  change (events_listener_active (release cgroup s)) with (events_listener_active s).
  rewrite fmap_app, (assoc (++)). apply Permutation_cons_append.
Qed.

Lemma elem_of_resources cgroup : Cgroup cgroup ∈ resources names -> cgroup ∈ names.
Proof. intros [| (c & [= ->] & Hc)%list_elem_of_fmap]%elem_of_cons; done. Qed.

Lemma NoDup_resources : NoDup (resources names).
Proof.
  constructor; [intros (c & [=] & _)%list_elem_of_fmap |]. destruct Hports as [Hnd _].
  apply NoDup_fmap_2; [by intros ?? [= ->] | done].
Qed.

Lemma NoDup_part (l k : list Resource) : l ⊆+ k -> NoDup k -> NoDup l.
Proof. intros (k' & ->)%submseteq_Permutation Hnd. by apply NoDup_app in Hnd as [Hl _]. Qed.

Lemma keeps_execute_job code_hash inputs slug : exec_keeps [] (execute_job code_hash inputs slug).
Proof.
  unfold execute_job. apply keeps_bind; [keeps |]. intros start. apply keeps_bind; [keeps |]. intros [err | []]; [keeps |].
  intros held _. apply wp_bind, wp_atomic. intros s Hsub. pose proof (reserve_moves s) as Hmove.
  destruct (reserve s).2 as [cgroup |]; cbn in Hmove |- *.
  - exists (Cgroup cgroup :: held). split; [rewrite Hmove; symmetry; apply Permutation_middle |].
    assert (cgroup ∈ names) as Hin.
    { eapply elem_of_resources, elem_of_submseteq, Hsub. rewrite Hmove. apply elem_of_app. right. by left. }
    apply wp_defer. eapply wp_mono; [by apply keeps_with_cgroup, list_subseteq_skip, list_subseteq_nil |].
    intros r h ->. apply wp_atomic. intros s' _. exists held. split; [| done].
    transitivity (held ++ free_resources (release cgroup s')); [| done].
    rewrite <- release_moves. apply Permutation_middle.
  - exists held. split; [by rewrite Hmove |]. by apply wp_ret.
Qed.

Lemma keeps_send_response need tx m : exec_keeps need (send_response tx m).
Proof. unfold send_response. keeps. Qed.
#[local] Hint Resolve keeps_execute_job keeps_send_response : keeps.

Lemma keeps_handle_job job_id code_hash inputs deadline tx : exec_keeps [] (handle_job job_id code_hash inputs deadline tx).
Proof. unfold handle_job, report_job. keeps. Qed.
Lemma keeps_handle_timeout job_id d tx : exec_keeps [] (handle_timeout job_id d tx).
Proof. unfold handle_timeout. keeps. Qed.
#[local] Hint Resolve keeps_handle_job keeps_handle_timeout : keeps.

(** ** The tasks of a session *)

Lemma keeps_poll_price need n client deadline : exec_keeps need (poll_gas_price n client deadline).
Proof. induction n as [| n IH]; cbn [poll_gas_price]; keeps. Qed.
Lemma keeps_poll_estimate need n client txn deadline : exec_keeps need (poll_gas_estimate n client txn deadline).
Proof. induction n as [| n IH]; cbn [poll_gas_estimate]; keeps. Qed.
#[local] Hint Resolve keeps_poll_price keeps_poll_estimate : keeps.
Lemma keeps_estimate need n client txn deadline : exec_keeps need (estimate_gas_and_price n client txn deadline).
Proof. unfold estimate_gas_and_price. keeps. Qed.
#[local] Hint Resolve keeps_estimate : keeps.

Lemma keeps_bump_nonce need : exec_keeps need (atomic bump_nonce).
Proof. apply keeps_atomic. intros s. unfold bump_nonce. by case_match. Qed.
Lemma keeps_pop_response need tx : exec_keeps need (atomic (pop_response tx)).
Proof. apply keeps_atomic. intros s. unfold pop_response. by repeat case_match. Qed.
Lemma keeps_pop_pending need tx : exec_keeps need (atomic (pop_pending tx)).
Proof. apply keeps_atomic. intros s. unfold pop_pending. by repeat case_match. Qed.
#[local] Hint Resolve keeps_bump_nonce keeps_pop_response keeps_pop_pending : keeps.

Lemma keeps_send_loop need n tx m data gas_limit gas_price update :
  exec_keeps need (send_loop n tx m data gas_limit gas_price update).
Proof. revert gas_limit gas_price update. induction n as [| n IH]; intros; cbn [send_loop]; keeps. Qed.
#[local] Hint Resolve keeps_send_loop : keeps.
Lemma keeps_send_one need n tx m : exec_keeps need (send_one n tx m).
Proof. unfold send_one. keeps. Qed.
#[local] Hint Resolve keeps_send_one : keeps.
Lemma keeps_sender need n tx : exec_keeps need (send_execution_output n tx).
Proof. induction n as [| n IH]; cbn [send_execution_output]; keeps. Qed.

Lemma keeps_replace need n tx p : exec_keeps need (replace_loop n tx p).
Proof. revert p. induction n as [| n IH]; intros p; cbn [replace_loop]; keeps. Qed.
Lemma keeps_unblock need n p : exec_keeps need (unblock_loop n p).
Proof. revert p. induction n as [| n IH]; intros p; cbn [unblock_loop]; keeps. Qed.
#[local] Hint Resolve keeps_replace keeps_unblock : keeps.
Lemma keeps_resend_one need n tx p : exec_keeps need (resend_one n tx p).
Proof. unfold resend_one. keeps. Qed.
#[local] Hint Resolve keeps_resend_one : keeps.
Lemma keeps_resender need n tx : exec_keeps need (resend_pending_transaction n tx).
Proof. induction n as [| n IH]; cbn [resend_pending_transaction]; keeps. Qed.
#[local] Hint Resolve keeps_sender keeps_resender : keeps.

(** ** The events of a session *)

Lemma owns_timeout_task job_id deadline tx : exec_owns [] (timeout_task job_id deadline tx).
Proof. apply owns_keeps. keeps. Qed.
Lemma owns_job_task job_id code_hash inputs deadline tx : exec_owns [] (job_task job_id code_hash inputs deadline tx).
Proof. apply owns_keeps. keeps. Qed.
#[local] Hint Resolve owns_timeout_task owns_job_task keeps_spawn : keeps.

Lemma keeps_token_at need {A} tokens i (into : Token -> option A) f :
  (forall a, exec_keeps need (f a)) -> exec_keeps need (token_at tokens i into f).
Proof. intros Hf. unfold token_at. keeps. Qed.
Lemma keeps_new_block need event f : exec_keeps need f -> exec_keeps need (with_new_block event f).
Proof. intros Hf. unfold with_new_block. keeps. Qed.
#[local] Hint Resolve keeps_token_at keeps_new_block : keeps.

Lemma keeps_handle_event need tx stream event : exec_keeps need (handle_event tx stream event).
Proof.
  destruct stream; cbn [handle_event].
  - unfold on_deregistered. keeps.
  - unfold on_created. apply keeps_new_block. keeps. repeat (apply keeps_token_at; intros ?). keeps.
  - unfold on_responded. apply keeps_new_block. keeps. apply keeps_token_at; intros ?. keeps.
Qed.
#[local] Hint Resolve keeps_handle_event : keeps.

Lemma keeps_event_logs n tx : exec_keeps [Listener] (handle_event_logs n tx).
Proof. induction n as [| n IH]; cbn [handle_event_logs]; keeps. Qed.
Lemma keeps_await_registration n block : exec_keeps [Listener] (await_registration n block).
Proof. induction n as [| n IH]; cbn [await_registration]; keeps. Qed.
Lemma keeps_open_session need : exec_keeps need (atomic open_session).
Proof. by apply keeps_atomic. Qed.
#[local] Hint Resolve keeps_event_logs keeps_await_registration keeps_open_session owns_keeps : keeps.

Lemma keeps_session n : exec_keeps [Listener] (session n).
Proof. unfold session. keeps. Qed.
#[local] Hint Resolve keeps_session : keeps.
Lemma keeps_listen_once n block : exec_keeps [Listener] (listen_once n block).
Proof. unfold listen_once. keeps. Qed.
#[local] Hint Resolve keeps_listen_once : keeps.
Lemma keeps_listen n block : exec_keeps [Listener] (listen n block).
Proof. induction n as [| n IH]; cbn [listen]; keeps. Qed.

(** The listener's task gives the listener back when it ends. *)
Lemma owns_listener n block : exec_owns [Listener] (run_task (events_listener n block)).
Proof.
  unfold run_task, events_listener.
  refine (wp_defer _ _ _ _ _ [Listener] (fun _ h => h = []) _ _ _); [| by intros r h ->].
  eapply wp_mono; [by apply keeps_listen |]. intros r h ->.
  apply wp_atomic. intros s Hsub. exists []. split; [| done]. apply NoDup_part in Hsub; [| apply NoDup_resources].
  revert Hsub. unfold free_resources. cbn. destruct (events_listener_active s); [done |]. cbn.
  intros Hdup%NoDup_cons_1_1. by destruct Hdup; left.
Qed.
#[local] Hint Resolve owns_listener : keeps.

(** ** node_handler.rs *)

Lemma keeps_immutable need owner : exec_keeps need (inject_immutable_config owner).
Proof. apply keeps_atomic. intros s. unfold inject_owner. by repeat case_match. Qed.

Lemma keeps_mutable need wallet_of provider_ok key : exec_keeps need (inject_mutable_config wallet_of provider_ok key).
Proof. unfold inject_mutable_config. keeps. Qed.

(** Claiming the listener takes it out of the pool. *)
Lemma wp_claim_listener block (Q : exit (option (option Z)) -> list Resource -> Prop) :
  Q (Returned None) [] -> Q (Returned (Some None)) [] -> (forall b, Q (Returned (Some (Some b))) [Listener]) ->
  exec_wp (atomic (claim_listener block)) [] Q.
Proof.
  intros Hnone Hactive Hclaimed. apply wp_atomic. intros s _. unfold claim_listener, free_resources.
  destruct (events_listener_active s) eqn:Hs; [exists []; cbn; by rewrite Hs |].
  destruct block as [b |]; [exists [Listener]; by cbn | exists []; cbn; by rewrite Hs].
Qed.

Lemma wp_registration n : exec_wp (export_signed_registration_message n) [] (fun _ h => h = []).
Proof.
  unfold export_signed_registration_message.
  repeat match goal with
  | |- wp _ _ _ (match ?x with _ => _ end) _ _ => destruct x
  | |- wp _ _ _ (mret _) _ _ => by apply wp_ret
  | |- wp _ _ _ (atomic (claim_listener _) ≫= _) _ _ => apply wp_bind, wp_claim_listener; [by apply wp_ret .. |]
  | |- wp _ _ _ (_ ≫= _) _ _ => apply wp_bind_keeps; [keeps | done | done | intros ?]
  end.
  intros b. apply wp_bind, wp_spawn_give; [apply owns_listener | by apply wp_ret].
Qed.

Lemma owns_request wallet_of provider_ok n r : exec_owns [] (request_task wallet_of provider_ok n r).
Proof.
  destruct r; unfold request_task; cbn [endpoint].
  - apply owns_keeps. unfold index. keeps.
  - apply owns_keeps, keeps_bind; [apply keeps_immutable | intros; keeps].
  - apply owns_keeps, keeps_bind; [apply keeps_mutable | intros; keeps].
  - apply owns_keeps. unfold get_executor_details. keeps.
  - apply owns_run_task, wp_bind. eapply wp_mono; [apply wp_registration |]. by intros [a | |] h ->; [apply wp_ret | |].
Qed.

End account.
