(* ===== verification/ExecGuard.v ===== *)
(** * Serverless executor: the invariant of its state

    What every access of every task of the executor keeps: the messages queued
    for the Jobs contract are well formed and signed, the rpc client is there
    when a task needs it, and what has been injected stays.  The rely-guarantee
    rules of [Async] follow each function to its accesses. *)

From S2P Require Import Prelude Async ExecState ExecWorkerd ExecJob ExecTxn ExecEvents ExecNode.

(** What later states keep of earlier ones. *)
Definition keeps_config (s s' : AppState) : Prop :=
  (is_Some (http_rpc_client s) -> is_Some (http_rpc_client s')) /\
  (immutable_params_injected s = true -> immutable_params_injected s' = true /\ enclave_owner s' = enclave_owner s).

#[export] Instance keeps_config_preorder : PreOrder keeps_config.
Proof.
  split; [by intros s; split |]. intros s1 s2 s3 [Hc1 Ho1] [Hc2 Ho2]. split; [by auto |].
  intros [Hi1 He1]%Ho1. destruct (Ho2 Hi1). split; [done |]. congruence.
Qed.

Section guard.
Context `{Cfg : ExecConfig} `{Api : ExecApi}.

(** ** The invariant *)

(** An output is a success, or one of the documented errors without output. *)
Definition good_output (o : JobOutput) : Prop := error_code o = 0 \/ 1 <= error_code o <= 4 /\ output o = [].

Definition good_message (m : JobsTxnMetadata) : Prop :=
  match txn_type m, job_output m with
  | OUTPUT, Some o =>
      good_output o /\
      sign_response (job_id m) (output o) (total_time o) (error_code o) (sign_timestamp o) = Some (signature o)
  | TIMEOUT, None => True
  | _, _ => False
  end.

Definition good_session (c : Session) : Prop :=
  Forall good_message (channel c) /\ Forall (fun p => good_message (txn_data p)) (pending_txns c).

Definition state_ok (s : AppState) : Prop :=
  Forall good_session (sessions s) /\
  (mutable_params_injected s = true -> is_Some (http_rpc_client s)) /\
  (sessions s <> [] -> is_Some (http_rpc_client s)).

(** A well-formed message makes a transaction. *)
Lemma good_message_txn m : good_message m -> is_Some (generate_txn m).
Proof. unfold good_message, generate_txn. destruct (txn_type m), (job_output m); try done; intros _; by eexists. Qed.

(** An access to the fields the invariant does not mention. *)
Definition same_core (s s' : AppState) : Prop :=
  sessions s' = sessions s /\ http_rpc_client s' = http_rpc_client s /\
  mutable_params_injected s' = mutable_params_injected s /\
  immutable_params_injected s' = immutable_params_injected s /\ enclave_owner s' = enclave_owner s.

Lemma same_core_ok s s' : same_core s s' -> state_ok s -> state_ok s' /\ keeps_config s s'.
Proof.
  intros (Hs & Hc & Hm & Hi & Ho) Hok. unfold state_ok, keeps_config. rewrite Hs, Hc, Hm, Hi, Ho. by split; [| split].
Qed.

(** An access to a session. *)
Lemma update_session_ok tx f s : (forall c, good_session c -> good_session (f c)) -> state_ok s ->
  state_ok (update_session tx f s) /\ keeps_config s (update_session tx f s).
Proof.
  intros Hf (Hs & Hm & Hc). split; [| by split]. split; [| split; [done |]]; cbn.
  - apply Forall_alter; [done |]. eauto.
  - intros Hne. apply Hc. contradict Hne. by rewrite Hne.
Qed.

Lemma bump_nonce_ok s : state_ok s -> state_ok (bump_nonce s).1 /\ keeps_config s (bump_nonce s).1 /\ True.
Proof. unfold bump_nonce. case_match; (intros Hok; split_and!; [done | by split | done]). Qed.

Lemma reserve_ok s : state_ok s -> state_ok (reserve s).1 /\ keeps_config s (reserve s).1 /\ True.
Proof. unfold reserve. case_match; (intros Hok; split_and!; [done | by split | done]). Qed.

(** What is taken from a queue is well formed. *)
Definition if_some {A} (P : A -> Prop) (o : option A) : Prop := match o with Some a => P a | None => True end.

Lemma pop_response_ok tx s : state_ok s ->
  state_ok (pop_response tx s).1 /\ keeps_config s (pop_response tx s).1 /\ if_some good_message (pop_response tx s).2.
Proof.
  intros Hok. unfold pop_response. destruct (sessions s !! tx) as [c |] eqn:Hc; [| by split_and!; [| split |]].
  destruct (channel c) as [| m ms] eqn:Hm; [by split_and!; [| split |] |].
  assert (good_session c) as [Hch Hp] by (eapply Forall_lookup_1; [apply Hok | done]).
  rewrite Hm in Hch. apply Forall_cons in Hch as [Hgood Hms].
  assert (Forall good_message (channel (c <| channel := ms |>))) by done.
  split_and!; [| by split | done]. destruct Hok as (Hs & Hmut & Hcl). split; [| split; [done |]]; cbn.
  - apply Forall_alter; [done |]. intros c' Hc'. rewrite Hc in Hc'. injection Hc' as <-. done.
  - intros Hne. apply Hcl. contradict Hne. by rewrite Hne.
Qed.

Lemma pop_pending_ok tx s : state_ok s ->
  state_ok (pop_pending tx s).1 /\ keeps_config s (pop_pending tx s).1 /\
  if_some (fun p => good_message (txn_data p)) (pop_pending tx s).2.
Proof.
  intros Hok. unfold pop_pending. destruct (sessions s !! tx) as [c |] eqn:Hc; [| by split_and!; [| split |]].
  destruct (pending_txns c) as [| p ps] eqn:Hp; [by split_and!; [| split |] |].
  assert (good_session c) as [Hch Hps] by (eapply Forall_lookup_1; [apply Hok | done]).
  rewrite Hp in Hps. apply Forall_cons in Hps as [Hgood Hps].
  split_and!; [| by split | done]. destruct Hok as (Hs & Hmut & Hcl). split; [| split; [done |]]; cbn.
  - apply Forall_alter; [done |]. intros c' Hc'. rewrite Hc in Hc'. injection Hc' as <-. done.
  - intros Hne. apply Hcl. contradict Hne. by rewrite Hne.
Qed.

Definition exec_discipline : discipline AppState := Discipline state_ok keeps_config _.

End guard.

Abbreviation exec_safe := (safe (Resp := Response) exec_discipline).
Abbreviation exec_ensures := (ensures (Resp := Response) exec_discipline).
Abbreviation exec_yields := (yields (Resp := Response) exec_discipline).
Abbreviation exec_quiet m := (exec_yields (fun _ => True) m).

Create HintDb yields discriminated.
#[export] Hint Resolve quiet_reading quiet_sleep yields_unwind : yields.
#[export] Hint Extern 1 (yields _ _ instant_now) => by apply yields_now : yields.
#[export] Hint Extern 1 (yields _ _ (mret _)) => apply yields_ret; done : yields.
#[export] Hint Extern 1 (yields _ _ (expect _)) => apply yields_expect; done : yields.
#[export] Hint Extern 1 (yields _ _ (await ?c)) => apply (quiet_await (Resp := Response) _ c) : yields.
#[export] Hint Extern 1 (yields _ _ (await_in ?c)) => apply (quiet_await_in (Resp := Response) _ c) : yields.
#[export] Hint Extern 1 (yields _ _ (writing _)) => apply quiet_writing; intros ?; apply same_core_ok; done : yields.

(** Follows a function to the accesses of which nothing has to be known. *)
Ltac yields :=
  repeat match goal with
  | |- forall _, _ => intros ?
  | |- yields _ _ (_ ≫= _) => apply yields_bind_quiet
  | |- yields _ _ (match ?x with _ => _ end) => destruct x
  | |- yields _ _ _ => solve [eauto with yields]
  end.

Section functions.
Context `{Cfg : ExecConfig} `{Api : ExecApi}.

(** ** workerd.rs *)

Lemma quiet_retry n {A} (attempt : exec (option A)) : exec_quiet attempt -> exec_quiet (retry n attempt).
Proof. intros Ha. induction n as [| n IH]; cbn [retry]; yields. Qed.
Lemma quiet_retry3 {A} (attempt : exec (option A)) : exec_quiet attempt -> exec_quiet (retry3 attempt).
Proof. apply quiet_retry. Qed.
Lemma quiet_try {E A} (o : outcome E A) : exec_quiet (try o).
Proof. unfold try. yields. Qed.
#[local] Hint Resolve quiet_retry3 quiet_try : yields.

Lemma quiet_create_code tx_hash slug rpc contract : exec_quiet (create_code_file tx_hash slug rpc contract).
Proof. unfold create_code_file. yields. apply quiet_retry3. unfold create_and_populate_file. yields. Qed.
Lemma quiet_create_config tx_hash slug port : exec_quiet (create_config_file tx_hash slug port).
Proof. unfold create_config_file. yields. apply quiet_retry3. unfold create_and_populate_file. yields. Qed.
Lemma quiet_cleanup_code tx_hash slug : exec_quiet (cleanup_code_file tx_hash slug).
Proof. unfold cleanup_code_file. yields. apply quiet_retry3. unfold remove_file. yields. Qed.
Lemma quiet_cleanup_config tx_hash slug : exec_quiet (cleanup_config_file tx_hash slug).
Proof. unfold cleanup_config_file. yields. apply quiet_retry3. unfold remove_file. yields. Qed.
Lemma quiet_port_loop rounds start port : exec_quiet (wait_for_port_loop rounds start port).
Proof. induction rounds as [| n IH]; cbn [wait_for_port_loop]; unfold sleep_in; yields. Qed.
Lemma quiet_wait_for_port port : exec_quiet (wait_for_port port).
Proof. unfold wait_for_port. generalize (Z.to_nat 1001). intros n. apply yields_bind_quiet; [yields | intros; apply quiet_port_loop]. Qed.
Lemma quiet_response port inputs : exec_quiet (get_workerd_response port inputs).
Proof. unfold get_workerd_response. yields. Qed.
#[local] Hint Resolve quiet_create_code quiet_create_config quiet_cleanup_code quiet_cleanup_config quiet_wait_for_port
  quiet_response : yields.

(** ** job_handler.rs and timeout_handler.rs *)

Lemma yields_failed start code : 1 <= code <= 4 -> exec_yields (if_some good_output) (failed_output start code).
Proof. intros Hc. unfold failed_output, elapsed_millis. yields. apply yields_ret. by right. Qed.

Lemma yields_with_worker cgroup port start inputs :
  exec_yields (if_some good_output) (with_worker cgroup port start inputs).
Proof.
  unfold with_worker, elapsed_millis. yields; [by apply yields_failed |]. apply yields_ret. by left.
Qed.

Lemma yields_with_cgroup cgroup code_hash slug start inputs :
  exec_yields (if_some good_output) (with_cgroup cgroup code_hash slug start inputs).
Proof.
  unfold with_cgroup, execute. yields. apply yields_defer; [unfold kill_worker; yields | apply yields_with_worker].
Qed.

Lemma yields_execute_job code_hash inputs slug : exec_yields (if_some good_output) (execute_job code_hash inputs slug).
Proof.
  unfold execute_job. apply yields_bind_quiet; [yields |]. intros start. apply yields_bind_quiet; [yields |].
  intros [err | []]; [destruct err; cbn [error_code_of]; yields; by apply yields_failed |].
  apply yields_bind_quiet; [apply yields_atomic, reserve_ok |].
  intros [cgroup |]; [| yields]. apply yields_defer; [yields | apply yields_with_cgroup].
Qed.

Lemma quiet_send_response tx m : good_message m -> exec_quiet (send_response tx m).
Proof.
  intros Hm. unfold send_response. yields. apply quiet_writing. intros s Hs. apply update_session_ok; [| done].
  intros c [Hch Hp]. split; [by apply Forall_app_2, Forall_singleton | done].
Qed.

Lemma quiet_report_job job_id deadline tx o : good_output o -> exec_quiet (report_job job_id deadline tx o).
Proof.
  intros Ho. unfold report_job. apply yields_bind_quiet; [yields |]. intros timestamp.
  destruct (sign_response _ _ _ _ _) as [signature |] eqn:Hsign; [| yields].
  apply yields_bind_quiet; [yields |]. intros now. apply yields_bind_quiet; [yields |]. intros retry_deadline.
  by apply quiet_send_response.
Qed.

Lemma quiet_handle_job job_id code_hash inputs deadline tx : exec_quiet (handle_job job_id code_hash inputs deadline tx).
Proof.
  unfold handle_job. apply yields_bind_quiet; [yields |]. intros slug.
  eapply yields_seq; [apply yields_timeout, yields_execute_job |]. intros response Hr.
  apply yields_bind_quiet; [yields |]. intros _. apply yields_bind_quiet; [yields |]. intros _.
  destruct response as [[o |] |]; [by apply quiet_report_job | yields |].
  apply quiet_report_job. right. cbn. by split; [lia |].
Qed.

Lemma quiet_handle_timeout job_id d tx : exec_quiet (handle_timeout job_id d tx).
Proof.
  unfold handle_timeout. do 2 (apply yields_bind_quiet; [yields |]; intros ?). destruct (negb _); [yields |].
  do 2 (apply yields_bind_quiet; [yields |]; intros ?). apply yields_bind_quiet; [by apply quiet_send_response | intros; yields].
Qed.
#[local] Hint Resolve quiet_handle_job quiet_handle_timeout : yields.

(** ** The tasks of a session *)

Lemma quiet_poll_price n client deadline : exec_quiet (poll_gas_price n client deadline).
Proof. induction n as [| n IH]; cbn [poll_gas_price]; yields. Qed.
Lemma quiet_poll_estimate n client txn deadline : exec_quiet (poll_gas_estimate n client txn deadline).
Proof. induction n as [| n IH]; cbn [poll_gas_estimate]; yields. Qed.
#[local] Hint Resolve quiet_poll_price quiet_poll_estimate : yields.
Lemma quiet_estimate n client txn deadline : exec_quiet (estimate_gas_and_price n client txn deadline).
Proof. unfold estimate_gas_and_price. yields. Qed.
Lemma quiet_bump_nonce : exec_quiet (atomic bump_nonce).
Proof. apply yields_atomic, bump_nonce_ok. Qed.
#[local] Hint Resolve quiet_estimate quiet_bump_nonce : yields.

(** A queue that gets one more well-formed entry. *)
Lemma quiet_push_pending tx p : good_message (txn_data p) -> exec_quiet (writing (push_pending tx p)).
Proof.
  intros Hp. apply quiet_writing. intros s Hs. apply update_session_ok; [| done].
  intros c [Hch Hps]. split; [done |]. by apply Forall_app_2, Forall_singleton.
Qed.
Lemma quiet_push_front tx p : good_message (txn_data p) -> exec_quiet (writing (push_pending_front tx p)).
Proof.
  intros Hp. apply quiet_writing. intros s Hs. apply update_session_ok; [| done].
  intros c [Hch Hps]. split; [done |]. by constructor.
Qed.
Lemma quiet_hand_over tx m : good_message m ->
  exec_quiet (writing (update_session tx (fun c => c <| channel := channel c ++ [m] |>))).
Proof.
  intros Hm. apply quiet_writing. intros s Hs. apply update_session_ok; [| done].
  intros c [Hch Hps]. split; [| done]. by apply Forall_app_2, Forall_singleton.
Qed.

Lemma quiet_send_loop n tx m data gas_limit gas_price update : good_message m ->
  exec_quiet (send_loop n tx m data gas_limit gas_price update).
Proof.
  intros Hm. revert gas_limit gas_price update. induction n as [| n IH]; intros; cbn [send_loop]; yields.
  by apply quiet_push_pending.
Qed.

Lemma quiet_sender n tx : exec_quiet (send_execution_output n tx).
Proof.
  induction n as [| n IH]; cbn [send_execution_output]; [yields |]. apply yields_bind_quiet; [yields |]. intros more.
  destruct (negb more); [yields |]. eapply yields_seq; [apply yields_atomic, pop_response_ok |]. intros m Hm.
  apply yields_bind_quiet; [| yields]. destruct m as [m |]; [| yields]. unfold send_one. yields. by apply quiet_send_loop.
Qed.

Lemma quiet_replace n tx p : good_message (txn_data p) -> exec_quiet (replace_loop n tx p).
Proof.
  revert p. induction n as [| n IH]; intros p Hp; cbn [replace_loop]; yields;
    first [by apply quiet_hand_over | by apply quiet_push_front | by apply IH].
Qed.
Lemma quiet_unblock n p : exec_quiet (unblock_loop n p).
Proof. revert p. induction n as [| n IH]; intros p; cbn [unblock_loop]; yields. Qed.
#[local] Hint Resolve quiet_unblock : yields.

Lemma quiet_resend_one n tx p : good_message (txn_data p) -> exec_quiet (resend_one n tx p).
Proof.
  intros Hp. unfold resend_one. yields; by apply quiet_replace.
Qed.

Lemma quiet_resender n tx : exec_quiet (resend_pending_transaction n tx).
Proof.
  induction n as [| n IH]; cbn [resend_pending_transaction]; [yields |].
  eapply yields_seq; [apply yields_atomic, pop_pending_ok |]. intros [p |] Hp; [| yields].
  apply yields_bind_quiet; [by apply quiet_resend_one | intros; apply IH].
Qed.
#[local] Hint Resolve quiet_sender quiet_resender : yields.

(** ** The events of a session *)

Lemma quiet_token_at {A} tokens i (into : Token -> option A) f :
  (forall a, exec_quiet (f a)) -> exec_quiet (token_at tokens i into f).
Proof. intros Hf. unfold token_at. yields. Qed.
Lemma quiet_new_block event f : exec_quiet f -> exec_quiet (with_new_block event f).
Proof. intros Hf. unfold with_new_block. yields. Qed.

Lemma quiet_handle_event tx stream event : exec_quiet (handle_event tx stream event).
Proof.
  destruct stream; cbn [handle_event]; unfold on_deregistered, on_created, on_responded.
  - yields.
  - apply quiet_new_block. yields. repeat (apply quiet_token_at; intros ?). yields; apply quiet_spawn; yields.
  - apply quiet_new_block. yields. apply quiet_token_at; intros ?. yields.
Qed.
#[local] Hint Resolve quiet_handle_event : yields.

Lemma quiet_event_logs n tx : exec_quiet (handle_event_logs n tx).
Proof. induction n as [| n IH]; cbn [handle_event_logs]; yields. Qed.
Lemma quiet_await_registration n block : exec_quiet (await_registration n block).
Proof. induction n as [| n IH]; cbn [await_registration]; yields. Qed.
#[local] Hint Resolve quiet_event_logs quiet_await_registration : yields.

(** What a session does once it is open. *)
Lemma quiet_session_tasks n tx : exec_quiet (
  _ ← spawn (run_task (resend_pending_transaction n tx));
  _ ← spawn (run_task (send_execution_output n tx));
  handle_event_logs n tx).
Proof.
  apply yields_bind_quiet; [apply quiet_spawn, quiet_resender | intros _].
  apply yields_bind_quiet; [apply quiet_spawn, quiet_sender | intros; yields].
Qed.

(** Nothing is known of how [m] ends. *)
Lemma ensures_quiet {A} (m : exec A) s0 : exec_quiet m -> exec_ensures m s0 (fun _ _ => True).
Proof. intros Hm. by eapply ensures_mono; [apply Hm |]. Qed.

(** A session opens only with an rpc client. *)
Definition has_client (s : AppState) : Prop := is_Some (http_rpc_client s).

Lemma has_client_later s s' : disc_step exec_discipline s s' -> has_client s -> has_client s'.
Proof. intros [Hc _]. apply Hc. Qed.

Lemma ensures_session n s0 : has_client s0 -> exec_ensures (session n) s0 (fun _ _ => True).
Proof.
  intros Hc. unfold session. apply ensures_bind, ensures_atomic. intros s HG (Hs & Hm & _).
  pose proof (has_client_later _ _ HG Hc) as Hc'. split_and!; [| by split | by apply ensures_quiet, quiet_session_tasks].
  split; [| by split]. cbn. apply Forall_app_2; [done |]. by apply Forall_singleton.
Qed.

(** Steps of the listener before a session keep the client. *)
Ltac with_client tac :=
  repeat match goal with
  | |- ensures _ (mret _) _ _ => by apply ensures_ret
  | |- ensures _ (match ?x with _ => _ end) _ _ => destruct x
  | |- ensures _ (session _ ≫= _) _ _ => fail 1
  | |- ensures _ (_ ≫= _) ?s0 _ =>
      apply ensures_bind_quiet; [solve [yields] |];
      let s := fresh "s" in let HG := fresh "HG" in
      intros ? s HG; let Hc := fresh in pose proof (has_client_later _ _ HG ltac:(eassumption)) as Hc
  end; tac.

Lemma ensures_listen_once n block s0 : has_client s0 -> exec_ensures (listen_once n block) s0 (fun _ _ => True).
Proof.
  intros Hc. unfold listen_once. with_client idtac.
  all: apply ensures_bind; eapply ensures_mono; [by apply ensures_session |].
  all: intros [r | |] s' HG' _; [apply ensures_quiet; yields | done ..].
Qed.

Lemma ensures_listen n block s0 : has_client s0 -> exec_ensures (listen n block) s0 (fun _ _ => True).
Proof.
  revert s0. induction n as [| n IH]; intros s0 Hc; cbn [listen]; [by apply ensures_ret |].
  apply ensures_bind. eapply ensures_mono; [by apply ensures_listen_once |].
  intros [[] | |] s HG _; [by apply ensures_ret | | done ..]. eapply IH, has_client_later; done.
Qed.

Lemma safe_listener n block s0 : has_client s0 -> exec_safe s0 (run_task (events_listener n block)).
Proof.
  intros Hc. unfold run_task, events_listener, defer. apply ensures_listen; [done |]. intros r s HG _.
  apply safe_run_task, ensures_quiet. yields.
Qed.

(** ** node_handler.rs *)

Lemma quiet_immutable owner : exec_quiet (inject_immutable_config owner).
Proof.
  apply yields_atomic. intros s Hok. unfold inject_owner.
  destruct (immutable_params_injected s) eqn:Hs; [by split_and!; [| split |] |].
  destruct (hex_decode _) as [b |]; [| by split_and!; [| split |]].
  destruct (negb _); [by split_and!; [| split |] |].
  split_and!; [done | | done]. split; [done |]. by rewrite Hs.
Qed.

(** The flag of the mutable configuration is set after the client. *)
Lemma quiet_mutable wallet_of provider_ok key : exec_quiet (inject_mutable_config wallet_of provider_ok key).
Proof.
  unfold inject_mutable_config. destruct (hex_decode _) as [gas_key |]; [| yields]. destruct (negb _); [yields |].
  destruct (wallet_of gas_key) as [client |]; [| yields]. destruct (negb _); [yields |].
  apply yields_bind_quiet; [yields |]. intros [count |]; [| yields].
  apply yields_bind_quiet; [yields |]. intros _ s0.
  apply (ensures_mono _ _ _ (fun _ _ => True)); [| by intros [] ].
  apply ensures_bind, ensures_atomic. intros s _ (Hs & Hm & Hc).
  split_and!; [by split_and! | by split |]. apply ensures_bind, ensures_atomic. intros s' HG (Hs' & Hm' & Hc').
  pose proof (has_client_later _ _ HG ltac:(by eexists)) as Hclient.
  split_and!; [by split_and! | by split |]. by apply ensures_ret.
Qed.

Lemma quiet_details : exec_quiet get_executor_details.
Proof. unfold get_executor_details. yields. Qed.

(** The listener starts only after the mutable configuration. *)
Lemma quiet_claim_listener block : exec_quiet (atomic (claim_listener block)).
Proof.
  apply yields_atomic. intros s Hok. unfold claim_listener.
  destruct (events_listener_active s); [by split_and!; [| split |] |]. destruct block; by split_and!; [| split |].
Qed.

Lemma ensures_registration n s0 : exec_ensures (export_signed_registration_message n) s0 (fun _ _ => True).
Proof.
  unfold export_signed_registration_message. apply ensures_bind_quiet; [yields |]. intros immutable s1 _.
  destruct (negb immutable); [by apply ensures_ret |].
  apply ensures_bind, ensures_atomic. intros s _ Hok. split_and!; [done | done |]. cbn.
  destruct (mutable_params_injected s) eqn:Hm; [| by apply ensures_ret]. cbn.
  assert (has_client s) as Hc by (destruct Hok as (_ & Hc & _); exact (Hc Hm)). clear Hok Hm.
  with_client idtac. apply ensures_bind_quiet; [apply quiet_claim_listener |]. intros [[b |] |] s7 HG7; [| by apply ensures_ret ..].
  apply ensures_bind, ensures_spawn; [| by apply ensures_ret]. apply safe_listener. by eapply has_client_later.
Qed.

Lemma safe_request wallet_of provider_ok n r s0 : exec_safe s0 (request_task wallet_of provider_ok n r).
Proof.
  apply safe_run_task. destruct r; cbn [endpoint].
  - apply ensures_quiet. unfold index. yields.
  - apply ensures_quiet, yields_bind_quiet; [apply quiet_immutable | intros; yields].
  - apply ensures_quiet, yields_bind_quiet; [apply quiet_mutable | intros; yields].
  - apply ensures_quiet, yields_bind_quiet; [apply quiet_details | intros; yields].
  - apply ensures_bind. eapply ensures_mono; [apply ensures_registration |].
    intros [a | |] s HG _; [by apply ensures_ret | done ..].
Qed.

(** Requests are safe from a state that satisfies the invariant. *)
Lemma guarded_arrivals wallet_of provider_ok n reqs now s : 0 <= now -> state_ok s ->
  guarded exec_discipline (mkSystem now s (arrivals wallet_of provider_ok n reqs)).
Proof.
  intros Hnow Hok. split_and!; [done .. |]. apply Forall_fmap, Forall_forall. intros [t r] _. apply safe_request.
Qed.

End functions.
