(* ===== verification/ExecToy.v ===== *)
(** * Serverless executor: a concrete instance

    A configuration, codecs and an environment on which the theorems about the
    executor are evaluated. *)

From S2P Require Import Prelude Async ExecState ExecWorkerd ExecJob ExecTxn ExecEvents ExecNode.

Module ToyExec.

#[export] Instance toy_config : ExecConfig := {|
  workerd_runtime_path := "/app/runtime";
  execution_buffer_time := 15;
  http_rpc_url := "http://rpc";
  code_contract_addr := "0xc0de";
  num_selected_executors := 1;
  enclave_address := 42;
  enclave_public_key := replicate 64 4;
  job_capacity := 2
|}.

(** Lower-case hexadecimal. *)
Definition hex_char (n : Z) : Ascii.ascii := Ascii.ascii_of_N (Z.to_N (if n <? 10 then 48 + n else 87 + n)).
Definition hex_value (c : Ascii.ascii) : option Z :=
  let n := Z.of_N (Ascii.N_of_ascii c) in
  if (48 <=? n) && (n <=? 57) then Some (n - 48) else
  if (97 <=? n) && (n <=? 102) then Some (n - 87) else None.

Fixpoint to_hex (l : bytes) : string :=
  match l with
  | [] => EmptyString
  | b :: l => String (hex_char (b / 16)) (String (hex_char (b mod 16)) (to_hex l))
  end.

Fixpoint of_hex (s : string) : option bytes :=
  match s with
  | EmptyString => Some []
  | String c (String d s) => a ← hex_value c; b ← hex_value d; l ← of_hex s; mret (16 * a + b :: l)
  | String _ EmptyString => None
  end.

Definition created_tokens : list Token := [TFixedBytes [0xab]; TBytes [1; 2]; TUint 5000; TArray [TAddress 42]].
Definition responded_tokens : list Token := [TBytes []; TUint 1; TUint 0; TUint 1].

#[export] Instance toy_api : ExecApi := {|
  keccak256 := fun b => take 32 (b ++ replicate 32 0);
  encode := fun _ => [];
  encode_packed := fun _ => Some [];
  decode := fun types _ => Some (match types with PFixedBytes _ :: _ => created_tokens | _ => responded_tokens end);
  hex_decode := of_hex;
  hex_lower := to_hex;
  sign_prehash := fun _ => Some (replicate 64 7, 0);
  encode_input := fun _ _ => [];
  to_lowercase := id;
  debug_error := fun _ => "error"
|}.

(** A deployment of the code [code], as the rpc returns it. *)
Definition calldata (code : bytes) (zeros : nat) : string :=
  (CODE_CALL_PREFIX +:+ to_hex (be_bytes 32 (Z.of_nat (length code))) +:+ to_hex (code ++ replicate zeros 0))%string.
Definition rpc_response (code : bytes) : Value :=
  VObject [("result"%string, VObject [("to"%string, VString code_contract_addr); ("input"%string, VString (calldata code 0))])].

Definition registered_event : ELog := mkELog [0; 42; 99] [] (Some 100) (Some false).
Definition created_event (block : Z) : ELog := mkELog [0; 5; 1] [] (Some block) (Some false).

(** An environment where everything succeeds and every event is a new job. *)
Definition answer (c : Call) : option (Response c) :=
  match c with
  | Deadline => Some tt
  | RandomSlug => Some "00112233"%string
  | UnixTime => Some 1700000000
  | GetTransactionByHash _ _ => Some (Some (rpc_response [1; 2; 3]))
  | CreateFile _ | WriteFile _ _ | RemoveFile _ | CgExec _ _ | KillChild _ | Connect _ => Some true
  | ReadStderr _ => Some None
  | PostWorkerd _ _ => Some (Some [9])
  | ChannelSlot _ | ChannelRecv _ | WsConnect | Subscribe _ | Confirm _ => Some true
  | NextEvent _ => Some (Some (JobCreated, created_event 120))
  | NextRegistration => Some (Some registered_event)
  | GasPrice _ | TransactionCount _ | BlockNumber _ => Some (Some 100)
  | EstimateGas _ _ | SendTransaction _ => Some (inr 100)
  | Receipt _ _ => Some None
  end.

Definition wallet (key : bytes) : option Client := Some (from_be key).
Definition key (n : Z) : string := to_hex (be_bytes 32 n).
Definition owner : string := ("0x" +:+ to_hex (be_bytes 20 99))%string.

Definition requests : list (Z * Request) :=
  [(1, PostImmutableConfig owner); (2, PostMutableConfig (key 77)); (3, GetSignedRegistrationMessage)].

(** An executor with two cgroups that serves these requests; its listener is
    task 3, the job of the first event is task 7 and that of the second 9. *)
Definition entries : list (option string) := [Some "workerd_0"; None; Some "workerd_1"; Some "cpu"]%string.
Definition first_state : AppState :=
  mkAppState ["workerd_0"; "workerd_1"]%string ∅ 0 false false false false 0 None 0 [].
Definition start : exec_system := mkSystem 10 first_state (arrivals wallet true 9 requests).

Definition turns (i n : nat) : list choice := replicate n (Run i).
Definition configured : list choice := turns 0 2 ++ turns 1 5 ++ turns 2 9.
Definition two_workers : list choice := configured ++ turns 3 28 ++ turns 7 8 ++ turns 9 8.
Definition response_queued : list choice := configured ++ turns 3 28 ++ turns 7 22.

End ToyExec.
