(* ===== verification/ExecProps.v ===== *)
(** * Serverless executor: theorems

    What the executor promises from the state it starts with: cgroups are used
    by one job at a time, there is one listener, queued messages are signed and
    well formed, the owner is final; how an event of a new job is handled, and
    three ways in which a job or its result is lost; and that the code of a
    deployment is the code that runs. *)

From stdpp Require Import sets.
From S2P Require Import Prelude Async ExecState ExecWorkerd ExecJob ExecTxn ExecEvents ExecNode ExecAccount ExecGuard ExecToy.

(** ** The start *)

Section start.
Context `{Cfg : ExecConfig} `{Api : ExecApi} (wallet_of : bytes -> option Client) (provider_ok : bool) (n : nat).
Context (entries : list (option string)) (s0 : AppState) (now : Z) (reqs : list (Z * Request)).
Context (Hinit : initial_state entries = Some s0).
#[local] Set Default Proof Using "Type*".

(** The system that serves the requests [reqs]. *)
Definition serving : exec_system := mkSystem now s0 (arrivals wallet_of provider_ok n reqs).

Lemma initial_state_fields : cgroups_free s0 = get_cgroups entries /\ events_listener_active s0 = false /\
  sessions s0 = [] /\ mutable_params_injected s0 = false.
Proof. unfold initial_state in Hinit. destruct (get_cgroups entries) as [| c l]; [done |]. by injection Hinit as <-. Qed.

Lemma initial_state_ok : state_ok s0.
Proof.
  destruct initial_state_fields as (_ & _ & Hs & Hm). unfold state_ok. rewrite Hs, Hm. split_and!; [constructor | done | done].
Qed.

Lemma initial_resources : free_resources s0 = resources (get_cgroups entries).
Proof. destruct initial_state_fields as (Hc & Hl & _). unfold free_resources. by rewrite Hc, Hl. Qed.

Lemma serving_accounted sys : distinct_ports (get_cgroups entries) -> rtc system_step serving sys ->
  accounted (resources (get_cgroups entries)) free_resources (call_uses (get_cgroups entries)) sys.
Proof.
  intros Hports Hrun. eapply accounted_reachable; [exact Hrun |].
  exists ((fun _ => []) <$> reqs). split; cbn.
  - unfold arrivals. apply Forall2_fmap_2, Forall2_same_length_lookup_2; [done |]. intros i a [t r] Ha Hb.
    apply owns_request. done.
  - assert (concat ((fun _ : Z * Request => @nil Resource) <$> reqs) = []) as ->; [| by rewrite initial_resources].
    clear. induction reqs; [done |]. cbn. done.
Qed.

Lemma serving_guarded sys : 0 <= now -> rtc system_step serving sys ->
  guarded exec_discipline sys /\ keeps_config s0 (shared sys).
Proof.
  intros Hnow Hrun. refine (guarded_reachable exec_discipline _ _ Hrun _). apply guarded_arrivals; [done |].
  apply initial_state_ok.
Qed.

End start.

(** ** Cgroups and the listener *)

(** The names of a list of resources, and what is free when all is free. *)
Definition cgroup_names (l : list Resource) : list string :=
  omap (fun r => match r with Cgroup c => Some c | Listener => None end) l.

Lemma cgroup_names_fmap names : cgroup_names (Cgroup <$> names) = names.
Proof. induction names as [| c names IH]; [done |]. cbn. by f_equal. Qed.

Lemma all_free s names : free_resources s ≡ₚ resources names ->
  cgroups_free s ≡ₚ names /\ events_listener_active s = false.
Proof.
  intros Hp. split.
  - apply (omap_Permutation (fun r => match r with Cgroup c => Some c | Listener => None end)) in Hp. revert Hp.
    change (cgroup_names (free_resources s) ≡ₚ cgroup_names (resources names) -> cgroups_free s ≡ₚ names).
    unfold free_resources, resources. destruct (events_listener_active s); cbn; by rewrite !cgroup_names_fmap.
  - assert (Listener ∈ free_resources s) as Hl by (rewrite Hp; by left). unfold free_resources in Hl.
    destruct (events_listener_active s); [| done]. by apply list_elem_of_fmap in Hl as (? & [=] & _).
Qed.

Section resources.
Context `{Cfg : ExecConfig} `{Api : ExecApi}.

(** C6: however the requests, the events of the chain, the answers of the rpc
    and the timeouts are interleaved, two tasks of the executor never work on
    the same cgroup (start or kill the worker in it, read its errors, connect
    to its port or post to it), a cgroup being worked on is not in the free
    list, and when all tasks have ended, having returned, been dropped by a
    timeout or unwound by a panic, every cgroup is free again. *)
Theorem cgroups_exclusive wallet_of provider_ok n entries s0 now reqs sys :
  let names := get_cgroups entries in
  distinct_ports names -> initial_state entries = Some s0 ->
  rtc system_step (serving wallet_of provider_ok n s0 now reqs) sys ->
  (forall i j t t' c d g g', i <> j -> tasks sys !! i = Some t -> tasks sys !! j = Some t' ->
     current_call t = Some c -> current_call t' = Some d ->
     Cgroup g ∈ call_uses names c -> Cgroup g' ∈ call_uses names d -> g <> g') /\
  (forall i t c g, tasks sys !! i = Some t -> current_call t = Some c -> Cgroup g ∈ call_uses names c ->
     g ∉ cgroups_free (shared sys)) /\
  (Forall (fun t => t = Done) (tasks sys) -> cgroups_free (shared sys) ≡ₚ names).
Proof.
  intros names Hports Hinit Hrun. pose proof (serving_accounted _ _ _ _ _ _ _ Hinit _ Hports Hrun) as Hacc.
  pose proof (NoDup_resources _ Hports) as Hnd. split_and!.
  - intros i j t t' c d g g' Hij Hi Hj Hc Hd Hg Hg' ->. by eapply (accounted_exclusive _ _ _ _ i j).
  - intros i t c g Hi Hc Hg Hfree. eapply (accounted_used _ _ _ _ i) in Hg; [| done ..].
    apply Hg. unfold free_resources. apply elem_of_app. right. by apply list_elem_of_fmap_2.
  - intros Hdone. eapply accounted_done, all_free in Hdone as [Hfree _]; done.
Qed.

(** C28: at most one task at a time is the listener of contract events (opens
    the web socket, subscribes, or waits for an event), and only while
    [events_listener_active] is set; when all tasks have ended it is cleared,
    so that the registration endpoint can start the next listener. *)
Theorem single_listener wallet_of provider_ok n entries s0 now reqs sys :
  let names := get_cgroups entries in
  distinct_ports names -> initial_state entries = Some s0 ->
  rtc system_step (serving wallet_of provider_ok n s0 now reqs) sys ->
  (forall i j t t' c d, tasks sys !! i = Some t -> tasks sys !! j = Some t' ->
     current_call t = Some c -> current_call t' = Some d ->
     Listener ∈ call_uses names c -> Listener ∈ call_uses names d -> i = j) /\
  (forall i t c, tasks sys !! i = Some t -> current_call t = Some c -> Listener ∈ call_uses names c ->
     events_listener_active (shared sys) = true) /\
  (Forall (fun t => t = Done) (tasks sys) -> events_listener_active (shared sys) = false).
Proof.
  intros names Hports Hinit Hrun. pose proof (serving_accounted _ _ _ _ _ _ _ Hinit _ Hports Hrun) as Hacc.
  pose proof (NoDup_resources _ Hports) as Hnd. split_and!.
  - intros i j t t' c d Hi Hj Hc Hd Hl Hl'. destruct (decide (i = j)) as [| Hij]; [done |].
    exfalso. by eapply (accounted_exclusive _ _ _ _ i j t t' c d Listener Listener).
  - intros i t c Hi Hc Hl. eapply (accounted_used _ _ _ _ i) in Hl; [| done ..].
    destruct (events_listener_active (shared sys)) eqn:Hs; [done |]. destruct Hl.
    unfold free_resources. rewrite Hs. by left.
  - intros Hdone. eapply accounted_done, all_free in Hdone as [_ Hlistener]; done.
Qed.

End resources.

(** ** Messages for the Jobs contract *)

(** A message waits in a session's channel or with a pending transaction. *)
Definition queued (s : AppState) (m : JobsTxnMetadata) : Prop :=
  exists c, c ∈ sessions s /\ (m ∈ channel c \/ m ∈ (txn_data <$> pending_txns c)).

Lemma queued_good `{Api : ExecApi} s m : state_ok s -> queued s m -> good_message m.
Proof.
  intros (Hs & _) (c & Hc & Hm). rewrite Forall_forall in Hs. destruct (Hs c Hc) as [Hch Hp].
  rewrite Forall_forall in Hch. rewrite Forall_forall in Hp. destruct Hm as [Hm | (p & -> & Hp')%list_elem_of_fmap]; auto.
Qed.

Section messages.
Context `{Cfg : ExecConfig} `{Api : ExecApi}.

(** C17: every message that is queued for the Jobs contract, in a channel or
    with a pending transaction, is a timeout, or an output of code 0, or of a
    documented error code from 1 to 4 with no output, signed over exactly its
    fields; so building its transaction never panics.  Whenever a session is
    open, or the mutable configuration is injected, the rpc client is there. *)
Theorem queued_messages_good wallet_of provider_ok n entries s0 now reqs sys :
  0 <= now -> initial_state entries = Some s0 ->
  rtc system_step (serving wallet_of provider_ok n s0 now reqs) sys ->
  (forall m, queued (shared sys) m -> good_message m /\ is_Some (generate_txn m)) /\
  (sessions (shared sys) <> [] \/ mutable_params_injected (shared sys) = true ->
     is_Some (http_rpc_client (shared sys))).
Proof.
  intros Hnow Hinit Hrun. destruct (serving_guarded _ _ _ _ _ _ _ Hinit _ Hnow Hrun) as [(_ & Hok & _) _]. split.
  - intros m Hm. pose proof (queued_good _ _ Hok Hm) as Hgood. split; [done | by apply good_message_txn].
  - destruct Hok as (_ & Hm & Hs). intros [?%Hs | ?%Hm]; done.
Qed.

(** Once the immutable configuration has been injected, no request, in any
    interleaving, changes the owner that the enclave signs registrations for. *)
Theorem injected_owner_is_final wallet_of provider_ok n entries s0 now reqs sys sys' :
  0 <= now -> initial_state entries = Some s0 ->
  rtc system_step (serving wallet_of provider_ok n s0 now reqs) sys -> rtc system_step sys sys' ->
  immutable_params_injected (shared sys) = true ->
  immutable_params_injected (shared sys') = true /\ enclave_owner (shared sys') = enclave_owner (shared sys).
Proof.
  intros Hnow Hinit Hrun Hrun' Hinj. destruct (serving_guarded _ _ _ _ _ _ _ Hinit _ Hnow Hrun) as [Hg _].
  destruct (guarded_reachable exec_discipline _ _ Hrun' Hg) as [_ [_ Howner]]. auto.
Qed.

(** The sessions of a state stay as they are. *)
Definition same_sessions : discipline AppState :=
  Discipline (fun _ => True) (fun s s' => sessions s' = sessions s)
    (Build_PreOrder _ (fun s => eq_refl) (fun s1 s2 s3 H H' => eq_trans H' H)).

(** The window of a late result is longer than all instants. *)
Lemma late_window user_deadline time : 0 <= execution_buffer_time + user_deadline < time -> time < 2 ^ 63 ->
  secs (2 ^ 63) <= retry_window user_deadline time.
Proof.
  intros Hlate Htime. unfold retry_window, u64_sub, u64_add, wrap.
  rewrite (Z.mod_small (_ + _)), (Z.mod_small time) by lia.
  rewrite <- (Z_mod_plus_full _ 1), Z.mod_small by lia. unfold secs. lia.
Qed.

(** A result whose time in milliseconds exceeds the user's deadline in
    milliseconds plus [execution_buffer_time] in seconds as a bare number, as
    it can after the blocking read of a worker's errors, is lost: the deadline
    of its transaction underflows, the task unwinds, and nothing is queued,
    whatever the environment answers. *)
Theorem late_result_lost job_id user_deadline tx o now s sys :
  0 <= now -> 0 <= execution_buffer_time -> 0 <= user_deadline -> total_time o < 2 ^ 63 ->
  execution_buffer_time + user_deadline < total_time o ->
  rtc system_step (mkSystem now s [run_task (report_job job_id user_deadline tx o)]) sys ->
  sessions (shared sys) = sessions s.
Proof.
  intros Hnow Hbuf Hdl Htotal Hlate Hrun.
  refine (proj2 (guarded_reachable same_sessions _ _ Hrun _)). split_and!; [done .. |]. apply Forall_singleton.
  cbn [shared]. apply safe_run_task. unfold report_job.
  apply ensures_bind_quiet; [apply (quiet_await (Resp := Response) _ UnixTime) |]. intros timestamp s1 _.
  destruct (sign_response _ _ _ _ _); [| by apply ensures_ret].
  apply ensures_bind. eapply ensures_mono; [by apply (yields_now _ (fun n => 0 <= n)) |].
  intros [n | |] s2 _ Hn; [| done ..]. apply ensures_bind, ensures_expect; [done |]. intros d Hd. exfalso.
  unfold instant_add in Hd. pose proof (late_window user_deadline (total_time o)). case_match eqn:Hlt; [lia | done].
Qed.

End messages.

(** ** Events *)

Section events.
Context `{Cfg : ExecConfig} `{Api : ExecApi}.

(** A log of a new job for this environment, in a block. *)
Record created_log (event : ELog) (block job_id : Z) (code_hash inputs : bytes) (deadline : Z) (nodes : list Token) : Prop := {
  created_live : is_removed event = false;
  created_block : eblock event = Some block;
  created_job : etopics event !! 1%nat = Some job_id;
  created_env : etopics event !! 2%nat = Some EXECUTION_ENV_ID;
  created_data : decode job_created_types (edata event) =
    Some [TFixedBytes code_hash; TBytes inputs; TUint deadline; TArray nodes];
}.

Lemma runs_old_block event block f s : is_removed event = false -> eblock event = Some block ->
  block < last_block_seen s -> runs (with_new_block event f) s (Returned Continue) s [].
Proof.
  intros Hlive Hblock Hold. unfold with_new_block. rewrite Hlive, Hblock. cbn.
  eapply (runs_bind _ _ _ _ _ []); [apply runs_atomic |]. cbn. rewrite (proj2 (Z.ltb_lt _ _)) by done. apply runs_ret.
Qed.

Lemma runs_new_block event block f s r s' ts : is_removed event = false -> eblock event = Some block ->
  last_block_seen s <= block -> runs f (set_last_block block s) r s' ts -> runs (with_new_block event f) s r s' ts.
Proof.
  intros Hlive Hblock Hnew Hf. unfold with_new_block. rewrite Hlive, Hblock. cbn.
  eapply (runs_bind _ _ _ _ _ []); [apply runs_atomic |]. cbn. rewrite (proj2 (Z.ltb_ge _ _)) by done.
  eapply (runs_bind _ _ _ _ _ []); [apply runs_atomic | exact Hf].
Qed.

Lemma selected_spec nodes chosen : (chosen = true <-> TAddress enclave_address ∈ nodes) -> selected nodes = chosen.
Proof.
  intros Hchosen. apply eq_true_iff_eq. rewrite Hchosen. unfold selected. rewrite existsb_exists. split.
  - intros (a & Ha & ->%Z.eqb_eq). apply list_elem_of_In, list_elem_of_omap in Ha as (t & Ht & Hinto).
    destruct t; try discriminate Hinto. by injection Hinto as ->.
  - intros Hin. exists enclave_address. split; [| apply Z.eqb_refl].
    apply list_elem_of_In, list_elem_of_omap. by exists (TAddress enclave_address).
Qed.

Lemma runs_token_at {A} tokens i t (into : Token -> option A) a f s r s' ts :
  tokens !! i = Some t -> into t = Some a -> runs (f a) s r s' ts -> runs (token_at tokens i into f) s r s' ts.
Proof.
  intros Ht Ha Hf. unfold token_at. rewrite Ht. eapply (runs_bind _ _ _ _ _ []); [apply runs_ret |]. by rewrite Ha.
Qed.

(** A log of a new job for this environment whose block is not older than
    the last block seen marks the job as running, starts its timeout task, and
    starts the job itself exactly when this enclave is among the selected
    ones; a log of an older block changes nothing and starts nothing. *)
Theorem created_event_handled tx event block job_id code_hash inputs deadline nodes chosen s :
  created_log event block job_id code_hash inputs deadline nodes ->
  (chosen = true <-> TAddress enclave_address ∈ nodes) ->
  runs (handle_event tx JobCreated event) s (Returned Continue)
    (if block <? last_block_seen s then s else mark_running job_id (set_last_block block s))
    (if block <? last_block_seen s then [] else
     timeout_task job_id deadline tx ::
     (if chosen then [job_task job_id code_hash inputs deadline tx] else [])).
Proof.
  intros [Hlive Hblock Hjob Henv Hdata] Hchosen. rewrite <- (selected_spec _ _ Hchosen).
  cbn [handle_event]. unfold on_created.
  destruct (block <? last_block_seen s) eqn:Hold; [apply (runs_old_block _ block); [done | done | lia] |].
  apply (runs_new_block _ block); [done | done | lia |]. rewrite Hjob, Henv, Hdata.
  do 2 (eapply (runs_bind _ _ _ _ _ []); [apply runs_ret |]). cbn [Z.eqb negb]. change (EXECUTION_ENV_ID =? 1) with true.
  do 4 (eapply runs_token_at; [done .. |]). eapply (runs_bind _ _ _ _ _ []); [apply runs_atomic |].
  eapply (runs_bind _ _ _ _ _ [_]); [apply runs_spawn |].
  rewrite <- (app_nil_r (if selected nodes then _ else _)). eapply runs_bind; [| apply runs_ret].
  destruct (selected nodes); [apply runs_spawn | apply runs_ret].
Qed.

(** A log of a response to a job, in a block. *)
Record responded_log (event : ELog) (block job_id : Z) (out : bytes) (time code count : Z) : Prop := {
  responded_live : is_removed event = false;
  responded_block : eblock event = Some block;
  responded_job : etopics event !! 1%nat = Some job_id;
  responded_data : decode job_responded_types (edata event) = Some [TBytes out; TUint time; TUint code; TUint count];
}.

Lemma responded_runs event block job_id out time code count s :
  responded_log event block job_id out time code count -> last_block_seen s <= block ->
  runs (on_responded event) s (Returned Continue)
    (let s' := set_last_block block s in if count =? num_selected_executors then mark_completed job_id s' else s') [].
Proof.
  intros [Hlive Hblock Hjob Hdata] Hnew. unfold on_responded. apply (runs_new_block _ block); [done .. |].
  rewrite Hjob, Hdata. eapply (runs_bind _ _ _ _ _ []); [apply runs_ret |]. eapply runs_token_at; [done .. |].
  eapply (runs_bind _ _ _ _ _ []); [| apply runs_ret]. case_match; [apply runs_atomic | apply runs_ret].
Qed.

(** The streams of a session share [last_block_seen], so a job whose log
    arrives after the response to another job in a later block is lost: it is
    neither marked as running nor started, although its log had not been seen. *)
Theorem later_response_hides_job tx event event' block block' job_id job_id' code_hash inputs deadline nodes
    out time code count s :
  created_log event block job_id code_hash inputs deadline nodes ->
  responded_log event' block' job_id' out time code count ->
  last_block_seen s <= block -> block < block' ->
  exists s', runs (_ ← handle_event tx JobResponded event'; handle_event tx JobCreated event) s (Returned Continue) s' [] /\
    last_block_seen s' = block' /\ job_requests_running s' ⊆ job_requests_running s.
Proof.
  intros [Hlive Hblock _ _ _] Hresp Hs Hlater. eexists. split; [| split].
  - eapply (runs_bind _ _ _ _ _ []); [eapply responded_runs; [exact Hresp | lia] |].
    apply (runs_old_block _ block); [done | done |]. by case_match.
  - by case_match.
  - case_match; cbn; set_solver.
Qed.

End events.

(** ** The nonce of the sender *)

Section nonce.
Context `{Cfg : ExecConfig} `{Api : ExecApi}.

(** An rpc with [count] transactions of every account that accepts what is
    sent to it. *)
Definition rpc_answers (count hash : Z) (c : Call) : option (Response c) :=
  match c with
  | TransactionCount _ => Some (Some count)
  | SendTransaction _ => Some (inr hash)
  | _ => None
  end.

(** The sender sends a response while a new gas key is injected. *)
Definition injection_race : list choice :=
  [Run 0; Run 0; Run 0] ++ [Run 1; Run 1; Run 1; Run 1] ++ [Run 0; Run 0; Run 0; Run 0] ++ [Run 0; Run 0; Run 0].

Lemma bump_nonce_small s : nonce_to_send s < u256_MAX ->
  bump_nonce s = (set_nonce (nonce_to_send s + 1) s, Some tt).
Proof. intros Hn. unfold bump_nonce, u256_checked. by rewrite (proj2 (Z.leb_le _ _)) by lia. Qed.

(** One turn of a schedule whose task shows its next step. *)
Ltac one_turn := eapply schedule_run; [reflexivity | cbn; reflexivity |]; cbn [fst snd insert list_insert app].

(** The increment of the nonce after a transaction is not tied to the
    client that sent it: when a new gas key is injected while a transaction is
    in flight, there is a schedule after which the next response is sent from
    the new account with the nonce after its transaction count, a nonce that
    cannot be mined before another transaction fills the gap. *)
Theorem injection_skips_nonce wallet_of rounds key gas_key client client' n tx m data gas_limit gas_price
    m' data' gas_limit' gas_price' s now count hash :
  hex_decode (strip_0x key) = Some gas_key -> length gas_key = 32%nat -> wallet_of gas_key = Some client' ->
  http_rpc_client s = Some client -> now < retry_deadline m -> now < retry_deadline m' -> 0 <= count < u256_MAX ->
  exists sys t, schedule (rpc_answers count hash) injection_race
      (mkSystem now s [run_task (_ ← send_loop (S n) tx m data gas_limit gas_price false;
                                 send_loop (S n) tx m' data' gas_limit' gas_price' false);
                       request_task wallet_of true rounds (PostMutableConfig key)]) = Some sys /\
    tasks sys !! 0%nat = Some t /\
    current_call t = Some (SendTransaction (mkTxn client' (count + 1) gas_limit' gas_price' (JobsCall data'))).
Proof.
  intros Hkey Hlen Hwallet Hclient Hm Hm' Hcount. apply Z.leb_gt in Hm, Hm'.
  unfold request_task, endpoint, inject_mutable_config. cbv zeta. rewrite Hkey, Hlen. cbn [Nat.eqb negb]. rewrite Hwallet.
  do 2 eexists. split; [| split].
  - unfold injection_race. cbn [app]. one_turn. rewrite Hm. one_turn. rewrite Hclient. do 8 one_turn.
    one_turn. rewrite bump_nonce_small by (cbn; lia).
    cbn [fst snd insert list_insert app expect].
    one_turn. rewrite Hm'. do 2 one_turn. reflexivity.
  - reflexivity.
  - reflexivity.
Qed.


End nonce.

(** ** The code of a deployment *)

Section deployment.
Context `{Cfg : ExecConfig} `{Api : ExecApi}.

(** The part of a string after a prefix, when it starts a character. *)
Lemma str_from_append a b n : String.length a = n -> (forall c, String.get 0 b = Some c -> continuation c = false) ->
  str_from (a +:+ b) n = Some b.
Proof.
  intros <- Hc. unfold str_from. rewrite length_append, get_append.
  rewrite (proj2 (Nat.ltb_ge _ _)) by lia.
  destruct (String.get 0 b) as [c |] eqn:Hget; [| by destruct b].
  rewrite (Hc c) by done. by rewrite Nat.add_comm, Nat.add_sub, substring_append.
Qed.

Lemma position_nonzero_zeros n b l : b <> 0 -> position_nonzero (replicate n 0 ++ b :: l) = Some n.
Proof.
  intros Hb. induction n as [| n IH]; cbn; [by rewrite (proj2 (Z.eqb_neq _ _)) |]. by rewrite IH.
Qed.

Lemma strip_padding code b zeros : last code = Some b -> b <> 0 ->
  strip_trailing_zeros (code ++ replicate zeros 0) = code.
Proof.
  intros (l & ->)%last_Some Hb. unfold strip_trailing_zeros.
  rewrite rev_app_distr, rev_unit, (rev_alt (replicate _ _)).
  change (rev_append (replicate zeros 0) []) with (reverse (replicate zeros 0)).
  rewrite reverse_replicate, position_nonzero_zeros by done. cbn [default].
  rewrite (length_app _ (replicate _ _)), length_replicate, Nat.add_sub. by rewrite take_app_length.
Qed.

(** C35: what a deployment stores is what runs: from a transaction to the code
    contract whose input is the call of the contract's method with the length
    word and the code, padded with any number of zeros and written in
    hexadecimal, the executor gets exactly the code, provided that it does not
    itself end in a zero byte. *)
Theorem deployed_code_runs contract response tx_data length_word payload code b zeros :
  (* hex::decode accepts hexadecimal digits only *)
  (forall s l c, hex_decode s = Some l -> String.get 0 s = Some c -> continuation c = false) ->
  take_field response "result" = Some tx_data -> tx_data <> Null ->
  take_field tx_data "to" = Some (VString contract) ->
  take_field tx_data "input" = Some (VString (CODE_CALL_PREFIX +:+ length_word +:+ payload)) ->
  String.length length_word = 64%nat -> hex_decode payload = Some (code ++ replicate zeros 0) ->
  last code = Some b -> b <> 0 ->
  code_of_response contract response = Ok code.
Proof.
  intros Hhex Hresult Htx Hto Hinput Hword Hpayload Hlast Hb. unfold code_of_response. rewrite Hresult.
  assert (str_from (CODE_CALL_PREFIX +:+ length_word +:+ payload) 138 = Some payload) as Hstr.
  { rewrite <- append_assoc. apply str_from_append; [by rewrite length_append, Hword | by eauto]. }
  assert ((String.length (CODE_CALL_PREFIX +:+ length_word +:+ payload) <? 138)%nat = false) as Hlen.
  { apply Nat.ltb_ge. rewrite !length_append, Hword. change (String.length CODE_CALL_PREFIX) with 74%nat. lia. }
  cbn [unwrap mbind outcome_bind].
  destruct tx_data as [| t | fields |]; [done | discriminate Hto | | discriminate Hto].
  rewrite Hto. cbn [unwrap mbind outcome_bind]. rewrite String.eqb_refl, Hinput. cbn [negb unwrap mbind outcome_bind].
  rewrite Hlen. unfold has_prefix. rewrite prefix_append, Hstr. cbn [negb unwrap mbind outcome_bind].
  rewrite Hpayload. cbn. by rewrite (strip_padding _ b).
Qed.

End deployment.

(** ** The theorems on concrete inputs *)

Module ExecWitnesses.
Import ToyExec.

Lemma toy_ports : distinct_ports (get_cgroups entries).
Proof.
  split; [by vm_compute; repeat constructor; set_solver |]. intros c c' p Hc Hc'.
  change (get_cgroups entries) with ["workerd_0"; "workerd_1"]%string in Hc, Hc'.
  rewrite !elem_of_cons, elem_of_nil in Hc, Hc'.
  destruct Hc as [-> | [-> | []] ], Hc' as [-> | [-> | []] ]; [done | | | done]; vm_compute; congruence.
Qed.

(** What a run reaches, where it is shown. *)
Lemma run_shows choices {A} (f : exec_system -> option A) a :
  schedule answer choices start ≫= f = Some a -> exists sys, schedule answer choices start = Some sys /\ f sys = Some a.
Proof. intros (sys & Hrun & Hf)%bind_Some. eauto. Qed.

Definition worker_args : list string :=
  ["/app/runtime/workerd"; "serve"; "/app/runtime/0xab-00112233.capnp"; "--verbose"]%string.

(** The calls of two tasks. *)
Definition calls (i j : nat) (sys : exec_system) : option (Call * Call) :=
  t ← tasks sys !! i; t' ← tasks sys !! j; c ← current_call t; d ← current_call t'; mret (c, d).

Lemma calls_inv i j sys c d : calls i j sys = Some (c, d) -> exists t t',
  tasks sys !! i = Some t /\ tasks sys !! j = Some t' /\ current_call t = Some c /\ current_call t' = Some d.
Proof. unfold calls. intros H. inv_ok. eauto 7. Qed.

Lemma cgroups_exclusive_witness : exists sys, schedule answer two_workers start = Some sys /\
  calls 7 9 sys = Some (CgExec "workerd_0" worker_args, CgExec "workerd_1" worker_args) /\
  "workerd_0"%string <> "workerd_1"%string /\ "workerd_0"%string ∉ cgroups_free (shared sys).
Proof.
  destruct (run_shows two_workers (calls 7 9) (CgExec "workerd_0" worker_args, CgExec "workerd_1" worker_args))
    as (sys & Hrun & Hcalls); [by vm_compute |].
  destruct (calls_inv _ _ _ _ _ Hcalls) as (t & t' & Ht & Ht' & Hc & Hc').
  destruct (cgroups_exclusive wallet true 9 entries first_state 10 requests sys toy_ports eq_refl
              (schedule_steps _ _ _ _ Hrun)) as (Hexcl & Hfree & _).
  exists sys. split_and!; [exact Hrun | exact Hcalls | |].
  - eapply (Hexcl 7%nat 9%nat); [done | exact Ht | exact Ht' | exact Hc | exact Hc' | by left | by left].
  - eapply (Hfree 7%nat); [exact Ht | exact Hc | by left].
Defined.

Lemma single_listener_witness : exists sys, schedule answer configured start = Some sys /\
  calls 3 3 sys = Some (WsConnect, WsConnect) /\ events_listener_active (shared sys) = true.
Proof.
  destruct (run_shows configured (calls 3 3) (WsConnect, WsConnect)) as (sys & Hrun & Hcalls); [by vm_compute |].
  destruct (calls_inv _ _ _ _ _ Hcalls) as (t & _ & Ht & _ & Hc & _).
  destruct (single_listener wallet true 9 entries first_state 10 requests sys toy_ports eq_refl
              (schedule_steps _ _ _ _ Hrun)) as (_ & Hactive & _).
  exists sys. split_and!; [exact Hrun | exact Hcalls |]. eapply (Hactive 3%nat); [exact Ht | exact Hc | by left].
Defined.

(** The signed response of the first job. *)
Definition first_response : JobsTxnMetadata := mkJobsTxnMetadata OUTPUT 5
  (Some (mkJobOutput [9] 0 0 1700000000 (replicate 64 7 ++ [27]))) (10 + retry_window 5000 0).

Lemma queued_messages_good_witness : exists sys, schedule answer response_queued start = Some sys /\
  channel <$> sessions (shared sys) = [[first_response]] /\ good_message first_response.
Proof.
  destruct (run_shows response_queued (fun s => Some (channel <$> sessions (shared s))) [[first_response]])
    as (sys & Hrun & Hchannel); [by vm_compute |]. injection Hchannel as Hchannel.
  destruct (queued_messages_good wallet true 9 entries first_state 10 requests sys ltac:(lia) eq_refl
              (schedule_steps _ _ _ _ Hrun)) as [Hgood _].
  exists sys. split_and!; [exact Hrun | exact Hchannel |]. apply Hgood.
  destruct (sessions (shared sys)) as [| c [|] ] eqn:Hs; [discriminate Hchannel | | discriminate Hchannel].
  injection Hchannel as Hchannel. exists c. split; [rewrite Hs; by left |]. left. rewrite Hchannel. by left.
Defined.

(** The owner before and after the rest of the configuration. *)
Definition owners (s : exec_system) : option (bool * Z * Z) :=
  s' ← schedule answer (turns 1 5 ++ turns 2 9) s;
  mret (immutable_params_injected (shared s), enclave_owner (shared s), enclave_owner (shared s')).

Lemma injected_owner_is_final_witness : exists sys sys', schedule answer (turns 0 2) start = Some sys /\
  schedule answer (turns 1 5 ++ turns 2 9) sys = Some sys' /\ enclave_owner (shared sys) = 99 /\
  enclave_owner (shared sys') = enclave_owner (shared sys).
Proof.
  destruct (run_shows (turns 0 2) owners (true, 99, 99)) as (sys & Hrun & (sys' & Hrun' & Howners)%bind_Some); [by vm_compute |].
  injection Howners as Hinj Howner _. exists sys, sys'. split_and!; [exact Hrun | exact Hrun' | exact Howner |].
  apply (injected_owner_is_final wallet true 9 entries first_state 10 requests sys sys'); [lia | done | | | exact Hinj].
  - exact (schedule_steps _ _ _ _ Hrun).
  - exact (schedule_steps _ _ _ _ Hrun').
Defined.

(** A job that took a minute under a deadline of five seconds. *)
Definition late_output : JobOutput := unsigned_output [] 3 60000.
Definition late_start : exec_system :=
  mkSystem 10 (first_state <| sessions := [mkSession [] []] |>) [run_task (report_job 5 5000 0 late_output)].

Lemma late_result_lost_witness : exists sys, schedule answer (turns 0 2) late_start = Some sys /\ tasks sys = [Done] /\
  sessions (shared sys) = [mkSession [] []].
Proof.
  eexists. split; [by vm_compute | split; [done |] ].
  apply (late_result_lost 5 5000 0 late_output 10 (shared late_start)); [lia | cbn; lia .. |].
  apply (schedule_steps answer (turns 0 2) late_start). by vm_compute.
Defined.

Lemma toy_created block : created_log (created_event block) block 5 [0xab] [1; 2] 5000 [TAddress 42].
Proof. by split. Qed.

Lemma created_event_handled_witness :
  runs (handle_event 0 JobCreated (created_event 120)) first_state (Returned Continue)
    (mark_running 5 (set_last_block 120 first_state))
    [timeout_task 5 5000 0; job_task 5 [0xab] [1; 2] 5000 0].
Proof. exact (created_event_handled 0 (created_event 120) 120 5 [0xab] [1; 2] 5000 [TAddress 42] true first_state (toy_created 120)
  (conj (fun _ => list_elem_of_here _ _) (fun _ => eq_refl))). Defined.

Definition responded_event : ELog := mkELog [0; 4] [] (Some 130) (Some false).

Lemma later_response_hides_job_witness : exists s',
  runs (_ ← handle_event 0 JobResponded responded_event; handle_event 0 JobCreated (created_event 120)) first_state
    (Returned Continue) s' [] /\
  last_block_seen s' = 130 /\ job_requests_running s' ⊆ ∅.
Proof.
  apply (later_response_hides_job 0 (created_event 120) responded_event 120 130 5 4 [0xab] [1; 2] 5000 [TAddress 42]
           [] 1 0 1 first_state); [apply toy_created | by split | done | done].
Defined.

Definition two_messages (m m' : JobsTxnMetadata) : list exec_task :=
  [run_task (_ ← send_loop 3 0 m [] 100 7 false; send_loop 3 0 m' [] 100 7 false);
   request_task wallet true 9 (PostMutableConfig (key 77))].
Definition configured_state : AppState :=
  first_state <| http_rpc_client := Some 66 |> <| nonce_to_send := 4 |> <| sessions := [mkSession [] []] |>.

Lemma injection_skips_nonce_witness : exists sys t,
  schedule (rpc_answers 100 1) injection_race (mkSystem 10 configured_state (two_messages first_response first_response)) =
    Some sys /\
  tasks sys !! 0%nat = Some t /\ current_call t = Some (SendTransaction (mkTxn 77 101 100 7 (JobsCall []))).
Proof.
  apply (injection_skips_nonce wallet 9 (key 77) (be_bytes 32 77) 66 77 2 0 first_response [] 100 7 first_response [] 100 7
           configured_state 10 100 1); by vm_compute.
Defined.

Lemma toy_hex s l c : of_hex s = Some l -> String.get 0 s = Some c -> continuation c = false.
Proof.
  intros Hhex Hget. destruct s as [| x [| y s] ]; [done | done |]. change (Some x = Some c) in Hget. injection Hget as ->.
  apply bind_Some in Hhex as (n & Hc & _). revert Hc. unfold hex_value, continuation.
  repeat (case_match; [lia |]). discriminate.
Qed.

Lemma deployed_code_runs_witness :
  code_of_response "0xc0de" (VObject [("result"%string, VObject [("to"%string, VString "0xc0de");
    ("input"%string, VString (CODE_CALL_PREFIX +:+ to_hex (be_bytes 32 3) +:+ to_hex ([1; 2; 3] ++ replicate 29 0)))])]) =
  Ok [1; 2; 3].
Proof.
  eapply (deployed_code_runs _ _ _ (to_hex (be_bytes 32 3)) (to_hex ([1; 2; 3] ++ replicate 29 0)) [1; 2; 3] 3 29);
    [exact toy_hex | done | done | done | done | by vm_compute | by vm_compute | done | done].
Defined.

End ExecWitnesses.
