(* ===== verification/Attestation.v ===== *)
(** * Attestation documents: the SDK

    sdks/rs/src/attestation.rs: decoding an attestation document, checking its
    signature and its certificate chain, and its age.  The CBOR, COSE and X.509
    libraries are the class [Openssl]; the text of an error keeps its fixed
    part. *)

From S2P Require Import Prelude.

#[local] Set Warnings "-register-all".

(** [serde_cbor::value::Value]; the entries of a map have distinct keys. *)
Inductive Value :=
| VInteger (z : Z)
| VBytes (b : bytes)
| VText (s : string)
| VArray (l : list Value)
| VMap (m : list (Value * Value))
| VOther.

(** ** Third-party interface *)

Class Openssl := {
  CoseSign1 : Type;
  cose_from_bytes : bytes -> option CoseSign1;
  get_payload : CoseSign1 -> option bytes;
  cbor_from_slice : bytes -> option Value;
  X509 : Type;
  PKey : Type;
  x509_from_der : bytes -> option X509;
  x509_from_pem : bytes -> option X509;
  x509_eqb : X509 -> X509 -> bool;
  public_key_of : X509 -> option PKey;
  x509_verify : X509 -> PKey -> option bool;
  (* the first certificate issued the second *)
  issued : X509 -> X509 -> bool;
  x509_not_before : X509 -> Z;
  x509_not_after : X509 -> Z;
  verify_signature : CoseSign1 -> PKey -> option bool;
  (* aws.cert *)
  aws_cert : bytes;
}.

Record AttestationDecoded := mkAttestationDecoded { pcrs : list bytes; timestamp : Z; public_key : bytes }.

Inductive AttestationError :=
| ParseFailed (what : string)
| VerifyFailed (what : string).

Abbreviation result := (outcome AttestationError).

(** ** Maps of the document *)

Inductive Key := KText (s : string) | KInt (z : Z).

Definition is_key (k : Key) (v : Value) : bool :=
  match k, v with
  | KText s, VText t => String.eqb s t
  | KInt z, VInteger y => z =? y
  | _, _ => false
  end.

(** [BTreeMap::remove]: the value and the other entries. *)
Fixpoint remove (k : Key) (m : list (Value * Value)) : option (Value * list (Value * Value)) :=
  match m with
  | [] => None
  | e :: m => if is_key k e.1 then Some (e.2, m) else '(v, m') ← remove k m; Some (v, e :: m')
  end.

(** [value::from_value::<BTreeMap<Value, Value>>] *)
Definition into_map (v : Value) : option (list (Value * Value)) := match v with VMap m => Some m | _ => None end.
Definition into_bytes (v : Value) : option bytes := match v with VBytes b => Some b | _ => None end.
Definition into_array (v : Value) : option (list Value) := match v with VArray l => Some l | _ => None end.
Definition into_integer (v : Value) : option Z := match v with VInteger z => Some z | _ => None end.

Section attestation.
Context `{O : Openssl}.

(** ** Certificates *)

(** The certificates after the first, in order. *)
Fixpoint get_certs (cabundle : list Value) : result (list X509) :=
  match cabundle with
  | [] => Ok []
  | cert :: cabundle =>
      der ← ok_or (ParseFailed "cert decode") (into_bytes cert);
      cert ← ok_or (ParseFailed "der") (x509_from_der der);
      certs ← get_certs cabundle;
      Ok (cert :: certs)
  end.

Definition get_all_certs (cert : X509) (cabundle : list Value) : result (list X509) :=
  certs ← get_certs cabundle; Ok (cert :: certs).

(** The body of the loop of [verify_cert_chain]. *)
Definition check_link (now : option Z) (cert issuer : X509) : result unit :=
  pubkey ← ok_or (ParseFailed "pubkey") (public_key_of issuer);
  valid ← ok_or (ParseFailed "signature") (x509_verify cert pubkey);
  if negb valid then Err (VerifyFailed "signature") else
  if negb (issued issuer cert) then Err (VerifyFailed "issuer or subject") else
  current_time ← ok_or (ParseFailed EmptyString) now;
  if (x509_not_after cert <? current_time) || (current_time <? x509_not_before cert)
  then Err (VerifyFailed "timestamp") else Ok tt.

(** The loop; [now i] is the time its [i]-th iteration reads. *)
Fixpoint check_links (now : nat -> option Z) (i : nat) (certs : list X509) : result unit :=
  match certs with
  | cert :: ((issuer :: _) as rest) => _ ← check_link (now i) cert issuer; check_links now (S i) rest
  | _ => Ok tt
  end.

Definition verify_cert_chain (now : nat -> option Z) (cert : X509) (cabundle : list Value) (root_cert_pem : bytes)
    : result unit :=
  certs ← get_all_certs cert cabundle;
  _ ← check_links now 0 certs;
  root_cert ← ok_or (ParseFailed "pem") (x509_from_pem root_cert_pem);
  last_cert ← ok_or (ParseFailed "root") (last certs);
  if negb (x509_eqb root_cert last_cert) then Err (VerifyFailed "root") else Ok tt.

(** ** The document *)

Abbreviation doc := (list (Value * Value)).

Definition parse_attestation_doc (attestation_doc : bytes) : result (CoseSign1 * doc) :=
  cosesign1 ← ok_or (ParseFailed "cose") (cose_from_bytes attestation_doc);
  payload ← ok_or (ParseFailed "cose payload") (get_payload cosesign1);
  cbor ← ok_or (ParseFailed "cbor") (cbor_from_slice payload);
  fields ← ok_or (ParseFailed "doc") (into_map cbor);
  Ok (cosesign1, fields).

(** The loop over the first three pcrs. *)
Fixpoint take_pcrs (indices : list Z) (pcrs_arr : doc) : result (list bytes) :=
  match indices with
  | [] => Ok []
  | i :: indices =>
      '(pcr, pcrs_arr) ← ok_or (ParseFailed "pcr not found") (remove (KInt i) pcrs_arr);
      pcr ← ok_or (ParseFailed "pcr decode failure") (into_bytes pcr);
      if negb (length pcr =? 48)%nat then Err (ParseFailed "pcr not 48 bytes") else
      rest ← take_pcrs indices pcrs_arr;
      Ok (pcr :: rest)
  end.

Definition parse_pcrs (attestation_doc : doc) : result (list bytes * doc) :=
  '(pcrs_arr, attestation_doc) ← ok_or (ParseFailed "pcrs not found") (remove (KText "pcrs") attestation_doc);
  pcrs_arr ← ok_or (ParseFailed "pcrs") (into_map pcrs_arr);
  pcrs ← take_pcrs [0; 1; 2] pcrs_arr;
  Ok (pcrs, attestation_doc).

Definition verify_signature_and_cert_chain (now : nat -> option Z) (attestation_doc : doc) (cosesign1 : CoseSign1)
    : result doc :=
  '(certificate, attestation_doc) ←
    ok_or (ParseFailed "certificate key not found") (remove (KText "certificate") attestation_doc);
  certificate ← ok_or (ParseFailed "enclave certificate decode failure") (into_bytes certificate);
  enclave_certificate ← ok_or (ParseFailed "der") (x509_from_der certificate);
  pub_key ← ok_or (ParseFailed "pubkey") (public_key_of enclave_certificate);
  verify_result ← ok_or (ParseFailed "signature") (verify_signature cosesign1 pub_key);
  if negb verify_result then Err (VerifyFailed "signature") else
  '(cabundle, attestation_doc) ←
    ok_or (ParseFailed "cabundle key not found in attestation doc") (remove (KText "cabundle") attestation_doc);
  cabundle ← ok_or (ParseFailed "cabundle decode failure") (into_array cabundle);
  _ ← verify_cert_chain now enclave_certificate (rev cabundle) aws_cert;
  Ok attestation_doc.

(** [i128] to [usize] *)
Definition parse_timestamp (attestation_doc : doc) : result (Z * doc) :=
  '(timestamp, attestation_doc) ←
    ok_or (ParseFailed "timestamp not found in attestation doc") (remove (KText "timestamp") attestation_doc);
  timestamp ← ok_or (ParseFailed "timestamp decode failure") (into_integer timestamp);
  if in_width 64 timestamp then Ok (timestamp, attestation_doc) else Err (ParseFailed "timestamp").

Definition parse_enclave_key (attestation_doc : doc) : result (bytes * doc) :=
  '(public_key, attestation_doc) ←
    ok_or (ParseFailed "public key not found in attestation doc") (remove (KText "public_key") attestation_doc);
  public_key ← ok_or (ParseFailed "public key decode failure") (into_bytes public_key);
  Ok (public_key, attestation_doc).

Definition decode_attestation (attestation_doc : bytes) : result AttestationDecoded :=
  '(_, attestation_doc) ← parse_attestation_doc attestation_doc;
  '(pcrs, attestation_doc) ← parse_pcrs attestation_doc;
  '(timestamp, attestation_doc) ← parse_timestamp attestation_doc;
  '(public_key, _) ← parse_enclave_key attestation_doc;
  Ok (mkAttestationDecoded pcrs timestamp public_key).

Definition verify_and_decode_attestation (now : nat -> option Z) (attestation_doc : bytes) : result AttestationDecoded :=
  '(cosesign1, attestation_doc) ← parse_attestation_doc attestation_doc;
  '(pcrs, attestation_doc) ← parse_pcrs attestation_doc;
  attestation_doc ← verify_signature_and_cert_chain now attestation_doc cosesign1;
  '(timestamp, attestation_doc) ← parse_timestamp attestation_doc;
  '(public_key, _) ← parse_enclave_key attestation_doc;
  Ok (mkAttestationDecoded pcrs timestamp public_key).

(** ** Verification *)

(** The comparison of the three pcrs, in order. *)
Fixpoint compare_pcrs (decoded expected : list bytes) : result unit :=
  match decoded, expected with
  | d :: decoded, e :: expected => if list_eqb d e then compare_pcrs decoded expected else Err (VerifyFailed "pcr")
  | _, _ => Ok tt
  end.

(** [millis] is [Utc::now().timestamp_millis()]; the subtraction of [usize]
    wraps. *)
Definition verify (now : nat -> option Z) (millis : Z) (attestation_doc : bytes) (expected : list bytes) (max_age : Z)
    : result bytes :=
  decoded_data ← verify_and_decode_attestation now attestation_doc;
  _ ← compare_pcrs (pcrs decoded_data) expected;
  if timestamp decoded_data <? wrap 64 (wrap 64 millis - max_age) then Err (VerifyFailed "too old") else
  Ok (public_key decoded_data).

Definition verify_with_timestamp (now : nat -> option Z) (attestation_doc : bytes) (expected : list bytes) (at_time : Z)
    : result bytes :=
  decoded_data ← verify_and_decode_attestation now attestation_doc;
  _ ← compare_pcrs (pcrs decoded_data) expected;
  if negb (at_time =? timestamp decoded_data) then Err (VerifyFailed "timestamp does not match") else
  Ok (public_key decoded_data).

End attestation.
