(* ===== verification/AttestationProps.v ===== *)
(** * Attestation documents: what is accepted

    A relational specification of a genuine attestation document, and the
    theorem that the SDK accepts exactly those. *)

From S2P Require Import Prelude Attestation.

#[local] Arguments into_map : simpl never.
#[local] Arguments into_bytes : simpl never.
#[local] Arguments into_array : simpl never.
#[local] Arguments into_integer : simpl never.

Lemma Forall2_impl_in {A B} (P Q : A -> B -> Prop) l k :
  Forall2 P l k -> (forall x y, x ∈ l -> P x y -> Q x y) -> Forall2 Q l k.
Proof.
  induction 1 as [| x y l k Hxy _ IH]; intros HPQ; constructor; [by apply HPQ; [left |] |].
  apply IH. intros a b Ha. apply HPQ. by right.
Qed.

(** ** Fields of a map *)

Fixpoint field (k : Key) (m : list (Value * Value)) : option Value :=
  match m with
  | [] => None
  | e :: m => if is_key k e.1 then Some e.2 else field k m
  end.

Lemma is_key_inj k k' v : is_key k v = true -> is_key k' v = true -> k = k'.
Proof.
  destruct k, k', v; cbn; try discriminate.
  - by intros ->%String.eqb_eq ->%String.eqb_eq.
  - by intros ->%Z.eqb_eq ->%Z.eqb_eq.
Qed.

(** [m'] has the fields of [m] but for [k]. *)
Definition but (k : Key) (m m' : list (Value * Value)) : Prop := forall k', k' <> k -> field k' m' = field k' m.

Lemma remove_sound k m v m' : remove k m = Some (v, m') -> field k m = Some v /\ but k m m'.
Proof.
  revert m'. induction m as [| e m IH]; intros m' Hr; [discriminate |]. cbn in Hr |- *.
  destruct (is_key k e.1) eqn:He.
  - injection Hr as <- <-. split; [done |]. intros k' Hk'. cbn. destruct (is_key k' e.1) eqn:He'; [| done].
    destruct Hk'. by eapply is_key_inj.
  - apply bind_Some in Hr as ([w m1] & Hr & [= -> <-]). destruct (IH _ Hr) as [Hf Hb]. split; [done |].
    intros k' Hk'. cbn. by rewrite (Hb k' Hk').
Qed.

Lemma remove_complete k m v : field k m = Some v -> exists m', remove k m = Some (v, m') /\ but k m m'.
Proof.
  intros Hf. destruct (remove k m) as [[w m'] |] eqn:Hr.
  - destruct (remove_sound _ _ _ _ Hr) as [Hf' Hb]. exists m'. split; [congruence | done].
  - exfalso. revert Hf Hr. induction m as [| e m IH]; cbn; [done |]. destruct (is_key k e.1); [done |].
    intros Hf. destruct (remove k m) as [[w m'] |] eqn:Hr; [done |]. intros _. by apply IH.
Qed.

Lemma into_map_Some v m : into_map v = Some m <-> v = VMap m.
Proof. unfold into_map. destruct v; split; congruence. Qed.
Lemma into_bytes_Some v b : into_bytes v = Some b <-> v = VBytes b.
Proof. unfold into_bytes. destruct v; split; congruence. Qed.
Lemma into_array_Some v l : into_array v = Some l <-> v = VArray l.
Proof. unfold into_array. destruct v; split; congruence. Qed.
Lemma into_integer_Some v z : into_integer v = Some z <-> v = VInteger z.
Proof. unfold into_integer. destruct v; split; congruence. Qed.

Lemma into_map_eq m : into_map (VMap m) = Some m.
Proof. done. Qed.
Lemma into_bytes_eq b : into_bytes (VBytes b) = Some b.
Proof. done. Qed.
Lemma into_array_eq l : into_array (VArray l) = Some l.
Proof. done. Qed.
Lemma into_integer_eq z : into_integer (VInteger z) = Some z.
Proof. done. Qed.

(** Evaluates what is decoded from what is there. *)
Ltac decoded := cbn; rewrite ?into_map_eq, ?into_bytes_eq, ?into_array_eq, ?into_integer_eq; cbn.

(** Turns what was decoded into what was there. *)
Ltac fields :=
  repeat match goal with
  | H : remove _ _ = Some (_, _) |- _ => apply remove_sound in H as [? ?]
  | H : into_map _ = Some _ |- _ => apply into_map_Some in H; subst
  | H : into_bytes _ = Some _ |- _ => apply into_bytes_Some in H; subst
  | H : into_array _ = Some _ |- _ => apply into_array_Some in H; subst
  | H : into_integer _ = Some _ |- _ => apply into_integer_Some in H; subst
  end.

Section spec.
Context `{O : Openssl}.

(** ** The specification *)

(** The document is a COSE_Sign1 object over a CBOR map. *)
Definition carries (document : bytes) (cose : CoseSign1) (fields : list (Value * Value)) : Prop :=
  exists payload, cose_from_bytes document = Some cose /\ get_payload cose = Some payload /\
    cbor_from_slice payload = Some (VMap fields).

Definition is_pcr (m : list (Value * Value)) (i : Z) (pcr : bytes) : Prop :=
  field (KInt i) m = Some (VBytes pcr) /\ length pcr = 48%nat.

Definition pcrs_are (v : option Value) (l : list bytes) : Prop :=
  exists m, v = Some (VMap m) /\ Forall2 (is_pcr m) [0; 1; 2] l.

(** What the fields say. *)
Definition states (fields : list (Value * Value)) (d : AttestationDecoded) : Prop :=
  pcrs_are (field (KText "pcrs") fields) (pcrs d) /\
  field (KText "timestamp") fields = Some (VInteger (timestamp d)) /\ 0 <= timestamp d < 2 ^ 64 /\
  field (KText "public_key") fields = Some (VBytes (public_key d)).

Definition is_cert (v : Value) (cert : X509) : Prop := exists der, v = VBytes der /\ x509_from_der der = Some cert.

(** [issuer] signed and issued [cert], which is valid at the time read. *)
Definition certified (now : nat -> option Z) (i : nat) (cert issuer : X509) : Prop :=
  issued issuer cert = true /\
  (exists key, public_key_of issuer = Some key /\ x509_verify cert key = Some true) /\
  exists t, now i = Some t /\ x509_not_before cert <= t <= x509_not_after cert.

Fixpoint chain (now : nat -> option Z) (i : nat) (certs : list X509) : Prop :=
  match certs with
  | cert :: ((issuer :: _) as rest) => certified now i cert issuer /\ chain now (S i) rest
  | _ => True
  end.

(** The document is signed by the key of a certificate at the end of a chain
    of valid certificates that starts at the pinned root. *)
Definition signed_by (now : nat -> option Z) (cose : CoseSign1) (certificate cabundle : option Value) : Prop :=
  exists leaf bundle cas key root top,
    (exists v, certificate = Some v /\ is_cert v leaf) /\
    public_key_of leaf = Some key /\ verify_signature cose key = Some true /\
    cabundle = Some (VArray bundle) /\ Forall2 is_cert (rev bundle) cas /\
    chain now 0 (leaf :: cas) /\
    x509_from_pem aws_cert = Some root /\ last (leaf :: cas) = Some top /\ x509_eqb root top = true.

Definition genuine (now : nat -> option Z) (document : bytes) (d : AttestationDecoded) : Prop :=
  exists cose fields, carries document cose fields /\ states fields d /\
    signed_by now cose (field (KText "certificate") fields) (field (KText "cabundle") fields).

(** ** The parts of the code meet their parts of the specification *)

Lemma parse_doc_iff document cose fields :
  parse_attestation_doc document = Ok (cose, fields) <-> carries document cose fields.
Proof.
  unfold parse_attestation_doc, carries. split.
  - intros H. inv_ok. fields. eauto.
  - intros (payload & -> & Hp & Hc). cbn. rewrite Hp. cbn. by rewrite Hc.
Qed.

Lemma take_pcrs_iff indices m l : NoDup indices -> take_pcrs indices m = Ok l <-> Forall2 (is_pcr m) indices l.
Proof.
  intros Hnd. revert m l. induction Hnd as [| i indices Hi _ IH]; intros m l; cbn.
  - split; [intros H; inv_ok; constructor | by intros ->%Forall2_nil_inv_l].
  - split.
    + intros H. inv_ok. fields. case_match eqn:Hlen; [discriminate |]. inv_ok.
      constructor; [split; [done | by apply Nat.eqb_eq, negb_false_iff] |].
      match goal with H : take_pcrs _ _ = Ok _ |- _ => apply IH in H; eapply Forall2_impl_in; [exact H |] end.
      intros j p Hj [Hfj Hl]. split; [| done]. rewrite <- Hfj. symmetry.
      match goal with H : but _ _ _ |- _ => apply H end. intros [= ->]. done.
    + intros Hl. destruct l as [| p l]; [by apply Forall2_nil_inv_r in Hl |]. apply Forall2_cons in Hl as [[Hf Hlen] Hl].
      destruct (remove_complete _ _ _ Hf) as (m' & -> & Hb). decoded. rewrite Hlen. cbn.
      assert (take_pcrs indices m' = Ok l) as ->; [| done]. apply IH. eapply Forall2_impl_in; [exact Hl |].
      intros j q Hj [Hfj Hlq]. split; [| done]. rewrite <- Hfj. apply Hb. intros [= ->]. done.
Qed.

#[local] Arguments take_pcrs : simpl never.

Lemma parse_pcrs_sound m l m' : parse_pcrs m = Ok (l, m') -> pcrs_are (field (KText "pcrs") m) l /\ but (KText "pcrs") m m'.
Proof.
  unfold parse_pcrs. intros H. inv_ok. fields. split; [| done]. eexists. split; [done |].
  apply take_pcrs_iff; [by repeat constructor; set_solver | done].
Qed.

Lemma parse_pcrs_complete m l : pcrs_are (field (KText "pcrs") m) l ->
  exists m', parse_pcrs m = Ok (l, m') /\ but (KText "pcrs") m m'.
Proof.
  intros (p & Hf & Hl). unfold parse_pcrs. destruct (remove_complete _ _ _ Hf) as (m' & -> & Hb). decoded.
  apply take_pcrs_iff in Hl as ->; [| by repeat constructor; set_solver]. cbn. eauto.
Qed.

Lemma get_certs_iff l certs : get_certs l = Ok certs <-> Forall2 is_cert l certs.
Proof.
  revert certs. induction l as [| v l IH]; intros certs; cbn.
  - split; [intros H; inv_ok; constructor | by intros ->%Forall2_nil_inv_l].
  - split.
    + intros H. inv_ok. fields. constructor; [by eexists | by apply IH].
    + intros (c & certs' & (der & -> & Hder) & Hl & ->)%Forall2_cons_inv_l. decoded. rewrite Hder. cbn.
      by apply IH in Hl as ->.
Qed.

Lemma check_link_iff now i cert issuer : check_link (now i) cert issuer = Ok tt <-> certified now i cert issuer.
Proof.
  unfold check_link, certified. split.
  - intros H. inv_ok. repeat (case_match; try discriminate). inv_ok. repeat (case_match; try discriminate).
    match goal with H : x509_verify _ _ = Some ?v |- _ => destruct v; [| discriminate] end.
    split_and!; [by apply negb_false_iff | by eexists | eexists; split; [done | lia]].
  - intros (Hissued & (key & Hkey & Hverify) & t & Hnow & Ht). rewrite Hkey. cbn. rewrite Hverify. cbn.
    rewrite Hissued, Hnow. cbn.
    assert ((x509_not_after cert <? t) || (t <? x509_not_before cert) = false) as -> by lia. done.
Qed.

Lemma check_links_iff now i certs : check_links now i certs = Ok tt <-> chain now i certs.
Proof.
  revert i. induction certs as [| cert [| issuer rest] IH]; intros i; [done | done |].
  change (check_link (now i) cert issuer ≫= (fun _ => check_links now (S i) (issuer :: rest)) = Ok tt <->
          certified now i cert issuer /\ chain now (S i) (issuer :: rest)).
  rewrite <- check_link_iff, <- IH. destruct (check_link (now i) cert issuer) as [[] | |]; cbn; naive_solver.
Qed.

#[local] Arguments check_links : simpl never.
#[local] Arguments chain : simpl never.
#[local] Arguments get_certs : simpl never.

Lemma verify_cert_chain_iff now cert l : verify_cert_chain now cert l aws_cert = Ok tt <->
  exists cas root top, Forall2 is_cert l cas /\ chain now 0 (cert :: cas) /\
    x509_from_pem aws_cert = Some root /\ last (cert :: cas) = Some top /\ x509_eqb root top = true.
Proof.
  unfold verify_cert_chain, get_all_certs. split.
  - intros H. inv_ok. match goal with H : get_certs _ = Ok _ |- _ => apply get_certs_iff in H end.
    match goal with u : unit |- _ => destruct u end.
    match goal with H : check_links _ _ _ = Ok _ |- _ => apply check_links_iff in H end.
    case_match eqn:Hroot; [discriminate |]. do 3 eexists. split_and!; [done .. |]. by apply negb_false_iff.
  - intros (cas & root & top & Hcas & Hchain & Hpem & Hlast & Hroot).
    apply get_certs_iff in Hcas as ->. apply check_links_iff in Hchain. cbn [mbind outcome_bind]. rewrite Hchain.
    cbn [mbind outcome_bind]. rewrite Hpem, Hlast. cbn. by rewrite Hroot.
Qed.

(** [m'] has the fields of [m] but for those in [ks]. *)
Definition but_all (ks : list Key) (m m' : list (Value * Value)) : Prop := forall k, k ∉ ks -> field k m' = field k m.

Lemma signature_sound now m cose m' : verify_signature_and_cert_chain now m cose = Ok m' ->
  signed_by now cose (field (KText "certificate") m) (field (KText "cabundle") m) /\
  but_all [KText "certificate"; KText "cabundle"] m m'.
Proof.
  unfold verify_signature_and_cert_chain. intros H. inv_ok. fields. repeat (case_match; try discriminate). inv_ok. fields.
  match goal with H : verify_cert_chain _ _ _ _ = Ok ?u |- _ => destruct u; apply verify_cert_chain_iff in H end.
  match goal with H : negb ?v = false |- _ => destruct v; [clear H | discriminate H] end.
  match goal with H : ex _ |- _ => destruct H as (cas & root & top & ?) end. split.
  - do 6 eexists. split_and!; [by eexists; split; [| eexists] | done | done | | naive_solver ..].
    match goal with H : but (KText "certificate") m _ |- _ => rewrite <- (H (KText "cabundle")) by done end. done.
  - intros k Hk. rewrite !not_elem_of_cons in Hk. destruct Hk as (Hk & Hk' & _).
    repeat match goal with H : but _ _ _ |- _ => rewrite (H k) by done; clear H end. done.
Qed.

Lemma signature_complete now m cose :
  signed_by now cose (field (KText "certificate") m) (field (KText "cabundle") m) ->
  exists m', verify_signature_and_cert_chain now m cose = Ok m' /\ but_all [KText "certificate"; KText "cabundle"] m m'.
Proof.
  intros (leaf & bundle & cas & key & root & top & (v & Hv & der & -> & Hder) & Hkey & Hverify & Hbundle & Hchain).
  unfold verify_signature_and_cert_chain. destruct (remove_complete _ _ _ Hv) as (m1 & -> & Hb1). decoded.
  rewrite Hder. cbn. rewrite Hkey. cbn. rewrite Hverify. cbn. rewrite <- (Hb1 (KText "cabundle")) in Hbundle by done.
  destruct (remove_complete _ _ _ Hbundle) as (m2 & -> & Hb2). decoded.
  assert (verify_cert_chain now leaf (rev bundle) aws_cert = Ok tt) as -> by (apply verify_cert_chain_iff; naive_solver).
  exists m2. split; [done |]. intros k Hk. rewrite !not_elem_of_cons in Hk. destruct Hk as (Hk & Hk' & _).
  by rewrite (Hb2 k), (Hb1 k).
Qed.

(** The timestamp and the key, which are read last. *)
Definition reads_rest (m : list (Value * Value)) (ts : Z) (pk : bytes) : Prop :=
  field (KText "timestamp") m = Some (VInteger ts) /\ 0 <= ts < 2 ^ 64 /\ field (KText "public_key") m = Some (VBytes pk).

Definition read_rest (l : list bytes) (m : list (Value * Value)) : outcome AttestationError AttestationDecoded :=
  '(timestamp, m) ← parse_timestamp m; '(public_key, _) ← parse_enclave_key m; Ok (mkAttestationDecoded l timestamp public_key).

Lemma read_rest_iff l m d : read_rest l m = Ok d <-> pcrs d = l /\ reads_rest m (timestamp d) (public_key d).
Proof.
  unfold read_rest, reads_rest, parse_timestamp, parse_enclave_key, in_width. split.
  - intros H. inv_ok. fields. case_match; [| discriminate]. inv_ok. fields. cbn. split_and!; [done | done | lia | lia |].
    match goal with H : but _ m _ |- _ => rewrite <- (H (KText "public_key")) by done end. done.
  - destruct d as [l' ts pk]. cbn. intros (-> & Hts & Hrange & Hpk).
    destruct (remove_complete _ _ _ Hts) as (m' & -> & Hb). decoded.
    assert ((0 <=? ts) && (ts <? 2 ^ 64) = true) as -> by lia. cbn. rewrite <- (Hb (KText "public_key")) in Hpk by done.
    destruct (remove_complete _ _ _ Hpk) as (m2 & -> & _). by decoded.
Qed.

(** ** The whole *)

Lemma decode_attestation_iff document d :
  decode_attestation document = Ok d <-> exists cose fields, carries document cose fields /\ states fields d.
Proof.
  assert (decode_attestation document = '(_, m) ← parse_attestation_doc document; '(l, m) ← parse_pcrs m; read_rest l m)
    as -> by done.
  unfold states. split.
  - intros H. inv_ok. match goal with H : parse_attestation_doc _ = _ |- _ => apply parse_doc_iff in H end.
    match goal with H : parse_pcrs _ = _ |- _ => apply parse_pcrs_sound in H as [Hp Hb] end.
    match goal with H : read_rest _ _ = _ |- _ => apply read_rest_iff in H as (<- & Hts & Hr & Hk) end.
    do 2 eexists. split; [done |]. rewrite <- (Hb (KText "timestamp")), <- (Hb (KText "public_key")) by done. done.
  - intros (cose & m & Hdoc%parse_doc_iff & Hp & Hts & Hr & Hk). rewrite Hdoc. cbn.
    destruct (parse_pcrs_complete _ _ Hp) as (m' & -> & Hb). cbn. apply read_rest_iff. split; [done |].
    unfold reads_rest. by rewrite (Hb (KText "timestamp")), (Hb (KText "public_key")) by done.
Qed.

Lemma verify_and_decode_iff now document d : verify_and_decode_attestation now document = Ok d <-> genuine now document d.
Proof.
  assert (verify_and_decode_attestation now document =
    '(cose, m) ← parse_attestation_doc document; '(l, m) ← parse_pcrs m;
    m ← verify_signature_and_cert_chain now m cose; read_rest l m) as -> by done.
  unfold genuine, states. split.
  - intros H. inv_ok. match goal with H : parse_attestation_doc _ = _ |- _ => apply parse_doc_iff in H end.
    match goal with H : parse_pcrs _ = _ |- _ => apply parse_pcrs_sound in H as [Hp Hb] end.
    match goal with H : verify_signature_and_cert_chain _ _ _ = _ |- _ => apply signature_sound in H as [Hs Hb'] end.
    match goal with H : read_rest _ _ = _ |- _ => apply read_rest_iff in H as (<- & Hts & Hr & Hk) end.
    rewrite (Hb' (KText "timestamp")), (Hb (KText "timestamp")) in Hts by set_solver.
    rewrite (Hb' (KText "public_key")), (Hb (KText "public_key")) in Hk by set_solver.
    rewrite (Hb (KText "certificate")), (Hb (KText "cabundle")) in Hs by done. eauto 10.
  - intros (cose & m & Hdoc%parse_doc_iff & (Hp & Hts & Hr & Hk) & Hs). rewrite Hdoc. cbn.
    destruct (parse_pcrs_complete _ _ Hp) as (m' & -> & Hb). cbn.
    rewrite <- (Hb (KText "certificate")), <- (Hb (KText "cabundle")) in Hs by done.
    destruct (signature_complete _ _ _ Hs) as (m2 & -> & Hb2). cbn. apply read_rest_iff. split; [done |]. unfold reads_rest.
    rewrite (Hb2 (KText "timestamp")), (Hb2 (KText "public_key")), (Hb (KText "timestamp")), (Hb (KText "public_key"))
      by set_solver. done.
Qed.

End spec.

(** ** What the SDK accepts *)

Section accepts.
Context `{O : Openssl}.

Lemma compare_pcrs_iff decoded expected : length decoded = length expected ->
  compare_pcrs decoded expected = Ok tt <-> decoded = expected.
Proof.
  revert expected. induction decoded as [| d decoded IH]; intros [| e expected] Hlen; try discriminate; [done |].
  injection Hlen as Hlen. cbn. unfold list_eqb. destruct (bool_decide_reflect (d = e)) as [-> |]; [| naive_solver].
  rewrite IH by done. naive_solver.
Qed.

Lemma genuine_pcrs now document d : genuine now document d -> length (pcrs d) = 3%nat.
Proof. intros (cose & m & _ & ((p & _ & Hp) & _) & _). by apply Forall2_length in Hp. Qed.

Lemma genuine_timestamp now document d : genuine now document d -> 0 <= timestamp d < 2 ^ 64.
Proof. intros (cose & m & _ & (_ & _ & Hts & _) & _). done. Qed.

Lemma verify_young now millis document expected max_age pk ts :
  0 <= max_age <= millis -> millis < 2 ^ 63 -> genuine now document (mkAttestationDecoded expected ts pk) ->
  millis - ts <= max_age -> verify now millis document expected max_age = Ok pk.
Proof.
  intros Hage Hmillis Hg Hts. unfold verify, wrap. rewrite (Z.mod_small millis), (Z.mod_small (_ - _)) by lia.
  apply verify_and_decode_iff in Hg as ->. cbn.
  assert (compare_pcrs expected expected = Ok tt) as -> by (by apply compare_pcrs_iff). cbn.
  assert ((ts <? millis - max_age) = false) as -> by lia. done.
Qed.

(** C11: [verify] accepts a document exactly when it is genuine (signed by the
    key of a leaf certificate from which a chain of signed, issued and
    currently valid certificates leads to the pinned root, with three 48-byte
    pcrs, a 64-bit timestamp and a public key), its pcrs are the expected ones
    and it is at most [max_age] milliseconds old; and it returns the key of
    the document. *)
Theorem verify_accepts_iff now millis document expected max_age pk :
  length expected = 3%nat -> 0 <= max_age <= millis -> millis < 2 ^ 63 ->
  verify now millis document expected max_age = Ok pk <->
  exists ts, genuine now document (mkAttestationDecoded expected ts pk) /\ millis - ts <= max_age.
Proof.
  intros Hexp Hage Hmillis. split; [| intros (ts & Hg & Hts); by apply (verify_young _ _ _ _ _ _ ts)].
  unfold verify, wrap. rewrite (Z.mod_small millis), (Z.mod_small (_ - _)) by lia. intros H. inv_ok. match goal with H : verify_and_decode_attestation _ _ = _ |- _ => apply verify_and_decode_iff in H as Hg end.
  match goal with H : compare_pcrs _ _ = Ok ?u |- _ =>
    destruct u; apply compare_pcrs_iff in H; [| rewrite Hexp; by eapply genuine_pcrs] end.
  case_match eqn:Hold; [discriminate |]. inv_ok. match goal with d : AttestationDecoded |- _ => destruct d as [ps ts pk] end.
  eexists. split; [exact Hg |]. cbn in Hold. lia.
Qed.

(** What a genuine document says does not depend on how it is decoded. *)
Lemma genuine_decodes now document d : genuine now document d -> decode_attestation document = Ok d.
Proof. intros (cose & m & Hdoc & Hs & _). apply decode_attestation_iff. eauto. Qed.

(** Verification against what the document itself says. *)
Lemma verify_own_fields now document d : decode_attestation document = Ok d ->
  (exists pk, verify_with_timestamp now document (pcrs d) (timestamp d) = Ok pk) <-> genuine now document d.
Proof.
  intros Hdec. unfold verify_with_timestamp. split.
  - intros [pk H]. inv_ok. match goal with H : verify_and_decode_attestation _ _ = _ |- _ => apply verify_and_decode_iff in H as Hg end.
    pose proof (genuine_decodes _ _ _ Hg) as Hdec'. congruence.
  - intros Hg. apply verify_and_decode_iff in Hg as ->. cbn.
    assert (compare_pcrs (pcrs d) (pcrs d) = Ok tt) as -> by (by apply compare_pcrs_iff). cbn. rewrite Z.eqb_refl. eauto.
Qed.

(** Decoding and verifying return an error or a result. *)
Lemma ok_or_no_panic {E A} (e : E) (o : option A) : ok_or e o <> Panic.
Proof. by destruct o. Qed.

End accepts.
