(* ===== verification/Verifier.v ===== *)
(** * Attestation documents: the verifier service

    attestation/verifier/src/handler.rs: the endpoints that check an
    attestation document and answer with a signature of its fields for the
    AttestationVerifier contract.  Keccak, secp256k1 and hexadecimal are the
    class [VerifierCrypto]. *)

From S2P Require Import Prelude Attestation.

Class VerifierCrypto := {
  keccak256 : bytes -> bytes;
  (* the recovery id and the compact signature under the verifier's key *)
  sign_ecdsa_recoverable : bytes -> Z * bytes;
  hex_encode : bytes -> string;
  hex_decode : bytes -> option bytes;
  (* AppState.secp256k1_public *)
  verifier_public : bytes;
}.

Inductive UserError :=
| AttestationDecode
| AttestationVerification (e : AttestationError)
| MessageGeneration
| InvalidRecovery.

Definition status_code (e : UserError) : Z :=
  match e with
  | AttestationDecode => 400
  | AttestationVerification _ => 401
  | MessageGeneration => 500
  | InvalidRecovery => 401
  end.

Record VerifyAttestationResponse := mkVerifyAttestationResponse {
  signature : string;
  secp256k1_public : string;
  pcr0 : string;
  pcr1 : string;
  pcr2 : string;
  response_timestamp : Z;
  verifier_secp256k1_public : string;
}.

Definition DOMAIN_SEPARATOR : bytes :=
  be_bytes 32 0x0de834feb03c214f785e75b2828ffeceb322312d4487e2fb9640ca5fc32542c7.
Definition ATTESTATION_TYPEHASH : bytes :=
  be_bytes 32 0x6889df476ca38f3f4b417c17eb496682eb401b4f41a2259741a78acc481ea805.

(** [Vec::resize] *)
Definition resize (n : nat) (fill : Z) (l : bytes) : bytes := take n l ++ replicate (n - length l) fill.

Section verifier.
Context `{O : Openssl} `{V : VerifierCrypto}.

Definition compute_digest (enclave_pubkey pcr0 pcr1 pcr2 : bytes) (timestamp : Z) : bytes :=
  let encoded_struct := ATTESTATION_TYPEHASH ++ keccak256 enclave_pubkey ++ keccak256 pcr0 ++ keccak256 pcr1 ++
                        keccak256 pcr2 in
  let encoded_struct := resize (32 * 6) 0 encoded_struct in
  let encoded_struct := write_at encoded_struct (32 * 5) (be_bytes 32 timestamp) in
  let hash_struct := keccak256 encoded_struct in
  keccak256 ([0x19; 0x01] ++ DOMAIN_SEPARATOR ++ hash_struct).

(** [Message::from_digest_slice] *)
Definition from_digest_slice (digest : bytes) : option bytes := if (length digest =? 32)%nat then Some digest else None.

Definition verify (now : nat -> option Z) (attestation : bytes) : outcome UserError VerifyAttestationResponse :=
  parsed ← map_err AttestationVerification (decode_attestation attestation);
  _ ← map_err AttestationVerification (verify_with_timestamp now attestation (pcrs parsed) (timestamp parsed));
  p0 ← unwrap (pcrs parsed !! 0%nat);
  p1 ← unwrap (pcrs parsed !! 1%nat);
  p2 ← unwrap (pcrs parsed !! 2%nat);
  let digest := compute_digest (public_key parsed) p0 p1 p2 (timestamp parsed) in
  response_msg ← ok_or MessageGeneration (from_digest_slice digest);
  let '(recid, sig) := sign_ecdsa_recoverable response_msg in
  recid ← ok_or InvalidRecovery (if in_width 8 recid then Some recid else None);
  Ok (mkVerifyAttestationResponse (hex_encode sig +:+ hex_encode [wrap 8 (recid + 27)])
        (hex_encode (public_key parsed)) (hex_encode p0) (hex_encode p1) (hex_encode p2) (timestamp parsed)
        (hex_encode verifier_public)).

Definition verify_raw (now : nat -> option Z) (req : bytes) : outcome UserError VerifyAttestationResponse := verify now req.

Definition verify_hex (now : nat -> option Z) (req : bytes) : outcome UserError VerifyAttestationResponse :=
  attestation ← ok_or AttestationDecode (hex_decode req); verify now attestation.

End verifier.
