(* ===== verification/VerifierProps.v ===== *)
(** * Attestation documents: theorems of the verifier service

    The service signs the fields of exactly the genuine documents, under the
    digest that the AttestationVerifier contract computes; and the theorems
    about documents on a concrete one. *)

From S2P Require Import Prelude Attestation AttestationProps Verifier.

(** ** Errors instead of panics *)

Section no_panic.
Context `{O : Openssl}.

Definition no_panic {E A} (m : outcome E A) : Prop := m <> Panic.

Lemma no_panic_bind {E A B} (m : outcome E A) (f : A -> outcome E B) :
  no_panic m -> (forall a, no_panic (f a)) -> no_panic (m ≫= f).
Proof. intros Hm Hf. destruct m; [apply Hf | done | done]. Qed.
Lemma no_panic_ok_or {E A} (e : E) (o : option A) : no_panic (ok_or e o).
Proof. by destruct o. Qed.
Lemma no_panic_map_err {E F A} (f : E -> F) (m : outcome E A) : no_panic m -> no_panic (map_err f m).
Proof. by destruct m. Qed.

Ltac no_panic :=
  repeat match goal with
  | |- no_panic (_ ≫= _) => apply no_panic_bind; [| intros ?]
  | |- no_panic (ok_or _ _) => apply no_panic_ok_or
  | |- no_panic (Ok _) => done
  | |- no_panic (Err _) => done
  | |- no_panic (match ?x with _ => _ end) => destruct x
  end.

Lemma no_panic_certs l : no_panic (get_certs l).
Proof. induction l as [| v l IH]; cbn [get_certs]; no_panic; exact IH. Qed.
Lemma no_panic_links now i certs : no_panic (check_links now i certs).
Proof.
  revert i. induction certs as [| cert [| issuer rest] IH]; intros i; [done | done |].
  apply (no_panic_bind (check_link (now i) cert issuer)); [unfold check_link; no_panic | intros _; apply IH].
Qed.
Lemma no_panic_pcrs indices m : no_panic (take_pcrs indices m).
Proof. revert m. induction indices as [| i indices IH]; intros m; cbn [take_pcrs]; no_panic; apply IH. Qed.
Lemma no_panic_compare l k : no_panic (compare_pcrs l k).
Proof. revert k. induction l as [| d l IH]; intros [| e k]; cbn [compare_pcrs]; no_panic. apply IH. Qed.

Lemma no_panic_decode document : no_panic (decode_attestation document).
Proof.
  unfold decode_attestation, parse_attestation_doc, parse_pcrs, parse_timestamp, parse_enclave_key.
  no_panic. apply no_panic_pcrs.
Qed.

Lemma no_panic_verify now document expected ts : no_panic (verify_with_timestamp now document expected ts).
Proof.
  unfold verify_with_timestamp, verify_and_decode_attestation, parse_attestation_doc, parse_pcrs,
    verify_signature_and_cert_chain, verify_cert_chain, get_all_certs, parse_timestamp, parse_enclave_key.
  no_panic; first [apply no_panic_pcrs | apply no_panic_certs | apply no_panic_links | apply no_panic_compare].
Qed.

End no_panic.

(** ** The signed digest *)

Section verifier.
Context `{O : Openssl} `{V : VerifierCrypto}.

(** The EIP-712 digest of Attestation(bytes enclavePubKey, bytes PCR0, bytes
    PCR1, bytes PCR2, uint256 timestampInMilliseconds) that the contract
    checks the signature against. *)
Definition attestation_digest (pk p0 p1 p2 : bytes) (ts : Z) : bytes :=
  keccak256 ([0x19; 0x01] ++ DOMAIN_SEPARATOR ++
    keccak256 (ATTESTATION_TYPEHASH ++ keccak256 pk ++ keccak256 p0 ++ keccak256 p1 ++ keccak256 p2 ++ be_bytes 32 ts)).

Lemma digest_is_abi pk p0 p1 p2 ts : (forall b, length (keccak256 b) = 32%nat) ->
  compute_digest pk p0 p1 p2 ts = attestation_digest pk p0 p1 p2 ts.
Proof.
  intros Hk. unfold compute_digest, attestation_digest. do 3 f_equal.
  set (head := ATTESTATION_TYPEHASH ++ keccak256 pk ++ keccak256 p0 ++ keccak256 p1 ++ keccak256 p2).
  assert (length head = 160%nat) as Hhead.
  { unfold head, ATTESTATION_TYPEHASH. by rewrite !length_app, !Hk, length_be_bytes. }
  assert (resize (32 * 6) 0 head = head ++ replicate 32 0) as ->.
  { unfold resize. rewrite Hhead, take_ge by lia. done. }
  unfold write_at. rewrite length_be_bytes. change (32 * 5)%nat with 160%nat.
  rewrite take_app_length' by done. rewrite drop_ge by (rewrite length_app, length_replicate; lia).
  rewrite app_nil_r. unfold head. by rewrite <- !(assoc_L (++)).
Qed.

(** The answer for the fields of a document. *)
Definition signed_response (p0 p1 p2 : bytes) (ts : Z) (pk : bytes) : VerifyAttestationResponse :=
  let '(recid, sig) := sign_ecdsa_recoverable (attestation_digest pk p0 p1 p2 ts) in
  mkVerifyAttestationResponse (hex_encode sig +:+ hex_encode [27 + recid]) (hex_encode pk)
    (hex_encode p0) (hex_encode p1) (hex_encode p2) ts (hex_encode verifier_public).

Lemma verify_genuine now document p0 p1 p2 ts pk :
  (forall b, length (keccak256 b) = 32%nat) -> (forall m, 0 <= (sign_ecdsa_recoverable m).1 <= 3) ->
  genuine now document (mkAttestationDecoded [p0; p1; p2] ts pk) ->
  Verifier.verify now document = Ok (signed_response p0 p1 p2 ts pk).
Proof.
  intros Hk Hrecid Hg. pose proof (genuine_decodes _ _ _ Hg) as Hdec. unfold Verifier.verify. rewrite Hdec. cbn.
  apply (verify_own_fields now _ _ Hdec) in Hg as [pk' Hver]. cbn in Hver. rewrite Hver. cbn.
  rewrite digest_is_abi by done. unfold from_digest_slice.
  assert (length (attestation_digest pk p0 p1 p2 ts) = 32%nat) as -> by apply Hk. cbn.
  specialize (Hrecid (attestation_digest pk p0 p1 p2 ts)). unfold signed_response.
  destruct (sign_ecdsa_recoverable _) as [recid sig]. cbn in Hrecid |- *. unfold in_width, wrap.
  assert ((0 <=? recid) && (recid <? 2 ^ 8) = true) as -> by lia. cbn.
  rewrite Z.mod_small by lia. by rewrite (Z.add_comm recid).
Qed.

Lemma not_genuine_refused now document : (forall d, ~ genuine now document d) ->
  exists e, Verifier.verify now document = Err (AttestationVerification e).
Proof.
  intros Hnot. unfold Verifier.verify. pose proof (no_panic_decode document) as Hdec.
  destruct (decode_attestation document) as [d | e |] eqn:Hd; [| by exists e | done]. cbn.
  pose proof (no_panic_verify now document (pcrs d) (timestamp d)) as Hver.
  destruct (verify_with_timestamp _ _ _ _) as [pk | e |] eqn:Hv; [| by exists e | done].
  destruct (Hnot d). apply (verify_own_fields now _ _ Hd). by exists pk.
Qed.

(** C27: the service answers a document exactly when it is genuine, and then
    with its fields and the signature, recovery id plus 27 last, of the
    digest the contract computes from them; every other document is an
    attestation error (401), never a panic. *)
Theorem verifier_signs_genuine now document r :
  (forall b, length (keccak256 b) = 32%nat) -> (forall m, 0 <= (sign_ecdsa_recoverable m).1 <= 3) ->
  (Verifier.verify now document = Ok r <->
     exists p0 p1 p2 ts pk, genuine now document (mkAttestationDecoded [p0; p1; p2] ts pk) /\
       r = signed_response p0 p1 p2 ts pk) /\
  ((forall d, ~ genuine now document d) -> exists e, Verifier.verify now document = Err (AttestationVerification e)).
Proof.
  intros Hk Hrecid. split; [split |].
  - intros Hr. assert (exists d, genuine now document d) as [ [ps ts pk] Hg].
    { unfold Verifier.verify in Hr. destruct (decode_attestation document) as [d | |] eqn:Hd; [| discriminate ..].
      exists d. apply (verify_own_fields now _ _ Hd). cbn in Hr. destruct (verify_with_timestamp _ _ _ _); [eauto | discriminate ..]. }
    pose proof (genuine_pcrs _ _ _ Hg) as Hlen. cbn in Hlen. destruct ps as [| p0 [| p1 [| p2 [|] ] ] ]; try discriminate.
    exists p0, p1, p2, ts, pk. split; [done |]. rewrite (verify_genuine now _ p0 p1 p2 ts pk) in Hr by done. congruence.
  - intros (p0 & p1 & p2 & ts & pk & Hg & ->). by apply verify_genuine.
  - apply not_genuine_refused.
Qed.

End verifier.

(** ** The theorems on a concrete document *)

Module ToyAttestation.

(** Certificates are numbers, each issued by the next, up to the root 3; the
    document carries leaf 1 and the bundle of 3 and 2. *)
#[export] Instance toy_openssl : Openssl := {|
  CoseSign1 := unit;
  cose_from_bytes := fun _ => Some tt;
  get_payload := fun _ => Some [];
  cbor_from_slice := fun _ => Some (VMap
    [(VText "certificate", VBytes [1]); (VText "cabundle", VArray [VBytes [3]; VBytes [2]]);
     (VText "pcrs", VMap [(VInteger 0, VBytes (replicate 48 10)); (VInteger 1, VBytes (replicate 48 11));
                          (VInteger 2, VBytes (replicate 48 12)); (VInteger 4, VOther)]);
     (VText "public_key", VBytes [7; 8]); (VText "timestamp", VInteger 900)]);
  X509 := Z;
  PKey := Z;
  x509_from_der := head;
  x509_from_pem := head;
  x509_eqb := Z.eqb;
  public_key_of := Some;
  x509_verify := fun cert key => Some (key =? cert + 1);
  issued := fun issuer cert => issuer =? cert + 1;
  x509_not_before := fun _ => 0;
  x509_not_after := fun _ => 100;
  verify_signature := fun _ key => Some (key =? 1);
  aws_cert := [3]
|}.

#[export] Instance toy_crypto : VerifierCrypto := {|
  keccak256 := fun b => take 32 (b ++ replicate 32 0);
  sign_ecdsa_recoverable := fun _ => (1, [5]);
  hex_encode := fun b => if list_eqb b [28] then "1c" else "00";
  hex_decode := Some;
  verifier_public := []
|}.

Definition toy_pcrs : list bytes := [replicate 48 10; replicate 48 11; replicate 48 12].

Lemma verify_accepts_iff_witness :
  exists ts, genuine (fun _ => Some 50) [0] (mkAttestationDecoded toy_pcrs ts [7; 8]) /\ 1000 - ts <= 300.
Proof.
  apply (verify_accepts_iff (fun _ => Some 50) 1000 [0] toy_pcrs 300 [7; 8]); [done | lia | lia |]. by vm_compute.
Defined.

Lemma verifier_signs_genuine_witness :
  exists p0 p1 p2 ts pk, genuine (fun _ => Some 50) [0] (mkAttestationDecoded [p0; p1; p2] ts pk) /\
    mkVerifyAttestationResponse "001c" "00" "00" "00" "00" 900 "00" = signed_response p0 p1 p2 ts pk.
Proof.
  apply (verifier_signs_genuine (fun _ => Some 50) [0] (mkVerifyAttestationResponse "001c" "00" "00" "00" "00" 900 "00"));
    [| done | by vm_compute].
  intros b. change (length (take 32 (b ++ replicate 32 0)) = 32%nat). rewrite length_take, length_app, length_replicate. lia.
Defined.

End ToyAttestation.
