(* ===== verification/Keys.v ===== *)
(** * Keys: their generation, and the programs that load them

    initialization/keygen (secp256k1.rs, ed25519.rs) writes the two files of a
    key pair; attestation/verifier/src/main.rs loads both files of a secp256k1
    pair, serverless/executor/src/main.rs the secret one, and
    attestation/server/src/main.rs any public one.  The programs share a file
    system, a map from paths to contents in which some paths cannot be
    created; the curves are the classes [Secp256k1] and [Sodium]. *)

From S2P Require Import Prelude Io ExecState ExecNode.

(** ** Files *)

Abbreviation Files := (gmap string bytes).

Class FileSystem := { creatable : string -> bool }.

Section files.
Context `{F : FileSystem}.

(** [File::create(path)?] and [write_all(data)?]: the file is truncated. *)
Definition write_file (path : string) (data : bytes) : io Files string unit := fun fs =>
  if creatable path then (<[path := data]> fs, Some (Ok tt)) else (fs, Some (Err "could not create file"%string)).

(** [fs::read(path)] *)
Definition read_file (context path : string) : io Files string bytes := fun fs =>
  (fs, Some (ok_or context (fs !! path))).

End files.

(** ** The curves *)

(** Of the secp256k1 and k256 crates. *)
Class Secp256k1 := {
  (* SecretKey::from_slice, SigningKey::from_slice: 32 bytes in the range of the scalars *)
  valid_secret : bytes -> bool;
  (* PublicKey::serialize_uncompressed of the public key of a secret one *)
  serialize_uncompressed : bytes -> bytes;
  (* the last 20 bytes of the hash of a public key *)
  address_of_public : bytes -> Z
}.

(** Of libsodium: [sodium_init() >= 0], and [crypto_sign_keypair]. *)
Class Sodium := { sodium_init : bool; crypto_sign_keypair : option (bytes * bytes) }.

(** ** keygen *)

Record KeyPaths := mkPaths { secret : string; public : string }.

Section keys.
Context `{F : FileSystem} `{K : Secp256k1} `{N : Sodium}.

(** secp256k1.rs, with the secret key that [generate_keypair] draws. *)
Definition generate_secp256k1 (drawn : bytes) (cli : KeyPaths) : io Files string unit :=
  _ ← write_file (secret cli) drawn;
  write_file (public cli) (drop 1 (serialize_uncompressed drawn)).

(** ed25519.rs *)
Definition generate_ed25519 (cli : KeyPaths) : io Files string unit :=
  if negb sodium_init then fail "failed to init libsodium"%string else
  match crypto_sign_keypair with
  | None => fail "failed to generate keypair"%string
  | Some (sec, pub) =>
      _ ← write_file (secret cli) sec;
      write_file (public cli) pub
  end.

(** ** The verifier service *)

Record VerifierState := mkVerifierState { vs_secret : bytes; vs_public : bytes }.

(** [main] of the verifier, up to the start of its server. *)
Definition load_verifier (cli : KeyPaths) : io Files string VerifierState :=
  s ← read_file ("Failed to read secp256k1_secret from " +:+ secret cli) (secret cli);
  s ← lift (ok_or "unable to decode secp256k1_secret key from slice"%string (if valid_secret s then Some s else None));
  p ← read_file ("Failed to read secp256k1_public from " +:+ public cli) (public cli);
  p ← lift (ok_or "invalid public key length"%string (if Nat.eqb (length p) 64 then Some p else None));
  mret (mkVerifierState s p).

(** ** The attestation server *)

(** [std::fs::read(cli.pub_key)?]: whatever the file holds. *)
Definition load_public (path : string) : io Files string bytes := read_file "No such file or directory (os error 2)" path.

(** ** The executor *)

(** The part of its configuration that [main] reads first, and the entries of
    the cgroup directory. *)
Record Signer := mkSigner { signer_key : bytes; enclave_address : Z }.

Definition load_executor (enclave_signer_file : string) (entries : list (option string)) :
    io Files string (AppState * Signer) :=
  match initial_state entries with
  | None => fail "No cgroups found, make sure you have generated cgroups on your system using the instructions in the readme"%string
  | Some state =>
      s ← read_file "Failed to read the enclave signer key" enclave_signer_file;
      s ← lift (ok_or "Invalid enclave signer key"%string (if valid_secret s then Some s else None));
      mret (state, mkSigner s (address_of_public (drop 1 (serialize_uncompressed s))))
  end.

End keys.
