(* ===== verification/KeysProps.v ===== *)
(** * Keys: generated keys are the keys the programs run with, and the digests
    they sign

    A pair that keygen has written is loaded by the verifier and the executor,
    which then act for the same public key; a pair of the wrong curve, or one
    whose files overwrite each other, is refused.  The constants of the
    verifier's digest are the hashes of the types and names they stand for. *)

From S2P Require Import Prelude Text Io Keccak ExecState ExecNode Attestation AttestationProps Verifier VerifierProps Keys.

(** ** What is relied on of the curves *)

Class Secp256k1Laws {K : Secp256k1} : Prop := {
  valid_secret_length s : valid_secret s = true -> length s = 32%nat;
  uncompressed_length s : valid_secret s = true -> length (serialize_uncompressed s) = 65%nat
}.

Section keys.
Context `{F : FileSystem} {K : Secp256k1} {KL : Secp256k1Laws} `{N : Sodium}.

Lemma write_file_Ok path d fs fs' :
  write_file path d fs = (fs', Some (Ok tt)) -> fs' = <[path := d]> fs.
Proof. unfold write_file. destruct (creatable path); intros [=]; done. Qed.

Lemma write_pair p1 d1 p2 d2 fs fs' :
  (_ ← write_file p1 d1; write_file p2 d2) fs = (fs', Some (Ok tt)) ->
  fs' !! p2 = Some d2 /\ (p1 <> p2 -> fs' !! p1 = Some d1) /\
  forall p, p <> p1 -> p <> p2 -> fs' !! p = fs !! p.
Proof.
  intros (fs1 & [] & ->%write_file_Ok & ->%write_file_Ok)%io_bind_inv. split_and!.
  - by rewrite lookup_insert_eq.
  - intros Hne. by rewrite lookup_insert_ne, lookup_insert_eq.
  - intros p H1 H2. by rewrite !lookup_insert_ne.
Qed.

Lemma read_file_some ctx path fs d : fs !! path = Some d -> read_file ctx path fs = (fs, Some (Ok d)).
Proof. unfold read_file. by intros ->. Qed.

Lemma invalid_length s : length s <> 32%nat -> valid_secret s = false.
Proof using KL. intros Hl. destruct (valid_secret s) eqn:Hv; [| done]. by apply valid_secret_length in Hv. Qed.

Lemma load_verifier_refuses cli fs s : fs !! secret cli = Some s -> length s <> 32%nat ->
  load_verifier cli fs = (fs, Some (Err "unable to decode secp256k1_secret key from slice"%string)).
Proof using KL.
  intros Hs Hl. unfold load_verifier. rewrite (io_bind_Ok _ _ _ _ _ (read_file_some _ _ _ _ Hs)).
  by rewrite invalid_length.
Qed.

(** The keys of keygen are those the programs run with.  A secp256k1 pair
    that has been written to two files starts the verifier service with the
    drawn secret and its public key, and the executor with the same secret and
    the address of that public key; written over one file, it is refused.  An
    ed25519 pair is refused by the verifier, and the attestation server reads
    its public key back.  No other file changes. *)
Theorem generated_keys_are_loaded (drawn sec pub : bytes) (cli : KeyPaths) (fs fs' : Files)
  (Hdrawn : valid_secret drawn = true)
  (Hsodium : crypto_sign_keypair = Some (sec, pub) -> length sec = 64%nat /\ length pub = 32%nat) :
  (generate_secp256k1 drawn cli fs = (fs', Some (Ok tt)) ->
     let key := drop 1 (serialize_uncompressed drawn) in
     (secret cli <> public cli ->
        load_verifier cli fs' = (fs', Some (Ok (mkVerifierState drawn key))) /\
        forall entries state, initial_state entries = Some state ->
          load_executor (secret cli) entries fs' =
            (fs', Some (Ok (state, mkSigner drawn (address_of_public key))))) /\
     (secret cli = public cli -> exists e, load_verifier cli fs' = (fs', Some (Err e))) /\
     forall p, p <> secret cli -> p <> public cli -> fs' !! p = fs !! p) /\
  (crypto_sign_keypair = Some (sec, pub) -> generate_ed25519 cli fs = (fs', Some (Ok tt)) ->
     load_public (public cli) fs' = (fs', Some (Ok pub)) /\
     (secret cli <> public cli -> exists e, load_verifier cli fs' = (fs', Some (Err e))) /\
     forall p, p <> secret cli -> p <> public cli -> fs' !! p = fs !! p).
Proof using KL.
  split.
  - intros (Hp & Hs & Hother)%write_pair. split_and!; [| | exact Hother].
    + intros Hne. specialize (Hs Hne). split.
      * unfold load_verifier. rewrite (io_bind_Ok _ _ _ _ _ (read_file_some _ _ _ _ Hs)). rewrite Hdrawn.
        cbn [ok_or]. rewrite (io_bind_Ok _ _ _ fs' drawn) by done.
        rewrite (io_bind_Ok _ _ _ _ _ (read_file_some _ _ _ _ Hp)).
        assert (Hl : length (drop 1 (serialize_uncompressed drawn)) = 64%nat).
        { rewrite length_drop. by rewrite uncompressed_length. }
        by rewrite Hl.
      * intros entries state Hst. unfold load_executor. rewrite Hst.
        rewrite (io_bind_Ok _ _ _ _ _ (read_file_some _ _ _ _ Hs)). by rewrite Hdrawn.
    + intros He. eexists. eapply load_verifier_refuses; [by rewrite He |].
      rewrite length_drop. by rewrite uncompressed_length.
  - intros Hk Hg. unfold generate_ed25519 in Hg. destruct (negb sodium_init); [discriminate Hg |].
    rewrite Hk in Hg. apply write_pair in Hg as (Hp & Hs & Hother). split_and!; [| | exact Hother].
    + by apply read_file_some.
    + intros Hne. eexists. eapply load_verifier_refuses; [by apply Hs |].
      destruct (Hsodium Hk) as [-> _]. done.
Qed.

End keys.

(** ** The digest of the verifier *)

Lemma length_keccak_f a : length a = 25%nat -> length (keccak_f a) = 25%nat.
Proof.
  unfold keccak_f. revert a. induction round_constants as [| rc l IH]; intros a Ha; [done |].
  cbn [foldl]. apply IH. unfold chi. cbn. done.
Qed.

Lemma length_chunks size n l : length (chunks size n l) = n.
Proof. revert l. induction n as [| n IH]; intros l; cbn; [done |]. by rewrite IH. Qed.

Lemma length_absorb a block : length a = 25%nat -> length (absorb a block) = 25%nat.
Proof.
  intros Ha. unfold absorb. apply length_keccak_f.
  by rewrite length_zip_with, Ha, length_app, length_map, length_chunks.
Qed.

Lemma length_lane_bytes n z : length (le_bytes n z) = n.
Proof. revert z. induction n as [| n IH]; intros z; cbn; [done |]. by rewrite IH. Qed.

Lemma length_keccak b : length (keccak b) = 32%nat.
Proof.
  unfold keccak. set (state := foldl _ _ _).
  assert (Hs : length state = 25%nat).
  { unfold state. generalize (chunks 136 (length (pad b) / 136) (pad b)) as l.
    assert (H0 : length (repeat 0 25) = 25%nat) by done. revert H0. generalize (repeat 0 25) as a.
    intros a H0 l. revert a H0. induction l as [| x l IH]; intros a H0; cbn [foldl]; [done |].
    by apply IH, length_absorb. }
  rewrite length_take, (flat_map_constant_length (c := 8%nat)) by (intros; apply length_lane_bytes). lia.
Qed.

(** ** The digest of the verifier *)

(** The structures of EIP-712: the hash of a type, then a word per member, a
    dynamic member being its hash. *)
Definition type_hash (type : string) : bytes := keccak (bytes_of_string type).

Definition hash_struct (type : string) (members : list bytes) : bytes := keccak (type_hash type ++ mjoin members).

Definition eip712_digest (domain message : bytes) : bytes := keccak ([0x19; 0x01] ++ domain ++ message).

(** The domain and the message of the comments of handler.rs. *)
Definition attestation_domain : bytes :=
  hash_struct "EIP712Domain(string name,string version)"
    [type_hash "marlin.oyster.AttestationVerifier"; type_hash "1"].

Definition attestation_message (enclave_pubkey pcr0 pcr1 pcr2 : bytes) (timestamp : Z) : bytes :=
  hash_struct "Attestation(bytes enclavePubKey,bytes PCR0,bytes PCR1,bytes PCR2,uint256 timestampInMilliseconds)"
    [keccak enclave_pubkey; keccak pcr0; keccak pcr1; keccak pcr2; be_bytes 32 timestamp].

Lemma domain_separator_hash : DOMAIN_SEPARATOR = attestation_domain.
Proof. vm_compute. reflexivity. Qed.

Lemma attestation_typehash_hash :
  ATTESTATION_TYPEHASH =
  type_hash "Attestation(bytes enclavePubKey,bytes PCR0,bytes PCR1,bytes PCR2,uint256 timestampInMilliseconds)".
Proof. vm_compute. reflexivity. Qed.

(** C40: With Keccak-256 for its hash, the digest that the verifier service
    signs is the EIP-712 digest of the message of type Attestation with the
    five fields, in the domain of name marlin.oyster.AttestationVerifier and
    version 1: the two constants are the hashes of the types and names that
    their comments give, and the buffer of six words is the encoding of the
    message, for fields of any length. *)
Theorem digest_is_eip712 `{V : VerifierCrypto} (enclave_pubkey pcr0 pcr1 pcr2 : bytes) (timestamp : Z)
  (Hkeccak : forall b, keccak256 b = keccak b) :
  compute_digest enclave_pubkey pcr0 pcr1 pcr2 timestamp =
  eip712_digest attestation_domain (attestation_message enclave_pubkey pcr0 pcr1 pcr2 timestamp).
Proof.
  rewrite digest_is_abi by (intros b; rewrite Hkeccak; apply length_keccak).
  unfold attestation_digest, eip712_digest, attestation_message, hash_struct.
  rewrite !Hkeccak, domain_separator_hash, attestation_typehash_hash. cbn [mjoin list_join]. by rewrite app_nil_r.
Qed.

(** ** The theorems on concrete keys *)

Module ToyKeys.

Definition drawn_key : bytes := repeat 5 32.
Definition sodium_secret : bytes := repeat 7 64.
Definition sodium_public : bytes := repeat 8 32.
Definition toy_paths : KeyPaths := mkPaths "id.sec" "id.pub".

#[export] Instance toy_files : FileSystem := {| creatable := fun _ => true |}.

#[export] Instance toy_curve : Secp256k1 := {|
  valid_secret := fun s => Nat.eqb (length s) 32;
  serialize_uncompressed := fun s => 4 :: take 64 (s ++ repeat 9 64);
  address_of_public := fun p => from_be (drop 12 (keccak p))
|}.

#[export] Instance toy_curve_laws : Secp256k1Laws.
Proof.
  split; cbn; intros s Hs%Nat.eqb_eq; [done |]. by rewrite length_take, length_app, Hs.
Qed.

#[export] Instance toy_sodium : Sodium :=
  {| sodium_init := true; crypto_sign_keypair := Some (sodium_secret, sodium_public) |}.

#[export] Instance keccak_crypto : VerifierCrypto := {|
  keccak256 := keccak;
  sign_ecdsa_recoverable := fun _ => (1, [5]);
  hex_encode := fun _ => EmptyString;
  hex_decode := Some;
  verifier_public := []
|}.

(** A pair of each kind, written over an old one. *)
Definition old_files : Files := <["id.sec" := [1; 2]]> ∅.

Lemma generated_keys_are_loaded_witness :
  let key := drop 1 (serialize_uncompressed drawn_key) in
  (generate_secp256k1 drawn_key toy_paths old_files).2 = Some (Ok tt) /\
  load_verifier toy_paths (generate_secp256k1 drawn_key toy_paths old_files).1 =
    ((generate_secp256k1 drawn_key toy_paths old_files).1, Some (Ok (mkVerifierState drawn_key key))) /\
  load_public "id.pub" (generate_ed25519 toy_paths old_files).1 =
    ((generate_ed25519 toy_paths old_files).1, Some (Ok sodium_public)).
Proof.
  assert (Hsodium : crypto_sign_keypair = Some (sodium_secret, sodium_public) ->
                    length sodium_secret = 64%nat /\ length sodium_public = 32%nat) by done.
  assert (Hdrawn : valid_secret drawn_key = true) by reflexivity.
  pose proof (fun fs' => generated_keys_are_loaded drawn_key _ _ toy_paths old_files fs' Hdrawn Hsodium) as H.
  split; [reflexivity |]. split.
  - destruct (proj1 (H _) eq_refl) as [H1 _]. by apply H1.
  - destruct (proj2 (H _) eq_refl eq_refl) as [H1 _]. exact H1.
Defined.

Lemma digest_is_eip712_witness :
  compute_digest (repeat 8 64) (repeat 1 48) (repeat 2 48) (repeat 3 48) 1700000000000 =
  eip712_digest attestation_domain
    (attestation_message (repeat 8 64) (repeat 1 48) (repeat 2 48) (repeat 3 48) 1700000000000).
Proof. by apply (digest_is_eip712 (repeat 8 64)). Defined.

End ToyKeys.
