(* ===== verification/Aws.v ===== *)
(** * Control plane: the AWS provider

    operator/control-plane/src/aws.rs but for what it runs on the instances
    (file AwsHost).  A computation is run in a history, the list of the
    requests made so far with the last one first; [answer] is the answer that
    the world outside gives to a request after a history, an error or a
    response of the request's type, and stands for EC2, the file system, the
    ssh connections and the clock.  An error is the chain of its contexts. *)

From S2P Require Import Prelude Io Market.

(** ** What the EC2 client sends and what it reads of the responses *)

Record Filter := mkFilter { filter_name : string; filter_value : string }.
Record Tag := mkTag { tag_key : string; tag_value : string }.

Record RunInstances := mkRunInstances {
  image_id : string;
  run_instance_type : string;
  run_key_name : string;
  min_count : Z;
  max_count : Z;
  enclave_enabled : bool;
  device_name : string;
  volume_size : Z;
  run_tags : list Tag;
  security_group_id : string;
  subnet_id : string
}.

Record Ec2Instance := mkEc2Instance {
  ec2_instance_id : option string;
  (* the state, and its name *)
  ec2_state : option (option string);
  ec2_public_ip : option string
}.

Record Ec2Address := mkEc2Address {
  allocation_id : option string;
  association_id : option string;
  public_ip : option string
}.

Record Ec2Image := mkEc2Image { image_name : option string; ec2_image_id : option string }.

Record InstanceTypeInfo := mkInstanceTypeInfo {
  supported_architectures : option (list string);
  default_v_cpus : option (option Z);
  size_in_mib : option (option Z)
}.

(** ** Requests and responses *)

(** The types of the ssh and key libraries. *)
Class AwsTypes := {
  TcpStream : Type;
  Session : Type;
  Channel : Type;
  PrivateKey : Type;
  PublicKey : Type;
  public_key : PrivateKey -> PublicKey
}.

Inductive Request `{AwsTypes} :=
(* EC2, by region *)
| describe_instances (region : string) (filters : list Filter)
| describe_addresses (region : string) (filters : list Filter)
| describe_images (region owner : string) (filters : list Filter)
| describe_security_groups (region : string) (filters : list Filter)
| describe_subnets (region : string) (filters : list Filter)
| describe_key_pairs (region : string) (filters : list Filter)
| describe_instance_types (region instance_type : string)
| run_instances (region : string) (r : RunInstances)
| terminate_instances (region id : string)
| allocate_address (region : string) (tags : list Tag)
| associate_address_to (region alloc_id id : string)
| disassociate_address_of (region association_id : string)
| release_address_of (region alloc_id : string)
| import_key_pair_as (region key_name : string) (material : bytes)
(* the file system *)
| path_exists (path : string)
| open_file (path : string)
| read_to_end (path : string)
| read_openssh_file (path : string)
| write_private_key (path : string) (key : PrivateKey)
| write_public_key (path : string) (key : PublicKey)
| random_key
(* connections *)
| tcp_connect (address : string)
| session_new
| session_handshake (sess : Session) (tcp : TcpStream)
| userauth_pubkey_file (sess : Session) (user key_path : string)
| channel_session (sess : Session)
| channel_exec (channel : Channel) (command : string)
| read_stdout (channel : Channel)
| read_stderr (channel : Channel)
| wait_close (channel : Channel)
(* the clock *)
| sleep_secs (n : Z).

Definition Resp `{AwsTypes} (r : Request) : Type :=
  match r with
  (* reservations, and their instances *)
  | describe_instances _ _ => list (list Ec2Instance)
  | describe_addresses _ _ => list Ec2Address
  | describe_images _ _ _ => list Ec2Image
  | describe_security_groups _ _ | describe_subnets _ _ => list (option string)
  | describe_key_pairs _ _ => list unit
  | describe_instance_types _ _ => list InstanceTypeInfo
  | run_instances _ _ => list Ec2Instance
  | allocate_address _ _ => Ec2Address
  | path_exists _ => bool
  | read_to_end _ => bytes
  | read_openssh_file _ | random_key => PrivateKey
  | tcp_connect _ => TcpStream
  | session_new => Session
  | channel_session _ => Channel
  | read_stdout _ | read_stderr _ => string
  | _ => unit
  end.

Class AwsApi := {
  #[global] aws_types :: AwsTypes;
  answer : list Request -> forall r : Request, string + Resp r
}.

(** The provider: its clients by region, and the lists of images. *)
Record Aws := mkAws {
  clients : list string;
  key_name : string;
  key_location : string;
  pub_key_location : string;
  whitelist : option (list string);
  blacklist : option (list string)
}.

Section aws.
Context `{A : AwsApi}.

Abbreviation history := (list Request).
Abbreviation aws := (io history (list string)).

Definition call (r : Request) : aws (Resp r) := fun h =>
  (r :: h, Some match answer h r with inl e => Err [e] | inr x => Ok x end).

(** [Path::exists] is false when the path cannot be read; a sleep cannot fail. *)
Definition path_is_there (path : string) : aws bool := fun h =>
  (path_exists path :: h, Some (Ok match answer h (path_exists path) with inl _ => false | inr b => b end)).
Definition pause (n : Z) : aws unit := fun h => (sleep_secs n :: h, Some (Ok tt)).

(** [.context(c)], and [.ok_or(anyhow!(e))] *)
Definition with_context {B} (c : string) (m : aws B) : aws B := fun h =>
  let '(h, r) := m h in (h, map_err (cons c) <$> r).
Definition or_error {B} (e : string) (o : option B) : aws B := lift (ok_or [e] o).
Definition bail {B} (e : string) : aws B := fail [e].

(** [Aws::new]; the EC2 clients are told apart by their region. *)
Definition new_aws (username : string) (regions : list string) (key_name : string)
    (whitelist blacklist : option (list string)) : Aws :=
  let key_location := "/home/" +:+ username +:+ "/.ssh/" +:+ key_name +:+ ".pem" in
  let pub_key_location := "/home/" +:+ username +:+ "/.ssh/" +:+ key_name +:+ ".pub" in
  mkAws regions key_name key_location pub_key_location whitelist blacklist.

Section provider.
Variable self : Aws.

(** Indexing the map of clients panics when the region has none. *)
Definition client (region : string) : aws unit :=
  if bool_decide (region ∈ clients self) then mret tt else panic.

(** ** Keys *)

Definition generate_key_pair : aws unit :=
  priv_check ← path_is_there (key_location self);
  pub_check ← path_is_there (pub_key_location self);
  if priv_check && pub_check then mret tt
  else if priv_check then
    private_key ← with_context "Failed to read private key file" (call (read_openssh_file (key_location self)));
    _ ← with_context "Failed to write public key file"
          (call (write_public_key (pub_key_location self) (public_key private_key)));
    mret tt
  else if pub_check then
    bail "Found public key file without corresponding private key file, exiting to prevent overwriting it"
  else
    private_key ← with_context "Failed to generate private key" (call random_key);
    _ ← with_context "Failed to write private key file" (call (write_private_key (key_location self) private_key));
    _ ← with_context "Failed to write public key file"
          (call (write_public_key (pub_key_location self) (public_key private_key)));
    mret tt.

Definition import_key_pair (region : string) : aws unit :=
  _ ← with_context "Failed to open pub key file" (call (open_file (pub_key_location self)));
  buffer ← with_context "Failed to read pub key file" (call (read_to_end (pub_key_location self)));
  _ ← client region;
  _ ← with_context "Failed to import key pair" (call (import_key_pair_as region (key_name self) buffer));
  mret tt.

Definition check_key_pair (region : string) : aws bool :=
  _ ← client region;
  key_pairs ← with_context "failed to query key pairs"
                (call (describe_key_pairs region [mkFilter "key-name" (key_name self)]));
  mret (negb (bool_decide (key_pairs = []))).

Definition key_setup (region : string) : aws unit :=
  key_check ← with_context "failed to check key pair" (check_key_pair region);
  if negb key_check then
    with_context ("Failed to import key pair in " +:+ region) (import_key_pair region)
  else mret tt.

(** ** Instances *)

(** The first instance of the first reservation, as [get_instance_ip] and
    [get_instance_state] take it. *)
Definition described_instance (region instance_id : string) : aws Ec2Instance :=
  _ ← client region;
  reservations ← with_context "could not describe instances"
                   (call (describe_instances region [mkFilter "instance-id" instance_id]));
  instances ← or_error "no reservation found" (head (reservations : list (list Ec2Instance)));
  or_error "no instances with the given id" (head instances).

Definition get_instance_ip (instance_id region : string) : aws string :=
  i ← described_instance region instance_id;
  or_error "could not parse ip address" (ec2_public_ip i).

Definition get_instance_state (instance_id region : string) : aws string :=
  i ← described_instance region instance_id;
  state ← or_error "could not parse instance state" (ec2_state i);
  or_error "could not parse instance state name" state.

(** [max_by_key(|x| &x.name)]: the last of the images with the largest name. *)
Definition name_le (a b : option string) : bool :=
  match a, b with
  | None, _ => true
  | Some _, None => false
  | Some a, Some b => String.leb a b
  end.
Definition max_by_name (images : list Ec2Image) : option Ec2Image :=
  foldl (fun best x =>
    match best with
    | Some y => if name_le (image_name y) (image_name x) then Some x else Some y
    | None => Some x
    end) None images.

Definition worker_filter (family architecture : string) : Filter :=
  mkFilter "name" ("marlin/oyster/worker-" +:+ family +:+ "-" +:+ architecture +:+ "-????????").

Definition get_community_amis (region family architecture : string) : aws string :=
  _ ← client region;
  images ← with_context "could not describe images"
             (call (describe_images region "753722448458" [worker_filter family architecture]));
  image ← or_error "no images found" (max_by_name images);
  or_error "could not parse image id" (ec2_image_id image).

Definition get_amis (region family architecture : string) : aws string :=
  _ ← client region;
  own_ami ← with_context "could not describe images"
              (call (describe_images region "self"
                      [mkFilter "tag:project" "oyster"; worker_filter family architecture]));
  match max_by_name own_ami with
  | Some own_ami => or_error "could not parse image id" (ec2_image_id own_ami)
  | None => with_context "could not get community ami" (get_community_amis region family architecture)
  end.

Definition get_security_group (region : string) : aws string :=
  _ ← client region;
  groups ← with_context "could not describe security groups"
             (call (describe_security_groups region [mkFilter "tag:project" "oyster"]));
  group ← or_error "no security group found" (head (groups : list (option string)));
  or_error "could not parse group id" group.

Definition get_subnet (region : string) : aws string :=
  _ ← client region;
  subnets ← with_context "could not describe subnets"
              (call (describe_subnets region [mkFilter "tag:project" "oyster"]));
  subnet ← or_error "no subnet found" (head (subnets : list (option string)));
  or_error "Could not parse subnet id" subnet.

(** The tags and the filters by which what belongs to a job is found. *)
Definition instance_tags (job : JobId) : list Tag :=
  [mkTag "Name" "JobRunner"; mkTag "managedBy" "marlin"; mkTag "project" "oyster"; mkTag "jobId" (jid job);
   mkTag "operator" (operator job); mkTag "contractAddress" (contract job); mkTag "chainID" (chain job)].
Definition address_tags (job : JobId) : list Tag :=
  [mkTag "managedBy" "marlin"; mkTag "project" "oyster"; mkTag "jobId" (jid job);
   mkTag "operator" (operator job); mkTag "contractAddress" (contract job); mkTag "chainID" (chain job)].
Definition job_filters (job : JobId) : list Filter :=
  [mkFilter "tag:jobId" (jid job); mkFilter "tag:operator" (operator job);
   mkFilter "tag:contractAddress" (contract job); mkFilter "tag:chainID" (chain job)].

Definition launch_instance (job : JobId) (instance_type family architecture region : string) : aws string :=
  instance_ami ← with_context "could not get amis" (get_amis region family architecture);
  subnet ← with_context "could not get subnet" (get_subnet region);
  sec_group ← with_context "could not get subnet" (get_security_group region);
  _ ← client region;
  instances ← with_context "could not run instance" (call (run_instances region
    {| image_id := instance_ami; run_instance_type := instance_type; run_key_name := key_name self;
       min_count := 1; max_count := 1; enclave_enabled := true;
       device_name := "/dev/sda1"; volume_size := 12;
       run_tags := instance_tags job; security_group_id := sec_group; subnet_id := subnet |}));
  instance ← or_error "no instance found" (head (instances : list Ec2Instance));
  or_error "could not parse group id" (ec2_instance_id instance).

Definition terminate_instance (instance_id region : string) : aws unit :=
  _ ← client region;
  _ ← with_context "could not terminate instance" (call (terminate_instances region instance_id));
  mret tt.

(** Whether the job has an instance, its id and its state. *)
Definition get_job_instance_id (job : JobId) (region : string) : aws (bool * string * string) :=
  _ ← client region;
  reservations ← with_context "could not describe instances"
                   (call (describe_instances region (job_filters job)));
  match (reservations : list (list Ec2Instance)) with
  | [] => mret (false, EmptyString, EmptyString)
  | instances :: _ =>
      instance ← or_error "instance not found" (head instances);
      id ← or_error "could not parse ip address" (ec2_instance_id instance);
      state ← or_error "could not parse instance state" (ec2_state instance);
      name ← or_error "could not parse instance state name" state;
      mret (true, id, name)
  end.

(** ** Addresses *)

Definition get_job_elastic_ip (job : JobId) (region : string) : aws (bool * string * string) :=
  _ ← client region;
  addresses ← with_context "could not describe elastic ips" (call (describe_addresses region (job_filters job)));
  match head (addresses : list Ec2Address) with
  | None => mret (false, EmptyString, EmptyString)
  | Some addrs =>
      alloc_id ← or_error "could not parse allocation id" (allocation_id addrs);
      ip ← or_error "could not parse public ip" (public_ip addrs);
      mret (true, alloc_id, ip)
  end.

Definition get_instance_elastic_ip (instance region : string) : aws (bool * string * string) :=
  _ ← client region;
  addresses ← with_context "could not describe elastic ips"
                (call (describe_addresses region [mkFilter "instance-id" instance]));
  match head (addresses : list Ec2Address) with
  | None => mret (false, EmptyString, EmptyString)
  | Some addrs =>
      alloc_id ← or_error "could not parse allocation id" (allocation_id addrs);
      assoc ← or_error "could not parse public ip" (association_id addrs);
      mret (true, alloc_id, assoc)
  end.

Definition allocate_ip_addr (job : JobId) (region : string) : aws (string * string) :=
  '(exists_, alloc_id, ip) ← with_context "could not get elastic ip for job" (get_job_elastic_ip job region);
  if exists_ : bool then mret (alloc_id, ip)
  else
    _ ← client region;
    resp ← with_context "could not allocate elastic ip" (call (allocate_address region (address_tags job)));
    alloc_id ← or_error "could not parse allocation id" (allocation_id resp);
    ip ← or_error "could not parse public ip" (public_ip resp);
    mret (alloc_id, ip).

Definition associate_address (instance_id alloc_id region : string) : aws unit :=
  _ ← client region;
  _ ← with_context "could not associate elastic ip" (call (associate_address_to region alloc_id instance_id));
  mret tt.

Definition disassociate_address (association_id region : string) : aws unit :=
  _ ← client region;
  _ ← with_context "could not disassociate elastic ip" (call (disassociate_address_of region association_id));
  mret tt.

Definition release_address (alloc_id region : string) : aws unit :=
  _ ← client region;
  _ ← with_context "could not release elastic ip" (call (release_address_of region alloc_id));
  mret tt.

(** ** Launching and terminating *)

(** The loop over the described types: architecture, cpus and memory. *)
Fixpoint instance_shape (types : list InstanceTypeInfo) (shape : string * Z * Z) : aws (string * Z * Z) :=
  match types with
  | [] => mret shape
  | instance :: types =>
      supported ← or_error "error fetching instance processor info" (supported_architectures instance);
      let architecture := match supported with
                          | arch :: _ => if String.eqb arch "x86_64" then "amd64"%string else "arm64"%string
                          | [] => shape.1.1
                          end in
      v_cpu_info ← or_error "error fetching instance v_cpu info" (default_v_cpus instance);
      v_cpus ← or_error "error fetching instance v_cpu info" v_cpu_info;
      memory_info ← or_error "error fetching instance memory info" (size_in_mib instance);
      mem ← or_error "error fetching instance v_cpu info" memory_info;
      instance_shape types (architecture, v_cpus, mem)
  end.

Definition post_spin_up (job : JobId) (instance region : string) : aws unit :=
  '(alloc_id, ip) ← with_context "error allocating ip address" (allocate_ip_addr job region);
  with_context "could not associate ip address" (associate_address instance alloc_id region).

Definition spin_down_instance (instance_id : string) (job : JobId) (region : string) : aws unit :=
  '(exists_, _, association_id) ← with_context "could not get elastic ip of instance"
                                  (get_instance_elastic_ip instance_id region);
  _ ← if exists_ : bool then with_context "could not disassociate address" (disassociate_address association_id region)
      else mret tt;
  '(exists_, alloc_id, _) ← with_context "could not get elastic ip of job" (get_job_elastic_ip job region);
  _ ← if exists_ : bool then with_context "could not release address" (release_address alloc_id region)
      else mret tt;
  with_context "could not terminate instance" (terminate_instance instance_id region).

(** [res]: the result of a computation as a value. *)
Definition result_of {B} (m : aws B) : aws (list string + B) := fun h =>
  match m h with
  | (h, Some (Ok x)) => (h, Some (Ok (inr x)))
  | (h, Some (Err e)) => (h, Some (Ok (inl e)))
  | (h, Some Panic) => (h, Some Panic)
  | (h, None) => (h, None)
  end.

(** Every string is an [InstanceType]. *)
Definition spin_up_instance (job : JobId) (instance_type family region : string) (req_mem req_vcpu : Z) : aws string :=
  _ ← client region;
  instance_types ← with_context "could not describe instance types"
                     (call (describe_instance_types region instance_type));
  '(architecture, v_cpus, mem) ← instance_shape instance_types ("amd64"%string, 4, 8192);
  if (mem <? req_mem) || (v_cpus <? req_vcpu) then bail "Required memory or vcpus are more than available"
  else
    instance ← with_context "could not launch instance" (launch_instance job instance_type family architecture region);
    _ ← pause 100;
    res ← result_of (post_spin_up job instance region);
    match res with
    | inl err =>
        _ ← with_context "could not spin down instance after error during post spin up"
              (spin_down_instance instance job region);
        with_context "error during post spin up" (fail err)
    | inr _ => mret instance
    end.

(** ** The address of a job *)

Definition get_job_ip (job : JobId) (region : string) : aws string :=
  '(exists_, id, _) ← with_context "could not get instance id for job instance ip"
                      (with_context "could not get instance id for job" (get_job_instance_id job region));
  if negb exists_ then bail ("Instance not found for job - " +:+ jid job)
  else
    instance_ip ← with_context "could not get instance ip" (get_instance_ip id region);
    '(found, _, elastic_ip) ← with_context "could not get job elastic ip" (get_job_elastic_ip job region);
    if (found : bool) && String.eqb instance_ip elastic_ip then mret instance_ip
    else bail "Instance is still initializing".

End provider.
End aws.
