(* ===== verification/AwsHost.v ===== *)
(** * Control plane: what the AWS provider runs on an instance

    The part of operator/control-plane/src/aws.rs that works over ssh: checking
    and starting an enclave image, updating it, and reading the state of the
    enclave; and the provider as an [InfraProvider], whose state is the
    history of its requests. *)

From stdpp Require Import pretty.
From S2P Require Import Prelude Text Io Market MarketInfra Aws.

(** ** The output of nitro-cli, by [serde_json] *)

Class EnclaveJson := {
  JsonObject : Type;
  (* a Vec<HashMap<String, Value>>, and data.get(key).and_then(Value::as_str) *)
  json_objects : string -> option (list JsonObject);
  object_str : JsonObject -> string -> option string
}.

Section host.
Context `{A : AwsApi}.

Abbreviation history := (list Request).
Abbreviation aws := (io history (list string)).

Variable self : Aws.

(** ** Connections *)

Definition ssh_connect (ip_address : string) : aws Session :=
  tcp ← call (tcp_connect ip_address);
  sess ← call session_new;
  _ ← call (session_handshake sess tcp);
  _ ← call (userauth_pubkey_file sess "ubuntu" (key_location self));
  mret sess.

(** The braces of the second context are not interpolated. *)
Definition ssh_exec (sess : Session) (command : string) : aws (string * string) :=
  channel ← with_context "Failed to get channel session" (call (channel_session sess));
  _ ← with_context "Failed to execute command: {command}" (call (channel_exec channel command));
  stdout ← with_context "Failed to read stdout" (call (read_stdout channel));
  stderr ← with_context "Failed to read stderr" (call (read_stderr channel));
  _ ← with_context "Failed to wait for close" (call (wait_close channel));
  mret (stdout, stderr).

(** [if !stderr.is_empty() { return Err(anyhow!("{e}: {stderr}")) }] *)
Definition silent (e stderr : string) : aws unit :=
  if is_empty stderr then mret tt else bail (e +:+ ": " +:+ stderr).

(** A command that must write nothing to stderr; [c] is its context. *)
Definition ssh_silent (sess : Session) (c e command : string) : aws string :=
  '(stdout, stderr) ← with_context c (ssh_exec sess command);
  _ ← silent e stderr;
  mret stdout.

(** The same without a context. *)
Definition ssh_bare (sess : Session) (e command : string) : aws unit :=
  '(_, stderr) ← ssh_exec sess command;
  silent e stderr.

(** A query that must also write something to stdout. *)
Definition ssh_query (sess : Session) (c e command : string) : aws string :=
  '(stdout, stderr) ← with_context c (ssh_exec sess command);
  if negb (is_empty stderr) || is_empty stdout then bail (e +:+ ": " +:+ stderr) else mret stdout.

Definition connect_instance (instance_id region : string) : aws Session :=
  public_ip_address ← with_context "could not fetch instance ip" (get_instance_ip self instance_id region);
  with_context "error establishing ssh connection" (ssh_connect (public_ip_address +:+ ":22")).

(** ** Images *)

Definition listed (line : string) (entries : list string) : bool := existsb (contains line) entries.

(** The lists' verdict on the hash of an image. *)
Definition allowed_hash (line : string) : bool :=
  (if whitelist self is Some l then listed line l else true) &&
  (if blacklist self is Some l then negb (listed line l) else true).

Definition has_lists : bool :=
  bool_decide (is_Some (whitelist self)) || bool_decide (is_Some (blacklist self)).

Definition hash_command : string := "sha256sum /home/ubuntu/enclave.eif".

Definition check_eif_blacklist_whitelist (sess : Session) : aws bool :=
  if has_lists then
    stdout ← ssh_silent sess "Failed to calculate image hash" "Error calculating hash of enclave image" hash_command;
    line ← or_error ("Failed to retrieve image hash: " +:+ stdout) (head (split_whitespace stdout));
    mret (allowed_hash line)
  else mret true.

Definition download_command (image_url : string) : string :=
  "curl -sL -o enclave.eif --max-filesize 4000000000 --max-time 120 " +:+ image_url.
Definition store_url_command (image_url : string) : string :=
  "echo " +:+ quote +:+ image_url +:+ quote +:+ " > image_url.txt".

(** Downloading an image, checking it, and storing its url. *)
Definition fetch_image (sess : Session) (image_url : string) : aws unit :=
  _ ← with_context "Failed to download enclave image" (ssh_exec sess (download_command image_url));
  is_eif_allowed ← with_context "Failed to retrieve image hash" (check_eif_blacklist_whitelist sess);
  if negb is_eif_allowed then bail "EIF NOT ALLOWED" else
  _ ← with_context "Failed to write EIF URL to txt file." (ssh_exec sess (store_url_command image_url));
  mret tt.

(** ** Setting the instance up *)

Definition set_allocator (sess : Session) (req_vcpu req_mem : Z) : aws unit :=
  _ ← with_context "Failed to set allocator file"
        (ssh_exec sess ("echo -e '---\nmemory_mib: " +:+ pretty req_mem +:+ "\ncpu_count: " +:+ pretty req_vcpu
                        +:+ "' | sudo tee /etc/nitro_enclaves/allocator.yaml"));
  _ ← ssh_silent sess "Failed to restart allocator service" "Error restarting nitro-enclaves-allocator service"
        "sudo systemctl restart nitro-enclaves-allocator.service";
  mret tt.

(** The first device of type ethernet. *)
Fixpoint ethernet_device (entries : list string) : string :=
  match entries with
  | [] => EmptyString
  | line :: entries =>
      match split_whitespace line with
      | name :: "ethernet" :: _ => name
      | _ => ethernet_device entries
      end%string
  end.

(** Whether the device has a queueing discipline other than the default. *)
Definition is_any_rule_set (stdout : string) : bool :=
  match lines (trim stdout) with
  | [entry] => negb (contains "qdisc mq 0: root" (to_lowercase entry))
  | _ => true
  end.

Definition limit_bandwidth (sess : Session) (bandwidth : Z) : aws unit :=
  stdout ← ssh_query sess "Failed to get nmcli status" "Error fetching network interface name" "nmcli device status";
  let interface := ethernet_device (lines stdout) in
  if is_empty interface then bail "Error fetching network interface name" else
  stdout ← ssh_query sess "Failed to fetch tc config" "Error fetching network interface qdisc configuration"
             ("sudo tc qdisc show dev " +:+ interface +:+ " root");
  _ ← (if is_any_rule_set stdout then
         ssh_bare sess "Error removing network interface qdisc configuration"
           ("sudo tc qdisc del dev " +:+ interface +:+ " root")
       else mret tt);
  ssh_bare sess "Error setting up bandwidth limit"
    ("sudo tc qdisc add dev " +:+ interface +:+ " root tbf rate " +:+ pretty bandwidth
     +:+ "kbit burst 4000Mb latency 100ms").

(** The rules that must be there, with the commands that add them. *)
Fixpoint add_rules (sess : Session) (rules : list string) (wanted : list (string * string)) : aws unit :=
  match wanted with
  | [] => mret tt
  | (rule, command) :: wanted =>
      _ ← (if bool_decide (rule ∈ rules) then mret EmptyString
           else ssh_silent sess "Failed to set iptables rule" "Failed to set iptables rule" command);
      add_rules sess rules wanted
  end.

Definition set_iptables (sess : Session) (query policy : string) (wanted : list (string * string)) : aws unit :=
  stdout ← ssh_query sess "Failed to query iptables" "Failed to get iptables rules" query;
  let rules := trim <$> lines (trim stdout) in
  if bool_decide (head rules = Some policy) then add_rules sess rules wanted
  else bail "Failed to get PREROUTING ACCEPT rules".

Definition salmon_rules : list (string * string) :=
  [("-A PREROUTING -i ens5 -p tcp -m tcp --dport 80 -j REDIRECT --to-ports 1200",
    "sudo iptables -A PREROUTING -t nat -p tcp --dport 80 -i ens5 -j REDIRECT --to-port 1200");
   ("-A PREROUTING -i ens5 -p tcp -m tcp --dport 443 -j REDIRECT --to-ports 1200",
    "sudo iptables -A PREROUTING -t nat -p tcp --dport 443 -i ens5 -j REDIRECT --to-port 1200");
   ("-A PREROUTING -i ens5 -p tcp -m tcp --dport 1025:65535 -j REDIRECT --to-ports 1200",
    "sudo iptables -A PREROUTING -t nat -p tcp --dport 1025:65535 -i ens5 -j REDIRECT --to-port 1200")]%string.

Definition tuna_rules : list (string * string) :=
  [("-A INPUT -i ens5 -p tcp -m tcp --dport 80 -j NFQUEUE --queue-num 0",
    "sudo iptables -A INPUT -p tcp -i ens5 --dport 80 -j NFQUEUE --queue-num 0");
   ("-A INPUT -i ens5 -p tcp -m tcp --dport 443 -j NFQUEUE --queue-num 0",
    "sudo iptables -A INPUT -p tcp -i ens5 --dport 443 -j NFQUEUE --queue-num 0");
   ("-A INPUT -i ens5 -p tcp -m tcp --dport 1024:61439 -j NFQUEUE --queue-num 0",
    "sudo iptables -A INPUT -p tcp -i ens5 --dport 1024:61439 -j NFQUEUE --queue-num 0")]%string.

Definition logger_conf_command : string :=
"<<EOF cat | sudo tee /etc/supervisor/conf.d/logger.conf
[program:logger]
command=/home/ubuntu/nitro-logger --enclave-log-file-path /home/ubuntu/enclave.log --script-log-file-path /home/ubuntu/logger.log
autostart=true
autorestart=true
EOF
                ".

Definition setup_logger (sess : Session) : aws unit :=
  _ ← ssh_silent sess "Failed to download logger" "Failed to download logger"
        "curl -fsS https://artifacts.marlin.org/oyster/binaries/nitro-logger_v1.0.0_linux_`uname -m | sed 's/x86_64/amd64/g; s/aarch64/arm64/g'` -o nitro-logger && chmod +x nitro-logger";
  _ ← ssh_silent sess "Failed to setup supervisor conf" "Failed to setup supervisor conf" logger_conf_command;
  _ ← ssh_silent sess "Failed to start logger" "Failed to start logger"
        "sudo supervisorctl reread && sudo supervisorctl update logger";
  mret tt.

(** ** Enclaves *)

Definition start_command (req_vcpu req_mem : Z) (debug : bool) : string :=
  "nitro-cli run-enclave --cpu-count " +:+ pretty req_vcpu +:+ " --memory " +:+ pretty req_mem
  +:+ " --eif-path enclave.eif --enclave-cid 88" +:+ (if debug then " --debug-mode" else EmptyString).

Definition start_enclave (sess : Session) (req_vcpu req_mem : Z) (debug : bool) : aws unit :=
  '(_, stderr) ← ssh_exec sess (start_command req_vcpu req_mem debug);
  if negb (is_empty stderr) && negb (contains "Started enclave with enclave-cid" stderr)
  then bail ("Error running enclave image: " +:+ stderr) else mret tt.

Definition run_enclave_salmon (instance_id region image_url : string) (req_vcpu req_mem bandwidth : Z)
    (debug : bool) : aws unit :=
  sess ← connect_instance instance_id region;
  _ ← set_allocator sess req_vcpu req_mem;
  _ ← fetch_image sess image_url;
  _ ← limit_bandwidth sess bandwidth;
  _ ← set_iptables sess "sudo iptables -t nat -S PREROUTING" "-P PREROUTING ACCEPT" salmon_rules;
  _ ← (if debug then setup_logger sess else mret tt);
  start_enclave sess req_vcpu req_mem debug.

Definition run_enclave_tuna (job_id instance_id region image_url : string) (req_vcpu req_mem bandwidth : Z)
    (debug : bool) : aws unit :=
  sess ← connect_instance instance_id region;
  _ ← ssh_silent sess "Failed to set ephemeral ports" "Failed to set ephemeral ports"
        ("sudo sysctl -w net.ipv4.ip_local_port_range=" +:+ quote +:+ "61440 65535" +:+ quote);
  _ ← set_allocator sess req_vcpu req_mem;
  _ ← fetch_image sess image_url;
  _ ← limit_bandwidth sess bandwidth;
  _ ← set_iptables sess "sudo iptables -S INPUT" "-P INPUT ACCEPT" tuna_rules;
  _ ← ssh_silent sess "Failed to set job id for init server" "Failed to set job id for init server"
        ("sudo sed -i -e 's/placeholder_job_id/" +:+ job_id +:+ "/g' /etc/supervisor/conf.d/oyster-init-server.conf");
  _ ← ssh_silent sess "Failed to update init server" "Failed to update init server" "sudo supervisorctl update";
  _ ← (if debug then setup_logger sess else mret tt);
  start_enclave sess req_vcpu req_mem debug.

Definition run_enclave_impl (job_id family instance_id region image_url : string)
    (req_vcpu req_mem bandwidth : Z) (debug : bool) : aws unit :=
  if String.eqb family "salmon" then
    run_enclave_salmon instance_id region image_url req_vcpu req_mem bandwidth debug
  else if String.eqb family "tuna" then
    run_enclave_tuna job_id instance_id region image_url req_vcpu req_mem bandwidth debug
  else bail "unsupported image family".

Definition stop_command : string := "nitro-cli terminate-enclave --all".

Definition update_enclave_image_impl (instance_id region eif_url : string) (req_vcpu req_mem : Z) : aws unit :=
  sess ← connect_instance instance_id region;
  '(stdout, stderr) ← with_context "Failed to read image_url.txt" (ssh_exec sess "cat image_url.txt");
  if is_empty stderr && String.eqb stdout eif_url then mret tt else
  _ ← fetch_image sess eif_url;
  _ ← ssh_bare sess "Error terminating enclave" stop_command;
  start_enclave sess req_vcpu req_mem false.

Definition get_enclave_state `{EnclaveJson} (instance_id region : string) : aws string :=
  sess ← connect_instance instance_id region;
  stdout ← ssh_silent sess "could not describe enclaves" "Error describing enclaves" "nitro-cli describe-enclaves";
  enclave_data ← with_context "could not parse enclave description" (or_error "serde" (json_objects stdout));
  mret match head enclave_data with
       | Some data => default "No state found"%string (object_str data "State")
       | None => "No state found"%string
       end.

End host.
