(* ===== verification/Maintenance.v ===== *)
(** * Control plane: the maintenance binaries

    operator/control-plane/src/ami.rs, which prints the images a region would
    use, and enclaver.rs, which deploys an enclave on an instance by hand.
    Both make an AWS provider of one region and call it; it has no lists, so
    the images of enclaver.rs are not vetted. *)

From S2P Require Import Prelude Text Io Market MarketInfra Aws AwsHost.

Section maintenance.
Context `{A : AwsApi}.

(** ** Printing *)

(** The history of the requests, and the lines of the standard output. *)
Abbreviation terminal := (list Request * list string)%type.

Definition quietly {B} (m : io (list Request) (list string) B) : io terminal (list string) B := fun w =>
  let '(h, r) := m w.1 in ((h, w.2), r).

Definition println (line : string) : io terminal (list string) unit := modify (fun w => (w.1, w.2 ++ [line])).

(** ** ami.rs *)

(** [username] is that of the user who runs the program. *)
Definition ami_main (username region family : string) : io terminal (list string) unit :=
  let aws := new_aws username [region] EmptyString None None in
  ami ← quietly (with_context "failed to fetch amd64 community ami" (get_community_amis aws region family "amd64"));
  _ ← println ("amd64 community ami: " +:+ ami);
  ami ← quietly (with_context "failed to fetch arm64 community ami" (get_community_amis aws region family "arm64"));
  _ ← println ("arm64 community ami: " +:+ ami);
  ami ← quietly (with_context "failed to fetch amd64 resolved ami" (get_amis aws region family "amd64"));
  _ ← println ("amd64 resolved ami: " +:+ ami);
  ami ← quietly (with_context "failed to fetch arm64 resolved ami" (get_amis aws region family "arm64"));
  println ("arm64 resolved ami: " +:+ ami).

(** ** enclaver.rs *)

Definition enclaver_main (username key_name instance region family url : string) :
    io (list Request) (list string) unit :=
  let aws := new_aws username [region] key_name None None in
  with_context "could not deploy enclave" (run_enclave_impl aws "0x01020304" family instance region url 2 4096 32 false).

(** Without lists every image is allowed, and its hash is not even computed. *)
Lemma unlisted_images_run username regions key_name sess url h :
  fetch_image (new_aws username regions key_name None None) sess url h =
  (_ ← with_context "Failed to download enclave image" (ssh_exec sess (download_command url));
   _ ← with_context "Failed to write EIF URL to txt file." (ssh_exec sess (store_url_command url));
   mret tt) h.
Proof.
  unfold fetch_image, mbind, io_bind. destruct (with_context "Failed to download enclave image" _ h) as [h' [[] |]]; done.
Qed.

(** A family other than the two is refused before anything is asked. *)
Lemma enclaver_unknown_family username key_name instance region family url h :
  family <> "salmon"%string -> family <> "tuna"%string ->
  enclaver_main username key_name instance region family url h =
  (h, Some (Err ["could not deploy enclave"; "unsupported image family"])).
Proof.
  intros H1%String.eqb_neq H2%String.eqb_neq. unfold enclaver_main, run_enclave_impl. by rewrite H1, H2.
Qed.

End maintenance.
