(* ===== verification/AwsProvider.v ===== *)
(** * Control plane: the AWS provider as an [InfraProvider], and its server

    The [impl InfraProvider for Aws] of operator/control-plane/src/aws.rs over
    the history of its requests, and the endpoints of
    operator/control-plane/src/server.rs, which answer for it. *)

From S2P Require Import Prelude Text Io Market MarketInfra Aws AwsHost.

(** ** The server *)

Inductive ServerError := GetIPFail.
Definition error_status (e : ServerError) : Z * string := (400, "BAD_REQUEST"%string).

Record GetIPRequest := mkGetIPRequest { query_id : option string; query_region : option string }.

(** The state of the router, less the provider. *)
Record Served := mkServed {
  served_regions : list string;
  served_rates : list RegionalRates;
  served_bandwidth : list GBRateCard;
  served_job : JobId
}.

(** Any provider of addresses, over its own state. *)
Section server.
Context {W E : Type} (get_job_ip : JobId -> string -> io W E string).

Definition answer_ip (state : Served) (query : GetIPRequest) : io W ServerError string :=
  match query_id query, query_region query with
  | Some id, Some region => fun h =>
      let job := mkJobId id (operator (served_job state)) (contract (served_job state)) (chain (served_job state)) in
      let '(h, ip) := get_job_ip job region h in
      (h, map_err (fun _ => GetIPFail) <$> ip)
  | _, _ => fail GetIPFail
  end.

Definition handle_spec_request (state : Served) : list string * list RegionalRates :=
  (served_regions state, served_rates state).
Definition handle_bandwidth_request (state : Served) : list GBRateCard := served_bandwidth state.

(** The bodies of the responses, and the routes: [None] when the handler
    panics and the connection is dropped. *)
Inductive Body :=
| IpBody (ip : string)
| SpecBody (allowed_regions : list string) (min_rates : list RegionalRates)
| BandwidthBody (rates : list GBRateCard)
| TextBody (text : string).

Definition all_routes (state : Served) (path : string) (query : GetIPRequest) (w : W) : W * option (Z * Body) :=
  if String.eqb path "/ip" then
    let '(w, r) := answer_ip state query w in
    (w, match r with
        | Some (Ok ip) => Some (200, IpBody ip)
        | Some (Err e) => let '(status, text) := error_status e in Some (status, TextBody text)
        | _ => None
        end)
  else if String.eqb path "/spec" then
    let '(regions, rates) := handle_spec_request state in (w, Some (200, SpecBody regions rates))
  else if String.eqb path "/bandwidth" then (w, Some (200, BandwidthBody (handle_bandwidth_request state)))
  else (w, Some (404, TextBody EmptyString)).

End server.

(** ** The provider *)

Section provider.
Context `{A : AwsApi} `{J : EnclaveJson}.
Variable self : Aws.

Abbreviation history := (list Request).
Abbreviation aws := (io history (list string)).

(** A result is [Some] when it is [Ok]; the panic of a region without a
    client is [None], and does not occur for a region the provider has. *)
Definition provide {B} (m : aws B) : history -> history * option B := fun h =>
  let '(h, r) := m h in (h, match r with Some (Ok x) => Some x | _ => None end).

Definition aws_check_instance_running (id region : string) : aws bool :=
  res ← with_context "could not get current instance state" (get_instance_state self id region);
  mret (String.eqb res "running" || String.eqb res "pending").

Definition aws_check_enclave_running (id region : string) : aws bool :=
  res ← with_context "could not get current enclace state" (get_enclave_state self id region);
  mret (String.eqb res "RUNNING").

#[export] Instance aws_provider : InfraProvider history := {|
  spin_up job instance_type family region req_mem req_vcpu bandwidth :=
    provide (with_context "could not spin up instance"
      (spin_up_instance self job instance_type family region req_mem req_vcpu));
  spin_down id job region :=
    provide (with_context "could not spin down instance" (spin_down_instance self id job region));
  get_job_instance job region :=
    provide (with_context "could not get instance id for job" (get_job_instance_id self job region));
  check_instance_running id region := provide (aws_check_instance_running id region);
  check_enclave_running id region := provide (aws_check_enclave_running id region);
  run_enclave job id family region url req_vcpu req_mem bandwidth debug :=
    provide (with_context "could not run enclave"
      (run_enclave_impl self (jid job) family id region url req_vcpu req_mem bandwidth debug));
  update_enclave_image id region url req_vcpu req_mem :=
    provide (with_context "could not update enclave image"
      (update_enclave_image_impl self id region url req_vcpu req_mem))
|}.

(** [GET /ip] *)
Definition handle_ip_request (state : Served) (query : GetIPRequest) : io history ServerError string :=
  answer_ip (get_job_ip self) state query.

End provider.
