(* ===== verification/AwsTrace.v ===== *)
(** * Control plane: the requests of the AWS provider

    Every function of the provider adds requests to its history and takes
    none away; [emits ok m] says which it may add, and the rules of [emits]
    follow the functions down to their calls. *)

From S2P Require Import Prelude Text Io Market Aws AwsHost.

Create HintDb emits discriminated.

Section trace.
Context `{A : AwsApi}.

Abbreviation history := (list Request).
Abbreviation aws := (io history (list string)).

Lemma call_Ok r h h' x : call r h = (h', Some (Ok x)) -> h' = r :: h /\ answer h r = inr x.
Proof. unfold call. intros [= <- H]. by destruct (answer h r); simplify_eq. Qed.

Lemma context_Ok {B} c (m : aws B) h h' x : with_context c m h = (h', Some (Ok x)) -> m h = (h', Some (Ok x)).
Proof. unfold with_context. destruct (m h) as [h1 [[b | e |] |]]; by intros [= <- <-]. Qed.

Lemma or_error_Ok {B} e (o : option B) h h' x : or_error e o h = (h', Some (Ok x)) -> h' = h /\ o = Some x.
Proof. by destruct o; intros [= <- <-]. Qed.

Lemma client_Ok self region h h' x : client self region h = (h', Some (Ok x)) -> h' = h /\ region ∈ clients self.
Proof. unfold client. by case_bool_decide; intros [= <-]. Qed.

Lemma silent_Ok e stderr h h' x : silent e stderr h = (h', Some (Ok x)) -> h' = h /\ stderr = EmptyString.
Proof. unfold silent, is_empty. by destruct (String.eqb_spec stderr EmptyString); intros [= <-]. Qed.

(** Whatever the answers, [m] adds requests that are [ok]. *)
Definition emits (ok : Request -> Prop) {B} (m : aws B) : Prop := forall h h' r,
  m h = (h', r) -> exists l, h' = l ++ h /\ Forall ok l.

Lemma emits_suffix ok {B} (m : aws B) h h' r : emits ok m -> m h = (h', r) -> h `suffix_of` h'.
Proof. intros Hm (l & -> & _)%Hm. by exists l. Qed.

Section rules.
Variable ok : Request -> Prop.

Lemma emits_ret {B} (x : B) : emits ok (mret x).
Proof. intros h h' r [= <- <-]. by exists []. Qed.

Lemma emits_lift {B} (o : outcome (list string) B) : emits ok (lift o).
Proof. intros h h' r [= <- <-]. by exists []. Qed.

Lemma emits_call r : ok r -> emits ok (call r).
Proof. intros Hr h h' res [= <- <-]. exists [r]. split; [done | by constructor]. Qed.

Lemma emits_pause n : ok (sleep_secs n) -> emits ok (pause n).
Proof. intros Hr h h' res [= <- <-]. exists [sleep_secs n]. split; [done | by constructor]. Qed.

Lemma emits_bind {B C} (m : aws B) (f : B -> aws C) :
  emits ok m -> (forall x, emits ok (f x)) -> emits ok (m ≫= f).
Proof.
  intros Hm Hf h h' r. unfold mbind, io_bind. destruct (m h) as [h1 r1] eqn:E.
  apply Hm in E as (l & -> & Hl). destruct r1 as [[x | e |] |]; try (intros [= <- <-]; by exists l).
  intros (l' & -> & Hl')%Hf. exists (l' ++ l). split; [by rewrite app_assoc | by apply Forall_app].
Qed.

Lemma emits_context {B} c (m : aws B) : emits ok m -> emits ok (with_context c m).
Proof.
  intros Hm h h' r. unfold with_context. destruct (m h) as [h1 r1] eqn:E. intros [= <- <-]. exact (Hm _ _ _ E).
Qed.

Lemma emits_result_of {B} (m : aws B) : emits ok m -> emits ok (result_of m).
Proof.
  intros Hm h h' r. unfold result_of. destruct (m h) as [h1 r1] eqn:E.
  destruct r1 as [[x | e |] |]; intros [= <- <-]; exact (Hm _ _ _ E).
Qed.

Lemma emits_client self region : emits ok (client self region).
Proof. unfold client. case_bool_decide; [apply emits_ret | apply emits_lift]. Qed.

Lemma emits_silent e stderr : emits ok (silent e stderr).
Proof. unfold silent. destruct (is_empty stderr); [apply emits_ret | apply emits_lift]. Qed.

End rules.

(** [m] ends, and panics only if [p]. *)
Definition ends (p : Prop) {B} (m : aws B) : Prop := forall h, exists h' r,
  m h = (h', Some r) /\ (r = Panic -> p).

Section ends_rules.
Variable p : Prop.

Lemma ends_ret {B} (x : B) : ends p (mret x).
Proof. intros h. by exists h, (Ok x). Qed.

Lemma ends_bail {B} e : ends p (bail (B := B) e).
Proof. intros h. by exists h, (Err [e]). Qed.

Lemma ends_fail {B} e : ends p (fail (A := B) e).
Proof. intros h. by exists h, (Err e). Qed.

Lemma ends_or_error {B} e (o : option B) : ends p (or_error e o).
Proof. destruct o; [apply ends_ret | apply ends_bail]. Qed.

Lemma ends_call r : ends p (call r).
Proof. intros h. do 2 eexists. split; [reflexivity |]. by destruct (answer h r). Qed.

Lemma ends_pause n : ends p (pause n).
Proof. intros h. by do 2 eexists. Qed.

Lemma ends_bind {B C} (m : aws B) (f : B -> aws C) :
  ends p m -> (forall x, ends p (f x)) -> ends p (m ≫= f).
Proof.
  intros Hm Hf h. unfold mbind, io_bind. destruct (Hm h) as (h1 & r1 & -> & Hp).
  destruct r1 as [x | e |]; [apply Hf | by exists h1, (Err e) | exists h1, Panic; split; [done |]; intros _; by apply Hp].
Qed.

Lemma ends_context {B} c (m : aws B) : ends p m -> ends p (with_context c m).
Proof.
  intros Hm h. unfold with_context. destruct (Hm h) as (h1 & r1 & -> & Hp). do 2 eexists. split; [reflexivity |].
  destruct r1; [done | done | intros _; by apply Hp].
Qed.

Lemma ends_result_of {B} (m : aws B) : ends p m -> ends p (result_of m).
Proof.
  intros Hm h. unfold result_of. destruct (Hm h) as (h1 & r1 & -> & Hp).
  destruct r1; (do 2 eexists; split; [reflexivity |]); [done | done | intros _; by apply Hp].
Qed.

Lemma ends_client self region : (region ∉ clients self -> p) -> ends p (client self region).
Proof.
  intros Hp h. unfold client. case_bool_decide; [by exists h, (Ok tt) | exists h, Panic].
  split; [done |]. intros _. by apply Hp.
Qed.

Lemma ends_silent e stderr : ends p (silent e stderr).
Proof. unfold silent. destruct (is_empty stderr); [apply ends_ret | apply ends_bail]. Qed.

End ends_rules.

Lemma emits_weaken (ok ok' : Request -> Prop) {B} (m : aws B) :
  (forall r, ok r -> ok' r) -> emits ok m -> emits ok' m.
Proof. intros Hi Hm h h' r (l & -> & Hl)%Hm. exists l. split; [done |]. by eapply Forall_impl. Qed.

End trace.

#[export] Hint Resolve emits_ret emits_lift emits_pause emits_client emits_silent : emits.

#[export] Hint Resolve ends_ret ends_bail ends_fail ends_or_error ends_call ends_pause ends_silent : emits.

(** Decompose a run that returned [Ok] into the runs of its steps. *)
Ltac inv_run :=
  repeat match goal with
  | H : (_ ≫= _) _ = (_, Some (Ok _)) |- _ => apply io_bind_inv in H as (? & ? & ? & H)
  | H : with_context _ _ _ = (_, Some (Ok _)) |- _ => apply context_Ok in H
  | H : call ?r _ = (_, Some (Ok _)) |- _ => apply (call_Ok r) in H as [-> H]
  | H : or_error _ _ _ = (_, Some (Ok _)) |- _ => apply or_error_Ok in H as [-> H]
  | H : client _ _ _ = (_, Some (Ok _)) |- _ => apply client_Ok in H as [-> H]
  | H : silent _ _ _ = (_, Some (Ok _)) |- _ => apply silent_Ok in H as [-> H]
  | H : mret _ _ = (_, Some (Ok _)) |- _ => injection H as H; subst
  | H : bail _ _ = (_, Some (Ok _)) |- _ => discriminate H
  end.

Lemma ssh_exec_Ok `{A : AwsApi} sess cmd h h' out err : ssh_exec sess cmd h = (h', Some (Ok (out, err))) -> exists c,
  h' = wait_close c :: read_stderr c :: read_stdout c :: channel_exec c cmd :: channel_session sess :: h /\
  answer (channel_exec c cmd :: channel_session sess :: h) (read_stdout c) = inr out /\
  answer (read_stdout c :: channel_exec c cmd :: channel_session sess :: h) (read_stderr c) = inr err.
Proof. unfold ssh_exec. intros H. inv_run. simplify_eq/=. eauto. Qed.

(** The same, through the commands run over ssh. *)
Ltac inv_ssh :=
  repeat first
    [ progress inv_run
    | match goal with
      | H : ssh_exec _ _ _ = (_, Some (Ok ?p)) |- _ =>
          let out := fresh "out" in let err := fresh "err" in
          destruct p as [out err]; apply ssh_exec_Ok in H as (? & -> & ? & ?)
      | H : ssh_silent _ _ _ _ _ = (_, Some (Ok _)) |- _ => unfold ssh_silent in H
      | H : ssh_bare _ _ _ _ = (_, Some (Ok _)) |- _ => unfold ssh_bare in H
      end
    | progress cbn beta iota in * ].

(** Follow a function to the calls it makes. *)
Ltac emits :=
  repeat first
    [ done
    | solve [eauto 2 with emits]
    | progress cbn beta iota
    | match goal with
      | |- emits _ (_ ≫= _) => apply emits_bind; [| intros ?]
      | |- emits _ (with_context _ _) => apply emits_context
      | |- emits _ (result_of _) => apply emits_result_of
      | |- emits ?ok (call ?r) => apply (emits_call ok r)
      | |- emits _ (or_error _ _) => apply emits_lift
      | |- emits _ (bail _) => apply emits_lift
      | |- emits _ (fail _) => apply emits_lift
      | |- emits _ panic => apply emits_lift
      | |- emits _ (match ?x with _ => _ end) => destruct x
      | |- emits _ (if ?x then _ else _) => destruct x
      end ].

Ltac ends :=
  repeat first
    [ done
    | solve [eauto 2 with emits]
    | apply ends_client; done
    | progress cbn beta iota
    | match goal with
      | |- ends _ (_ ≫= _) => apply ends_bind; [| intros ?]
      | |- ends _ (with_context _ _) => apply ends_context
      | |- ends _ (result_of _) => apply ends_result_of
      | |- ends ?p (call ?r) => apply (ends_call p r)
      | |- ends _ (match ?x with _ => _ end) => destruct x
      | |- ends _ (if ?x then _ else _) => destruct x
      end ].
