(* ===== verification/AwsVetting.v ===== *)
(** * Control plane: the images the AWS provider starts

    What it is for an enclave to be started only after its image has been
    checked against the lists, and the proof for every function that starts
    one, whatever EC2 and the instance answer. *)

From stdpp Require Import pretty.
From S2P Require Import Prelude Text Io Market Aws AwsHost AwsTrace.

(** ** Definitions *)

Section definitions.
Context `{A : AwsApi}.

Abbreviation history := (list Request).

(** Commands that start an enclave, or download its image. *)
Definition launches (command : string) : bool := String.prefix "nitro-cli run-enclave" command.
Definition downloads (command : string) : bool := String.prefix "curl -sL -o enclave.eif" command.

Definition is_launch (r : Request) : Prop := match r with channel_exec _ cmd => launches cmd = true | _ => False end.
Definition is_download (r : Request) : Prop := match r with channel_exec _ cmd => downloads cmd = true | _ => False end.
Definition quiet (r : Request) : Prop := ~ is_launch r.
Definition neutral (r : Request) : Prop := ~ is_launch r /\ ~ is_download r.

(** The requests [l] after the history [h] compute the hash of the image, and
    the lists allow it. *)
Definition hash_checked (self : Aws) (h l : history) : Prop := exists l1 l2 c out line,
  l = l1 ++ read_stderr c :: read_stdout c :: channel_exec c hash_command :: l2 /\
  answer (channel_exec c hash_command :: l2 ++ h) (read_stdout c) = inr out /\
  answer (read_stdout c :: channel_exec c hash_command :: l2 ++ h) (read_stderr c) = inr EmptyString /\
  head (split_whitespace out) = Some line /\ allowed_hash self line = true.

(** The last download of [l] is that of [url], and the image has been checked
    since. *)
Definition vetted (self : Aws) (url : string) (h l : history) : Prop := exists l1 l2 c,
  l = l1 ++ channel_exec c (download_command url) :: l2 /\
  Forall (fun r => ~ is_download r) l1 /\
  (has_lists self = true -> hash_checked self (channel_exec c (download_command url) :: l2 ++ h) l1).

(** An enclave is started only after its image has been vetted. *)
Definition guarded (self : Aws) (url : string) (h l : history) : Prop := forall l1 l2 c cmd,
  l = l1 ++ channel_exec c cmd :: l2 -> launches cmd = true -> vetted self url h l2.

End definitions.

(** ** Lemmas *)

Section lemmas.
Context `{A : AwsApi}.
Variable self : Aws.

(** A request that is no command is neutral. *)
Lemma neutral_request r : match r with channel_exec _ _ => False | _ => True end -> neutral r.
Proof. intros Hr. split; intros Hl; by destruct r. Qed.

Lemma neutral_connect_instance i region : emits neutral (connect_instance self i region).
Proof. unfold connect_instance, get_instance_ip, described_instance, ssh_connect. emits; apply neutral_request; done. Qed.

Lemma neutral_ssh_exec sess cmd : launches cmd = false -> downloads cmd = false -> emits neutral (ssh_exec sess cmd).
Proof. intros H1 H2. unfold ssh_exec. emits; try (by apply neutral_request). split; cbn; by rewrite ?H1, ?H2. Qed.

Hint Resolve neutral_connect_instance neutral_ssh_exec : emits.

Lemma neutral_ssh_silent sess c e cmd :
  launches cmd = false -> downloads cmd = false -> emits neutral (ssh_silent sess c e cmd).
Proof. intros H1 H2. unfold ssh_silent. emits. Qed.

Lemma neutral_ssh_bare sess e cmd :
  launches cmd = false -> downloads cmd = false -> emits neutral (ssh_bare sess e cmd).
Proof. intros H1 H2. unfold ssh_bare. emits. Qed.

Lemma neutral_ssh_query sess c e cmd :
  launches cmd = false -> downloads cmd = false -> emits neutral (ssh_query sess c e cmd).
Proof. intros H1 H2. unfold ssh_query. emits. Qed.

Hint Resolve neutral_ssh_silent neutral_ssh_bare neutral_ssh_query : emits.

Lemma neutral_set_allocator sess vcpu mem : emits neutral (set_allocator sess vcpu mem).
Proof. unfold set_allocator. emits. Qed.

Lemma neutral_limit_bandwidth sess bw : emits neutral (limit_bandwidth sess bw).
Proof. unfold limit_bandwidth. emits. Qed.

Lemma neutral_add_rules sess rules wanted :
  Forall (fun w => launches w.2 = false /\ downloads w.2 = false) wanted -> emits neutral (add_rules sess rules wanted).
Proof.
  intros Hw. induction Hw as [| [rule command] wanted [H1 H2] Hw IH]; cbn [add_rules]; [by apply emits_ret |].
  emits.
Qed.

Lemma neutral_set_iptables sess query policy wanted :
  launches query = false -> downloads query = false ->
  Forall (fun w => launches w.2 = false /\ downloads w.2 = false) wanted ->
  emits neutral (set_iptables sess query policy wanted).
Proof. intros H1 H2 H3. unfold set_iptables. emits. by apply neutral_add_rules. Qed.

Lemma neutral_salmon sess query policy : launches query = false -> downloads query = false ->
  emits neutral (set_iptables sess query policy salmon_rules).
Proof. intros. apply neutral_set_iptables; [done | done |]. by repeat constructor. Qed.

Lemma neutral_tuna sess query policy : launches query = false -> downloads query = false ->
  emits neutral (set_iptables sess query policy tuna_rules).
Proof. intros. apply neutral_set_iptables; [done | done |]. by repeat constructor. Qed.

Lemma neutral_setup_logger sess : emits neutral (setup_logger sess).
Proof. unfold setup_logger. emits. Qed.

Hint Resolve neutral_set_allocator neutral_limit_bandwidth neutral_salmon neutral_tuna neutral_setup_logger : emits.

(** Requests that start no enclave are guarded, and so is a start that follows
    a vetted image with neutral requests between. *)
Definition late {B} (k : io (list Request) (list string) B) : Prop := forall h h' r,
  k h = (h', r) -> exists l, h' = l ++ h /\
    forall l1 l2 c cmd, l = l1 ++ channel_exec c cmd :: l2 -> launches cmd = true -> Forall neutral l2.

Lemma not_launching (l l1 l2 : list Request) c cmd :
  Forall quiet l -> l = l1 ++ channel_exec c cmd :: l2 -> launches cmd = true -> False.
Proof. intros Hl -> Hc. apply Forall_app in Hl as [_ [Hn _]%Forall_cons]. by apply Hn. Qed.

Lemma neutral_quiet (l : list Request) : Forall neutral l -> Forall quiet l.
Proof. intros H. eapply Forall_impl; [exact H |]. by intros r [? _]. Qed.

Lemma late_bind {B C} (m : io _ _ B) (f : B -> io _ _ C) :
  emits neutral m -> (forall x, late (f x)) -> late (m ≫= f).
Proof.
  intros Hm Hf h h' r [[Hr _] | (h1 & x & H1 & H2)]%io_bind_split.
  - apply Hm in Hr as (l & -> & Hl). exists l. split; [done |]. intros l1 l2 c cmd Heq Hc.
    by destruct (not_launching _ _ _ _ _ (neutral_quiet _ Hl) Heq Hc).
  - apply Hm in H1 as (l & -> & Hl). apply Hf in H2 as (l' & -> & Hl').
    exists (l' ++ l). split; [by rewrite app_assoc |]. intros l1 l2 c cmd Heq Hc.
    apply app_eq_app in Heq as (l3 & [[-> Heq] | [-> Heq]]).
    + destruct l3 as [| r3 l3]; simplify_list_eq.
      * by destruct (not_launching (channel_exec c cmd :: l2) [] l2 c cmd (neutral_quiet _ Hl) eq_refl Hc).
      * apply Forall_app. split; [| done]. by apply (Hl' l1 l3 c cmd).
    + by destruct (not_launching _ _ _ _ _ (neutral_quiet _ Hl) Heq Hc).
Qed.

Lemma late_then {B C} (m : io _ _ B) (f : B -> io _ _ C) :
  late m -> (forall x, emits quiet (f x)) -> late (m ≫= f).
Proof.
  intros Hm Hf h h' r [[Hr _] | (h1 & x & H1 & H2)]%io_bind_split; [exact (Hm _ _ _ Hr) |].
  apply Hm in H1 as (l & -> & Hl). apply Hf in H2 as (l' & -> & Hl').
  exists (l' ++ l). split; [by rewrite app_assoc |]. intros l1 l2 c cmd Heq Hc.
  apply app_eq_app in Heq as (l3 & [[-> Heq] | [-> Heq]]).
  - destruct l3 as [| r3 l3]; simplify_list_eq; [by apply (Hl [] l2 c cmd) |].
    by destruct (not_launching (l1 ++ channel_exec c cmd :: l3) l1 l3 c cmd Hl' eq_refl Hc).
  - by apply (Hl l3 l2 c cmd).
Qed.

Lemma late_exec sess cmd : late (ssh_exec sess cmd).
Proof.
  unfold ssh_exec. apply late_bind; [emits; apply neutral_request; done |]. intros c. apply late_then.
  - intros h h' r. unfold with_context, call. intros [= <- _]. exists [channel_exec c cmd].
    split; [done |]. intros [| ? []] l2 c' cmd' ? _; simplify_eq/=; constructor.
  - intros _. emits; intros Hl; done.
Qed.

Lemma late_start sess vcpu mem debug : late (start_enclave sess vcpu mem debug).
Proof. unfold start_enclave. apply late_then; [apply late_exec | intros ?; emits]. Qed.

Lemma vetted_app url h l l' : Forall neutral l' -> vetted self url h l -> vetted self url h (l' ++ l).
Proof.
  intros Hn (l1 & l2 & c & -> & Hl1 & Hc). exists (l' ++ l1), l2, c. split; [by rewrite app_assoc |]. split.
  - apply Forall_app. split; [| done]. eapply Forall_impl; [exact Hn |]. by intros r [_ ?].
  - intros Hh. destruct (Hc Hh) as (k1 & k2 & c' & out & line & -> & Hrest).
    exists (l' ++ k1), k2, c', out, line. by rewrite app_assoc.
Qed.

Lemma guarded_quiet url h l : Forall quiet l -> guarded self url h l.
Proof. intros Hl l1 l2 c cmd Heq Hc. by destruct (not_launching _ _ _ _ _ Hl Heq Hc). Qed.

(** What follows a vetted image. *)
Lemma guarded_late {B} url h l (k : io _ _ B) h' r :
  Forall quiet l -> vetted self url h l -> late k -> k (l ++ h) = (h', r) ->
  exists l', h' = l' ++ l ++ h /\ guarded self url h (l' ++ l).
Proof.
  intros Hl Hv Hk (l' & -> & Hl')%Hk. exists l'. split; [done |]. intros l1 l2 c cmd Heq Hc.
  apply app_eq_app in Heq as (l3 & [[-> Heq] | [-> Heq]]).
  - destruct l3 as [| r3 l3]; simplify_list_eq.
    + by destruct (not_launching (channel_exec c cmd :: l2) [] l2 c cmd Hl eq_refl Hc).
    + apply vetted_app; [| done]. by apply (Hl' l1 l3 c cmd).
  - by destruct (not_launching _ _ _ _ _ Hl Heq Hc).
Qed.

Lemma hash_checked_quiet_app h l l' : hash_checked self h l -> hash_checked self h (l' ++ l).
Proof.
  intros (k1 & k2 & c' & out & line & -> & Hrest). exists (l' ++ k1), k2, c', out, line. by rewrite app_assoc.
Qed.

Lemma hash_checked_shift h l l' : hash_checked self (l ++ h) l' -> hash_checked self h (l' ++ l).
Proof.
  intros (k1 & k2 & c' & out & line & -> & Ho & He & Hrest). exists k1, (k2 ++ l), c', out, line.
  rewrite <- !app_assoc. by repeat (split; [done |]).
Qed.

Lemma neutral_check sess : emits neutral (check_eif_blacklist_whitelist self sess).
Proof. unfold check_eif_blacklist_whitelist. emits. Qed.

Lemma check_allows sess h h' : check_eif_blacklist_whitelist self sess h = (h', Some (Ok true)) ->
  exists l, h' = l ++ h /\ Forall neutral l /\ (has_lists self = true -> hash_checked self h l).
Proof.
  intros Hc. destruct (neutral_check sess h h' _ Hc) as (l & -> & Hl). exists l. split_and!; [done | done |].
  unfold check_eif_blacklist_whitelist in Hc. destruct (has_lists self); [| done]. intros _.
  inv_ssh. simplify_eq.
  match goal with c : Channel |- _ =>
    replace l with ([wait_close c; read_stderr c; read_stdout c; channel_exec c hash_command; channel_session sess])
      by (by apply (app_inv_tail h));
    exists [wait_close c], [channel_session sess], c end.
  do 2 eexists. by split_and!.
Qed.

Lemma quiet_fetch_image sess url : emits quiet (fetch_image self sess url).
Proof.
  assert (Hd : emits quiet (ssh_exec sess (download_command url))).
  { unfold ssh_exec. emits; intros Hl; done. }
  assert (Hs : emits neutral (ssh_exec sess (store_url_command url))) by (by apply neutral_ssh_exec).
  unfold fetch_image. emits; eapply emits_weaken; try apply neutral_check; try exact Hs; by intros r [? _].
Qed.

Lemma fetch_vetted sess url h h' : fetch_image self sess url h = (h', Some (Ok tt)) ->
  exists l, h' = l ++ h /\ Forall quiet l /\ vetted self url h l.
Proof.
  intros Hf. destruct (quiet_fetch_image sess url h h' _ Hf) as (l & -> & Hl). exists l. split_and!; [done | done |].
  unfold fetch_image in Hf. inv_ssh.
  match goal with H : check_eif_blacklist_whitelist _ _ _ = (_, Some (Ok ?b)) |- _ =>
    destruct b; [apply check_allows in H as (l2 & -> & Hl2 & Hc) | by inv_run] end.
  cbn [negb] in Hf. inv_ssh.
  match goal with H : ssh_exec _ (store_url_command _) _ = (_, Some (Ok ?p)) |- _ =>
    destruct p as [o e]; apply ssh_exec_Ok in H as (c & H & _ & _) end.
  match goal with c0 : Channel, _ : answer (channel_exec ?c1 (download_command _) :: _) _ = _ |- _ =>
    exists ([wait_close c; read_stderr c; read_stdout c; channel_exec c (store_url_command url); channel_session sess]
      ++ l2 ++ [wait_close c1; read_stderr c1; read_stdout c1]), [channel_session sess], c1 end.
  split_and!.
  - apply (app_inv_tail h). rewrite H0. rewrite <- !app_assoc. done.
  - repeat (apply Forall_app; split); [| eapply Forall_impl; [exact Hl2 | by intros r [_ ?]] |];
      repeat constructor; by intros Hd.
  - intros Hh. apply hash_checked_quiet_app, hash_checked_shift. exact (Hc Hh).
Qed.

(** A session, neutral requests, an image, and what follows it. *)
Lemma guarded_from {B C} (m : io _ _ B) (f : B -> io _ _ C) url h h' r :
  emits neutral m -> (m ≫= f) h = (h', r) ->
  (forall x h1, f x h1 = (h', r) -> exists l, h' = l ++ h1 /\ guarded self url h1 l) ->
  exists l, h' = l ++ h /\ guarded self url h l.
Proof.
  intros Hm [[Hr _] | (h1 & x & H1 & H2)]%io_bind_split Hf.
  - apply Hm in Hr as (l & -> & Hl). exists l. split; [done |]. by apply guarded_quiet, neutral_quiet.
  - apply Hm in H1 as (l1 & -> & Hl1). apply Hf in H2 as (l & -> & Hg).
    exists (l ++ l1). split; [by rewrite app_assoc |]. intros k1 k2 c cmd Heq Hc.
    apply app_eq_app in Heq as (l3 & [[-> Heq] | [-> Heq]]).
    + destruct l3 as [| r3 l3]; simplify_list_eq.
      * by destruct (not_launching (channel_exec c cmd :: k2) [] k2 c cmd (neutral_quiet _ Hl1) eq_refl Hc).
      * destruct (Hg _ _ _ _ eq_refl Hc) as (l4 & l5 & c5 & -> & Hd & Hh).
        exists l4, (l5 ++ l1), c5. rewrite <- !app_assoc. split_and!; [done | done | exact Hh].
    + by destruct (not_launching _ _ _ _ _ (neutral_quiet _ Hl1) Heq Hc).
Qed.

Lemma guarded_fetch {B} sess url h h' r (k : unit -> io _ _ B) :
  (forall x, late (k x)) -> (fetch_image self sess url ≫= k) h = (h', r) ->
  exists l, h' = l ++ h /\ guarded self url h l.
Proof.
  intros Hk [[Hr _] | (h1 & [] & H1 & H2)]%io_bind_split.
  - apply quiet_fetch_image in Hr as (l & -> & Hl). exists l. split; [done |]. by apply guarded_quiet.
  - apply fetch_vetted in H1 as (l1 & -> & Hl1 & Hv).
    destruct (guarded_late url h l1 (k tt) h' r Hl1 Hv (Hk tt) H2) as (l & -> & Hg).
    exists (l ++ l1). split; [by rewrite app_assoc | done].
Qed.

Ltac late := repeat first [apply late_start | apply late_bind; [emits | intros ?]].

Lemma guarded_salmon i region url vcpu mem bw debug h h' r :
  run_enclave_salmon self i region url vcpu mem bw debug h = (h', r) -> exists l, h' = l ++ h /\ guarded self url h l.
Proof.
  unfold run_enclave_salmon. intros Hrun. eapply guarded_from; [| exact Hrun |]; [emits |].
  intros sess h1 Hr. eapply guarded_from; [| exact Hr |]; [emits |].
  intros ? h2 Hr2. eapply guarded_fetch; [| exact Hr2]. intros ?. late.
Qed.

Lemma guarded_tuna job i region url vcpu mem bw debug h h' r :
  run_enclave_tuna self job i region url vcpu mem bw debug h = (h', r) -> exists l, h' = l ++ h /\ guarded self url h l.
Proof.
  unfold run_enclave_tuna. intros Hrun. eapply guarded_from; [| exact Hrun |]; [emits |].
  intros sess h1 Hr. eapply guarded_from; [| exact Hr |]; [emits |].
  intros ? h2 Hr2. eapply guarded_from; [| exact Hr2 |]; [emits |].
  intros ? h3 Hr3. eapply guarded_fetch; [| exact Hr3]. intros ?. late.
Qed.

Lemma guarded_update i region url vcpu mem h h' r :
  update_enclave_image_impl self i region url vcpu mem h = (h', r) -> exists l, h' = l ++ h /\ guarded self url h l.
Proof.
  unfold update_enclave_image_impl. intros Hrun. eapply guarded_from; [| exact Hrun |]; [emits |].
  intros sess h1 Hr. eapply guarded_from; [| exact Hr |]; [emits |].
  intros [stdout stderr] h2 Hr2. destruct (is_empty stderr && String.eqb stdout url).
  - injection Hr2 as <- <-. exists []. split; [done |]. by apply guarded_quiet.
  - eapply guarded_fetch; [| exact Hr2]. intros ?. late.
Qed.

End lemmas.
