(* ===== verification/AwsAccount.v ===== *)
(** * Control plane: the AWS account

    The requests of the provider against an account, in each region its
    instances and its elastic ips, which the requests describe and change,
    while instances settle in their states by themselves.  [Ec2Requests] is
    what EC2 promises at any time: lists may be stale, and a request that
    fails may have had its effect.  [Ec2] is EC2 while it is consistent. *)

From S2P Require Import Prelude Text Io Market MarketInfra MarketCloud Aws AwsHost AwsProvider AwsTrace.

(** ** The account *)

Record Machine := mkMachine {
  machine_tags : list Tag;
  machine_state : string;
  machine_ip : option string
}.

(** An elastic ip; [address_use] is its association, and the instance. *)
Record Address := mkAddress {
  address_ip : string;
  address_tag_list : list Tag;
  address_use : option (string * string)
}.

Record Account := mkAccount { machines : gmap string Machine; addresses : gmap string Address }.

Definition tag_matches (f : Filter) (t : Tag) : bool :=
  String.eqb (filter_name f) ("tag:" +:+ tag_key t) && String.eqb (filter_value f) (tag_value t).

(** A resource with these tags, on the instance [id], passes the filters. *)
Definition passes (id : option string) (tags : list Tag) (filters : list Filter) : bool :=
  forallb (fun f => existsb (tag_matches f) tags
    || String.eqb (filter_name f) "instance-id" && bool_decide (id = Some (filter_value f))) filters.

Definition shown_machine (i : string) (m : Machine) : Ec2Instance :=
  mkEc2Instance (Some i) (Some (Some (machine_state m))) (machine_ip m).
Definition shown_address (id : string) (a : Address) : Ec2Address :=
  mkEc2Address (Some id) (fst <$> address_use a) (Some (address_ip a)).

Definition instance_states : list string :=
  ["pending"; "running"; "shutting-down"; "terminated"; "stopping"; "stopped"]%string.

(** Transitional states settle. *)
Definition settles (s s' : string) : Prop :=
  s = s' \/ (s, s') ∈ [("pending", "running"); ("shutting-down", "terminated"); ("stopping", "stopped")]%string.

(** What an account becomes by itself; a terminated instance may vanish. *)
Definition evolves (a b : Account) : Prop :=
  addresses b = addresses a /\
  (forall i m', machines b !! i = Some m' -> exists m, machines a !! i = Some m /\
     machine_tags m' = machine_tags m /\ settles (machine_state m) (machine_state m')) /\
  (forall i m, machines a !! i = Some m -> machine_state m = "terminated"%string \/ is_Some (machines b !! i)).

Definition set_state (s : string) (m : Machine) : Machine := mkMachine (machine_tags m) s (machine_ip m).
Definition shut_down (m : Machine) : Machine :=
  if String.eqb (machine_state m) "terminated" then m else set_state "shutting-down" m.
Definition set_use (u : option (string * string)) (a : Address) : Address :=
  mkAddress (address_ip a) (address_tag_list a) u.
Definition unless_associated (s : string) (a : Address) : Address :=
  match address_use a with Some (s', _) => if String.eqb s s' then set_use None a else a | None => a end.

Section requests.
Context `{T : AwsTypes}.

(** What a request that succeeds does to the account of its region. *)
Definition effect (r : Request) : Resp r -> Account -> Account -> Prop :=
  match r with
  | run_instances _ rq => fun l a a' => exists x i, l = [x] /\ ec2_instance_id x = Some i /\
      machines a !! i = None /\
      a' = mkAccount (<[i := mkMachine (run_tags rq) "pending" None]> (machines a)) (addresses a)
  | terminate_instances _ i => fun _ a a' =>
      a' = mkAccount (alter shut_down i (machines a)) (addresses a)
  | allocate_address _ tags => fun x a a' => exists id ip, allocation_id x = Some id /\ public_ip x = Some ip /\
      addresses a !! id = None /\ a' = mkAccount (machines a) (<[id := mkAddress ip tags None]> (addresses a))
  | associate_address_to _ id i => fun _ a a' => exists s, is_Some (addresses a !! id) /\
      a' = mkAccount (machines a) (alter (set_use (Some (s, i))) id (addresses a))
  | disassociate_address_of _ s => fun _ a a' =>
      a' = mkAccount (machines a) (unless_associated s <$> addresses a)
  | release_address_of _ id => fun _ a a' => a' = mkAccount (machines a) (delete id (addresses a))
  | _ => fun _ a a' => a' = a
  end.

Definition region_of (r : Request) : option string :=
  match r with
  | run_instances region _ | terminate_instances region _ | allocate_address region _
  | associate_address_to region _ _ | disassociate_address_of region _ | release_address_of region _ => Some region
  | _ => None
  end.

End requests.

Section account.
Context `{A : AwsApi}.

(** What EC2 promises of its requests: one that succeeds has had its effect,
    one that fails may have had it all the same. *)
Class Ec2Requests := {
  account : list Request -> string -> Account;
  request_law h region r :
    if bool_decide (region_of r = Some region)
    then match answer h r with
         | inr x => exists a, effect r x (account h region) a /\ evolves a (account (r :: h) region)
         | inl _ => evolves (account h region) (account (r :: h) region) \/
             exists x a, effect r x (account h region) a /\ evolves a (account (r :: h) region)
         end
    else evolves (account h region) (account (r :: h) region);
  state_law h region i m : machines (account h region) !! i = Some m -> machine_state m ∈ instance_states
}.

(** EC2 while it is consistent: a request that fails has had no effect, and a
    list shows the account as it is. *)
Class Ec2 := {
  ec2_requests :: Ec2Requests;
  failure_law h region r e : answer h r = inl e -> evolves (account h region) (account (r :: h) region);
  describe_instances_law h region fs l : answer h (describe_instances region fs) = inr l ->
    Forall (fun g => g <> []) l /\
    forall x, x ∈ concat l <-> exists i m, machines (account h region) !! i = Some m /\
      passes (Some i) (machine_tags m) fs = true /\ x = shown_machine i m;
  describe_addresses_law h region fs l : answer h (describe_addresses region fs) = inr l ->
    forall x, x ∈ l <-> exists id a, addresses (account h region) !! id = Some a /\
      passes (snd <$> address_use a) (address_tag_list a) fs = true /\ x = shown_address id a
}.

End account.

Arguments Ec2Requests {A}.
Arguments Ec2 {A}.

(** What belongs to a job. *)
Definition job_machine (a : Account) (job : JobId) (i : string) (m : Machine) : Prop :=
  machines a !! i = Some m /\ passes (Some i) (machine_tags m) (job_filters job) = true.
Definition job_address (a : Account) (job : JobId) (id : string) (x : Address) : Prop :=
  addresses a !! id = Some x /\ passes (snd <$> address_use x) (address_tag_list x) (job_filters job) = true.

(** No instance of the job is left but dead ones. *)
Definition all_dead (a : Account) (job : JobId) : Prop := forall i m,
  job_machine a job i m -> dead (machine_state m) = true.
(** At most one elastic ip belongs to the job. *)
Definition one_address (a : Account) (job : JobId) : Prop := forall id id' x x',
  job_address a job id x -> job_address a job id' x' -> id = id'.
(** The job has one instance that is not dead, [i], and it is alive. *)
Definition only_machine (a : Account) (job : JobId) (i : string) : Prop :=
  (exists m, job_machine a job i m /\ alive (machine_state m) = true) /\
  forall j m, job_machine a job j m -> j <> i -> dead (machine_state m) = true.
(** No instance of the job is dead, and at most one is not. *)
Definition tidy (a : Account) (job : JobId) : Prop :=
  (forall i m, job_machine a job i m -> dead (machine_state m) = false) /\
  (forall i j m m', job_machine a job i m -> job_machine a job j m' -> i = j).

(** In general a list shows a change only after a while.  The list of the
    instances of the job at [h] is current; the lists of the elastic ips of the
    job made between [h] and [h'] name the current ones. *)
Section listings.
Context `{A : AwsApi} `{E : !Ec2Requests}.
Variables (region : string) (job : JobId).

Definition instances_current (h : list Request) : Prop := forall l,
  answer h (describe_instances region (job_filters job)) = inr l ->
  Forall (fun g => g <> []) l /\
  forall x, x ∈ concat l <-> exists i m, job_machine (account h region) job i m /\ x = shown_machine i m.

Definition addresses_current (h : list Request) : Prop := forall l,
  answer h (describe_addresses region (job_filters job)) = inr l ->
  forall id, (exists x, x ∈ l /\ allocation_id x = Some id) <-> exists y, job_address (account h region) job id y.

Definition addresses_current_in (h h' : list Request) : Prop := forall g,
  h `suffix_of` g -> describe_addresses region (job_filters job) :: g `suffix_of` h' -> addresses_current g.

End listings.

(** ** What happens to the instances *)

(** No instance of [b] is new, and a dead one stays dead. *)
Definition ages (a b : Account) : Prop := forall i m', machines b !! i = Some m' ->
  exists m, machines a !! i = Some m /\ machine_tags m' = machine_tags m /\
    (dead (machine_state m) = true -> dead (machine_state m') = true).
(** An instance that is alive stays so. *)
Definition stays (a b : Account) : Prop := forall i m, machines a !! i = Some m -> alive (machine_state m) = true ->
  exists m', machines b !! i = Some m' /\ machine_tags m' = machine_tags m /\ alive (machine_state m') = true.
(** The elastic ips are the same, up to their use. *)
Definition same_owners (a b : Account) : Prop :=
  forall id, address_tag_list <$> addresses b !! id = address_tag_list <$> addresses a !! id.

#[export] Instance ages_preorder : PreOrder ages.
Proof.
  split; [by intros a i m; exists m |]. intros a b c Hab Hbc i m'' (m' & Hm' & Ht & Hd)%Hbc.
  apply Hab in Hm' as (m & Hm & Ht' & Hd'). exists m. split_and!; [done | by rewrite Ht | auto].
Qed.

#[export] Instance stays_preorder : PreOrder stays.
Proof.
  split; [by intros a i m; exists m |]. intros a b c Hab Hbc i m Hm Ha.
  destruct (Hab i m Hm Ha) as (m' & Hm' & Ht & Ha'). destruct (Hbc i m' Hm' Ha') as (m'' & Hm'' & Ht' & Ha'').
  exists m''. split_and!; [done | by rewrite Ht' | done].
Qed.

#[export] Instance same_owners_preorder : PreOrder same_owners.
Proof. split; [done |]. intros a b c Hab Hbc id. by rewrite Hbc. Qed.

Lemma ages_machines a b : machines b = machines a -> ages a b.
Proof. intros He i m. rewrite He. by exists m. Qed.

Lemma stays_machines a b : machines b = machines a -> stays a b.
Proof. intros He i m. rewrite He. by exists m. Qed.

(** Reachable states of an instance, by cases. *)
Lemma settles_cases s s' : settles s s' ->
  (dead s = true -> dead s' = true) /\ (alive s = true -> alive s' = true).
Proof.
  intros [-> | Hin]; [done |]. rewrite !elem_of_cons, elem_of_nil in Hin. naive_solver.
Qed.

Lemma evolves_ages a b : evolves a b -> ages a b.
Proof.
  intros (_ & Hb & _) i m' Hm'. destruct (Hb i m' Hm') as (m & Hm & Ht & Hs). exists m.
  split_and!; [done | done | by apply settles_cases].
Qed.

Lemma evolves_stays a b : evolves a b -> stays a b.
Proof.
  intros (_ & Hb & Hf) i m Hm Ha. destruct (Hf i m Hm) as [Ht | [m' Hm']]; [by rewrite Ht in Ha |].
  destruct (Hb i m' Hm') as (m0 & Hm0 & Ht & Hs). simplify_eq. exists m'.
  split_and!; [done | done | by apply settles_cases in Hs as [_ Hs]; apply Hs].
Qed.

Lemma evolves_owners a b : evolves a b -> same_owners a b.
Proof. intros (He & _) id. by rewrite He. Qed.

(** Which requests change what. *)
Definition is_run `{AwsTypes} (r : Request) : bool := match r with run_instances _ _ => true | _ => false end.
Definition is_term `{AwsTypes} (r : Request) : bool := match r with terminate_instances _ _ => true | _ => false end.
Definition is_owner `{AwsTypes} (r : Request) : bool :=
  match r with allocate_address _ _ | release_address_of _ _ => true | _ => false end.
Definition is_ip `{AwsTypes} (r : Request) : bool :=
  match r with associate_address_to _ _ _ | disassociate_address_of _ _ => true | _ => is_owner r end.

(** A request that changes nothing. *)
Definition calm `{AwsTypes} (r : Request) : Prop := is_run r || is_term r || is_ip r = false.

Section ec2.
Context `{A : AwsApi} `{E : !Ec2Requests}.

Lemma request_split h region r : evolves (account h region) (account (r :: h) region) \/
  exists x a, region_of r = Some region /\ effect r x (account h region) a /\ evolves a (account (r :: h) region).
Proof.
  pose proof (request_law h region r) as Hl. case_bool_decide; [| by left].
  destruct (answer h r) as [e | x]; [destruct Hl as [Hl | (x & a & He & Hev)]; [by left |] | destruct Hl as (a & He & Hev)];
    right; by exists x, a.
Qed.

Lemma ages_request h region r : is_run r = false -> ages (account h region) (account (r :: h) region).
Proof.
  intros Hr. destruct (request_split h region r) as [Hev | (x & a & _ & He & Hev)]; [by apply evolves_ages |].
  transitivity a; [| by apply evolves_ages]. clear Hev. destruct r; cbn in He; try done; try (by subst; apply ages_machines).
  - subst a. intros i m'. cbn [machines]. destruct (decide (i = id)) as [-> |].
    + rewrite lookup_alter_eq. destruct (machines _ !! id) as [m |]; [| by intros [=]]. intros [= <-]. exists m.
      unfold shut_down. by destruct (String.eqb (machine_state m) _).
    + rewrite lookup_alter_ne by done. intros Hm. by exists m'.
  - destruct He as (? & ? & _ & _ & _ & ->). by apply ages_machines.
  - destruct He as (? & _ & ->). by apply ages_machines.
Qed.

Lemma stays_request h region r : is_term r = false -> stays (account h region) (account (r :: h) region).
Proof.
  intros Hr. destruct (request_split h region r) as [Hev | (x & a & _ & He & Hev)]; [by apply evolves_stays |].
  transitivity a; [| by apply evolves_stays]. clear Hev. destruct r; cbn in He; try done; try (by subst; apply stays_machines).
  - destruct He as (x' & i & _ & _ & Hn & ->). intros j m Hm Ha. exists m. cbn.
    rewrite lookup_insert_ne by congruence. done.
  - destruct He as (? & ? & _ & _ & _ & ->). by apply stays_machines.
  - destruct He as (? & _ & ->). by apply stays_machines.
Qed.

Lemma owners_request h region r : is_owner r = false -> same_owners (account h region) (account (r :: h) region).
Proof.
  intros Hr. destruct (request_split h region r) as [Hev | (x & a & _ & He & Hev)]; [by apply evolves_owners |].
  transitivity a; [| by apply evolves_owners]. clear Hev. destruct r; cbn in He; try done; try (by subst).
  - by destruct He as (? & ? & _ & _ & _ & ->).
  - destruct He as (? & _ & ->). intros id'. cbn. destruct (decide (alloc_id = id')) as [-> |].
    + rewrite lookup_alter_eq. by destruct (addresses _ !! id').
    + by rewrite lookup_alter_ne.
  - subst a. intros id'. cbn. rewrite lookup_fmap. destruct (addresses _ !! id') as [[ip tags [[s i] |]] |]; [| done ..].
    unfold unless_associated. cbn. by destruct (String.eqb _ _).
Qed.

(** A preorder kept by the requests a computation makes is kept by it. *)
Lemma emits_account (R : Account -> Account -> Prop) `{!PreOrder R} (ok : Request -> Prop) region
  (Hok : forall h r, ok r -> R (account h region) (account (r :: h) region)) {B} (m : io _ _ B) h h' r :
  emits ok m -> m h = (h', r) -> R (account h region) (account h' region).
Proof.
  intros Hm (l & -> & Hl)%Hm. induction Hl as [| q l Hq Hl IH]; [done |]. cbn. etransitivity; [exact IH |]. by apply Hok.
Qed.

Lemma addresses_current_sub region job h h' g g' : addresses_current_in region job h h' ->
  h `suffix_of` g -> g' `suffix_of` h' -> addresses_current_in region job g g'.
Proof. intros Hc Hg Hg' k Hk Hk'. apply Hc; by etransitivity. Qed.

End ec2.

(** The lists of a consistent account are current. *)
Section consistent.
Context `{A : AwsApi} `{E : !Ec2}.

Lemma consistent_instances region job h : instances_current region job h.
Proof.
  intros l [Hl Hin]%describe_instances_law. split; [done |]. intros x. rewrite Hin. unfold job_machine. naive_solver.
Qed.

Lemma consistent_addresses region job h : addresses_current region job h.
Proof.
  intros l Hl id. pose proof (describe_addresses_law _ _ _ _ Hl) as Hin. split.
  - intros (x & (k & y & Hy & Hp & ->)%Hin & [= <-]). by exists y.
  - intros (y & Hy & Hp). exists (shown_address id y). split; [apply Hin; by exists id, y | done].
Qed.

End consistent.
