(* ===== verification/AwsOps.v ===== *)
(** * Control plane: what the provider's operations do to the account

    For every function of the provider the requests it makes, and from these
    and the contract of EC2 the effect of looking up, launching and
    terminating the instance of a job. *)

From S2P Require Import Prelude Text Io Market MarketInfra MarketCloud Aws AwsHost AwsProvider AwsTrace AwsAccount.

(** ** The requests of each function *)

#[export] Hint Extern 0 (calm _) => reflexivity : emits.
#[export] Hint Extern 0 (is_run _ = false) => reflexivity : emits.
#[export] Hint Extern 0 (is_term _ = false) => reflexivity : emits.
#[export] Hint Extern 0 (is_owner _ = false) => reflexivity : emits.

Section calm.
Context `{A : AwsApi}.
Variable self : Aws.

Lemma calm_described_instance region id : emits calm (described_instance self region id).
Proof. unfold described_instance. emits. Qed.

Hint Resolve calm_described_instance : emits.

Lemma calm_get_instance_ip id region : emits calm (get_instance_ip self id region).
Proof. unfold get_instance_ip. emits. Qed.

Lemma calm_get_amis region family arch : emits calm (get_amis self region family arch).
Proof. unfold get_amis, get_community_amis. emits. Qed.

Lemma calm_get_security_group region : emits calm (get_security_group self region).
Proof. unfold get_security_group. emits. Qed.

Lemma calm_get_subnet region : emits calm (get_subnet self region).
Proof. unfold get_subnet. emits. Qed.

Lemma calm_get_job_instance_id job region : emits calm (get_job_instance_id self job region).
Proof. unfold get_job_instance_id. emits. Qed.

Lemma calm_get_job_elastic_ip job region : emits calm (get_job_elastic_ip self job region).
Proof. unfold get_job_elastic_ip. emits. Qed.

Lemma calm_get_instance_elastic_ip id region : emits calm (get_instance_elastic_ip self id region).
Proof. unfold get_instance_elastic_ip. emits. Qed.

Lemma calm_instance_shape types shape : emits calm (instance_shape types shape).
Proof. revert shape. induction types as [| t types IH]; intros shape; cbn [instance_shape]; emits. Qed.

Lemma calm_ssh_exec sess cmd : emits calm (ssh_exec sess cmd).
Proof. unfold ssh_exec. emits. Qed.

Hint Resolve calm_get_instance_ip calm_get_amis calm_get_security_group calm_get_subnet calm_get_job_instance_id
  calm_get_job_elastic_ip calm_get_instance_elastic_ip calm_instance_shape calm_ssh_exec : emits.

Lemma calm_ssh_silent sess c e cmd : emits calm (ssh_silent sess c e cmd).
Proof. unfold ssh_silent. emits. Qed.

Lemma calm_ssh_bare sess e cmd : emits calm (ssh_bare sess e cmd).
Proof. unfold ssh_bare. emits. Qed.

Lemma calm_ssh_query sess c e cmd : emits calm (ssh_query sess c e cmd).
Proof. unfold ssh_query. emits. Qed.

Lemma calm_connect_instance id region : emits calm (connect_instance self id region).
Proof. unfold connect_instance, ssh_connect. emits. Qed.

Hint Resolve calm_ssh_silent calm_ssh_bare calm_ssh_query calm_connect_instance : emits.

Lemma calm_fetch_image sess url : emits calm (fetch_image self sess url).
Proof. unfold fetch_image, check_eif_blacklist_whitelist. emits. Qed.

Lemma calm_set_allocator sess vcpu mem : emits calm (set_allocator sess vcpu mem).
Proof. unfold set_allocator. emits. Qed.

Lemma calm_limit_bandwidth sess bw : emits calm (limit_bandwidth sess bw).
Proof. unfold limit_bandwidth. emits. Qed.

Lemma calm_add_rules sess rules wanted : emits calm (add_rules sess rules wanted).
Proof. induction wanted as [| [rule command] wanted IH]; cbn [add_rules]; emits. Qed.

Hint Resolve calm_fetch_image calm_set_allocator calm_limit_bandwidth calm_add_rules : emits.

Lemma calm_set_iptables sess query policy wanted : emits calm (set_iptables sess query policy wanted).
Proof. unfold set_iptables. emits. Qed.

Lemma calm_setup_logger sess : emits calm (setup_logger sess).
Proof. unfold setup_logger. emits. Qed.

Lemma calm_start_enclave sess vcpu mem debug : emits calm (start_enclave sess vcpu mem debug).
Proof. unfold start_enclave. emits. Qed.

Hint Resolve calm_set_iptables calm_setup_logger calm_start_enclave : emits.

Lemma calm_run_enclave_impl job family id region url vcpu mem bw debug :
  emits calm (run_enclave_impl self job family id region url vcpu mem bw debug).
Proof. unfold run_enclave_impl, run_enclave_salmon, run_enclave_tuna. emits. Qed.

Lemma calm_update_enclave_image_impl id region url vcpu mem :
  emits calm (update_enclave_image_impl self id region url vcpu mem).
Proof. unfold update_enclave_image_impl. emits. Qed.

(** The operations that change the account. *)
Abbreviation no_run := (fun r : Request => is_run r = false).
Abbreviation no_term := (fun r : Request => is_term r = false).

Lemma calm_no_run r : calm r -> is_run r = false.
Proof. by destruct r. Qed.
Lemma calm_no_term r : calm r -> is_term r = false.
Proof. by destruct r. Qed.
Lemma calm_no_owner r : calm r -> is_owner r = false.
Proof. by destruct r. Qed.

Lemma spin_down_no_run id job region : emits no_run (spin_down_instance self id job region).
Proof.
  unfold spin_down_instance, disassociate_address, release_address, terminate_instance.
  emits; (eapply emits_weaken; [exact calm_no_run |]); emits.
Qed.

Lemma launch_no_term job ty family arch region : emits no_term (launch_instance self job ty family arch region).
Proof. unfold launch_instance. emits; (eapply emits_weaken; [exact calm_no_term |]); emits. Qed.

Lemma post_spin_up_no_run job id region : emits no_run (post_spin_up self job id region).
Proof.
  unfold post_spin_up, allocate_ip_addr, associate_address. emits; (eapply emits_weaken; [exact calm_no_run |]); emits.
Qed.

Lemma post_spin_up_no_term job id region : emits no_term (post_spin_up self job id region).
Proof.
  unfold post_spin_up, allocate_ip_addr, associate_address. emits; (eapply emits_weaken; [exact calm_no_term |]); emits.
Qed.

End calm.

(** For a region the provider has a client for, its operations end without a
    panic. *)

Section ends.
Context `{A : AwsApi} `{J : EnclaveJson}.
Variable self : Aws.
Variable region : string.
Hypothesis Hregion : region ∈ clients self.
Lemma ends_connect_instance id : ends False (connect_instance self id region).
Proof using Hregion. unfold connect_instance, ssh_connect, get_instance_ip, described_instance. ends. Qed.

Lemma ends_ssh_exec sess cmd : ends False (ssh_exec sess cmd).
Proof using Hregion. unfold ssh_exec. ends. Qed.

Hint Resolve ends_connect_instance ends_ssh_exec : emits.

Lemma ends_ssh_silent sess c e cmd : ends False (ssh_silent sess c e cmd).
Proof using Hregion. unfold ssh_silent. ends. Qed.

Lemma ends_ssh_query sess c e cmd : ends False (ssh_query sess c e cmd).
Proof using Hregion. unfold ssh_query. ends. Qed.

Lemma ends_ssh_bare sess e cmd : ends False (ssh_bare sess e cmd).
Proof using Hregion. unfold ssh_bare. ends. Qed.

Hint Resolve ends_ssh_silent ends_ssh_query ends_ssh_bare : emits.

Lemma ends_add_rules sess rules wanted : ends False (add_rules sess rules wanted).
Proof using Hregion. induction wanted as [| [rule command] wanted IH]; cbn [add_rules]; ends. Qed.

Lemma ends_fetch_image sess url : ends False (fetch_image self sess url).
Proof using Hregion. unfold fetch_image, check_eif_blacklist_whitelist. ends. Qed.

Hint Resolve ends_add_rules ends_fetch_image : emits.

Lemma ends_run_enclave job family id url vcpu mem bw debug :
  ends False (run_enclave_impl self job family id region url vcpu mem bw debug).
Proof using Hregion.
  unfold run_enclave_impl, run_enclave_salmon, run_enclave_tuna, set_allocator, limit_bandwidth, set_iptables,
    setup_logger, start_enclave. ends.
Qed.

Lemma ends_update id url vcpu mem : ends False (update_enclave_image_impl self id region url vcpu mem).
Proof using Hregion. unfold update_enclave_image_impl, start_enclave. ends. Qed.

Lemma ends_instance_shape types shape : ends False (instance_shape types shape).
Proof using Hregion. revert shape. induction types as [| t types IH]; intros shape; cbn [instance_shape]; ends. Qed.

Hint Resolve ends_instance_shape : emits.

Lemma ends_spin_down id job : ends False (spin_down_instance self id job region).
Proof using Hregion.
  unfold spin_down_instance, get_instance_elastic_ip, disassociate_address, get_job_elastic_ip, release_address,
    terminate_instance. ends.
Qed.

Hint Resolve ends_spin_down : emits.

Lemma ends_spin_up job ty family mem vcpu : ends False (spin_up_instance self job ty family region mem vcpu).
Proof using Hregion.
  unfold spin_up_instance, launch_instance, get_amis, get_community_amis, get_subnet, get_security_group,
    post_spin_up, allocate_ip_addr, get_job_elastic_ip, associate_address. ends.
Qed.
(** For a region the provider has, no operation panics. *)
Lemma provider_ends job id :
  ends False (get_job_instance_id self job region) /\ ends False (aws_check_instance_running self id region) /\
  ends False (aws_check_enclave_running self id region).
Proof using Hregion.
  unfold get_job_instance_id, aws_check_instance_running, aws_check_enclave_running, get_instance_state,
    described_instance, get_enclave_state. split_and!; ends.
Qed.
End ends.

(** ** Looking up *)

#[local] Arguments passes : simpl never.

Section spec.
Context `{A : AwsApi} `{E : !Ec2Requests}.
Variable self : Aws.

Lemma passes_job id id' tags job : passes id tags (job_filters job) = passes id' tags (job_filters job).
Proof. reflexivity. Qed.

Lemma get_job_instance_spec job region h h' (e : bool) i st : instances_current region job h ->
  get_job_instance_id self job region h = (h', Some (Ok (e, i, st))) ->
  h' = describe_instances region (job_filters job) :: h /\
  if e then exists m, job_machine (account h region) job i m /\ machine_state m = st
  else forall j m, ~ job_machine (account h region) job j m.
Proof.
  unfold get_job_instance_id. intros Hcur Hg. inv_run.
  match goal with H : answer _ _ = inr ?l |- _ => apply Hcur in H as [Hne Hin]; destruct l as [| g gs] end.
  - inv_run. simplify_eq. split; [done |]. intros j m Hm.
    assert (Hx : shown_machine j m ∈ concat []) by (apply Hin; by exists j, m). by apply elem_of_nil in Hx.
  - inv_run. simplify_eq. split; [done |]. apply Forall_cons in Hne as [Hg _]. destruct g as [| x g]; [done |].
    cbn in *. simplify_eq.
    match goal with H : ec2_instance_id ?y = _ |- _ => destruct (proj1 (Hin y)) as (j & m & Hm & ->); [by left |] end.
    cbn in *. simplify_eq. by exists m.
Qed.

Lemma get_job_elastic_ip_spec job region h h' (e : bool) alloc ip : addresses_current_in region job h h' ->
  get_job_elastic_ip self job region h = (h', Some (Ok (e, alloc, ip))) ->
  h' = describe_addresses region (job_filters job) :: h /\
  if e then exists x, job_address (account h region) job alloc x
  else forall id x, ~ job_address (account h region) job id x.
Proof.
  unfold get_job_elastic_ip. intros Hcur Hg. inv_run.
  match goal with H : answer _ _ = inr ?l |- _ => rename H into Hl; destruct l as [| x xs] end; cbn in *; inv_run; simplify_eq;
    (split; [done |]); pose proof (Hcur h (reflexivity _) (reflexivity _) _ Hl) as Hin.
  - intros id x Hx. destruct (proj2 (Hin id)) as (y & Hy & _); [by exists x |]. by apply elem_of_nil in Hy.
  - apply Hin. exists x. split; [by left | done].
Qed.

(** ** Requests and the account *)

Lemma run_ages region {B} (m : io _ _ B) h h' r :
  emits (fun r => is_run r = false) m -> m h = (h', r) -> ages (account h region) (account h' region).
Proof. apply emits_account; [exact _ |]. intros. by apply ages_request. Qed.

Lemma run_stays region {B} (m : io _ _ B) h h' r :
  emits (fun r => is_term r = false) m -> m h = (h', r) -> stays (account h region) (account h' region).
Proof. apply emits_account; [exact _ |]. intros. by apply stays_request. Qed.

Lemma run_owners region {B} (m : io _ _ B) h h' r :
  emits (fun r => is_owner r = false) m -> m h = (h', r) -> same_owners (account h region) (account h' region).
Proof. apply emits_account; [exact _ |]. intros. by apply owners_request. Qed.

Lemma run_calm region {B} (m : io _ _ B) h h' r : emits calm m -> m h = (h', r) ->
  ages (account h region) (account h' region) /\ stays (account h region) (account h' region) /\
  same_owners (account h region) (account h' region).
Proof.
  intros Hm Hr. split_and!;
    [eapply run_ages | eapply run_stays | eapply run_owners]; try exact Hr; (eapply emits_weaken; [| exact Hm]);
    [exact calm_no_run | exact calm_no_term | exact calm_no_owner].
Qed.

Lemma ages_job a b job i m' : ages a b -> job_machine b job i m' ->
  exists m, job_machine a job i m /\ (dead (machine_state m) = true -> dead (machine_state m') = true).
Proof. intros Hab [(m & Hm & Ht & Hd)%Hab Hp]. exists m. rewrite Ht in Hp. by split. Qed.

Lemma stays_job a b job i m : stays a b -> job_machine a job i m -> alive (machine_state m) = true ->
  exists m', job_machine b job i m' /\ alive (machine_state m') = true.
Proof. intros Hab [Hm Hp] Ha. destruct (Hab i m Hm Ha) as (m' & Hm' & Ht & Ha'). exists m'. by rewrite <- Ht in Hp. Qed.

Lemma ages_all_dead a b job : ages a b -> all_dead a job -> all_dead b job.
Proof. intros Hab Ha i m' (m & Hm & Hd)%(ages_job _ _ _ _ _ Hab). by apply Hd, (Ha i). Qed.

Lemma owners_job a b job id x' : same_owners a b -> job_address b job id x' -> exists x, job_address a job id x.
Proof.
  intros Hab [Hx Hp]. specialize (Hab id). rewrite Hx in Hab. cbn in Hab.
  destruct (addresses a !! id) as [x |] eqn:Ha; [| done]. injection Hab as Ht. exists x. split; [done |].
  rewrite <- Ht. exact Hp.
Qed.

Lemma owners_one a b job : same_owners a b -> one_address a job -> one_address b job.
Proof.
  intros Hab Ha id id' x x' (y & Hy)%(owners_job _ _ _ _ _ Hab) (y' & Hy')%(owners_job _ _ _ _ _ Hab).
  exact (Ha _ _ _ _ Hy Hy').
Qed.

(** What a request that succeeded did. *)
Lemma request_done h region r x : answer h r = inr x -> region_of r = Some region ->
  exists a, effect r x (account h region) a /\ evolves a (account (r :: h) region).
Proof. intros Ha Hr. pose proof (request_law h region r) as Hl. rewrite Ha in Hl. by case_bool_decide. Qed.

(** ** Terminating *)

Lemma terminate_spec id region h h' x : terminate_instance self id region h = (h', Some (Ok x)) ->
  addresses (account h' region) = addresses (account h region) /\
  forall m, machines (account h' region) !! id = Some m -> dead (machine_state m) = true.
Proof.
  unfold terminate_instance. intros Ht. inv_run.
  match goal with H : answer _ _ = _ |- _ => destruct (request_done _ region _ _ H eq_refl) as (a & He & Hev) end.
  cbn in He. destruct Hev as (Ha & Hb & _). subst a. split; [exact Ha |].
  intros m (m0 & Hm0 & _ & [Hs _]%settles_cases)%Hb. apply Hs. cbn [machines] in Hm0. rewrite lookup_alter_eq in Hm0.
  destruct (machines _ !! id) as [m1 |]; [| done]. injection Hm0 as <-.
  unfold shut_down. by destruct (String.eqb_spec (machine_state m1) "terminated") as [-> |].
Qed.

Lemma release_spec alloc region h h' x : release_address self alloc region h = (h', Some (Ok x)) ->
  addresses (account h' region) = delete alloc (addresses (account h region)).
Proof.
  unfold release_address. intros Ht. inv_run.
  match goal with H : answer _ _ = _ |- _ => destruct (request_done _ region _ _ H eq_refl) as (a & He & Hev) end.
  cbn in He. destruct Hev as (Ha & _). by subst a.
Qed.

(** Taking the elastic ip from the instance, and what is done after. *)
Lemma disassociated id region h h1 h2 (e : bool) i s u : get_instance_elastic_ip self id region h = (h1, Some (Ok (e, i, s))) ->
  (if e then with_context "could not disassociate address" (disassociate_address self s region) else mret tt) h1
    = (h2, Some (Ok u)) ->
  h `suffix_of` h2 /\ same_owners (account h region) (account h2 region).
Proof.
  intros H1 H2. pose proof (calm_get_instance_elastic_ip self id region) as Hc.
  assert (Hn : emits (fun r => is_owner r = false)
    (if e then with_context "could not disassociate address" (disassociate_address self s region) else mret tt)).
  { unfold disassociate_address. destruct e; emits. }
  split; etransitivity; [exact (emits_suffix _ _ _ _ _ Hc H1) | exact (emits_suffix _ _ _ _ _ Hn H2) | |].
  - eapply run_calm; [exact Hc | exact H1].
  - exact (run_owners region _ _ _ _ Hn H2).
Qed.

Lemma released alloc id region h h1 h2 (e : bool) u x :
  (if e then with_context "could not release address" (release_address self alloc region) else mret tt) h
    = (h1, Some (Ok u)) ->
  terminate_instance self id region h1 = (h2, Some (Ok x)) -> h `suffix_of` h2.
Proof.
  intros H1 H2. transitivity h1; (eapply (emits_suffix (fun r => is_run r = false)); [| first [exact H1 | exact H2]]).
  - unfold release_address. destruct e; emits.
  - unfold terminate_instance. emits.
Qed.

Lemma spin_down_spec id job region h h' x : spin_down_instance self id job region h = (h', Some (Ok x)) ->
  ages (account h region) (account h' region) /\
  (forall m, machines (account h' region) !! id = Some m -> dead (machine_state m) = true) /\
  (addresses_current_in region job h h' -> one_address (account h region) job ->
     forall i x, ~ job_address (account h' region) job i x).
Proof.
  intros Hd. split; [eapply run_ages; [apply spin_down_no_run | exact Hd] |].
  unfold spin_down_instance in Hd.
  apply io_bind_inv in Hd as (h1 & [[e1 i1] s1] & H1%context_Ok & Hd).
  apply io_bind_inv in Hd as (h2 & u & H2 & Hd).
  apply io_bind_inv in Hd as (h3 & [[e3 alloc] ip] & H3%context_Ok & Hd).
  apply io_bind_inv in Hd as (h4 & u' & H4 & H5%context_Ok).
  destruct (disassociated _ _ _ _ _ _ _ _ _ H1 H2) as [Hx2 Ho1]. pose proof (released _ _ _ _ _ _ _ _ _ H4 H5) as Hx3.
  apply terminate_spec in H5 as [Ha5 Hm]. split; [exact Hm |]. intros Hcur Hone i y [Hy Hp].
  assert (Ho3 : same_owners (account h2 region) (account h3 region)).
  { eapply run_calm; [| exact H3]. apply calm_get_job_elastic_ip. }
  apply get_job_elastic_ip_spec in H3 as [-> Hspec]; [| by apply (addresses_current_sub _ _ _ _ _ _ Hcur)].
  rewrite Ha5 in Hy. destruct e3; inv_run.
  - destruct Hspec as [z Hz]. apply release_spec in H4. rewrite H4 in Hy.
    apply lookup_delete_Some in Hy as [Hne Hy]. apply Hne.
    destruct (owners_job _ _ job i y Ho3 (conj Hy Hp)) as [y' Hy'].
    exact (owners_one _ _ _ Ho1 Hone _ _ _ _ Hz Hy').
  - destruct (owners_job _ _ job i y Ho3 (conj Hy Hp)) as [y' Hy']. by apply (Hspec i y').
Qed.

(** ** Launching *)

(** No instance but [i] is new, and a dead one stays dead. *)
Definition ages_but (i : string) (a b : Account) : Prop := forall j m', machines b !! j = Some m' -> j <> i ->
  exists m, machines a !! j = Some m /\ machine_tags m' = machine_tags m /\
    (dead (machine_state m) = true -> dead (machine_state m') = true).

Lemma ages_but_l i a b c : ages a b -> ages_but i b c -> ages_but i a c.
Proof.
  intros Hab Hbc j m'' Hm'' Hj. destruct (Hbc j m'' Hm'' Hj) as (m' & (m & Hm & Ht & Hd)%Hab & Ht' & Hd').
  exists m. split_and!; [done | by rewrite Ht' | auto].
Qed.

Lemma ages_but_r i a b c : ages_but i a b -> ages b c -> ages_but i a c.
Proof.
  intros Hab Hbc j m'' (m' & Hm' & Ht & Hd)%Hbc Hj. destruct (Hab j m' Hm' Hj) as (m & Hm & Ht' & Hd').
  exists m. split_and!; [done | by rewrite Ht | auto].
Qed.

Lemma ages_but_dead i a b job j m : ages_but i a b -> all_dead a job ->
  job_machine b job j m -> j <> i -> dead (machine_state m) = true.
Proof.
  intros Hab Ha [Hm Hp] Hj. destruct (Hab j m Hm Hj) as (m0 & Hm0 & Ht & Hd). apply Hd, (Ha j).
  split; [done | by rewrite <- Ht].
Qed.

Lemma passes_instance_tags id job : passes id (instance_tags job) (job_filters job) = true.
Proof. unfold passes, tag_matches. cbn. by rewrite !String.eqb_refl. Qed.

Lemma passes_address_tags id job : passes id (address_tags job) (job_filters job) = true.
Proof. unfold passes, tag_matches. cbn. by rewrite !String.eqb_refl. Qed.

Lemma launch_spec job ty family arch region h h' i :
  launch_instance self job ty family arch region h = (h', Some (Ok i)) ->
  (exists m, job_machine (account h' region) job i m /\ alive (machine_state m) = true) /\
  ages_but i (account h region) (account h' region) /\
  same_owners (account h region) (account h' region).
Proof.
  unfold launch_instance. intros Hl.
  apply io_bind_inv in Hl as (h1 & ami & H1%context_Ok & Hl).
  apply io_bind_inv in Hl as (h2 & subnet & H2%context_Ok & Hl).
  apply io_bind_inv in Hl as (h3 & group & H3%context_Ok & Hl).
  apply (run_calm region _ _ _ _ (calm_get_amis _ _ _ _)) in H1 as (Ha1 & _ & Ho1).
  apply (run_calm region _ _ _ _ (calm_get_subnet _ _)) in H2 as (Ha2 & _ & Ho2).
  apply (run_calm region _ _ _ _ (calm_get_security_group _ _)) in H3 as (Ha3 & _ & Ho3).
  inv_run. match goal with H : answer _ _ = _ |- _ =>
    destruct (request_done _ region _ _ H eq_refl) as (a & (x & k & -> & Hk & Hn & Ha) & Hev) end.
  cbn [head] in *. simplify_eq. split_and!.
  - destruct (evolves_stays _ _ Hev i (mkMachine (instance_tags job) "pending" None)) as (m & Hm & Ht & Hs);
      [apply lookup_insert_eq | done |].
    exists m. split; [| done]. split; [done |]. rewrite Ht. apply passes_instance_tags.
  - eapply ages_but_l; [by etransitivity; [exact Ha1 | etransitivity] |].
    eapply ages_but_r; [| by apply evolves_ages]. intros j m' Hm' Hj. cbn in Hm'.
    rewrite lookup_insert_ne in Hm' by done. by exists m'.
  - etransitivity; [exact Ho1 |]. etransitivity; [exact Ho2 |]. etransitivity; [exact Ho3 |].
    by apply evolves_owners in Hev.
Qed.

Lemma allocate_spec job region h h' alloc ip :
  addresses_current_in region job h h' -> allocate_ip_addr self job region h = (h', Some (Ok (alloc, ip))) ->
  (exists x, job_address (account h' region) job alloc x) /\
  (one_address (account h region) job -> one_address (account h' region) job).
Proof.
  unfold allocate_ip_addr. intros Hcur Hl. apply io_bind_inv in Hl as (h1 & [[e alloc'] ip'] & H1%context_Ok & Hl).
  pose proof (run_calm region _ _ _ _ (calm_get_job_elastic_ip _ _ _) H1) as (_ & _ & Ho).
  assert (Hx1 : h1 `suffix_of` h').
  { eapply (emits_suffix (fun r => is_run r = false)); [| exact Hl]. destruct e; emits. }
  apply get_job_elastic_ip_spec in H1 as [-> Hspec]; [| by apply (addresses_current_sub _ _ _ _ _ _ Hcur)].
  destruct e; inv_run; simplify_eq.
  - destruct Hspec as (x & Hx & Hp). specialize (Ho alloc) as Hal. rewrite Hx in Hal.
    destruct (addresses (account (_ :: h) region) !! alloc) as [y |] eqn:Hy; [| done]. injection Hal as Ht.
    split; [| by apply owners_one]. exists y. split; [done | by rewrite Ht].
  - match goal with H : answer _ _ = _ |- _ =>
      destruct (request_done _ region _ _ H eq_refl) as (a & (k & kip & Hk & _ & Hn & Ha) & Hev) end.
    simplify_eq. pose proof (evolves_owners _ _ Hev) as Hev'. destruct Hev as (Haddr & _). split.
    + exists (mkAddress kip (address_tags job) None). split; [| apply passes_address_tags].
      rewrite Haddr. apply lookup_insert_eq.
    + intros _ id id' x x' Hx Hx'.
      assert (Hnew : forall j y, job_address (account (allocate_address region (address_tags job)
        :: describe_addresses region (job_filters job) :: h) region) job j y -> j = alloc).
      { intros j y Hy. destruct (decide (j = alloc)) as [| Hj]; [done |]. exfalso.
        destruct (owners_job _ _ _ _ _ Hev' Hy) as [z [Hz Hp]]. cbn in Hz. rewrite lookup_insert_ne in Hz by done.
        destruct (owners_job _ _ job j z Ho (conj Hz Hp)) as [w Hw]. by apply (Hspec j w). }
      by rewrite (Hnew _ _ Hx), (Hnew _ _ Hx').
Qed.

Lemma post_spin_up_spec job region i h h' x : addresses_current_in region job h h' -> post_spin_up self job i region h = (h', Some (Ok x)) ->
  (exists id y, job_address (account h' region) job id y /\ snd <$> address_use y = Some i) /\
  (one_address (account h region) job -> one_address (account h' region) job).
Proof.
  unfold post_spin_up, associate_address. intros Hcur Hl.
  apply io_bind_inv in Hl as (h1 & [alloc ip] & H1%context_Ok & Hl). inv_run.
  apply allocate_spec in H1 as [(y & Hy & Hp) Hone];
    [| apply (addresses_current_sub _ _ _ _ _ _ Hcur); [done | by eexists [_]]].
  match goal with H : answer _ _ = _ |- _ =>
      pose proof (owners_request h1 region (associate_address_to region alloc i) eq_refl) as Ho;
      destruct (request_done _ region _ _ H eq_refl) as (a & (s & _ & Ha) & Haddr & _) end.
  split; [| intros Hb; by apply (owners_one _ _ _ Ho), Hone].
  exists alloc, (set_use (Some (s, i)) y). split; [| done]. split; [| exact Hp].
  rewrite Haddr, Ha. cbn. by rewrite lookup_alter_eq, Hy.
Qed.

Lemma spin_up_spec job ty family region mem vcpu h h' i : addresses_current_in region job h h' ->
  spin_up_instance self job ty family region mem vcpu h = (h', Some (Ok i)) ->
  (exists m, job_machine (account h' region) job i m /\ alive (machine_state m) = true) /\
  ages_but i (account h region) (account h' region) /\
  (exists id y, job_address (account h' region) job id y /\ snd <$> address_use y = Some i) /\
  (one_address (account h region) job -> one_address (account h' region) job).
Proof.
  unfold spin_up_instance. intros Hcur Hl.
  apply io_bind_inv in Hl as (h1 & u & [-> _]%client_Ok & Hl).
  apply io_bind_inv in Hl as (h2 & types & H2%context_Ok & Hl).
  apply io_bind_inv in Hl as (h3 & [[arch cpus] m] & H3 & Hl).
  destruct (_ || _); [by inv_run |].
  apply io_bind_inv in Hl as (h4 & k & H4%context_Ok & Hl).
  apply io_bind_inv in Hl as (h5 & u' & H5 & Hl).
  apply io_bind_inv in Hl as (h6 & res & H6 & Hl).
  destruct res as [err |]; [by apply io_bind_inv in Hl as (? & ? & _ & ?) |].
  injection Hl as -> ->.
  assert (H6' : exists x, post_spin_up self job i region h5 = (h', Some (Ok x))).
  { unfold result_of in H6. destruct (post_spin_up _ _ _ _ _) as [h0 [[x | |] |]]; simplify_eq; by eexists. }
  clear H6. destruct H6' as [x H6].
  assert (Hc2 : emits calm (call (describe_instance_types region ty))) by emits.
  assert (Hc5 : emits calm (pause 100)) by emits.
  assert (Hpre : ages (account h region) (account h3 region) /\ same_owners (account h region) (account h3 region)).
  { destruct (run_calm region _ _ _ _ Hc2 H2) as (Ha2 & _ & Ho2).
    destruct (run_calm region _ _ _ _ (calm_instance_shape _ _) H3) as (Ha3 & _ & Ho3).
    split; by etransitivity. }
  destruct (run_calm region _ _ _ _ Hc5 H5) as (Ha5 & Hs5 & Ho5).
  pose proof (run_ages region _ _ _ _ (post_spin_up_no_run _ _ _ _) H6) as Ha6.
  pose proof (run_stays region _ _ _ _ (post_spin_up_no_term _ _ _ _) H6) as Hs6.
  assert (Hx : h `suffix_of` h5).
  { transitivity h2; [exact (emits_suffix _ _ _ _ _ Hc2 H2) |].
    transitivity h3; [exact (emits_suffix _ _ _ _ _ (calm_instance_shape _ _) H3) |].
    transitivity h4; [exact (emits_suffix _ _ _ _ _ (launch_no_term _ _ _ _ _ _) H4) |].
    exact (emits_suffix _ _ _ _ _ Hc5 H5). }
  apply launch_spec in H4 as ((m4 & Hm4 & Hal4) & Hb4 & Ho4).
  apply post_spin_up_spec in H6 as [Huse Hone]; [| by apply (addresses_current_sub _ _ _ _ _ _ Hcur)].
  split_and!.
  - destruct (stays_job _ _ _ _ _ (transitivity Hs5 Hs6) Hm4 Hal4) as (m' & Hm' & Hal'). by exists m'.
  - eapply ages_but_l; [apply Hpre |]. eapply ages_but_r; [exact Hb4 |]. by etransitivity.
  - exact Huse.
  - intros H. apply Hone, (owners_one _ _ _ Ho5), (owners_one _ _ _ Ho4). by apply (owners_one _ _ _ (proj2 Hpre)).
Qed.

(** ** The provider *)

Lemma provide_Ok {B} (m : io _ _ B) (h h' : list Request) x : provide m h = (h', Some x) -> m h = (h', Some (Ok x)).
Proof. unfold provide. by destruct (m h) as [h0 [[y | |] |]]; intros [= <- <-]. Qed.

Lemma provide_run {B} (m : io _ _ B) (h h' : list Request) r : provide m h = (h', r) -> exists r', m h = (h', r').
Proof. unfold provide. destruct (m h) as [h0 r0]. intros [= <- _]. by exists r0. Qed.

End spec.
