(* ===== verification/AwsToy.v ===== *)
(** * Control plane: a concrete AWS account

    An account that starts with given instances and addresses and obeys the
    contract of EC2, on instances whose shell answers as given. *)

From stdpp Require Import pretty.
From S2P Require Import Prelude Text Io Market MarketInfra MarketCloud Aws AwsHost AwsProvider AwsTrace AwsAccount.

Module ToyAws.

#[export] Instance toy_types : AwsTypes := {|
  TcpStream := unit; Session := unit; Channel := unit; PrivateKey := unit; PublicKey := unit; public_key k := k
|}.

Definition instance_name (h : list Request) : string := "i-" +:+ pretty (length h).
Definition alloc_name (h : list Request) : string := "eip-" +:+ pretty (length h).

(** The account after a request that succeeds. *)
Definition apply_request (h : list Request) (r : Request) (a : Account) : Account :=
  match r with
  | run_instances _ rq =>
      mkAccount (<[instance_name h := mkMachine (run_tags rq) "pending" None]> (machines a)) (addresses a)
  | terminate_instances _ i => mkAccount (alter shut_down i (machines a)) (addresses a)
  | allocate_address _ tags =>
      mkAccount (machines a) (<[alloc_name h := mkAddress "10.0.0.9" tags None]> (addresses a))
  | associate_address_to _ id i =>
      mkAccount (machines a) (alter (set_use (Some ("assoc"%string, i))) id (addresses a))
  | disassociate_address_of _ s => mkAccount (machines a) (unless_associated s <$> addresses a)
  | release_address_of _ id => mkAccount (machines a) (delete id (addresses a))
  | _ => a
  end.

(** A request that would clash with what is there fails. *)
Definition accepted (h : list Request) (r : Request) (a : Account) : bool :=
  match r with
  | run_instances _ _ => bool_decide (machines a !! instance_name h = None)
  | allocate_address _ _ => bool_decide (addresses a !! alloc_name h = None)
  | associate_address_to _ id _ => bool_decide (is_Some (addresses a !! id))
  | _ => true
  end.

Section toy.
(** The account at the start, in every region; and the shell. *)
Variables (start : Account) (shell : string -> string * string).

Fixpoint toy_account (h : list Request) (region : string) : Account :=
  match h with
  | [] => start
  | r :: h =>
      let a := toy_account h region in
      if bool_decide (region_of r = Some region) && accepted h r a then apply_request h r a else a
  end.

Definition shown_machines (a : Account) (fs : list Filter) : list (list Ec2Instance) :=
  (fun p => [shown_machine p.1 p.2]) <$>
    filter (fun p => passes (Some p.1) (machine_tags p.2) fs = true) (map_to_list (machines a)).
Definition shown_addresses (a : Account) (fs : list Filter) : list Ec2Address :=
  (fun p => shown_address p.1 p.2) <$>
    filter (fun p => passes (snd <$> address_use p.2) (address_tag_list p.2) fs = true) (map_to_list (addresses a)).

Definition toy_answer (h : list Request) (r : Request) : string + Resp r :=
  let accepted_in region := accepted h r (toy_account h region) in
  match r as r return (string -> bool) -> string + Resp r with
  | describe_instances region fs => fun _ => inr (shown_machines (toy_account h region) fs)
  | describe_addresses region fs => fun _ => inr (shown_addresses (toy_account h region) fs)
  | describe_images _ _ _ => fun _ => inr [mkEc2Image (Some "worker"%string) (Some "ami"%string)]
  | describe_security_groups _ _ => fun _ => inr [Some "sg"%string]
  | describe_subnets _ _ => fun _ => inr [Some "subnet"%string]
  | describe_key_pairs _ _ => fun _ => inr []
  | describe_instance_types _ _ => fun _ => inr [mkInstanceTypeInfo (Some ["arm64"%string]) (Some (Some 4)) (Some (Some 8192))]
  | run_instances region _ => fun ok =>
      if ok region then inr [mkEc2Instance (Some (instance_name h)) None None] else inl "clash"%string
  | allocate_address region _ => fun ok =>
      if ok region then inr (mkEc2Address (Some (alloc_name h)) None (Some "10.0.0.9"%string)) else inl "clash"%string
  | associate_address_to region _ _ => fun ok => if ok region then inr tt else inl "no address"%string
  | path_exists _ => fun _ => inr true
  | read_to_end _ => fun _ => inr []
  | read_openssh_file _ | random_key => fun _ => inr tt
  | tcp_connect _ | session_new | channel_session _ => fun _ => inr tt
  | read_stdout _ => fun _ => match h with channel_exec _ cmd :: _ => inr (shell cmd).1 | _ => inr EmptyString end
  | read_stderr _ => fun _ => match h with _ :: channel_exec _ cmd :: _ => inr (shell cmd).2 | _ => inr EmptyString end
  | _ => fun _ => inr tt
  end accepted_in.

#[local] Instance toy_api : AwsApi := {| aws_types := toy_types; answer := toy_answer |}.

Lemma evolves_refl a : evolves a a.
Proof.
  split; [done |]. split; [| by right].
  intros i m Hm. exists m. by split_and!; [| | left].
Qed.

Lemma toy_state_law h region i m :
  (forall i m, machines start !! i = Some m -> machine_state m ∈ instance_states) ->
  machines (toy_account h region) !! i = Some m -> machine_state m ∈ instance_states.
Proof.
  intros Hs. revert i m. induction h as [| r h IH]; [exact Hs |]. cbn [toy_account].
  destruct (_ && _); [| exact IH]. intros i m. destruct r; cbn [apply_request machines]; try exact (IH i m).
  - intros [[<- <-] | [_ Hm]]%lookup_insert_Some; [left | by apply (IH i m)].
  - intros [(<- & m0 & Hm0 & ->) | [_ Hm]]%lookup_alter_Some; [| by apply (IH i m)].
    unfold shut_down. destruct (String.eqb _ _); [by apply (IH id m0) | by right; right; left].
Qed.

(** A request that fails changes nothing. *)
Lemma toy_failure_law h region r e : toy_answer h r = inl e ->
  evolves (toy_account h region) (toy_account (r :: h) region).
Proof.
  intros He. assert (Hsame : toy_account (r :: h) region = toy_account h region); [| rewrite Hsame; apply evolves_refl].
  cbn [toy_account]. destruct (bool_decide (region_of r = Some region)) eqn:Hr; [| done]. cbn [andb].
  apply bool_decide_eq_true in Hr. destruct r; try discriminate Hr; injection Hr as ->; cbn [toy_answer] in He;
    try discriminate He; by destruct (accepted _ _ _).
Qed.

Lemma toy_request_law h region r :
  if bool_decide (region_of r = Some region)
  then match toy_answer h r with
       | inr x => exists a, effect r x (toy_account h region) a /\ evolves a (toy_account (r :: h) region)
       | inl _ => evolves (toy_account h region) (toy_account (r :: h) region) \/
           exists x a, effect r x (toy_account h region) a /\ evolves a (toy_account (r :: h) region)
       end
  else evolves (toy_account h region) (toy_account (r :: h) region).
Proof.
  case_bool_decide as Hr; [| cbn [toy_account]; rewrite bool_decide_eq_false_2 by done; apply evolves_refl].
  destruct (toy_answer h r) as [e | x] eqn:Ha; [left; by eapply toy_failure_law |].
  cbn [toy_account]. rewrite bool_decide_eq_true_2 by done. cbn [andb].
  destruct r; try discriminate Hr; injection Hr as ->; cbn [toy_answer accepted] in *.
  - case_bool_decide as Hn; [| discriminate Ha]. injection Ha as <-.
    eexists. split; [| apply evolves_refl]. by do 2 eexists.
  - eexists. split; [reflexivity | apply evolves_refl].
  - case_bool_decide as Hn; [| discriminate Ha]. injection Ha as <-.
    eexists. split; [| apply evolves_refl]. by do 2 eexists.
  - case_bool_decide as Hn; [| discriminate Ha].
    eexists. split; [| apply evolves_refl]. by eexists.
  - eexists. split; [reflexivity | apply evolves_refl].
  - eexists. split; [reflexivity | apply evolves_refl].
Qed.

Lemma toy_describe_instances_law h region fs l : toy_answer h (describe_instances region fs) = inr l ->
  Forall (fun g => g <> []) l /\
  forall x, x ∈ concat l <-> exists i m, machines (toy_account h region) !! i = Some m /\
    passes (Some i) (machine_tags m) fs = true /\ x = shown_machine i m.
Proof.
  cbn [toy_answer]. intros [= <-]. unfold shown_machines. split; [by apply Forall_fmap, Forall_forall |].
  intros x. rewrite list_elem_of_In, in_concat. setoid_rewrite <- list_elem_of_In. split.
  - intros (g & ([i m] & -> & [Hp Hm]%list_elem_of_filter)%list_elem_of_fmap & Hx).
    apply list_elem_of_singleton in Hx as ->. exists i, m. by apply elem_of_map_to_list in Hm.
  - intros (i & m & Hm & Hp & ->). exists [shown_machine i m]. split; [| by apply list_elem_of_singleton].
    apply list_elem_of_fmap. exists (i, m). split; [done |]. apply list_elem_of_filter.
    split; [done | by apply elem_of_map_to_list].
Qed.

Lemma toy_describe_addresses_law h region fs l : toy_answer h (describe_addresses region fs) = inr l ->
  forall x, x ∈ l <-> exists id a, addresses (toy_account h region) !! id = Some a /\
    passes (snd <$> address_use a) (address_tag_list a) fs = true /\ x = shown_address id a.
Proof.
  cbn [toy_answer]. intros [= <-] x. unfold shown_addresses. rewrite list_elem_of_fmap. split.
  - intros ([i m] & -> & [Hp Hm]%list_elem_of_filter). exists i, m. by apply elem_of_map_to_list in Hm.
  - intros (i & m & Hm & Hp & ->). exists (i, m). split; [done |]. apply list_elem_of_filter.
    split; [done | by apply elem_of_map_to_list].
Qed.

Definition toy_requests (Hs : forall i m, machines start !! i = Some m -> machine_state m ∈ instance_states) :
    Ec2Requests (A := toy_api) := {|
  account := toy_account;
  request_law := toy_request_law;
  state_law h region i m := toy_state_law h region i m Hs
|}.

Definition toy_ec2 (Hs : forall i m, machines start !! i = Some m -> machine_state m ∈ instance_states) :
    Ec2 (A := toy_api) := {|
  ec2_requests := toy_requests Hs;
  failure_law := toy_failure_law;
  describe_instances_law := toy_describe_instances_law;
  describe_addresses_law := toy_describe_addresses_law
|}.

End toy.

Definition toy_self : Aws := mkAws ["ap-south-1"%string] "key" "/home/op/.ssh/key.pem" "/home/op/.ssh/key.pub"
  (Some ["c0ffee"; "beef"]%string) (Some ["dead"]%string).

(** The shell of a new instance, with an image of the hash "beef". *)
Definition fresh_shell (command : string) : string * string :=
  if String.eqb command hash_command then ("beef  /home/ubuntu/enclave.eif"%string, EmptyString)
  else if String.eqb command "nmcli device status" then
    ("DEVICE TYPE STATE" +:+ newline +:+ "ens5 ethernet connected", EmptyString)%string
  else if String.eqb command "sudo tc qdisc show dev ens5 root" then ("qdisc mq 0: root" +:+ newline, EmptyString)%string
  else if String.eqb command "sudo iptables -t nat -S PREROUTING" then
    ("-P PREROUTING ACCEPT" +:+ newline, EmptyString)%string
  else if String.eqb command "cat image_url.txt" then ("http://image" +:+ newline, EmptyString)%string
  else if contains "nitro-cli run-enclave" command then
    (EmptyString, "Started enclave with enclave-cid: 88"%string)
  else (EmptyString, EmptyString).

Definition toy_job : JobId := mkJobId "0x07" "0x0a" "0x0b" "42161".

End ToyAws.
