(* ===== verification/AwsProps.v ===== *)
(** * Control plane: theorems of the AWS provider

    That only images the lists allow are started, what a change of the
    infrastructure of a job does to the account, that a failed launch leaves
    nothing behind, what the address endpoint answers, and two ways in which
    the provider does not do what it means to. *)

From stdpp Require Import pretty.
From S2P Require Import Prelude Text Io Chain Market MarketInfra MarketCloud.
From S2P Require Import Aws AwsHost AwsProvider AwsTrace AwsVetting AwsAccount AwsOps AwsToy.

#[local] Arguments passes : simpl never.
#[local] Arguments job_filters : simpl never.

(** ** Lemmas *)

Section lemmas.
Context `{A : AwsApi}.
Variable self : Aws.

(** A successful run of [k] starts the enclave. *)
Definition starts (command : string) {B} (k : io (list Request) (list string) B) : Prop := forall h h' x,
  k h = (h', Some (Ok x)) -> exists l, h' = l ++ h /\ exists c, channel_exec c command ∈ l.

Lemma starts_bind command (ok : Request -> Prop) {B C} (m : io _ _ B) (f : B -> io _ _ C) :
  emits ok m -> (forall x, starts command (f x)) -> starts command (m ≫= f).
Proof.
  intros Hm Hf h h' x (h1 & y & H1 & H2)%io_bind_inv. apply Hm in H1 as (l1 & -> & _).
  destruct (Hf _ _ _ _ H2) as (l & -> & c & Hc). exists (l ++ l1). split; [by rewrite app_assoc |].
  exists c. apply elem_of_app. by left.
Qed.

Lemma starts_enclave sess vcpu mem debug :
  starts (start_command vcpu mem debug) (start_enclave sess vcpu mem debug).
Proof.
  intros h h' x. unfold start_enclave. intros (h1 & [out err] & (c & -> & _ & _)%ssh_exec_Ok & Hr)%io_bind_inv.
  exists [wait_close c; read_stderr c; read_stdout c; channel_exec c (start_command vcpu mem debug); channel_session sess].
  destruct (_ && _); [by inv_run |]. injection Hr as <-. split; [done |]. exists c. by do 3 right; left.
Qed.

Ltac starts :=
  repeat first
    [ apply starts_enclave
    | eapply starts_bind; [first [apply (quiet_fetch_image self) | solve [emits]] | intros ?] ].

Hint Resolve neutral_connect_instance neutral_ssh_exec neutral_ssh_silent neutral_ssh_bare neutral_set_allocator
  neutral_limit_bandwidth neutral_salmon neutral_tuna neutral_setup_logger : emits.

Lemma run_enclave_starts job family i region url vcpu mem bw debug :
  starts (start_command vcpu mem debug) (run_enclave_impl self job family i region url vcpu mem bw debug).
Proof.
  unfold run_enclave_impl, run_enclave_salmon, run_enclave_tuna.
  destruct (String.eqb family "salmon"); [| destruct (String.eqb family "tuna"); [| by intros h h' x]]; starts.
Qed.

Lemma run_enclave_guarded job family i region url vcpu mem bw debug h h' r :
  run_enclave_impl self job family i region url vcpu mem bw debug h = (h', r) ->
  exists l, h' = l ++ h /\ guarded self url h l.
Proof.
  unfold run_enclave_impl. destruct (String.eqb family "salmon"); [by apply guarded_salmon |].
  destruct (String.eqb family "tuna"); [by apply guarded_tuna |]. intros [= <- <-]. exists []. split; [done |].
  by apply guarded_quiet.
Qed.

(** A line is longer than the text it ends. *)
Lemma line_neq url : String.eqb (url +:+ newline) url = false.
Proof.
  apply String.eqb_neq. intros H. apply (f_equal String.length) in H. rewrite length_append in H. cbn in H. lia.
Qed.

End lemmas.

(** ** Images *)

Section images.
Context `{A : AwsApi}.
Variable self : Aws.

(** C12: No enclave is started from an image that has not been vetted.
    Whatever EC2 and the instance answer, every command that starts an enclave
    comes after the download of the job's image, with no other download since,
    and -- if the operator has lists -- after computing the hash of the image
    file, a hash that the lists allow.  A run that succeeds has started the
    enclave. *)
Theorem only_vetted_images_run (job family i region url : string) (vcpu mem bw : Z) (debug : bool)
  (h : list Request) :
  (forall h' r, run_enclave_impl self job family i region url vcpu mem bw debug h = (h', r) ->
     exists l, h' = l ++ h /\ guarded self url h l /\
       (r = Some (Ok tt) -> exists c, channel_exec c (start_command vcpu mem debug) ∈ l)) /\
  (forall h' r, update_enclave_image_impl self i region url vcpu mem h = (h', r) ->
     exists l, h' = l ++ h /\ guarded self url h l).
Proof.
  split; [| intros h' r; apply guarded_update].
  intros h' r Hrun. destruct (run_enclave_guarded _ _ _ _ _ _ _ _ _ _ _ _ _ Hrun) as (l & -> & Hg).
  exists l. split_and!; [done | done |]. intros ->.
  apply run_enclave_starts in Hrun as (l' & Hl & c & Hc). apply app_inv_tail in Hl as ->. by exists c.
Qed.

(** An update of the image always restarts the enclave.  The provider
    skips the update when image_url.txt holds the url; but echo, which wrote
    the file, ends it with a newline, so that the comparison fails even for
    the same url: an update that succeeds has terminated the enclave and
    started another one, and without the debug mode it may have had. *)
Theorem update_always_restarts (i region url : string) (vcpu mem : Z) (h h' : list Request)
  (Hcat : forall g c, answer (channel_exec c "cat image_url.txt" :: g) (read_stdout c) = inr (url +:+ newline))
  (Hup : update_enclave_image_impl self i region url vcpu mem h = (h', Some (Ok tt))) :
  exists l1 l2 c c', h' = l1 ++ channel_exec c (start_command vcpu mem false) :: l2 /\
    channel_exec c' stop_command ∈ l2.
Proof.
  unfold update_enclave_image_impl in Hup.
  apply io_bind_inv in Hup as (h1 & sess & _ & Hup).
  apply io_bind_inv in Hup as (h2 & [out err] & (c0 & -> & Ho & _)%context_Ok%ssh_exec_Ok & Hup).
  rewrite Hcat in Ho. injection Ho as <-. rewrite line_neq, andb_false_r in Hup.
  apply io_bind_inv in Hup as (h3 & u & _ & Hup).
  apply io_bind_inv in Hup as (h4 & u' & H4 & Hup). unfold ssh_bare in H4. inv_ssh.
  unfold start_enclave in Hup. apply io_bind_inv in Hup as (h5 & [out' err'] & (c & -> & _ & _)%ssh_exec_Ok & Hr).
  destruct (_ && _); [by inv_run |]. injection Hr as <-.
  match goal with |- context [channel_exec ?c1 stop_command] =>
    eexists [wait_close c; read_stderr c; read_stdout c], _, c, c1 end.
  split; [reflexivity |]. by do 4 right; left.
Qed.

End images.

(** ** The account *)

(** The elastic ips and their use are the same. *)
Definition same_addresses (a b : Account) : Prop := addresses b = addresses a.

#[local] Instance same_addresses_preorder : PreOrder same_addresses.
Proof. split; [done |]. unfold same_addresses. intros a b c Hab Hbc. by rewrite Hbc. Qed.

Section account.
Context `{A : AwsApi} `{E : !Ec2Requests} `{J : EnclaveJson}.
Variable self : Aws.

#[local] Existing Instance aws_provider.
#[local] Arguments passes : simpl never.

Lemma calm_addresses h region r : calm r -> addresses (account (r :: h) region) = addresses (account h region).
Proof.
  intros Hr. destruct (request_split h region r) as [[Ha _] | (x & a & _ & He & [Ha _])]; [done |].
  rewrite Ha. by destruct r; cbn in He; subst.
Qed.

Lemma run_calm_addresses region {B} (m : io _ _ B) h h' r : emits calm m -> m h = (h', r) ->
  addresses (account h' region) = addresses (account h region).
Proof. apply (emits_account same_addresses). intros. by apply calm_addresses. Qed.

(** What a launch leaves: the new instance alone, with its elastic ip. *)
Lemma launch_new_on_ec2 (s s' : JobState) (h h' : list Request) :
  all_dead (account h (region s)) (job_id s) -> addresses_current_in (region s) (job_id s) h h' ->
  launch_new (I := aws_provider self) s h = (true, s', h') ->
  only_machine (account h' (region s)) (job_id s) (instance_id s') /\
  exists id y, job_address (account h' (region s)) (job_id s) id y /\ snd <$> address_use y = Some (instance_id s').
Proof.
  intros Hdead Hcur. unfold launch_new.
  destruct (spin_up _ _ _ _ _ _ _ h) as [h1 [i |]] eqn:Hup; [| done].
  destruct (run_enclave_for _ h1) as [h2 res] eqn:Hrun.
  assert (Hcalm : exists r, with_context "could not run enclave" (run_enclave_impl self (jid (job_id s)) (family s) i
    (region s) (eif_url s) (req_vcpus s) (req_mem s) (bandwidth s) (debug s)) h1 = (h2, r)).
  { by eapply provide_run. }
  destruct Hcalm as [r0 Hr0].
  assert (Hemit : emits calm (with_context "could not run enclave" (run_enclave_impl self (jid (job_id s)) (family s) i
    (region s) (eif_url s) (req_vcpus s) (req_mem s) (bandwidth s) (debug s)))).
  { apply emits_context, calm_run_enclave_impl. }
  destruct (run_calm (region s) _ _ _ _ Hemit Hr0) as (Ha & Hs & _).
  pose proof (run_calm_addresses (region s) _ _ _ _ Hemit Hr0) as Haddr.
  intros Hl. assert (Heq : s <| instance_id := i |> = s' /\ h2 = h') by (by destruct res; simplify_eq). clear Hl.
  destruct Heq as [<- <-]. apply provide_Ok, context_Ok, spin_up_spec in Hup
    as ((m & Hm & Hal) & Hb & (id & y & [Hy Hp] & Huse) & _);
    [| apply (addresses_current_sub _ _ _ _ _ _ Hcur); [done | exact (emits_suffix _ _ _ _ _ Hemit Hr0)]]. cbn [instance_id over]. split.
  - split.
    + destruct (stays_job _ _ _ _ _ Hs Hm Hal) as (m' & Hm' & Hal'). by exists m'.
    + intros j m' (m1 & Hm1 & Hd)%(ages_job _ _ _ _ _ Ha) Hj. by apply Hd, (ages_but_dead _ _ _ _ _ _ Hb Hdead Hm1).
  - exists id, y. split; [| done]. split; [by rewrite Haddr | done].
Qed.

(** An instance of a tidy account that is neither alive nor dead is stopping
    or stopped. *)
Lemma state_cases h region i m : machines (account h region) !! i = Some m -> dead (machine_state m) = false ->
  alive (machine_state m) = false -> state_in (machine_state m) ["stopping"; "stopped"]%string = true.
Proof.
  intros Hm%state_law. revert Hm. unfold instance_states. generalize (machine_state m).
  intros st. rewrite !elem_of_cons, elem_of_nil. by intros [-> | [-> | [-> | [-> | [-> | [-> | []]]]]]].
Qed.

(** The one instance of a job, kept alive or put down. *)
Lemma only_kept (a b : Account) (job : JobId) i m : ages a b -> stays a b -> job_machine a job i m ->
  alive (machine_state m) = true ->
  (forall i j m m', job_machine a job i m -> job_machine a job j m' -> i = j) -> only_machine b job i.
Proof.
  intros Ha Hs Hm Hal Hone. split.
  - destruct (stays_job _ _ _ _ _ Hs Hm Hal) as (m' & Hm' & Hal'). by exists m'.
  - intros j m' (m0 & Hm0 & _)%(ages_job _ _ _ _ _ Ha) []. exact (Hone _ _ _ _ Hm0 Hm).
Qed.

Lemma all_dead_but (a b : Account) (job : JobId) i m : ages a b ->
  (forall m', machines b !! i = Some m' -> dead (machine_state m') = true) -> job_machine a job i m ->
  (forall i j m m', job_machine a job i m -> job_machine a job j m' -> i = j) -> all_dead b job.
Proof.
  intros Ha Hd Hm Hone j m' Hm'. destruct (ages_job _ _ _ _ _ Ha Hm') as (m0 & Hm0 & _).
  rewrite (Hone _ _ _ _ Hm0 Hm) in Hm'. apply Hd, Hm'.
Qed.

(** C14: A change of the infrastructure of a job reaches its target in the
    account.  EC2 shows a change in its lists only after a while, and a request
    that fails may have had its effect.  If the list of the job's instances
    that the change starts with is current, and so are the lists of the job's
    elastic ips that it asks for, if no dead instance of the job is listed and
    at most one is there, then a change that succeeds leaves, in launch mode,
    exactly one instance of the job that is not dead, the one that the state
    records, alive and -- if it is new -- with an elastic ip of the job
    associated to it; in termination mode no instance of the job that is not
    dead and, if the change found one and the job had at most one elastic ip,
    no elastic ip of the job.  (Of the elastic ip of an instance that is kept,
    and of one without an instance, nothing is said: the code does not look.) *)
Theorem change_infra_on_ec2 (now : Z) (s s' : JobState) (h h' : list Request)
  (Hlist : instances_current (region s) (job_id s) h) (Hips : addresses_current_in (region s) (job_id s) h h')
  (Htidy : tidy (account h (region s)) (job_id s))
  (Hc : change_infra (I := aws_provider self) now s h = Ok (true, s', h')) :
  if infra_state s then
    only_machine (account h' (region s)) (job_id s) (instance_id s') /\
    ((forall m, ~ job_machine (account h (region s)) (job_id s) (instance_id s') m) ->
       exists id y, job_address (account h' (region s)) (job_id s) id y /\
         snd <$> address_use y = Some (instance_id s'))
  else
    all_dead (account h' (region s)) (job_id s) /\
    ((exists i m, job_machine (account h (region s)) (job_id s) i m) ->
       one_address (account h (region s)) (job_id s) ->
       forall id y, ~ job_address (account h' (region s)) (job_id s) id y).
Proof.
  destruct Htidy as [Hlive Hone].
  unfold change_infra in Hc. destruct (change_infra_impl s h) as [[b s1] h1] eqn:Hi. destruct b; [| by inv_ok].
  assert (Hs1 : instance_id s' = instance_id s1 /\ h1 = h') by (by inv_ok). clear Hc. destruct Hs1 as [-> ->].
  unfold change_infra_impl in Hi.
  destruct (get_job_instance _ _ h) as [h0 [[[e i] st] |]] eqn:Hget; [| done].
  apply provide_Ok, context_Ok in Hget.
  pose proof (run_calm (region s) _ _ _ _ (calm_get_job_instance_id _ _ _) Hget) as (Ha0 & Hs0 & Ho0).
  apply get_job_instance_spec in Hget as [-> Hspec]; [| exact Hlist].
  assert (Hg : h `suffix_of` describe_instances (region s) (job_filters (job_id s)) :: h) by (by eexists [_]).
  set (g := describe_instances _ _ :: h) in *. clearbody g.
  destruct (infra_state s).
  - destruct e.
    + destruct Hspec as (m & Hm & <-). cbn [andb] in Hi.
      destruct (state_in (machine_state m) ["pending"; "running"]%string) eqn:Hal.
      * assert (Hkeep : instance_id s1 = i /\ ages (account g (region s)) (account h' (region s)) /\
          stays (account g (region s)) (account h' (region s))).
        { destruct (eif_update _); [| by simplify_eq].
          destruct (update_enclave_image _ _ _ _ _ g) as [g' res] eqn:Hup. apply provide_run in Hup as [r0 Hup].
          apply (run_calm (region s)) in Hup as (Ha & Hs & _);
            [| apply emits_context, calm_update_enclave_image_impl]. by destruct res; simplify_eq. }
        destruct Hkeep as (-> & Ha & Hs). split; [| by intros Hno; destruct (Hno m)].
        apply (only_kept (account h (region s)) _ _ _ m); [by etransitivity | by etransitivity | done | done | exact Hone].
      * assert (Hdown : state_in (machine_state m) ["stopping"; "stopped"]%string = true).
        { apply (state_cases h (region s) i); [apply Hm | by apply (Hlive i) | done]. }
        rewrite Hdown in Hi. destruct (spin_down _ _ _ g) as [hd [[] |]] eqn:Hsd; [| done].
        apply provide_Ok, context_Ok in Hsd. pose proof (emits_suffix _ _ _ _ _ (spin_down_no_run _ _ _ _) Hsd) as Hhd.
        apply spin_down_spec in Hsd as (Ha & Hd & _).
        apply launch_new_on_ec2 in Hi as [Ho Hip]; [by split; [| intros _] | |
          apply (addresses_current_sub _ _ _ _ _ _ Hips); [by etransitivity | done]].
        apply (all_dead_but (account h (region s)) _ _ i m); [by etransitivity | done | done | exact Hone].
    + cbn [andb] in Hi. apply launch_new_on_ec2 in Hi as [Ho Hip]; [by split; [| intros _] | |
        by apply (addresses_current_sub _ _ _ _ _ _ Hips)].
      intros j m (m0 & Hm0 & _)%(ages_job _ _ _ _ _ Ha0). by destruct (Hspec j m0).
  - destruct e; cbn [negb orb] in Hi.
    + destruct Hspec as (m & Hm & <-).
      assert (Hl : state_in (machine_state m) ["shutting-down"; "terminated"]%string = false) by (by apply (Hlive i)).
      rewrite Hl in Hi. destruct (spin_down _ _ _ g) as [hd [[] |]] eqn:Hsd; [| done]. injection Hi as <- <-.
      apply provide_Ok, context_Ok, spin_down_spec in Hsd as (Ha & Hd & Hno). split.
      * apply (all_dead_but (account h (region s)) _ _ i m); [by etransitivity | done | done | exact Hone].
      * intros _ Hip. apply Hno; [by apply (addresses_current_sub _ _ _ _ _ _ Hips) | by apply (owners_one _ _ _ Ho0)].
    + injection Hi as <- <-. split; [| by intros (j & m & Hm); destruct (Hspec j m)].
      intros j m (m0 & Hm0 & _)%(ages_job _ _ _ _ _ Ha0). by destruct (Hspec j m0).
Qed.

End account.

(** ** Failed launches *)

Section failed.
Context `{A : AwsApi} `{E : !Ec2} `{J : EnclaveJson}.
Variable self : Aws.

Lemma ages_split {B C} (m : io _ _ B) (f : B -> io _ _ C) region h h' r :
  emits (fun r => is_run r = false) m -> (m ≫= f) h = (h', r) ->
  (forall x h1, ages (account h region) (account h1 region) -> f x h1 = (h', r) ->
     ages (account h1 region) (account h' region)) ->
  ages (account h region) (account h' region).
Proof.
  intros Hm [[Hr _] | (h1 & x & H1 & H2)]%io_bind_split Hf; [by eapply run_ages |].
  pose proof (run_ages region _ _ _ _ Hm H1) as Ha. etransitivity; [exact Ha |]. by apply (Hf x).
Qed.

Lemma launch_failed job ty family arch region h h' r :
  launch_instance self job ty family arch region h = (h', r) -> (forall i, r <> Some (Ok i)) ->
  ages (account h region) (account h' region).
Proof.
  intros Hl Hno. unfold launch_instance in Hl.
  assert (Hcalm : forall B c (m : io _ _ B), emits calm m -> emits (fun r => is_run r = false) (with_context c m)).
  { intros B c m Hm. apply emits_context. eapply emits_weaken; [exact calm_no_run | exact Hm]. }
  eapply ages_split; [| exact Hl |]; [apply Hcalm, calm_get_amis |]. clear Hl. intros ami h1 _ Hl.
  eapply ages_split; [| exact Hl |]; [apply Hcalm, calm_get_subnet |]. clear Hl. intros subnet h2 _ Hl.
  eapply ages_split; [| exact Hl |]; [apply Hcalm, calm_get_security_group |]. clear Hl. intros group h3 _ Hl.
  eapply ages_split; [| exact Hl |]; [apply emits_client |]. clear Hl. intros u h4 _ Hl.
  unfold mbind at 1, io_bind at 1, with_context, call in Hl. cbn beta iota in Hl.
  match type of Hl with context [answer h4 ?rq] => pose proof (request_law h4 region rq) as Hlaw; destruct (answer h4 rq) as [e | l] eqn:Hans end.
  - injection Hl as <- _. by eapply evolves_ages, failure_law.
  - exfalso. cbn [region_of] in Hlaw. rewrite bool_decide_eq_true_2 in Hlaw by done.
    destruct Hlaw as (a & (x & k & -> & Hk & _) & _). unfold mbind, io_bind, or_error, lift in Hl. cbn in Hl. rewrite Hk in Hl.
    injection Hl as <- <-. by apply (Hno k).
Qed.

(** C29: A launch that fails leaves nothing behind.  Unless the error says that
    putting the new instance down failed as well, every instance of the account
    that is not dead was there before.  (A RunInstances that fails is taken to
    have launched nothing, see [failure_law].) *)
Theorem failed_spin_up_leaves_nothing (job : JobId) (ty family region : string) (mem vcpu : Z)
  (h h' : list Request) (e : list string)
  (Hup : spin_up_instance self job ty family region mem vcpu h = (h', Some (Err e)))
  (Hdown : head e <> Some "could not spin down instance after error during post spin up"%string)
  (j : string) (m' : Machine)
  (Hm' : machines (account h' region) !! j = Some m') (Hlive : dead (machine_state m') = false) :
  exists m, machines (account h region) !! j = Some m /\ machine_tags m' = machine_tags m.
Proof.
  unfold spin_up_instance in Hup.
  assert (Hb : ages (account h region) (account h' region) \/
    exists i, ages_but i (account h region) (account h' region) /\
      forall m, machines (account h' region) !! i = Some m -> dead (machine_state m) = true).
  2: { destruct Hb as [Hb | (i & Hb & Hi)].
       - destruct (Hb j m' Hm') as (m & Hm & Ht & _). by exists m.
       - destruct (decide (j = i)) as [-> | Hj]; [by rewrite (Hi m' Hm') in Hlive |].
         destruct (Hb j m' Hm' Hj) as (m & Hm & Ht & _). by exists m. }
  clear Hm'.
  apply io_bind_split in Hup as [[Hup _] | (h1 & u & [-> _]%client_Ok & Hup)].
  { left. eapply run_ages; [| exact Hup]. apply emits_client. }
  assert (H2e : emits (fun r => is_run r = false) (with_context "could not describe instance types"
    (call (describe_instance_types region ty)))) by emits.
  apply io_bind_split in Hup as [[Hup _] | (h2 & types & H2 & Hup)]; [left; eapply run_ages; [exact H2e | exact Hup] |].
  apply (run_ages region _ _ _ _ H2e) in H2.
  assert (H3e : emits (fun r => is_run r = false) (instance_shape types ("amd64"%string, 4, 8192))).
  { eapply emits_weaken; [exact calm_no_run | apply calm_instance_shape]. }
  apply io_bind_split in Hup as [[Hup _] | (h3 & [[arch cpus] m] & H3 & Hup)].
  { left. etransitivity; [exact H2 |]. by eapply run_ages. }
  apply (run_ages region _ _ _ _ H3e) in H3. assert (H23 := transitivity H2 H3).
  destruct (_ || _); [injection Hup as <- _; by left |].
  apply io_bind_split in Hup as [[Hup _] | (h4 & i & H4%context_Ok & Hup)].
  { left. etransitivity; [exact H23 |]. unfold with_context in Hup.
    destruct (launch_instance _ _ _ _ _ _ h3) as [h5 r5] eqn:Hl. injection Hup as -> Hr.
    apply (launch_failed _ _ _ _ _ _ _ _ Hl). intros k ->. discriminate Hr. }
  apply launch_spec in H4 as (_ & Hb4 & _).
  apply io_bind_split in Hup as [[Hup _] | (h5 & u' & H5 & Hup)]; [discriminate Hup |].
  apply io_bind_split in Hup as [[Hup Hno] | (h6 & res & H6 & Hup)].
  { exfalso. unfold result_of in Hup. destruct (post_spin_up _ _ _ _ h5) as [h0 [[y | |] |]]; simplify_eq. }
  destruct res as [err | u'']; [| discriminate Hup]. right. exists i.
  assert (H6e : emits (fun r => is_run r = false) (result_of (post_spin_up self job i region))).
  { apply emits_result_of, post_spin_up_no_run. }
  assert (H5e : emits (fun r => is_run r = false) (pause 100)) by emits.
  pose proof (run_ages region _ _ _ _ H5e H5) as Ha5. pose proof (run_ages region _ _ _ _ H6e H6) as Ha6.
  apply io_bind_split in Hup as [[Hup _] | (h7 & u7 & H7%context_Ok & Hup)].
  { exfalso. unfold with_context in Hup. destruct (spin_down_instance _ _ _ _ h6) as [h8 [[y | e8 |] |]];
      cbn in Hup; by simplify_eq. }
  injection Hup as <- _. apply spin_down_spec in H7 as (Ha7 & Hi7 & _). split; [| exact Hi7].
  eapply ages_but_l; [exact H23 |]. eapply ages_but_r; [exact Hb4 |].
  etransitivity; [exact Ha5 |]. by etransitivity.
Qed.

End failed.

(** ** The job loop *)

Section composed.
Context `{A : AwsApi} `{E : !Ec2Requests} `{J : EnclaveJson} `{C : ChainApi, V : JsonApi}.
Variable self : Aws.
Variables (rates : list RegionalRates) (gb_rates : list GBRateCard) (allow deny : list string).

#[local] Existing Instance aws_provider.

(** C31: A dead instance hides a live one.  EC2 lists terminated instances for
    a while, in no documented order, and the provider looks at the first one
    only.  When a job whose instance has been replaced is to be terminated and
    its dead instance is listed first, the job loop exits with 0, as if nothing
    were left, after this one look: every live instance of the job is still
    alive, with nothing left to terminate it. *)
Theorem terminated_instance_hides_live (t : Turn) (turns : list Turn) (s : JobState) (h : list Request)
  (old : Ec2Instance) (olds : list Ec2Instance) (rest : list (list Ec2Instance)) (i st : string)
  (Hsel : select t s = Some BInfra) (Hmode : infra_state s = false) (Hregion : region s ∈ clients self)
  (Hans : answer h (describe_instances (region s) (job_filters (job_id s))) = inr ((old :: olds) :: rest))
  (Hid : ec2_instance_id old = Some i) (Hst : ec2_state old = Some (Some st)) (Hdead : dead st = true) :
  exists s' h', job_loop (I := aws_provider self) rates gb_rates allow deny (t :: turns) s h = Ok (Some 0, s', h') /\
    h' = describe_instances (region s) (job_filters (job_id s)) :: h /\
    forall j m, job_machine (account h (region s)) (job_id s) j m -> alive (machine_state m) = true ->
      exists m', job_machine (account h' (region s)) (job_id s) j m' /\ alive (machine_state m') = true.
Proof.
  assert (Hget : get_job_instance (InfraProvider := aws_provider self) (job_id s) (region s) h
    = (describe_instances (region s) (job_filters (job_id s)) :: h, Some (true, i, st))).
  { cbn. unfold provide, with_context, get_job_instance_id, client. rewrite bool_decide_eq_true_2 by done.
    unfold mbind, io_bind, call. cbn. rewrite Hans. cbn. rewrite Hid. cbn. rewrite Hst. done. }
  cbn [job_loop]. rewrite Hsel. cbn [run_branch]. unfold change_infra, change_infra_impl. rewrite Hget, Hmode.
  unfold dead in Hdead. rewrite Hdead, orb_true_r. cbn. rewrite Hmode. cbn.
  do 2 eexists. split; [reflexivity |]. split; [reflexivity |].
  intros j m Hm Hal. eapply stays_job; [| exact Hm | exact Hal]. by apply stays_request.
Qed.

End composed.

(** ** The address endpoint *)

Section endpoint.
Context `{A : AwsApi} `{E : !Ec2}.
Variable self : Aws.

(** [ip] was the address of the first instance of the job and of its elastic
    ip when the three requests between [h] and [h'] were made. *)
Definition genuine_ip (job : JobId) (region ip : string) (h h' : list Request) : Prop := exists i m m' alloc y,
  let h1 := describe_instances region (job_filters job) :: h in
  let h2 := describe_instances region [mkFilter "instance-id" i] :: h1 in
  h' = describe_addresses region (job_filters job) :: h2 /\
  job_machine (account h region) job i m /\
  machines (account h1 region) !! i = Some m' /\ machine_ip m' = Some ip /\
  job_address (account h2 region) job alloc y /\ address_ip y = ip.

Lemma passes_instance_id j tags i : passes (Some j) tags [mkFilter "instance-id" i] = true -> j = i.
Proof.
  unfold passes. cbn. rewrite !andb_true_r.
  assert (Ht : existsb (tag_matches (mkFilter "instance-id" i)) tags = false) by (by induction tags).
  rewrite Ht. cbn. intros H%bool_decide_eq_true. congruence.
Qed.

Lemma described_instance_spec region i h h' x : described_instance self region i h = (h', Some (Ok x)) ->
  h' = describe_instances region [mkFilter "instance-id" i] :: h /\
  exists m, machines (account h region) !! i = Some m /\ x = shown_machine i m.
Proof.
  unfold described_instance. intros Hd. inv_run.
  match goal with H : answer _ _ = inr ?l |- _ => apply describe_instances_law in H as [_ Hin]; destruct l as [| [| y g] gs] end;
    cbn in *; simplify_eq/=.
  split; [done |]. destruct (proj1 (Hin x)) as (j & m & Hm & Hp & ->); [by left |].
  apply passes_instance_id in Hp as ->. by exists m.
Qed.

Lemma found_elastic_ip job region h h' alloc ip :
  get_job_elastic_ip self job region h = (h', Some (Ok (true, alloc, ip))) ->
  h' = describe_addresses region (job_filters job) :: h /\
  exists x, job_address (account h region) job alloc x /\ address_ip x = ip.
Proof.
  unfold get_job_elastic_ip. intros Hg. inv_run.
  match goal with H : answer _ _ = inr ?l |- _ => pose proof (describe_addresses_law _ _ _ _ H) as Hin; destruct l as [| x xs] end;
    cbn in *; inv_run; simplify_eq.
  split; [done |]. match goal with H : allocation_id ?z = _ |- _ =>
    destruct (proj1 (Hin z)) as (id & y & Hy & Hp & ->); [by left |] end.
  cbn in *. simplify_eq. by exists y.
Qed.

Lemma get_job_ip_spec job region h : exists h' r, get_job_ip self job region h = (h', Some r) /\
  (r = Panic <-> region ∉ clients self) /\ forall ip, r = Ok ip -> genuine_ip job region ip h h'.
Proof.
  assert (He : ends (region ∉ clients self) (get_job_ip self job region)).
  { unfold get_job_ip, get_job_instance_id, get_instance_ip, described_instance, get_job_elastic_ip. ends. }
  destruct (He h) as (h' & r & Hr & Hp). exists h', r. split; [exact Hr |]. split.
  - split; [exact Hp |]. intros Hc. unfold get_job_ip, get_job_instance_id, client in Hr.
    rewrite bool_decide_eq_false_2 in Hr by done. by injection Hr as <- <-.
  - intros ip ->. unfold get_job_ip in Hr.
    apply io_bind_inv in Hr as (h1 & [[e i] st] & H1%context_Ok%context_Ok%get_job_instance_spec & Hr);
      [| apply consistent_instances].
    destruct H1 as [-> Hi]. destruct e; [| discriminate Hr]. cbn [negb] in Hr. destruct Hi as (m & Hm & _).
    apply io_bind_inv in Hr as (h2 & ip' & H2%context_Ok & Hr). unfold get_instance_ip in H2.
    apply io_bind_inv in H2 as (h3 & x & (-> & m' & Hm' & ->)%described_instance_spec & [-> Hip]%or_error_Ok).
    apply io_bind_inv in Hr as (h4 & [[found alloc] eip] & Ha%context_Ok & Hr).
    destruct found; [| discriminate Hr]. apply found_elastic_ip in Ha as (-> & y & Hy & He').
    destruct (String.eqb_spec ip' eip) as [-> |]; [| discriminate Hr]. injection Hr as <- <-.
    by exists i, m, m', alloc, y.
Qed.

(** C37: The address endpoint.  It answers with an address only if, when they
    were looked up, it was the public address of the job's first instance and
    that of the job's elastic ip; it answers with an error otherwise, but
    panics -- exactly -- when the region asked for is none of the operator's. *)
Theorem ip_endpoint_answers (state : Served) (q : GetIPRequest) (h : list Request) :
  exists h' r, handle_ip_request self state q h = (h', Some r) /\
    (r = Panic <-> exists id region, query_id q = Some id /\ query_region q = Some region /\ region ∉ clients self) /\
    forall ip, r = Ok ip -> exists id region, query_id q = Some id /\ query_region q = Some region /\
      genuine_ip (mkJobId id (operator (served_job state)) (contract (served_job state)) (chain (served_job state)))
        region ip h h'.
Proof.
  unfold handle_ip_request, answer_ip. destruct (query_id q) as [id |], (query_region q) as [region |];
    try (by do 2 eexists; split; [reflexivity |]; split; [split; [done | naive_solver] | done]).
  destruct (get_job_ip_spec (mkJobId id (operator (served_job state)) (contract (served_job state))
    (chain (served_job state))) region h) as (h' & r & -> & Hp & Hip).
  exists h', (map_err (fun _ => GetIPFail) r). split; [done |]. split.
  - split; [intros Hr; exists id, region; split_and!; [done | done |]; by apply Hp; destruct r |].
    intros (? & ? & [= <-] & [= <-] & Hc). by rewrite (proj2 Hp Hc).
  - intros ip Hr. exists id, region. split_and!; [done | done |]. apply Hip. by destruct r; simplify_eq/=.
Qed.

End endpoint.

(** ** Witnesses *)
Module AwsWitnesses.
Import ToyAws.

#[export] Instance toy_enclave_json : EnclaveJson := {|
  JsonObject := unit; json_objects _ := None; object_str _ _ := None |}.

Definition toy_machine (st : string) : Machine := mkMachine (instance_tags toy_job) st (Some "10.0.0.9"%string).
Definition empty_account : Account := mkAccount ∅ ∅.
(** The job runs on [i-9], with its elastic ip. *)
Definition running_account : Account := mkAccount {["i-9"%string := toy_machine "running"]}
  {["eip"%string := mkAddress "10.0.0.9" (address_tags toy_job) (Some ("assoc", "i-9")%string)]}.
(** An address of another job takes the name of the next one; another job runs. *)
Definition clashing_account : Account :=
  mkAccount {["i-other"%string := mkMachine (instance_tags (mkJobId "0x08" "0x0a" "0x0b" "42161")) "running" None]}
    {["eip-7"%string := mkAddress "10.0.0.8" [] None]}.
(** The first instance of the job has been replaced. *)
Definition replaced_account : Account :=
  mkAccount {["i-9"%string := toy_machine "terminated"; "i-1"%string := toy_machine "running"]} ∅.

Definition toy (start : Account) : AwsApi := toy_api start fresh_shell.

Definition states_known (a : Account) : Prop :=
  map_Forall (fun _ m => machine_state m ∈ instance_states) (machines a).

Definition ec2 (a : Account) (H : bool_decide (states_known a) = true) : Ec2 (A := toy a) :=
  toy_ec2 a fresh_shell (bool_decide_eq_true_1 _ H).
Definition empty_ec2 : Ec2 (A := toy empty_account) := ec2 empty_account eq_refl.
Definition running_ec2 : Ec2 (A := toy running_account) := ec2 running_account eq_refl.
Definition clashing_ec2 : Ec2 (A := toy clashing_account) := ec2 clashing_account eq_refl.
Definition replaced_ec2 : Ec2 (A := toy replaced_account) := ec2 replaced_account eq_refl.

Definition toy_launch : JobState :=
  new_job_state 0 0 toy_job 0 ["ap-south-1"%string] <| infra_state := true |> <| infra_change_scheduled := true |>.
Definition toy_end : JobState := toy_launch <| infra_state := false |>.

Lemma only_vetted_images_run_witness : exists h',
  run_enclave_impl (A := toy running_account) toy_self "0x07" "salmon" "i-9" "ap-south-1" "http://image" 2 4096 1000
    false [] = (h', Some (Ok tt)) /\
  exists l, h' = l ++ [] /\ guarded (A := toy running_account) toy_self "http://image" [] l /\
    (Some (Ok (E := list string) tt) = Some (Ok tt) ->
       exists c, channel_exec (H := toy_types) c (start_command 2 4096 false) ∈ l).
Proof.
  eexists. split; [vm_compute; reflexivity |].
  apply (only_vetted_images_run (A := toy running_account) toy_self "0x07" "salmon" "i-9" "ap-south-1" "http://image"
    2 4096 1000 false []).
  vm_compute. reflexivity.
Defined.

Lemma update_always_restarts_witness : exists h',
  update_enclave_image_impl (A := toy running_account) toy_self "i-9" "ap-south-1" "http://image" 2 4096 []
    = (h', Some (Ok tt)) /\
  exists l1 l2 c c', h' = l1 ++ channel_exec (H := toy_types) c (start_command 2 4096 false) :: l2 /\
    channel_exec (H := toy_types) c' stop_command ∈ l2.
Proof.
  eexists. split; [vm_compute; reflexivity |].
  apply (update_always_restarts (A := toy running_account) toy_self "i-9" "ap-south-1" "http://image" 2 4096 []).
  - intros g c. vm_compute. reflexivity.
  - vm_compute. reflexivity.
Defined.

Lemma running_only i m : job_machine running_account toy_job i m -> i = "i-9"%string /\ m = toy_machine "running".
Proof. intros [Hm _]. cbn [machines running_account] in Hm. by apply lookup_singleton_Some in Hm as [<- <-]. Qed.

(** A launch on an empty account, and a termination on the running one. *)
Lemma change_infra_on_ec2_witness :
  (exists s' h',
    change_infra (I := aws_provider (A := toy empty_account) toy_self) 5 toy_launch [] = Ok (true, s', h') /\
    only_machine (toy_account empty_account h' "ap-south-1") toy_job (instance_id s') /\
    ((forall m, ~ job_machine empty_account toy_job (instance_id s') m) ->
       exists id y, job_address (toy_account empty_account h' "ap-south-1") toy_job id y /\
         snd <$> address_use y = Some (instance_id s'))) /\
  exists s' h',
    change_infra (I := aws_provider (A := toy running_account) toy_self) 5 toy_end [] = Ok (true, s', h') /\
    all_dead (toy_account running_account h' "ap-south-1") toy_job /\
    ((exists i m, job_machine running_account toy_job i m) -> one_address running_account toy_job ->
       forall id y, ~ job_address (toy_account running_account h' "ap-south-1") toy_job id y).
Proof.
  split.
  - assert (Hrun : exists s' h', change_infra (I := aws_provider (A := toy empty_account) toy_self) 5 toy_launch []
      = Ok (true, s', h')) by (do 2 eexists; vm_compute; reflexivity).
    destruct Hrun as (s' & h' & Hc). exists s', h'. split; [exact Hc |].
    apply (change_infra_on_ec2 (A := toy empty_account) (E := @ec2_requests _ empty_ec2) toy_self 5 toy_launch s' [] h');
      [apply consistent_instances | intros g _ _; apply consistent_addresses | | exact Hc].
    split; [by intros i m [Hm _] | by intros i j m m' [Hm _]].
  - assert (Hrun : exists s' h', change_infra (I := aws_provider (A := toy running_account) toy_self) 5 toy_end []
      = Ok (true, s', h')) by (do 2 eexists; vm_compute; reflexivity).
    destruct Hrun as (s' & h' & Hc). exists s', h'. split; [exact Hc |].
    apply (change_infra_on_ec2 (A := toy running_account) (E := @ec2_requests _ running_ec2) toy_self 5 toy_end s' [] h');
      [apply consistent_instances | intros g _ _; apply consistent_addresses | | exact Hc].
    split.
    + by intros i m [_ ->]%running_only.
    + by intros i j m m' [-> _]%running_only [-> _]%running_only.
Defined.

Lemma failed_spin_up_leaves_nothing_witness : exists h' e,
  spin_up_instance (A := toy clashing_account) toy_self toy_job "c6g.large" "salmon" "ap-south-1" 4096 2 []
    = (h', Some (Err e)) /\
  exists m, machines clashing_account !! "i-other"%string = Some m /\
    instance_tags (mkJobId "0x08" "0x0a" "0x0b" "42161") = machine_tags m.
Proof.
  do 2 eexists. split; [vm_compute; reflexivity |].
  apply (failed_spin_up_leaves_nothing (A := toy clashing_account) (E := clashing_ec2) toy_self toy_job "c6g.large" "salmon"
    "ap-south-1" 4096 2 [] _ _ ltac:(vm_compute; reflexivity) ltac:(vm_compute; discriminate) "i-other"
    (mkMachine (instance_tags (mkJobId "0x08" "0x0a" "0x0b" "42161")) "running" None)).
  - vm_compute. reflexivity.
  - reflexivity.
Defined.

Definition end_turn : Turn := mkTurn 0 0 [mkPoll (from_secs 10) None] 0.

Lemma terminated_instance_hides_live_witness : exists s' h',
  job_loop (I := aws_provider (A := toy replaced_account) toy_self) (C := ToyChain.toy_chain) (J := ToyCloud.toy_json2)
    [] [] [] [] [end_turn] toy_end [] = Ok (Some 0, s', h') /\
  h' = [describe_instances (H := toy_types) "ap-south-1" (job_filters toy_job)] /\
  forall j m, job_machine replaced_account toy_job j m -> alive (machine_state m) = true ->
    exists m', job_machine (toy_account replaced_account h' "ap-south-1") toy_job j m' /\ alive (machine_state m') = true.
Proof.
  apply (terminated_instance_hides_live (A := toy replaced_account) (E := @ec2_requests _ replaced_ec2) toy_self [] [] [] []
    end_turn [] toy_end [] (shown_machine "i-9" (toy_machine "terminated")) []
    [[shown_machine "i-1" (toy_machine "running")]] "i-9" "terminated");
    try (vm_compute; reflexivity). apply (bool_decide_eq_true_1 _). vm_compute. reflexivity.
Defined.

Lemma ip_endpoint_answers_witness : exists h',
  let state := mkServed ["ap-south-1"%string] [] [] toy_job in
  handle_ip_request (A := toy running_account) toy_self state (mkGetIPRequest (Some "0x07"%string) (Some "ap-south-1"%string)) []
    = (h', Some (Ok "10.0.0.9"%string)) /\
  exists h'' r, handle_ip_request (A := toy running_account) toy_self state
      (mkGetIPRequest (Some "0x07"%string) (Some "ap-south-1"%string)) [] = (h'', Some r) /\
    forall ip, r = Ok ip -> exists id region, Some "0x07"%string = Some id /\ Some "ap-south-1"%string = Some region /\
      genuine_ip (A := toy running_account) (E := running_ec2) (mkJobId id "0x0a" "0x0b" "42161") region ip [] h''.
Proof.
  eexists. intros state. split; [vm_compute; reflexivity |].
  destruct (ip_endpoint_answers (A := toy running_account) (E := running_ec2) toy_self state
    (mkGetIPRequest (Some "0x07"%string) (Some "ap-south-1"%string)) []) as (h'' & r & Hr & _ & Hip).
  exists h'', r. split; [exact Hr | exact Hip].
Defined.

End AwsWitnesses.
