(* ===== verification/ServerTests.v ===== *)
(** * Control plane: the unit tests of server.rs

    The tests of operator/control-plane/src/server.rs ask the router for the
    address of a job, the prices and the bandwidth, with the test provider
    behind it. *)

From S2P Require Import Prelude Chain Keccak Io Market MarketInfra MarketTestbed MarketTests MarketTestsProps AwsProvider.

(** ** The router over the test provider *)

Definition test_job_ip (job : JobId) (region : string) : io TestAws string string :=
  fun p => (p, Some (test_get_job_ip job region p)).

Definition ask (state : Served) (aws : TestAws) (path : string) (query : GetIPRequest) : option (Z * Body) :=
  (all_routes test_job_ip state path query aws).2.

Definition no_query : GetIPRequest := mkGetIPRequest None None.

(** [U256::from(id).to_be_bytes::<32>().encode_hex_with_prefix()] *)
Definition numbered (id : Z) : string := encode_hex_with_prefix id.

Definition served (rates : list RegionalRates) (bandwidth : list GBRateCard) (id : string) : Served :=
  mkServed ["ap-south-1"%string] rates bandwidth (mkJobId id "abc" "xyz" "123").

(** Three jobs with an instance. *)
Definition aws_of_three : TestAws :=
  foldl (fun aws id => aws <| instances := <[numbered id := new_instance 0]> (instances aws) |>)
    default_aws [1; 2; 3].

(** ** The tests *)

#[export] Instance RateCard_eq_dec : EqDecision RateCard.
Proof. solve_decision. Defined.
#[export] Instance RegionalRates_eq_dec : EqDecision RegionalRates.
Proof. solve_decision. Defined.
#[export] Instance GBRateCard_eq_dec : EqDecision GBRateCard.
Proof. solve_decision. Defined.

Definition test_get_ip_happy_case : bool :=
  let aws := aws_of_three in
  let job_id := numbered 1 in
  match ask (served [] [] job_id) aws "/ip" (mkGetIPRequest (Some job_id) (Some "ap-south-1"%string)),
        instances aws !! job_id with
  | Some (status, IpBody ip), Some instance => (status =? 200) && String.eqb ip (ip_address instance)
  | _, _ => false
  end.

Definition test_get_ip_bad_case : bool :=
  let aws := aws_of_three in
  let job_id := numbered 5 in
  match ask (served [] [] job_id) aws "/ip" (mkGetIPRequest (Some job_id) (Some "ap-south-1"%string)) with
  | Some (status, TextBody text) => (status =? 400) && String.eqb text "BAD_REQUEST"
  | _ => false
  end.

Definition test_get_ip_bad_case_no_instances : bool :=
  let aws := default_aws in
  let job_id := numbered 1 in
  match ask (served [] [] job_id) aws "/spec" no_query,
        ask (served [] [] job_id) aws "/ip" (mkGetIPRequest (Some job_id) (Some "ap-south-1"%string)) with
  | Some (spec_status, SpecBody _ _), Some (status, TextBody text) =>
      (spec_status =? 200) && (status =? 400) && String.eqb text "BAD_REQUEST"
  | _, _ => false
  end.

Definition test_handle_spec_request : bool :=
  let compute_rates :=
    [mkRegionalRates "ap-south-1"
       [mkRateCard "m5a.16xlarge" 810833333333333 64 256 "amd64";
        mkRateCard "c6g.16xlarge" 640722222222222 64 128 "arm64";
        mkRateCard "c6i.4xlarge" 207777777777777 16 32 "amd64"]] in
  match ask (served compute_rates [] (numbered 1)) default_aws "/spec" no_query with
  | Some (status, SpecBody _ min_rates) => (status =? 200) && bool_decide (min_rates = compute_rates)
  | _ => false
  end.

Definition test_handle_bandwidth_request : bool :=
  let bandwidth_rates :=
    [mkGBRateCard "US East (Ohio)" "us-east-2" 90000000000000000;
     mkGBRateCard "US East (N. Virginia)" "us-east-1" 90000000000000000;
     mkGBRateCard "US West (N. California)" "us-west-1" 90000000000000000] in
  match ask (served [] bandwidth_rates (numbered 1)) default_aws "/bandwidth" no_query with
  | Some (status, BandwidthBody rates) => (status =? 200) && bool_decide (rates = bandwidth_rates)
  | _ => false
  end.

Definition server_tests : list bool :=
  [test_get_ip_happy_case; test_get_ip_bad_case; test_get_ip_bad_case_no_instances;
   test_handle_spec_request; test_handle_bandwidth_request].

(** ** All tests of the control plane *)

(** C22: The control plane passes its unit tests.  Those of market.rs, whenever
    they are started: the result of the job loop and every call of the
    provider, with its instant, are the expected ones, and so are the answers
    of the address check; those of server.rs: the router answers with the
    address, the error, the prices and the bandwidth they expect. *)
Theorem control_plane_passes_unit_tests (start : Z) (Hs : start <= LATE) :
  Forall (fun t => run_job_test start t = true) job_tests /\
  Forall (fun t => t = true) address_tests /\ Forall (fun t => t = true) server_tests.
Proof.
  split_and!; [by apply job_tests_pass | apply address_tests_pass |].
  repeat apply Forall_cons_2; [.. | apply Forall_nil_2]; vm_compute; reflexivity.
Qed.

Lemma control_plane_passes_unit_tests_witness :
  Forall (fun t => run_job_test (from_secs 1000) t = true) job_tests /\
  Forall (fun t => t = true) address_tests /\ Forall (fun t => t = true) server_tests.
Proof. apply (control_plane_passes_unit_tests (from_secs 1000)). vm_compute. discriminate. Defined.
