(* ===== verification/Startup.v ===== *)
(** * Control plane: start-up

    [run] of operator/control-plane/src/main.rs: the lists of images and
    addresses, the rates, the key pair in every region, and what the server
    and the job spawner are started with.  Files are read through [StartApi],
    with the parsers of serde_json and alloy; EC2 and the key files answer
    through [AwsApi]. *)

From stdpp Require Import pretty.
From S2P Require Import Prelude Text Io Chain Market.
From S2P Require Import Aws AwsHost AwsTrace AwsAccount AwsToy.

(** The arguments of the command line ([profile] only selects credentials). *)
Record Cli := mkCli {
  cli_key_name : string;
  cli_regions : string;
  cli_rpc : string;
  cli_rates : string;
  cli_bandwidth : string;
  cli_contract : string;
  cli_provider : string;
  cli_blacklist : string;
  cli_whitelist : string;
  cli_address_blacklist : string;
  cli_address_whitelist : string;
  cli_port : Z
}.

Class StartApi := {
  username : string;
  read_to_string : string -> option string;
  parse_rates : string -> option (list RegionalRates);
  parse_bandwidth : string -> option (list GBRateCard);
  (* connecting to the node, and its answer *)
  connect_ws : string -> bool;
  get_chain_id : string -> option Z;
  parse_address : string -> option Z
}.

(** [str::lines]: the pieces between line feeds, less a last empty one, each
    less a carriage return at its end. *)
Fixpoint strip_cr (s : string) : string :=
  match s with
  | EmptyString => EmptyString
  | String c EmptyString => if Ascii.eqb c (Ascii.ascii_of_nat 13) then EmptyString else s
  | String c s => String c (strip_cr s)
  end.

Fixpoint drop_last_empty (l : list string) : list string :=
  match l with
  | [] => []
  | [s] => if is_empty s then [] else [s]
  | s :: l => s :: drop_last_empty l
  end.

(** Only a terminated line loses its carriage return. *)
Fixpoint strip_lines (l : list string) : list string :=
  match l with
  | [] => []
  | [s] => [s]
  | s :: l => strip_cr s :: strip_lines l
  end.

Definition str_lines (s : string) : list string := drop_last_empty (strip_lines (lines s)).

(** What the server and the job spawner are given. *)
Record Started := mkStarted {
  st_aws : Aws;
  st_regions : list string;
  st_compute_rates : list RegionalRates;
  st_bandwidth_rates : list GBRateCard;
  st_address_whitelist : list string;
  st_address_blacklist : list string;
  st_port : Z;
  st_job_id : JobId;
  st_contract : Z;
  st_provider : Z
}.

Section startup.
Context `{A : AwsApi} `{S : StartApi} `{C : ChainApi}.

Abbreviation aws := (io (list Request) (list string)).

Definition parse_file (filepath : string) : aws (list string) :=
  if is_empty filepath then mret [] else
  contents ← or_error "Error reading file" (read_to_string filepath);
  mret (str_lines contents).

(** [parse_compute_rates_file] and [parse_bandwidth_rates_file] *)
Definition parse_rates_file {R} (parse : string -> option (list R)) (filepath : string) : aws (list R) :=
  if is_empty filepath then mret [] else
  contents ← or_error "Error reading file" (read_to_string filepath);
  or_error "failed to parse rates file" (parse contents).

Definition parse_compute_rates_file : string -> aws (list RegionalRates) := parse_rates_file parse_rates.
Definition parse_bandwidth_rates_file : string -> aws (list GBRateCard) := parse_rates_file parse_bandwidth.

Definition get_chain_id_from_rpc_url (url : string) : aws string :=
  if negb (connect_ws url) then bail "failed to create websocket provider" else
  chain_id ← or_error "failed to fetch chain id" (get_chain_id url);
  mret (pretty chain_id).

(** A list of images is only there when its flag is given. *)
Definition image_list (context flag : string) : aws (option (list string)) :=
  if is_empty flag then mret None else l ← with_context context (parse_file flag); mret (Some l).

(** The loop over the regions. *)
Fixpoint setup_regions (self : Aws) (regions : list string) : aws unit :=
  match regions with
  | [] => mret tt
  | region :: regions =>
      _ ← with_context ("Failed to setup key pair in " +:+ region) (key_setup self region);
      setup_regions self regions
  end.

(** [run], up to the job spawner it ends in; when an address does not parse,
    the server has been started before. *)
Definition startup (cli : Cli) : aws Started :=
  let regions := split_on (Ascii.ascii_of_nat 44) (cli_regions cli) in
  eif_whitelist ← image_list "Failed to parse eif whitelist" (cli_whitelist cli);
  eif_blacklist ← image_list "Failed to parse eif blacklist" (cli_blacklist cli);
  let self := new_aws username regions (cli_key_name cli) eif_whitelist eif_blacklist in
  _ ← with_context "Failed to generate key pair" (generate_key_pair self);
  _ ← setup_regions self regions;
  compute_rates ← with_context "failed to parse computes rates file" (parse_compute_rates_file (cli_rates cli));
  bandwidth_rates ← with_context "failed to parse bandwidth rates file" (parse_bandwidth_rates_file (cli_bandwidth cli));
  address_whitelist ← with_context "Failed to parse address whitelist" (parse_file (cli_address_whitelist cli));
  address_blacklist ← with_context "Failed to parse address blacklist" (parse_file (cli_address_blacklist cli));
  chain ← with_context "Failed to fetch chain_id" (get_chain_id_from_rpc_url (cli_rpc cli));
  let job_id := mkJobId (encode_hex_with_prefix 0) (cli_provider cli) (cli_contract cli) chain in
  contract ← or_error "failed to parse contract address" (parse_address (cli_contract cli));
  provider ← or_error "failed to parse provider address" (parse_address (cli_provider cli));
  mret (mkStarted self regions compute_rates bandwidth_rates address_whitelist address_blacklist (cli_port cli)
          job_id contract provider).

End startup.

(** ** Theorems *)

Section lists.
Context `{A : AwsApi} `{S : StartApi} `{C : ChainApi}.

(** The entries of the file behind a flag. *)
Definition entries (flag : string) (l : list string) : Prop :=
  if is_empty flag then l = [] else exists contents, read_to_string flag = Some contents /\ l = str_lines contents.

Lemma parse_file_Ok flag h h' l : parse_file flag h = (h', Some (Ok l)) -> h' = h /\ entries flag l.
Proof.
  unfold parse_file, entries. destruct (is_empty flag); [by intros [= <- <-] |].
  intros H. inv_run. eauto.
Qed.

Lemma image_list_Ok c flag h h' o : image_list c flag h = (h', Some (Ok o)) ->
  h' = h /\ if is_empty flag then o = None else exists l, o = Some l /\ entries flag l.
Proof.
  unfold image_list. destruct (is_empty flag) eqn:He; [by intros [= <- <-] |].
  intros H. inv_run.
  match goal with H : parse_file _ _ = _ |- _ => apply parse_file_Ok in H as [-> Hl] end. eauto.
Qed.

(** The verdict of the lists, from the files. *)
Definition whitelisted (flag line : string) : Prop :=
  flag = EmptyString \/ exists l e, entries flag l /\ e ∈ l /\ contains line e = true.
Definition blacklisted (flag line : string) : Prop :=
  flag <> EmptyString /\ exists l e, entries flag l /\ e ∈ l /\ contains line e = true.

Lemma listed_iff line l : listed line l = true <-> exists e, e ∈ l /\ contains line e = true.
Proof. unfold listed. rewrite existsb_exists. setoid_rewrite list_elem_of_In. done. Qed.

Lemma entries_inj flag l l' : entries flag l -> entries flag l' -> l = l'.
Proof.
  unfold entries. destruct (is_empty flag); [congruence |]. intros (c & Hc & ->) (c' & Hc' & ->). congruence.
Qed.

Lemma allowed_hash_files self wflag bflag line :
  (if is_empty wflag then whitelist self = None else exists l, whitelist self = Some l /\ entries wflag l) ->
  (if is_empty bflag then blacklist self = None else exists l, blacklist self = Some l /\ entries bflag l) ->
  allowed_hash self line = true <-> whitelisted wflag line /\ ~ blacklisted bflag line.
Proof.
  unfold allowed_hash, whitelisted, blacklisted, is_empty. rewrite andb_true_iff. intros Hw Hb.
  assert (Hw' : (if whitelist self is Some l then listed line l else true) = true <->
    wflag = EmptyString \/ exists l e, entries wflag l /\ e ∈ l /\ contains line e = true).
  { destruct (String.eqb_spec wflag EmptyString) as [-> | Hne]; [rewrite Hw; tauto |]. destruct Hw as (l & -> & Hl).
    rewrite listed_iff. split; [intros (e & He); right; by exists l, e |].
    intros [? | (l' & e & Hl' & He)]; [done |]. rewrite (entries_inj _ _ _ Hl Hl'). by exists e. }
  assert (Hb' : (if blacklist self is Some l then negb (listed line l) else true) = true <->
    ~ (bflag <> EmptyString /\ exists l e, entries bflag l /\ e ∈ l /\ contains line e = true)).
  { destruct (String.eqb_spec bflag EmptyString) as [-> | Hne]; [rewrite Hb; tauto |]. destruct Hb as (l & -> & Hl).
    rewrite negb_true_iff, <- not_true_iff_false, listed_iff. split.
    - intros Hn [_ (l' & e & Hl' & He)]. apply Hn. rewrite (entries_inj _ _ _ Hl Hl'). by exists e.
    - intros Hn (e & He). apply Hn. split; [done |]. by exists l, e. }
  by rewrite Hw', Hb'.
Qed.

(** The prices of the file behind a flag. *)
Definition priced {R} (parse : string -> option (list R)) (flag : string) (l : list R) : Prop :=
  if is_empty flag then l = [] else exists contents, read_to_string flag = Some contents /\ parse contents = Some l.

Lemma parse_rates_Ok {R} (parse : string -> option (list R)) flag h h' l :
  parse_rates_file parse flag h = (h', Some (Ok l)) -> h' = h /\ priced parse flag l.
Proof.
  unfold parse_rates_file, priced. destruct (is_empty flag); [by intros [= <- <-] |]. intros H. inv_run. eauto.
Qed.

#[local] Hint Extern 0 True => exact I : emits.

Lemma import_key_pair_emits self region : emits (fun _ => True) (import_key_pair self region).
Proof. unfold import_key_pair. emits. Qed.

(** Every region that is set up has been asked for the key. *)
Lemma setup_regions_asks self regions h h' : setup_regions self regions h = (h', Some (Ok tt)) ->
  (exists l, h' = l ++ h) /\
  forall region, region ∈ regions -> describe_key_pairs region [mkFilter "key-name" (key_name self)] ∈ h'.
Proof.
  revert h. induction regions as [| region regions IH]; intros h; cbn [setup_regions].
  - intros [= <-]. split; [by exists [] |]. intros ? []%not_elem_of_nil.
  - intros Hr. apply io_bind_inv in Hr as (h1 & [] & Hk%context_Ok & Hr).
    assert (Hh1 : exists l, h1 = l ++ describe_key_pairs region [mkFilter "key-name" (key_name self)] :: h).
    { unfold key_setup, check_key_pair in Hk. inv_run. destruct (negb _) in Hk; [| injection Hk as <-; by exists []].
      apply context_Ok in Hk. destruct (import_key_pair_emits self region _ _ _ Hk) as (l & -> & _). by exists l. }
    destruct Hh1 as [l1 ->]. destruct (IH _ Hr) as [[l ->] Hin]. split.
    + exists (l ++ l1 ++ [describe_key_pairs region [mkFilter "key-name" (key_name self)]]). by rewrite <- !app_assoc.
    + intros r [-> | Hr']%elem_of_cons; [| by apply Hin]. rewrite !elem_of_app, elem_of_cons. auto.
Qed.
(** A control plane that has started has looked its key pair up in every
    region of its list, and has a client for each; it runs an image exactly
    when the hash of the image is a part of a line of the whitelist file, if a
    whitelist was given, and of no line of the blacklist file, if a blacklist
    was; and jobs are admitted and priced by the files of the other flags, and
    by nothing when a flag is empty. *)
Theorem startup_configuration cli h h' s : startup cli h = (h', Some (Ok s)) ->
  (forall region, region ∈ st_regions s ->
     describe_key_pairs region [mkFilter "key-name" (cli_key_name cli)] ∈ h' /\ region ∈ clients (st_aws s)) /\
  (forall line, allowed_hash (st_aws s) line = true <->
     whitelisted (cli_whitelist cli) line /\ ~ blacklisted (cli_blacklist cli) line) /\
  entries (cli_address_whitelist cli) (st_address_whitelist s) /\
  entries (cli_address_blacklist cli) (st_address_blacklist s) /\
  priced parse_rates (cli_rates cli) (st_compute_rates s) /\
  priced parse_bandwidth (cli_bandwidth cli) (st_bandwidth_rates s).
Proof.
  unfold startup. intros Hrun.
  apply io_bind_inv in Hrun as (h1 & wl & [-> Hwl]%image_list_Ok & Hrun).
  apply io_bind_inv in Hrun as (h2 & bl & [-> Hbl]%image_list_Ok & Hrun).
  set (self := new_aws username _ (cli_key_name cli) wl bl) in Hrun.
  apply io_bind_inv in Hrun as (h3 & [] & _ & Hrun).
  apply io_bind_inv in Hrun as (h4 & [] & [_ Hreg]%setup_regions_asks & Hrun).
  apply io_bind_inv in Hrun as (h5 & rates & [-> Hrates]%context_Ok%parse_rates_Ok & Hrun).
  apply io_bind_inv in Hrun as (h6 & gb & [-> Hgb]%context_Ok%parse_rates_Ok & Hrun).
  apply io_bind_inv in Hrun as (h7 & awl & [-> Hawl]%context_Ok%parse_file_Ok & Hrun).
  apply io_bind_inv in Hrun as (h8 & abl & [-> Habl]%context_Ok%parse_file_Ok & Hrun).
  apply io_bind_inv in Hrun as (h9 & chain & Hchain%context_Ok & Hrun).
  unfold get_chain_id_from_rpc_url in Hchain. destruct (negb (connect_ws (cli_rpc cli))); [done |]. inv_run.
  cbn [st_regions st_aws st_address_whitelist st_address_blacklist st_compute_rates st_bandwidth_rates].
  split_and!; try done; [intros region Hr; split; [by apply Hreg | exact Hr] |].
  intros line. apply (allowed_hash_files self); done.
Qed.
End lists.

(** A start in two regions, with a list of two images. *)
Module StartupWitnesses.
Export ToyAws ToyChain.

#[local] Instance toy_start : StartApi := {|
  username := "oyster";
  read_to_string path :=
    if String.eqb path "images" then Some ("c0ffee salmon" +:+ newline +:+ newline +:+ "deadbeef" +:+ newline)
    else if String.eqb path "rates" then Some "[]"%string else None;
  parse_rates _ := Some [mkRegionalRates "ap-south-1" []];
  parse_bandwidth _ := Some [];
  connect_ws _ := true;
  get_chain_id _ := Some 42161;
  parse_address _ := Some 7
|}.

#[local] Instance quiet_account : AwsApi := toy_api (mkAccount ∅ ∅) (fun _ => (EmptyString, EmptyString)).

Definition toy_cli : Cli :=
  mkCli "key" "ap-south-1,eu-west-1" "wss://node" "rates" "" "0x0a" "0x0b" "" "images" "" "" 8080.

Lemma startup_configuration_witness :
  exists h s, startup toy_cli [] = (h, Some (Ok s)) /\ st_regions s = ["ap-south-1"; "eu-west-1"]%string /\
    (allowed_hash (st_aws s) "c0ffee" = true -> whitelisted "images" "c0ffee") /\
    whitelist (st_aws s) = Some ["c0ffee salmon"; ""; "deadbeef"]%string.
Proof.
  destruct (startup toy_cli []) as [h r] eqn:Hrun.
  assert (Hr : match r with
               | Some (Ok s) => (st_regions s, whitelist (st_aws s)) =
                   (["ap-south-1"; "eu-west-1"]%string, Some ["c0ffee salmon"; ""; "deadbeef"]%string)
               | _ => False
               end) by (revert Hrun; vm_compute; by intros [= <- <-]).
  destruct r as [[s | |] |]; try done. injection Hr as Hregions Hwhite.
  destruct (startup_configuration toy_cli [] h s Hrun) as (_ & Hl & _).
  exists h, s. split; [done |]. split; [done |]. split; [| done]. intros Ha. by apply (Hl "c0ffee"%string) in Ha as [Ha _].
Defined.
End StartupWitnesses.
