(* ===== verification/ExecTestbed.v ===== *)
(** * Serverless executor: running its unit tests

    What serverless/executor/src/tests.rs runs its tests on: the application
    state of a test, calls of the endpoints and of the event handler under an
    environment that answers, and what the tests rely on of the crates -- the
    hex crate, written out here, the wallet, and a signer whose key can be
    recovered. *)

From stdpp Require Import pretty.
From S2P Require Import Prelude Text ByteOrder Async ExecState ExecJob ExecEvents ExecNode ExecToy.

(** ** The hex crate *)

Inductive FromHexError := OddLength | InvalidHexCharacter (c : Ascii.ascii) (index : nat).

Definition hex_digit (c : Ascii.ascii) : option Z :=
  let n := Z.of_nat (Ascii.nat_of_ascii c) in
  if (48 <=? n) && (n <=? 57) then Some (n - 48) else
  if (65 <=? n) && (n <=? 70) then Some (n - 55) else
  if (97 <=? n) && (n <=? 102) then Some (n - 87) else None.

Fixpoint hex_pairs (index : nat) (s : string) : FromHexError + bytes :=
  match s with
  | EmptyString => inr []
  | String _ EmptyString => inl OddLength
  | String c (String d s) =>
      match hex_digit c, hex_digit d with
      | None, _ => inl (InvalidHexCharacter c index)
      | _, None => inl (InvalidHexCharacter d (S index))
      | Some x, Some y =>
          match hex_pairs (S (S index)) s with inl e => inl e | inr l => inr (16 * x + y :: l) end
      end
  end.

Definition from_hex (s : string) : FromHexError + bytes :=
  if Nat.odd (String.length s) then inl OddLength else hex_pairs 0 s.

(** The debug form of an error, about a printable character. *)
Definition hex_error_text (e : FromHexError) : string :=
  match e with
  | OddLength => "OddLength"
  | InvalidHexCharacter c index =>
      "InvalidHexCharacter { c: '" +:+ String c EmptyString +:+ "', index: " +:+ pretty index +:+ " }"
  end.

Abbreviation to_hex := ToyExec.to_hex.

(** A byte is printed as two digits, the second of which is no x. *)
Definition byte_printed (x : Z) : bool :=
  let c := ToyExec.hex_char (x / 16) in
  let d := ToyExec.hex_char (x mod 16) in
  negb (Ascii.eqb d (Ascii.ascii_of_nat 120)) &&
  match hex_digit c, hex_digit d with Some a, Some b => 16 * a + b =? x | _, _ => false end.

Lemma bytes_printed x : is_byte x = true -> byte_printed x = true.
Proof.
  intros Hx%is_byte_range. assert (Hall : forallb byte_printed (seqZ 0 256) = true) by (vm_compute; reflexivity).
  rewrite forallb_forall in Hall. apply Hall, list_elem_of_In, elem_of_seqZ. lia.
Qed.

Lemma hex_pairs_printed b index : octets b -> hex_pairs index (to_hex b) = inr b.
Proof.
  intros Hb. revert index. induction Hb as [| x b Hx%bytes_printed _ IH]; intros index; [done |].
  apply andb_true_iff in Hx as [_ Hx]. cbn [ToyExec.to_hex hex_pairs]. revert Hx.
  destruct (hex_digit _) as [m |]; [| done]. destruct (hex_digit _) as [n |]; [| done].
  intros Hx%Z.eqb_eq. by rewrite IH, Hx.
Qed.

Lemma length_to_hex b : String.length (to_hex b) = (2 * length b)%nat.
Proof. induction b as [| x b IH]; [done |]. cbn [ToyExec.to_hex String.length length]. rewrite IH. lia. Qed.

Lemma from_hex_printed b : octets b -> from_hex (to_hex b) = inr b.
Proof.
  intros Hb. unfold from_hex. rewrite length_to_hex, Nat.odd_mul. by apply hex_pairs_printed.
Qed.

Lemma to_hex_app a b : to_hex (a ++ b) = to_hex a +:+ to_hex b.
Proof. induction a as [| x a IH]; [done |]. cbn [app ToyExec.to_hex]. by rewrite IH. Qed.

Lemma strip_0x_printed b : octets b -> strip_0x (to_hex b) = to_hex b.
Proof.
  intros Hb. unfold strip_0x. destruct Hb as [| x b Hx%bytes_printed _]; [done |].
  apply andb_true_iff in Hx as [Hx%negb_true_iff _]. unfold has_prefix.
  assert (Hp : String.prefix "0x" (to_hex (x :: b)) = false); [| by rewrite Hp].
  cbn [ToyExec.to_hex String.prefix]. destruct (Ascii.ascii_dec _ _); [| done].
  destruct (Ascii.ascii_dec _ _) as [He |]; [| done]. rewrite <- He in Hx. by rewrite Ascii.eqb_refl in Hx.
Qed.

(** ** The crates and the configuration of the tests *)

Section bed.
Context `{Cfg : ExecConfig} `{Api : ExecApi}.

(** [LocalWallet::from_bytes], by the address of the key, and
    [VerifyingKey::recover_from_prehash] of a digest, a signature and a
    recovery id. *)
Context (wallet_of : bytes -> option Client) (recover_from_prehash : bytes -> bytes -> Z -> option bytes).

Class TestCrates : Prop := {
  capacity_of_tests : job_capacity = 20;
  buffer_of_tests : execution_buffer_time = 10;
  selected_of_tests : num_selected_executors = 1;
  decodes_hex s : hex_decode s = match from_hex s with inr b => Some b | inl _ => None end;
  prints_hex b : hex_lower b = to_hex b;
  hex_errors s e : from_hex s = inl e -> debug_error (NotHex s) = hex_error_text e;
  invalid_key : wallet_of (replicate 32 255) = None;
  invalid_key_error :
    debug_error (BadWallet (replicate 32 255)) = "EcdsaError(signature::Error { source: None })"%string;
  digest_size b : length (keccak256 b) = 32%nat;
  packs a b c : length b = 32%nat -> length c = 32%nat ->
    is_Some (encode_packed [TString a; TFixedBytes b; TFixedBytes c]);
  decodes_created a b c d : length a = 32%nat -> octets b -> 0 <= c < 2 ^ 256 -> 0 <= d < 2 ^ 160 ->
    decode job_created_types (encode [TFixedBytes a; TBytes b; TUint c; TArray [TAddress d]]) =
    Some [TFixedBytes a; TBytes b; TUint c; TArray [TAddress d]];
  decodes_responded :
    decode job_responded_types (encode [TBytes []; TUint 1; TUint 0; TUint 1]) = Some [TBytes []; TUint 1; TUint 0; TUint 1];
  enclave_is_address : 0 <= enclave_address < 2 ^ 160;
  (* a 32-byte digest is signed, and the key recovered from the signature *)
  signs digest : length digest = 32%nat -> exists rs v, sign_prehash digest = Some (rs, v) /\ length rs = 64%nat /\ octets rs /\
    0 <= v < 4 /\ recover_from_prehash digest rs v = Some enclave_public_key
}.

(** [generate_app_state], for the cgroups of the machine. *)
Definition generate_app_state (cgroups : list string) : AppState :=
  mkAppState cgroups ∅ 0 false false false false 0 None 0 [].

(** ** Calls under an environment *)

(** The answers of the environment, and the events still to come: the streams
    have ended when there are none. *)
Context (answer : forall c, option (Response c)).

Definition answer_on (events : list (Stream * ELog)) (c : Call) : option (Response c) :=
  match c as c return option (Response c) with
  | NextEvent _ => Some (head events)
  | c => answer c
  end.

Definition after_turn (t : exec_task) (events : list (Stream * ELog)) : list (Stream * ELog) :=
  match current_call t with Some (NextEvent _) => tail events | _ => events end.

(** A configuration of a task that runs alone. *)
Record running := mkRunning { at_clock : Z; incoming : list (Stream * ELog); task_of : exec_task; state_of : AppState }.

Inductive turns : running -> running -> list exec_task -> Prop :=
| turns_refl r : turns r r []
| turns_run now events t s t' s' new r new' :
    turn (answer_on events) now t s = Some (t', s', new) ->
    turns (mkRunning now (after_turn t events) t' s') r new' ->
    turns (mkRunning now events t s) r (new ++ new')
| turns_wait now now' events t s r new :
    now <= now' -> turns (mkRunning now' events t s) r new -> turns (mkRunning now events t s) r new.

Lemma turns_trans r1 r2 r3 new new' : turns r1 r2 new -> turns r2 r3 new' -> turns r1 r3 (new ++ new').
Proof.
  induction 1; intros H'; [done | | by eapply turns_wait; eauto].
  rewrite <- (assoc_L (++)). eapply turns_run; eauto.
Qed.

Lemma turns_silent now events t s t' s' r new :
  turn (answer_on events) now t s = Some (t', s', []) ->
  turns (mkRunning now (after_turn t events) t' s') r new -> turns (mkRunning now events t s) r new.
Proof. intros Ht Hr. rewrite <- (app_nil_l new). eapply turns_run; [exact Ht | exact Hr]. Qed.

(** The same when no event is left. *)
Lemma turns_alone now t s t' s' r new :
  turn (answer_on []) now t s = Some (t', s', []) ->
  turns (mkRunning now [] t' s') r new -> turns (mkRunning now [] t s) r new.
Proof.
  intros Ht Hr. eapply turns_silent; [exact Ht |]. assert (Ha : after_turn t [] = []); [| by rewrite Ha].
  unfold after_turn. by destruct (current_call t) as [[] |].
Qed.

Lemma turns_one now events t s t' s' new :
  turn (answer_on events) now t s = Some (t', s', new) ->
  turns (mkRunning now events t s) (mkRunning now (after_turn t events) t' s') new.
Proof. intros Ht. rewrite <- (app_nil_r new). eapply turns_run; [exact Ht | constructor]. Qed.

(** [m] is called in [s] and returns [a]; [new] are the tasks it spawned. *)
Definition returns {A} (m : exec A) (now : Z) (events : list (Stream * ELog)) (s : AppState) (a : A) (s' : AppState)
    (new : list exec_task) : Prop :=
  forall k, turns (mkRunning now events (m k) s) (mkRunning now [] (k (Returned a)) s') new.

Section returns.
Variable now : Z.

Lemma returns_ret {A} (a : A) s : returns (mret a) now [] s a s [].
Proof. intros k. constructor. Qed.

Lemma returns_bind {A B} (m : exec A) (f : A -> exec B) s a s' new b s'' new' :
  returns m now [] s a s' new -> returns (f a) now [] s' b s'' new' -> returns (m ≫= f) now [] s b s'' (new ++ new').
Proof. intros Hm Hf k. eapply turns_trans; [apply Hm | apply Hf]. Qed.

Lemma returns_atomic {X} (f : AppState -> AppState * X) s : returns (atomic f) now [] s (f s).2 (f s).1 [].
Proof. intros k. by apply (turns_one now [] (atomic f k)). Qed.

Lemma returns_reading {X} (f : AppState -> X) s : returns (reading f) now [] s (f s) s [].
Proof. apply (returns_atomic (fun s => (s, f s))). Qed.

Lemma returns_writing f s : returns (writing f) now [] s tt (f s) [].
Proof. apply (returns_atomic (fun s => (f s, tt))). Qed.

Lemma returns_await c s x : answer_on [] c = Some x -> returns (await c) now [] s x s [].
Proof.
  intros Hx k. assert (Ht : turn (answer_on []) now (await c k) s = Some (k (Returned x), s, []))
    by (cbn [await turn]; by rewrite Hx).
  apply turns_one in Ht. unfold after_turn in Ht. by destruct c.
Qed.

Lemma returns_spawn t s : returns (spawn t) now [] s tt s [t].
Proof. intros k. by apply (turns_one now [] (spawn t k)). Qed.

End returns.

(** ** Tests of the endpoints: the requests in order, with what is asserted of
    the response, the state and the new tasks *)

Record exchange := mkExchange {
  request : Request;
  expects : HttpResponse -> AppState -> list exec_task -> Prop
}.

(** The listener of at most [n] rounds that an endpoint may have spawned does
    not get a turn before the test is over. *)
Fixpoint exchanges_pass (n : nat) (now : Z) (l : list exchange) (s : AppState) : Prop :=
  match l with
  | [] => True
  | e :: l => exists r s' new, returns (endpoint wallet_of true n (request e)) now [] s r s' new /\
                expects e r s' new /\ exchanges_pass n now l s'
  end.

(** [recover_key]: the key that signed a registration message. *)
Definition recover_key (owner job_capacity sign_timestamp : Z) (sign : string) : option bytes :=
  let domain_separator := keccak256 (encode
    [TFixedBytes (keccak256 (literal "EIP712Domain(string name,string version)"));
     TFixedBytes (keccak256 (literal "marlin.oyster.Executors"));
     TFixedBytes (keccak256 (literal "1"))]) in
  let register_typehash := keccak256 (literal
    "Register(address owner,uint256 jobCapacity,uint8 env,uint256 signTimestamp)") in
  let hash_struct := keccak256 (encode
    [TFixedBytes register_typehash; TAddress owner; TUint job_capacity; TUint EXECUTION_ENV_ID;
     TUint sign_timestamp]) in
  digest ← encode_packed [TString [0x19; 0x01]; TFixedBytes domain_separator; TFixedBytes hash_struct];
  signature ← hex_decode (String.substring 2 128 sign);
  last ← hex_decode (String.substring 130 (String.length sign - 130) sign);
  v ← head last;
  recover_from_prehash (keccak256 digest) signature (v - 27).

(** ** Logs *)

Definition JOB_CREATED_TOPIC : Z :=
  from_be (keccak256 (literal "JobCreated(uint256,uint8,address,bytes32,bytes,uint256,address[])")).

(** [get_job_created_log]; [owner] is the random address of its last topic. *)
Definition get_job_created_log (block_number job_id env_id : Z) (code_hash : string) (code_inputs : bytes)
    (user_deadline enclave owner : Z) : option ELog :=
  code_hash ← hex_decode code_hash;
  Some (mkELog [JOB_CREATED_TOPIC; job_id; env_id; owner]
          (encode [TFixedBytes code_hash; TBytes code_inputs; TUint user_deadline; TArray [TAddress enclave]])
          (Some block_number) (Some false)).

Definition JOB_RESPONDED_TOPIC : Z := from_be (keccak256 (literal "JobResponded(uint256,bytes,uint256,uint8,uint8)")).

(** [get_job_responded_log] *)
Definition get_job_responded_log (block_number job_id : Z) : ELog :=
  mkELog [JOB_RESPONDED_TOPIC; job_id] (encode [TBytes []; TUint 1; TUint 0; TUint 1]) (Some block_number) (Some false).

(** [Log::default()] *)
Definition default_log : ELog := mkELog [] [] None None.

(** [handle_event_logs] with a new channel, of a test that waits for its end:
    the state, what the channel holds, and the tasks of its jobs. *)
Definition handles (n : nat) (now : Z) (events : list (Stream * ELog)) (s : AppState) (s' : AppState)
    (new : list exec_task) : Prop :=
  returns (handle_event_logs n 0) now events (s <| sessions := [mkSession [] []] |>) tt s' new.

Definition received (s : AppState) : list JobsTxnMetadata :=
  match sessions s with [c] => channel c | _ => [] end.

End bed.
