(* ===== verification/ExecTests.v ===== *)
(** * Serverless executor: unit tests

    The tests of serverless/executor/src/tests.rs that start no job: those of
    the configuration endpoints, of the deregistration of the executor, of a
    job for another environment, and of a job that nobody answers; and that
    they pass.  [ExecJobTests] adds the jobs whose code is not found. *)

From stdpp Require Import pretty.
From S2P Require Import Prelude Text Keccak ByteOrder Async ExecState ExecJob ExecEvents ExecNode ExecToy ExecProps ExecTestbed.

Section tests.
Context `{Cfg : ExecConfig} `{Api : ExecApi}.
Context (wallet_of : bytes -> option Client) (recover_from_prehash : bytes -> bytes -> Z -> option bytes).
Context (answer : forall c, option (Response c)).

Definition answers_with (status : Status) (text : string) (r : HttpResponse) (s : AppState) (new : list exec_task) : Prop :=
  r = says status text.

(** [hex::encode] of an address *)
Definition encode_address (a : Z) : string := hex_lower (be_bytes 20 a).

Definition inject_valid_owner (valid_owner : Z) : exchange :=
  mkExchange (PostImmutableConfig (encode_address valid_owner)) (fun r s new =>
    r = says Ok200 "Immutable params configured!" /\ enclave_owner s = valid_owner).

Definition inject_gas_key (gas_wallet_key : bytes) : exchange :=
  mkExchange (PostMutableConfig (hex_lower gas_wallet_key)) (fun r s new =>
    r = says Ok200 "Mutable params configured!" /\ http_rpc_client s = wallet_of gas_wallet_key).

(** ** The endpoints *)

Definition inject_immutable_config_test (valid_owner valid_owner_2 : Z) : list exchange := [
  mkExchange (PostImmutableConfig "32255")
    (answers_with BadRequest400 "Invalid owner address hex string: OddLength");
  mkExchange (PostImmutableConfig "32255G")
    (answers_with BadRequest400 "Invalid owner address hex string: InvalidHexCharacter { c: 'G', index: 5 }");
  mkExchange (PostImmutableConfig "322557") (answers_with BadRequest400 "Owner address must be 20 bytes long!");
  inject_valid_owner valid_owner;
  mkExchange (PostImmutableConfig (encode_address valid_owner_2))
    (answers_with BadRequest400 "Immutable params already configured!")].

Definition inject_mutable_config_test (gas_wallet_key gas_wallet_key_2 : bytes) : list exchange := [
  mkExchange (PostMutableConfig "322557") (answers_with BadRequest400 "Gas private key must be 32 bytes long!");
  mkExchange (PostMutableConfig "fffffffffffffffffzffffffffffffffffffffffffffffgfffffffffffffffff")
    (answers_with BadRequest400 "Invalid gas private key hex string: InvalidHexCharacter { c: 'z', index: 17 }");
  mkExchange (PostMutableConfig "ffffffffffffffffffffffffffffffffffffffffffffffffffffffffffffffff")
    (answers_with BadRequest400
       "Invalid gas private key provided: EcdsaError(signature::Error { source: None })");
  inject_gas_key gas_wallet_key;
  inject_gas_key gas_wallet_key_2].

Definition details_are (owner_address gas_address : Z) : exchange :=
  mkExchange GetExecutorDetails (fun r s new =>
    exists response, r = mkResponse Ok200 (DetailsBody response) /\
      details_enclave_address response = enclave_address /\
      details_enclave_public_key response = "0x" +:+ hex_lower enclave_public_key /\
      details_owner_address response = owner_address /\
      details_gas_address response = gas_address).

Definition get_executor_details_test (valid_owner : Z) (gas_wallet_key : bytes) : list exchange := [
  details_are 0 0;
  inject_valid_owner valid_owner;
  details_are valid_owner 0;
  inject_gas_key gas_wallet_key;
  details_are valid_owner (default 0 (wallet_of gas_wallet_key))].

Definition registration_is (valid_owner : Z) (rest : AppState -> list exec_task -> Prop) : exchange :=
  mkExchange GetSignedRegistrationMessage (fun r s new =>
    exists response, r = mkResponse Ok200 (RegistrationBody response) /\
      reg_job_capacity response = 20 /\ reg_owner response = valid_owner /\
      String.length (reg_signature response) = 132%nat /\
      recover_key recover_from_prehash (reg_owner response) (reg_job_capacity response)
        (reg_sign_timestamp response) (reg_signature response) = Some enclave_public_key /\
      rest s new).

(** The second message starts no listener. *)
Definition export_signed_registration_message_test (valid_owner : Z) (gas_wallet_key : bytes) : list exchange := [
  mkExchange GetSignedRegistrationMessage (answers_with BadRequest400 "Immutable params not configured yet!");
  inject_valid_owner valid_owner;
  mkExchange GetSignedRegistrationMessage (answers_with BadRequest400 "Mutable params not configured yet!");
  inject_gas_key gas_wallet_key;
  registration_is valid_owner (fun s new => events_listener_active s = true);
  registration_is valid_owner (fun s new => new = [])].

(** ** The events *)

Definition user_deadline : Z := 5000.

(** A handler of at most [n] events; nothing is received, and no task is left
    that could still send. *)
Definition executor_deregistered_test (cgroups : list string) (n : nat) (now : Z) : Prop :=
  let log := mkELog [from_be (keccak256 (literal "ExecutorDeregistered(address)")); enclave_address] [] None (Some false) in
  exists s', handles answer n now [(Deregistered, log)] (generate_app_state cgroups <| enclave_registered := true |>) s' [] /\
    received s' = [] /\ enclave_registered s' = false.

Definition invalid_env_id_test (cgroups : list string) (owner : Z) (n : nat) (now : Z) : Prop :=
  exists log, get_job_created_log 1 0 2 "9468bb6a8e85ed11e292c8cac0c1539df691c8d8ec62e7dbfa9f1bd7f504e46e"
                (literal ("{" +:+ quote +:+ "num" +:+ quote +:+ ":10}")) user_deadline enclave_address owner = Some log /\
    exists s', handles answer n now [(JobCreated, log); (JobCreated, default_log)] (generate_app_state cgroups) s' [] /\
      received s' = [].

(** The task of the job runs to its end after the events. *)
Definition timeout_job_execution_test (cgroups : list string) (enclave owner : Z) (n : nat) (now : Z) : Prop :=
  exists log, get_job_created_log 1 0 EXECUTION_ENV_ID "9c641b535e5586200d0f2fd81f05a39436c0d9dd35530e9fb3ca18352c3ba111"
                (literal "{}") user_deadline enclave owner = Some log /\
    exists s' task, handles answer n now [(JobCreated, log); (JobCreated, default_log)] (generate_app_state cgroups) s' [task] /\
      exists later s'', turns answer (mkRunning now [] task s') (mkRunning later [] Done s'') [] /\
        exists retry_deadline, received s'' = [mkJobsTxnMetadata TIMEOUT 0 None retry_deadline].

(** ** The endpoints answer *)

(** An rpc that answers, and a channel with room. *)
Class Answering : Prop := {
  counts c : exists n, answer (TransactionCount c) = Some (Some n);
  blocks c : exists b, answer (BlockNumber c) = Some (Some b);
  times : exists t, answer UnixTime = Some t;
  has_room : answer (ChannelSlot 0) = Some true
}.

Context {K : TestCrates wallet_of recover_from_prehash} {W : Answering}.
Variables (n : nat) (now : Z).

Abbreviation call r := (returns answer (endpoint wallet_of true n r) now []).

Lemma bad_hex s e : from_hex s = inl e -> hex_decode s = None /\ debug_error (NotHex s) = hex_error_text e.
Proof using K.
  intros He. rewrite (decodes_hex wallet_of recover_from_prehash), He. split; [done |].
  by apply (hex_errors wallet_of recover_from_prehash).
Qed.

Lemma good_hex s b : from_hex s = inr b -> hex_decode s = Some b.
Proof using K. intros Hs. by rewrite (decodes_hex wallet_of recover_from_prehash), Hs. Qed.

Lemma printed_hex b : octets b -> hex_decode (strip_0x (hex_lower b)) = Some b.
Proof using K.
  intros Hb. rewrite (prints_hex wallet_of recover_from_prehash), strip_0x_printed by done.
  by apply good_hex, from_hex_printed.
Qed.

Lemma immutable_returns h s : call (PostImmutableConfig h) s (inject_owner h s).2 (inject_owner h s).1 [].
Proof. apply returns_atomic. Qed.

Lemma owner_injected owner s : 0 <= owner < 2 ^ 160 -> immutable_params_injected s = false ->
  inject_owner (encode_address owner) s =
  (s <| enclave_owner := owner |> <| immutable_params_injected := true |>, says Ok200 "Immutable params configured!").
Proof using K.
  intros Ho Hs. unfold inject_owner, encode_address. rewrite Hs. cbv zeta.
  rewrite printed_hex by apply octets_be_bytes. rewrite length_be_bytes. cbn [Nat.eqb negb].
  by rewrite from_be_octets by (change (256 ^ Z.of_nat 20) with (2 ^ 160); lia).
Qed.

(** The state with a gas key. *)
Definition with_gas_key (count : Z) (client : Client) (s : AppState) : AppState :=
  set_mutable_injected (set_client client (ExecTxn.set_nonce count s)).

Lemma gas_key_injected key client s : octets key -> length key = 32%nat -> wallet_of key = Some client ->
  exists count, call (PostMutableConfig (hex_lower key)) s (says Ok200 "Mutable params configured!")
                  (with_gas_key count client s) [].
Proof using K W.
  intros Hk Hl Hw. destruct (counts client) as [count Hcount]. exists count.
  cbn [endpoint]. unfold inject_mutable_config. cbv zeta. rewrite printed_hex by done. rewrite Hl. cbn [Nat.eqb negb].
  rewrite Hw. cbn [negb]. unfold retry3. cbn [retry].
  eapply (returns_bind answer now _ _ _ (Some count) _ []).
  - eapply (returns_bind answer now _ _ _ (Some count) _ []); 
    [by apply (returns_await answer now (TransactionCount client) s (Some count)) | apply returns_ret].
  - eapply (returns_bind answer now _ _ _ tt _ []); [apply returns_writing |].
    eapply (returns_bind answer now _ _ _ tt _ []); [apply returns_writing |].
    eapply (returns_bind answer now _ _ _ tt _ []); [apply returns_writing | apply returns_ret].
Qed.

Lemma details_returns s client : (mutable_params_injected s = true -> http_rpc_client s = Some client) ->
  call GetExecutorDetails s (mkResponse Ok200 (DetailsBody (mkExecutorDetails enclave_address
    ("0x" +:+ hex_lower enclave_public_key) (enclave_owner s) (if mutable_params_injected s then client else 0)))) s [].
Proof.
  intros Hc. cbn [endpoint]. unfold get_executor_details.
  eapply (returns_bind answer now _ _ _ (mutable_params_injected s) s []); [apply returns_reading |].
  eapply (returns_bind answer now _ _ _ (if mutable_params_injected s then client else 0) s []).
  - destruct (mutable_params_injected s); [| apply returns_ret].
    eapply (returns_bind answer now _ _ _ (Some client) s []); [| apply returns_ret].
    rewrite <- (Hc eq_refl). apply returns_reading.
  - eapply (returns_bind answer now _ _ _ (enclave_owner s) s []); [apply returns_reading | apply returns_ret].
Qed.

Lemma registration_refused s : immutable_params_injected s = false \/ mutable_params_injected s = false ->
  call GetSignedRegistrationMessage s
    (says BadRequest400 (if immutable_params_injected s then "Mutable params not configured yet!"
                         else "Immutable params not configured yet!")) s [].
Proof.
  intros Hs. cbn [endpoint]. unfold export_signed_registration_message.
  eapply (returns_bind answer now _ _ _ (immutable_params_injected s) s []); [apply returns_reading |].
  destruct (immutable_params_injected s); [| apply returns_ret]. destruct Hs as [| Hs]; [done |].
  eapply (returns_bind answer now _ _ _ (mutable_params_injected s) s []); [apply returns_reading |].
  rewrite Hs. apply returns_ret.
Qed.

Lemma substring_prefix a b : String.substring 0 (String.length a) (a +:+ b) = a.
Proof.
  induction a as [| c a IH]; [by destruct b |].
  change (String c (String.substring 0 (String.length a) (a +:+ b)) = String c a). by rewrite IH.
Qed.

(** The signature of a registration message. *)
Lemma signed_message owner t : exists digest rs v,
  registration_digest owner t = Some digest /\ sign_prehash digest = Some (rs, v) /\
  let sign := "0x" +:+ hex_lower (rs ++ [wrap 8 (27 + v)]) in
  String.length sign = 132%nat /\
  recover_key recover_from_prehash owner job_capacity t sign = Some enclave_public_key.
Proof using K.
  unfold registration_digest, recover_key. fold executors_domain_separator. cbv zeta.
  match goal with |- context [encode_packed [TString ?a; TFixedBytes ?b; TFixedBytes ?c]] =>
    destruct (packs wallet_of recover_from_prehash a b c
      (digest_size wallet_of recover_from_prehash _) (digest_size wallet_of recover_from_prehash _)) as [packed ->] end.
  cbn [fmap option_fmap option_map mbind option_bind].
  destruct (signs wallet_of recover_from_prehash (keccak256 packed) (digest_size wallet_of recover_from_prehash _)) as (rs & v & Hsign & Hl & Hrs & Hv & Hrec).
  exists (keccak256 packed), rs, v. split; [done |]. split; [done |].
  assert (Hw : wrap 8 (27 + v) = 27 + v) by (unfold wrap; apply Z.mod_small; lia).
  assert (Hoct : octets [27 + v]) by (repeat constructor; apply is_byte_range; lia).
  rewrite Hw, (prints_hex wallet_of recover_from_prehash), to_hex_app.
  assert (H1 : String.length (to_hex rs) = 128%nat) by (rewrite length_to_hex; lia).
  split; [by rewrite !length_append, H1 |].
  assert (Hall : String.length ("0x" +:+ to_hex rs +:+ to_hex [27 + v]) = 132%nat) by (by rewrite !length_append, H1).
  assert (Hsig : String.substring 2 128 ("0x" +:+ to_hex rs +:+ to_hex [27 + v]) = to_hex rs).
  { change (String.substring 0 128 (to_hex rs +:+ to_hex [27 + v]) = to_hex rs). rewrite <- H1. apply substring_prefix. }
  assert (Hlast : String.substring 130 (132 - 130) ("0x" +:+ to_hex rs +:+ to_hex [27 + v]) = to_hex [27 + v]).
  { rewrite <- append_assoc. change (132 - 130)%nat with (String.length (to_hex [27 + v])).
    replace 130%nat with (String.length ("0x" +:+ to_hex rs)) by (by rewrite length_append, H1). apply substring_append. }
  rewrite Hall, Hsig, Hlast, (good_hex _ _ (from_hex_printed _ Hrs)), (good_hex _ _ (from_hex_printed _ Hoct)).
  cbn [mbind option_bind head]. by replace (27 + v - 27) with v by lia.
Qed.

(** A configured executor answers with a message of its owner; the first time
    its listener starts. *)
Lemma registration_returns s client :
  immutable_params_injected s = true -> mutable_params_injected s = true -> http_rpc_client s = Some client ->
  exists message new, call GetSignedRegistrationMessage s (mkResponse Ok200 (RegistrationBody message))
                        (if events_listener_active s then s else set_listener true s) new /\
    reg_job_capacity message = 20 /\ reg_owner message = enclave_owner s /\
    String.length (reg_signature message) = 132%nat /\
    recover_key recover_from_prehash (reg_owner message) (reg_job_capacity message)
      (reg_sign_timestamp message) (reg_signature message) = Some enclave_public_key /\
    (events_listener_active s = true -> new = []).
Proof using K W.
  intros Hi Hm Hc. destruct times as [t Ht], (blocks client) as [block Hblock].
  destruct (signed_message (enclave_owner s) t) as (digest & rs & v & Hdigest & Hsign & Hlen & Hrec).
  exists (mkRegistrationMessage job_capacity t EXECUTION_ENV_ID (enclave_owner s)
            ("0x" +:+ hex_lower (rs ++ [wrap 8 (27 + v)]))),
    (if events_listener_active s then [] else [run_task (events_listener n block)]).
  split; [| split_and!; [apply (capacity_of_tests wallet_of recover_from_prehash) | done | exact Hlen | exact Hrec |]];
    [| by intros ->].
  cbn [endpoint]. unfold export_signed_registration_message.
  eapply (returns_bind answer now _ _ _ (immutable_params_injected s) s []); [apply returns_reading |].
  rewrite Hi. cbn [negb].
  eapply (returns_bind answer now _ _ _ (mutable_params_injected s) s []); [apply returns_reading |].
  rewrite Hm. cbn [negb].
  eapply (returns_bind answer now _ _ _ (enclave_owner s) s []); [apply returns_reading |].
  eapply (returns_bind answer now _ _ _ t s []); [by apply (returns_await answer now UnixTime) |].
  rewrite Hdigest, Hsign. cbv zeta.
  eapply (returns_bind answer now _ _ _ (Some client) s []); [rewrite <- Hc; apply returns_reading |].
  eapply (returns_bind answer now _ _ _ client s []); [apply returns_ret |].
  eapply (returns_bind answer now _ _ _ (Some block) s []); [by apply (returns_await answer now (BlockNumber client)) |].
  eapply (returns_bind answer now _ _ _ (claim_listener (Some block) s).2 (claim_listener (Some block) s).1 []);
    [apply returns_atomic |].
  unfold claim_listener. destruct (events_listener_active s); cbn [fst snd]; [apply returns_ret |].
  rewrite <- (app_nil_r [run_task _]).
  eapply (returns_bind answer now _ _ _ tt _ [run_task (events_listener n block)]); [apply returns_spawn | apply returns_ret].
Qed.

(** ** The tests pass *)

(** A request whose response is known. *)
Lemma exchange_passes e l s r s' new :
  call (request e) s r s' new -> expects e r s' new -> exchanges_pass wallet_of answer n now l s' ->
  exchanges_pass wallet_of answer n now (e :: l) s.
Proof. intros Hcall He Hl. cbn [exchanges_pass]. exists r, s', new. by split_and!. Qed.

Lemma refused h s text l expected :
  inject_owner h s = (s, says BadRequest400 text) -> expected = text ->
  exchanges_pass wallet_of answer n now l s ->
  exchanges_pass wallet_of answer n now (mkExchange (PostImmutableConfig h) (answers_with BadRequest400 expected) :: l) s.
Proof.
  intros Hr -> Hl. eapply exchange_passes; [| reflexivity | exact Hl].
  pose proof (immutable_returns h s) as Hi. by rewrite Hr in Hi.
Qed.

Lemma owner_passes owner l s : 0 <= owner < 2 ^ 160 -> immutable_params_injected s = false ->
  exchanges_pass wallet_of answer n now l (s <| enclave_owner := owner |> <| immutable_params_injected := true |>) ->
  exchanges_pass wallet_of answer n now (inject_valid_owner owner :: l) s.
Proof using K.
  intros Ho Hs Hl. pose proof (immutable_returns (encode_address owner) s) as Hi.
  rewrite owner_injected in Hi by done. eapply exchange_passes; [exact Hi | by split | exact Hl].
Qed.

Lemma gas_key_passes key client l s : octets key -> length key = 32%nat -> wallet_of key = Some client ->
  (forall count, exchanges_pass wallet_of answer n now l (with_gas_key count client s)) ->
  exchanges_pass wallet_of answer n now (inject_gas_key key :: l) s.
Proof using K W.
  intros Hk Hl Hw Hrest. destruct (gas_key_injected key client s Hk Hl Hw) as [count Hcall].
  eapply exchange_passes; [exact Hcall | split; [done | by symmetry] | apply Hrest].
Qed.

Lemma details_pass s client l owner gas : (mutable_params_injected s = true -> http_rpc_client s = Some client) ->
  owner = enclave_owner s -> gas = (if mutable_params_injected s then client else 0) ->
  exchanges_pass wallet_of answer n now l s ->
  exchanges_pass wallet_of answer n now (details_are owner gas :: l) s.
Proof.
  intros Hc -> -> Hl. eapply exchange_passes; [by apply (details_returns _ client) | | exact Hl]. by eexists.
Qed.

Lemma bad_owner text e s l : immutable_params_injected s = false -> strip_0x text = text -> from_hex text = inl e ->
  exchanges_pass wallet_of answer n now l s ->
  exchanges_pass wallet_of answer n now
    (mkExchange (PostImmutableConfig text)
       (answers_with BadRequest400 ("Invalid owner address hex string: " +:+ hex_error_text e)) :: l) s.
Proof using K.
  intros Hs Hstrip He Hl. destruct (bad_hex _ _ He) as [Hdec Herr].
  eapply refused; [| reflexivity | exact Hl]. unfold inject_owner. by rewrite Hs, Hstrip, Hdec, Herr.
Qed.

Lemma immutable_config_test_passes cgroups owner owner_2 : 0 <= owner < 2 ^ 160 ->
  exchanges_pass wallet_of answer n now (inject_immutable_config_test owner owner_2) (generate_app_state cgroups).
Proof using K.
  intros Ho. unfold inject_immutable_config_test.
  apply (bad_owner _ OddLength); [done .. |].
  apply (bad_owner _ (InvalidHexCharacter (Ascii.ascii_of_nat 71) 5)); [done .. |].
  eapply refused; [| reflexivity |].
  { unfold inject_owner. cbn [generate_app_state immutable_params_injected]. cbv zeta.
    by rewrite (good_hex (strip_0x "322557") [50; 37; 87]). }
  apply owner_passes; [done | done |]. eapply refused; [reflexivity | reflexivity | done].
Qed.

Lemma gas_key_refused text s l expected :
  inject_mutable_config wallet_of true text = mret (says BadRequest400 expected) ->
  exchanges_pass wallet_of answer n now l s ->
  exchanges_pass wallet_of answer n now
    (mkExchange (PostMutableConfig text) (answers_with BadRequest400 expected) :: l) s.
Proof.
  intros Hr Hl. eapply exchange_passes; [| reflexivity | exact Hl]. cbn [request endpoint]. rewrite Hr. apply returns_ret.
Qed.

Lemma mutable_config_test_passes cgroups key key_2 client client_2 :
  octets key -> length key = 32%nat -> wallet_of key = Some client ->
  octets key_2 -> length key_2 = 32%nat -> wallet_of key_2 = Some client_2 ->
  exchanges_pass wallet_of answer n now (inject_mutable_config_test key key_2) (generate_app_state cgroups).
Proof using K W.
  intros. unfold inject_mutable_config_test.
  apply gas_key_refused.
  { unfold inject_mutable_config. cbv zeta. by rewrite (good_hex (strip_0x "322557") [50; 37; 87]). }
  apply gas_key_refused.
  { unfold inject_mutable_config. cbv zeta.
    destruct (bad_hex (strip_0x "fffffffffffffffffzffffffffffffffffffffffffffffgfffffffffffffffff")
                (InvalidHexCharacter (Ascii.ascii_of_nat 122) 17) eq_refl) as [-> ->]. done. }
  apply gas_key_refused.
  { unfold inject_mutable_config. cbv zeta.
    rewrite (good_hex (strip_0x "ffffffffffffffffffffffffffffffffffffffffffffffffffffffffffffffff") (replicate 32 255)) by done.
    rewrite length_replicate. cbn [Nat.eqb negb].
    by rewrite (invalid_key wallet_of recover_from_prehash), (invalid_key_error wallet_of recover_from_prehash). }
  eapply gas_key_passes; [done .. |]. intros count. eapply gas_key_passes; [done .. |]. by intros count_2.
Qed.

Lemma executor_details_test_passes cgroups owner key client : 0 <= owner < 2 ^ 160 ->
  octets key -> length key = 32%nat -> wallet_of key = Some client ->
  exchanges_pass wallet_of answer n now (get_executor_details_test owner key) (generate_app_state cgroups).
Proof using K W.
  intros Ho Hk Hl Hw. unfold get_executor_details_test. rewrite Hw.
  apply (details_pass (generate_app_state cgroups) 0); [done .. |].
  apply owner_passes; [done | done |].
  apply (details_pass (generate_app_state cgroups <| enclave_owner := owner |> <| immutable_params_injected := true |>) 0);
    [done .. |].
  eapply gas_key_passes; [done .. |]. intros count.
  by apply (details_pass (with_gas_key count client
    (generate_app_state cgroups <| enclave_owner := owner |> <| immutable_params_injected := true |>)) client).
Qed.

Lemma registration_passes s client owner (rest : AppState -> list exec_task -> Prop) l :
  immutable_params_injected s = true -> mutable_params_injected s = true -> http_rpc_client s = Some client ->
  owner = enclave_owner s -> (forall new, (events_listener_active s = true -> new = []) ->
     rest (if events_listener_active s then s else set_listener true s) new) ->
  exchanges_pass wallet_of answer n now l (if events_listener_active s then s else set_listener true s) ->
  exchanges_pass wallet_of answer n now (registration_is owner rest :: l) s.
Proof using K W.
  intros Hi Hm Hc -> Hrest Hl. destruct (registration_returns s client Hi Hm Hc) as (message & new & Hcall & H1 & H2 & H3 & H4 & Hn).
  eapply exchange_passes; [exact Hcall | | exact Hl]. exists message. split_and!; auto.
Qed.

Lemma registration_test_passes cgroups owner key client : 0 <= owner < 2 ^ 160 ->
  octets key -> length key = 32%nat -> wallet_of key = Some client ->
  exchanges_pass wallet_of answer n now (export_signed_registration_message_test owner key)
    (generate_app_state cgroups).
Proof using K W.
  intros Ho Hk Hl Hw. unfold export_signed_registration_message_test.
  eapply exchange_passes; [apply registration_refused; by left | reflexivity |].
  apply owner_passes; [done | done |].
  eapply exchange_passes; [apply registration_refused; by right | reflexivity |].
  eapply gas_key_passes; [done .. |]. intros count.
  set (s := with_gas_key count client _).
  apply (registration_passes s client); [done .. |].
  apply (registration_passes (set_listener true s) client); [done .. | | done]. intros new Hnew. by apply Hnew.
Qed.

(** ** The events are handled *)

Lemma locally_turns events t s t' s' new : locally t s t' s' new ->
  turns answer (mkRunning now events t s) (mkRunning now events t' s') new.
Proof.
  induction 1 as [t s | X f k s t' s' new _ IH | t k s t' s' new _ IH].
  - constructor.
  - eapply turns_silent; [done | exact IH].
  - change (t :: new) with ([t] ++ new). eapply turns_run; [done | exact IH].
Qed.

(** The next event, whose handler makes no call. *)
Lemma event_handled m stream event events flow s s' new (k : exit unit -> exec_task) r new' :
  runs (handle_event 0 stream event) s (Returned flow) s' new ->
  turns answer (mkRunning now events
    ((match flow with Continue => handle_event_logs m 0 | Return => mret tt end : exec unit) k) s') r new' ->
  turns answer (mkRunning now ((stream, event) :: events) (handle_event_logs (S m) 0 k) s) r (new ++ new').
Proof.
  intros Hrun Hrest. rewrite <- (app_nil_l (new ++ new')). eapply turns_run; [reflexivity |].
  eapply turns_trans; [apply locally_turns, Hrun | exact Hrest].
Qed.

Lemma handles_continue m stream event events s s' new s'' new' :
  runs (handle_event 0 stream event) s (Returned Continue) s' new ->
  returns answer (handle_event_logs m 0) now events s' tt s'' new' ->
  returns answer (handle_event_logs (S m) 0) now ((stream, event) :: events) s tt s'' (new ++ new').
Proof. intros Hrun Hrest k. eapply event_handled; [exact Hrun | apply Hrest]. Qed.

Lemma handles_return m stream event s s' new :
  runs (handle_event 0 stream event) s (Returned Return) s' new ->
  returns answer (handle_event_logs (S m) 0) now [(stream, event)] s tt s' new.
Proof. intros Hrun k. rewrite <- (app_nil_r new). eapply event_handled; [exact Hrun | constructor]. Qed.

Lemma handles_end m s : returns answer (handle_event_logs (S m) 0) now [] s tt s [].
Proof. intros k. by apply (turns_one answer now [] (handle_event_logs (S m) 0 k)). Qed.

Lemma default_log_ignored s : runs (handle_event 0 JobCreated default_log) s (Returned Continue) s [].
Proof. apply runs_ret. Qed.

(** A job and an empty log, and then the end of the streams. *)
Lemma job_then_end m event s s' new :
  runs (handle_event 0 JobCreated event) s (Returned Continue) s' new ->
  returns answer (handle_event_logs (3 + m) 0) now [(JobCreated, event); (JobCreated, default_log)] s tt s' new.
Proof.
  intros Hrun. rewrite <- (app_nil_r new). eapply handles_continue; [exact Hrun |].
  apply (handles_continue _ _ _ [] _ s' [] s' [] (default_log_ignored s')), handles_end.
Qed.

Lemma deregistered_test_passes cgroups m : executor_deregistered_test cgroups (S m) now.
Proof.
  eexists. split; [| split].
  - eapply handles_return. cbn [handle_event]. unfold on_deregistered. cbn [is_removed eremoved default].
    eapply (runs_bind _ _ _ _ _ []); [apply runs_atomic | apply runs_ret].
  - done.
  - done.
Qed.

Lemma invalid_env_test_passes cgroups owner m : invalid_env_id_test cgroups owner (3 + m) now.
Proof using K.
  eexists. split.
  { unfold get_job_created_log.
    rewrite (good_hex _ (be_bytes 32 0x9468bb6a8e85ed11e292c8cac0c1539df691c8d8ec62e7dbfa9f1bd7f504e46e)) by by vm_compute.
    done. }
  eexists. split.
  - apply job_then_end. cbn [handle_event]. unfold on_created. apply (runs_new_block _ 1); [done .. | | ]; [done |].
    do 2 (eapply (runs_bind _ _ _ _ _ []); [apply runs_ret |]). apply runs_ret.
  - done.
Qed.

(** The timeout task of a running job reports to an empty channel. *)
Lemma timeout_reports s deadline : now + timeout_delay deadline + secs TIMEOUT_TXN_RESEND_DEADLINE < secs (2 ^ 63) ->
  0 <= timeout_delay deadline -> deadline <= u64_MAX -> is_running 0 s = true -> sessions s = [mkSession [] []] ->
  exists later s'', turns answer (mkRunning now [] (timeout_task 0 deadline 0) s) (mkRunning later [] Done s'') [] /\
    exists retry_deadline, received s'' = [mkJobsTxnMetadata TIMEOUT 0 None retry_deadline].
Proof using W.
  intros Hlate Hdelay Hd Hrunning Hs. set (later := now + timeout_delay deadline).
  exists later, (mark_completed 0 (push_response 0
    (mkJobsTxnMetadata TIMEOUT 0 None (later + secs TIMEOUT_TXN_RESEND_DEADLINE)) s)).
  split; [| eexists; unfold received; cbn; by rewrite Hs].
  unfold timeout_task, run_task, as_u64. rewrite (proj2 (Z.leb_le _ _) Hd).
  eapply turns_alone; [reflexivity |]. apply (turns_wait _ _ later); [lia |].
  eapply turns_alone; [cbn [turn]; by rewrite Z.leb_refl |].
  eapply turns_alone; [reflexivity |]. cbn [fst snd]. rewrite Hrunning. cbn [negb].
  eapply turns_alone; [reflexivity |]. unfold instant_add.
  assert (Hlt : later + secs TIMEOUT_TXN_RESEND_DEADLINE <? secs (2 ^ 63) = true) by (by apply Z.ltb_lt).
  rewrite Hlt. cbn [expect].
  eapply turns_alone; [unfold send_response, mret, async_ret, mbind, async_bind, await; cbn [turn answer_on]; rewrite has_room; reflexivity |].
  do 2 (eapply turns_alone; [reflexivity |]).
  constructor.
Qed.

Lemma timeout_test_passes cgroups enclave owner m : 0 <= now -> now + secs 36 < secs (2 ^ 63) ->
  0 <= enclave < 2 ^ 160 -> enclave <> enclave_address ->
  timeout_job_execution_test cgroups enclave owner (3 + m) now.
Proof using K W.
  intros Hnow Hlate Henclave Hother.
  assert (Hdelay : timeout_delay user_deadline = secs 16)
    by (unfold timeout_delay; by rewrite (buffer_of_tests wallet_of recover_from_prehash)).
  set (hash := be_bytes 32 0x9c641b535e5586200d0f2fd81f05a39436c0d9dd35530e9fb3ca18352c3ba111).
  eexists. split; [unfold get_job_created_log; by rewrite (good_hex _ hash) by by vm_compute |].
  set (s0 := generate_app_state cgroups <| sessions := [mkSession [] []] |>).
  exists (mark_running 0 (set_last_block 1 s0)), (timeout_task 0 user_deadline 0). split.
  - apply job_then_end.
    apply (created_event_handled 0 _ 1 0 hash (literal "{}") user_deadline [TAddress enclave] false s0).
    + split; [done .. |]. apply (decodes_created wallet_of recover_from_prehash); [done | by repeat constructor | done | done].
    + split; [done |]. by intros [=]%list_elem_of_singleton.
  - apply timeout_reports; rewrite ?Hdelay; [| done .. | |]; [unfold secs, TIMEOUT_TXN_RESEND_DEADLINE in *; lia | | done].
    apply bool_decide_eq_true. set_solver.
Qed.

End tests.
