(* ===== verification/ExecJobTests.v ===== *)
(** * Serverless executor: unit tests of jobs without code

    The tests of serverless/executor/src/tests.rs whose jobs end before any
    user code runs: the transaction of the code is sent to another contract or
    does not exist ([invalid_transaction_job_test]), or its calldata is not
    that of a deployment ([invalid_code_calldata_test]).  With [ExecTests]
    they are the nine tests of the file that need neither workerd nor the
    cgroups of the machine. *)

From S2P Require Import Prelude Text Keccak KeysProps ByteOrder Async ExecState ExecWorkerd ExecJob ExecEvents ExecNode.
From S2P Require Import ExecToy ExecProps ExecTestbed ExecTests.

Section tests.
Context `{Cfg : ExecConfig} `{Api : ExecApi}.
Context (wallet_of : bytes -> option Client) (recover_from_prehash : bytes -> bytes -> Z -> option bytes).
Context (answer : forall c, option (Response c)).

(** ** The tests *)

(** [assert_response] *)
Definition assert_response (m : JobsTxnMetadata) (id error : Z) (output_ : bytes) : Prop :=
  txn_type m = OUTPUT /\ job_id m = id /\
  exists o, job_output m = Some o /\ error_code o = error /\ output o = output_.

(** Tasks that run one after the other to their ends, as the clock moves on. *)
Inductive all_done : Z -> list exec_task -> AppState -> Z -> AppState -> Prop :=
| all_done_nil now s : all_done now [] s now s
| all_done_cons now t ts s now' s' now'' s'' :
    turns answer (mkRunning now [] t s) (mkRunning now' [] Done s') [] ->
    all_done now' ts s' now'' s'' -> all_done now (t :: ts) s now'' s''.

(** A JSON object with a transaction to [contract_addr], and the answer of the
    rpc when there is none. *)
Definition transaction_response (contract_addr calldata : string) : Value :=
  VObject [("result", VObject [("to", VString contract_addr); ("input", VString calldata)])]%string.
Definition missing_response : Value := VObject [("result"%string, Null)].

(** The transactions of the tests. *)
Definition foreign_hash : string := "fed8ab36cc27831836f6dcb7291049158b4d8df31c0ffb05a3d36ba6555e29d7".
Definition absent_hash : string := "37b0b2d9dd58d9130781fc914da456c16ec403010e8d4c27b0ea4657a24c8546".
Definition calldata_hash : string := "d23370ce64d1679fb53497b882347e25a026ba0bc54536340243ae7464d5d12d".

(** The network of the tests: the first transaction goes to another contract,
    the second does not exist, the third calls another method of the contract
    or is too short. *)
Class TestNetwork : Prop := {
  foreign_transaction : exists to calldata, to <> code_contract_addr /\
    answer (GetTransactionByHash ("0x" +:+ foreign_hash) http_rpc_url) = Some (Some (transaction_response to calldata));
  absent_transaction :
    answer (GetTransactionByHash ("0x" +:+ absent_hash) http_rpc_url) = Some (Some missing_response);
  invalid_calldata_transaction : exists calldata,
    ((String.length calldata < 138)%nat \/ has_prefix CODE_CALL_PREFIX calldata = false) /\
    answer (GetTransactionByHash ("0x" +:+ calldata_hash) http_rpc_url) =
      Some (Some (transaction_response code_contract_addr calldata));
  slugs : exists slug, answer RandomSlug = Some slug;
  (* removing a file succeeds or fails *)
  removals path : exists ok, answer (RemoveFile path) = Some ok
}.

(** The handler takes the events and spawns the tasks of the jobs; the jobs
    run at once, one after the other, and their timeouts when they are due. *)
Definition invalid_transaction_job_test (cgroups : list string) (owner owner' : Z) (n : nat) (now : Z) : Prop :=
  let inputs := literal ("{" +:+ quote +:+ "num" +:+ quote +:+ ":10}") in
  exists log log',
    get_job_created_log 1 0 EXECUTION_ENV_ID foreign_hash inputs user_deadline enclave_address owner = Some log /\
    get_job_created_log 1 1 EXECUTION_ENV_ID absent_hash inputs user_deadline enclave_address owner' = Some log' /\
    exists s' timeout job timeout' job',
      handles answer n now
        [(JobCreated, log); (JobResponded, get_job_responded_log 1 0);
         (JobCreated, log'); (JobResponded, get_job_responded_log 1 1)]
        (generate_app_state cgroups) s' [timeout; job; timeout'; job'] /\
      exists later s'' m m', all_done now [job; job'; timeout; timeout'] s' later s'' /\
        received s'' = [m; m'] /\ assert_response m 0 1 [] /\ assert_response m' 1 1 [].

Definition invalid_code_calldata_test (cgroups : list string) (owner : Z) (n : nat) (now : Z) : Prop :=
  exists log,
    get_job_created_log 1 0 EXECUTION_ENV_ID calldata_hash (literal "{}") user_deadline enclave_address owner = Some log /\
    exists s' timeout job,
      handles answer n now [(JobCreated, log); (JobResponded, get_job_responded_log 1 0)]
        (generate_app_state cgroups) s' [timeout; job] /\
      exists later s'' m, all_done now [job; timeout] s' later s'' /\
        received s'' = [m] /\ assert_response m 0 2 [].

(** ** A job without code *)

Context {K : TestCrates wallet_of recover_from_prehash} {W : Answering answer} {Nw : TestNetwork}.

Abbreviation ends m now := (returns answer m now []).

Lemma ends_await_in now c s x : answer_on answer [] c = Some x -> ends (await_in c) now s x s [].
Proof.
  intros Hx k. assert (Ht : turn (answer_on answer []) now (await_in c k) s = Some (k (Returned x), s, []))
    by (cbn [await_in turn]; by rewrite Hx).
  apply turns_one in Ht. unfold after_turn in Ht. by destruct c.
Qed.

Lemma ends_now now s : ends instant_now now s now s [].
Proof. intros k. by apply (turns_one answer now [] (instant_now k)). Qed.

Lemma ends_timeout {A} (m : exec A) now s a s' : ends m now s a s' [] -> ends (timeout m) now s (Some a) s' [].
Proof. intros Hm k. apply Hm. Qed.

Lemma ends_seq {A B} (m : exec A) (f : A -> exec B) now s a s' b s'' :
  ends m now s a s' [] -> ends (f a) now s' b s'' [] -> ends (m ≫= f) now s b s'' [].
Proof. intros Hm Hf. by apply (returns_bind answer now _ _ s a s' [] b s'' []). Qed.

(** The removal of a file, which may fail four times. *)
Lemma removal_ends n path now s : exists r, ends (retry n (remove_file path)) now s r s [].
Proof using Nw.
  destruct (removals path) as [ok Hok].
  assert (Hone : ends (remove_file path) now s (if ok then Some tt else None) s []).
  { eapply (ends_seq _ _ now s ok s); [by apply (returns_await answer now (RemoveFile path)) | apply returns_ret]. }
  induction n as [| n [r IH]]; cbn [retry]; destruct ok;
    eexists; (eapply ends_seq; [exact Hone |]); [apply returns_ret | apply returns_ret | apply returns_ret | exact IH].
Qed.

Lemma cleanups_end tx_hash slug now s :
  (exists r, ends (cleanup_config_file tx_hash slug) now s r s []) /\
  (exists r, ends (cleanup_code_file tx_hash slug) now s r s []).
Proof using Nw.
  split; [destruct (removal_ends 3 (config_path tx_hash slug) now s) as [r Hr]
         | destruct (removal_ends 3 (code_path tx_hash slug) now s) as [r Hr]];
    eexists; (eapply ends_seq; [exact Hr | apply returns_ret]).
Qed.

(** A response is signed. *)
Lemma response_signed job_id output time code t : exists sig, sign_response job_id output time code t = Some sig.
Proof using K.
  unfold sign_response, response_digest. cbv zeta. unfold jobs_domain_separator.
  match goal with |- context [encode_packed [TString ?a; TFixedBytes ?b; TFixedBytes ?c]] =>
    destruct (packs wallet_of recover_from_prehash a b c
      (digest_size wallet_of recover_from_prehash _) (digest_size wallet_of recover_from_prehash _)) as [packed ->] end.
  cbn [fmap option_fmap option_map mbind option_bind].
  destruct (signs wallet_of recover_from_prehash (keccak256 packed) (digest_size wallet_of recover_from_prehash _))
    as (rs & v & -> & _). by eexists.
Qed.

(** A job whose code is refused executes to the code of the refusal. *)
Lemma execute_refused tx_hash inputs slug now s response err code :
  answer (GetTransactionByHash tx_hash http_rpc_url) = Some (Some response) ->
  code_of_response code_contract_addr response = Err err -> error_code_of err = Some code ->
  ends (execute_job tx_hash inputs slug) now s (Some (unsigned_output [] code ((now - now) / 10 ^ 6))) s [].
Proof.
  intros Hr He Hcode. unfold execute_job.
  eapply ends_seq; [apply ends_now |].
  eapply (ends_seq _ _ now s (inl err) s).
  - unfold create_code_file.
    eapply (ends_seq _ _ now s (Some response) s).
    + unfold retry3. cbn [retry]. eapply (ends_seq _ _ now s (Some response) s); [| apply returns_ret].
      by apply (ends_await_in now (GetTransactionByHash tx_hash http_rpc_url)).
    + eapply (ends_seq _ _ now s (inl err) s); [rewrite He; apply returns_ret | apply returns_ret].
  - cbv beta iota. rewrite Hcode. unfold failed_output, elapsed_millis.
    eapply (ends_seq _ _ now s ((now - now) / 10 ^ 6) s); [| apply returns_ret].
    eapply ends_seq; [apply ends_now | apply returns_ret].
Qed.

(** The response that a refused job sends. *)
Lemma job_reports job_id hash inputs deadline now s response err code :
  answer (GetTransactionByHash ("0x" +:+ hex_lower hash) http_rpc_url) = Some (Some response) ->
  code_of_response code_contract_addr response = Err err -> error_code_of err = Some code ->
  0 <= deadline <= u64_MAX -> now + retry_window deadline 0 < secs (2 ^ 63) ->
  exists m, assert_response m job_id code [] /\
    turns answer (mkRunning now [] (job_task job_id hash inputs deadline 0) s)
      (mkRunning now [] Done (push_response 0 m s)) [].
Proof using K W Nw.
  intros Hr He Hcode Hd Hlate. destruct slugs as [slug Hslug], (times answer) as [t Ht].
  destruct (response_signed job_id [] 0 code t) as [sig Hsig].
  destruct (cleanups_end ("0x" +:+ hex_lower hash) slug now s) as [[r1 H1] [r2 H2]].
  set (m := mkJobsTxnMetadata OUTPUT job_id (Some (mkJobOutput [] code 0 t sig)) (now + retry_window deadline 0)).
  exists m. split; [split; [done | split; [done | by eexists]] |].
  assert (Hjob : ends (d ← expect (as_u64 deadline); handle_job job_id ("0x" +:+ hex_lower hash) inputs d 0)
                   now s tt (push_response 0 m s) []); [| apply (Hjob (fun _ => Done))].
  unfold as_u64. rewrite (proj2 (Z.leb_le _ _)) by apply Hd.
  eapply ends_seq; [apply returns_ret |]. unfold handle_job.
  eapply ends_seq; [by apply (returns_await answer now RandomSlug) |].
  eapply ends_seq; [eapply ends_timeout, execute_refused; [exact Hr | exact He | exact Hcode] |].
  eapply ends_seq; [exact H1 |]. eapply ends_seq; [exact H2 |]. cbv zeta iota. unfold report_job.
  eapply (ends_seq _ _ now s t s); [by apply (returns_await answer now UnixTime) |].
  cbn [output error_code total_time unsigned_output]. rewrite Z.sub_diag. change (0 / 10 ^ 6) with 0. rewrite Hsig.
  eapply ends_seq; [apply ends_now |]. unfold instant_add. rewrite (proj2 (Z.ltb_lt _ _) Hlate).
  eapply ends_seq; [apply returns_ret |]. unfold send_response.
  eapply (ends_seq _ _ now s true s); [apply (returns_await answer now (ChannelSlot 0)); apply (has_room answer) |].
  apply (returns_writing answer now (push_response 0 m)).
Qed.

(** The timeout of a job that was answered ends without a report. *)
Lemma timeout_silent job_id deadline now s :
  0 <= timeout_delay deadline -> deadline <= u64_MAX -> is_running job_id s = false ->
  turns answer (mkRunning now [] (timeout_task job_id deadline 0) s)
    (mkRunning (now + timeout_delay deadline) [] Done s) [].
Proof.
  intros Hdelay Hd Hdone. unfold timeout_task, run_task, as_u64. rewrite (proj2 (Z.leb_le _ _) Hd).
  eapply turns_alone; [reflexivity |].
  apply (turns_wait answer _ (now + timeout_delay deadline)); [lia |].
  eapply turns_alone; [cbn [turn]; by rewrite Z.leb_refl |].
  eapply turns_alone; [reflexivity |]. cbn [fst snd]. rewrite Hdone. cbn [negb]. constructor.
Qed.

(** ** The tests pass *)

(** The events of a job: its log and the log of a response to it. *)
Lemma created_then_responded m job_id hash_text hash inputs owner now log events s s' new :
  from_hex hash_text = inr hash -> length hash = 32%nat -> octets inputs -> last_block_seen s <= 1 ->
  get_job_created_log 1 job_id EXECUTION_ENV_ID hash_text inputs user_deadline enclave_address owner = Some log ->
  returns answer (handle_event_logs m 0) now events
    (mark_completed job_id (set_last_block 1 (mark_running job_id (set_last_block 1 s)))) tt s' new ->
  returns answer (handle_event_logs (2 + m) 0) now
    ((JobCreated, log) :: (JobResponded, get_job_responded_log 1 job_id) :: events) s tt s'
    (timeout_task job_id user_deadline 0 :: job_task job_id hash inputs user_deadline 0 :: new).
Proof using K.
  intros Hhash Hlen Hin Hblock Hlog Hrest. unfold get_job_created_log in Hlog.
  rewrite (good_hex wallet_of recover_from_prehash _ _ Hhash) in Hlog. injection Hlog as <-.
  eapply (handles_continue answer now _ _ _ _ s _ [timeout_task _ _ _; job_task _ _ _ _ _] s' new).
  - pose proof (created_event_handled 0 (mkELog [JOB_CREATED_TOPIC; job_id; EXECUTION_ENV_ID; owner]
      (encode [TFixedBytes hash; TBytes inputs; TUint user_deadline; TArray [TAddress enclave_address]])
      (Some 1) (Some false)) 1 job_id hash inputs user_deadline [TAddress enclave_address] true s) as Hc.
    rewrite (proj2 (Z.ltb_ge 1 (last_block_seen s)) Hblock) in Hc. apply Hc.
    + split; [done .. |]. apply (decodes_created wallet_of recover_from_prehash); [done | done | done |].
      apply (enclave_is_address wallet_of recover_from_prehash).
    + split; [intros _; by apply list_elem_of_singleton | done].
  - eapply (handles_continue answer now _ _ _ _ _ _ [] s' new); [| exact Hrest].
    cbn [handle_event].
    pose proof (responded_runs (get_job_responded_log 1 job_id) 1 job_id [] 1 0 1
      (mark_running job_id (set_last_block 1 s))) as Hresp.
    rewrite (selected_of_tests wallet_of recover_from_prehash) in Hresp. apply Hresp; [| done].
    split; [done .. |]. apply (decodes_responded wallet_of recover_from_prehash).
Qed.

(** A transaction hash, by its text. *)
Lemma hash_read text hash : from_hex text = inr hash -> to_hex hash = text -> length hash = 32%nat ->
  exists h, from_hex text = inr h /\ length h = 32%nat /\ hex_lower h = text.
Proof using K. intros Hh Ht Hl. exists hash. by rewrite (prints_hex wallet_of recover_from_prehash). Qed.

Ltac read_hash text n h Hh Hl Hp :=
  destruct (hash_read text (be_bytes 32 n)) as (h & Hh & Hl & Hp); [by vm_compute .. |].

(** The job of a refused transaction whose hash is [text]. *)
Lemma refused_job job_id text hash inputs now s response err code :
  hex_lower hash = text -> answer (GetTransactionByHash ("0x" +:+ text) http_rpc_url) = Some (Some response) ->
  code_of_response code_contract_addr response = Err err -> error_code_of err = Some code ->
  now + secs 5010 < secs (2 ^ 63) ->
  exists m, assert_response m job_id code [] /\
    turns answer (mkRunning now [] (job_task job_id hash inputs user_deadline 0) s)
      (mkRunning now [] Done (push_response 0 m s)) [].
Proof using K W Nw.
  intros <- Hr He Hcode Hlate. apply (job_reports job_id hash inputs user_deadline now s response err code); try done.
  unfold retry_window. by rewrite (buffer_of_tests wallet_of recover_from_prehash).
Qed.

Lemma foreign_refused to calldata : to <> code_contract_addr ->
  code_of_response code_contract_addr (transaction_response to calldata) = Err (InvalidTxToValue to code_contract_addr).
Proof.
  intros Hto. unfold code_of_response, transaction_response. cbn.
  by rewrite (proj2 (String.eqb_neq _ _) Hto).
Qed.

Lemma calldata_refused calldata :
  (String.length calldata < 138)%nat \/ has_prefix CODE_CALL_PREFIX calldata = false ->
  exists err, code_of_response code_contract_addr (transaction_response code_contract_addr calldata) = Err err /\
    error_code_of err = Some 2.
Proof.
  intros Hbad.
  assert (Hc : code_of_response code_contract_addr (transaction_response code_contract_addr calldata) =
    if (String.length calldata <? 138)%nat then Err InvalidTxCalldataLength else
    if negb (has_prefix CODE_CALL_PREFIX calldata) then Err InvalidTxCalldata else
    payload ← unwrap (str_from calldata 138);
    decoded ← ok_or BadCalldata (hex_decode payload);
    mret (strip_trailing_zeros decoded)).
  { unfold code_of_response, transaction_response. cbn [take_field find fst snd fmap option_fmap option_map default unwrap].
    cbn. by rewrite String.eqb_refl. }
  rewrite Hc. destruct (Nat.ltb_spec (String.length calldata) 138) as [Hlen | Hlen]; [by eexists |].
  destruct Hbad as [Hbad | ->]; [lia |]. by eexists.
Qed.

Lemma all_done_app now ts s now' s' ts' now'' s'' :
  all_done now ts s now' s' -> all_done now' ts' s' now'' s'' -> all_done now (ts ++ ts') s now'' s''.
Proof. induction 1; intros H'; [done |]. cbn [app]. econstructor; [eassumption | auto]. Qed.

Lemma delay_of_tests : timeout_delay user_deadline = secs 16.
Proof using K. unfold timeout_delay. by rewrite (buffer_of_tests wallet_of recover_from_prehash). Qed.

Lemma octets_literal_num : octets (literal ("{" +:+ quote +:+ "num" +:+ quote +:+ ":10}")).
Proof. by repeat constructor. Qed.

Lemma invalid_transaction_test_passes cgroups owner owner' m now :
  0 <= now -> now + secs 5010 < secs (2 ^ 63) ->
  invalid_transaction_job_test cgroups owner owner' (5 + m) now.
Proof using K W Nw.
  intros Hnow Hlate. pose proof delay_of_tests as Ht.
  read_hash foreign_hash 0xfed8ab36cc27831836f6dcb7291049158b4d8df31c0ffb05a3d36ba6555e29d7 h Hh Hl Hp.
  read_hash absent_hash 0x37b0b2d9dd58d9130781fc914da456c16ec403010e8d4c27b0ea4657a24c8546 h' Hh' Hl' Hp'.
  unfold invalid_transaction_job_test. cbv zeta.
  set (inputs := literal _).
  set (s0 := generate_app_state cgroups <| sessions := [mkSession [] []] |>).
  set (s1 := mark_completed 0 (set_last_block 1 (mark_running 0 (set_last_block 1 s0)))).
  set (s2 := mark_completed 1 (set_last_block 1 (mark_running 1 (set_last_block 1 s1)))).
  do 2 eexists. split; [unfold get_job_created_log; by rewrite (good_hex wallet_of recover_from_prehash _ _ Hh) |].
  split; [unfold get_job_created_log; by rewrite (good_hex wallet_of recover_from_prehash _ _ Hh') |].
  exists s2, (timeout_task 0 user_deadline 0), (job_task 0 h inputs user_deadline 0),
    (timeout_task 1 user_deadline 0), (job_task 1 h' inputs user_deadline 0). split.
  - apply (created_then_responded (3 + m) 0 foreign_hash h inputs owner); [exact Hh | exact Hl | apply octets_literal_num | done | |].
    { unfold get_job_created_log. by rewrite (good_hex wallet_of recover_from_prehash _ _ Hh). }
    apply (created_then_responded (1 + m) 1 absent_hash h' inputs owner' now _ [] s1 s2 []);
      [exact Hh' | exact Hl' | apply octets_literal_num | done | |].
    { unfold get_job_created_log. by rewrite (good_hex wallet_of recover_from_prehash _ _ Hh'). }
    apply handles_end.
  - destruct foreign_transaction as (to & calldata & Hto & Hforeign).
    destruct (refused_job 0 foreign_hash h inputs now s2 (transaction_response to calldata)
      (InvalidTxToValue to code_contract_addr) 1) as (m1 & Hm1 & Hrun1);
      [exact Hp | exact Hforeign | by apply foreign_refused | reflexivity | exact Hlate |].
    destruct (refused_job 1 absent_hash h' inputs now (push_response 0 m1 s2) missing_response TxNotFound 1)
      as (m2 & Hm2 & Hrun2);
      [exact Hp' | exact absent_transaction | reflexivity | reflexivity | exact Hlate |].
    do 2 eexists. exists m1, m2. split.
    + econstructor; [exact Hrun1 |]. econstructor; [exact Hrun2 |].
      econstructor; [apply timeout_silent; [by rewrite Ht | done | apply bool_decide_eq_false; cbn; set_solver] |].
      econstructor; [apply timeout_silent; [by rewrite Ht | done | apply bool_decide_eq_false; cbn; set_solver] | constructor].
    + split; [reflexivity | by split].
Qed.

Lemma invalid_calldata_test_passes cgroups owner m now :
  0 <= now -> now + secs 5010 < secs (2 ^ 63) -> invalid_code_calldata_test cgroups owner (3 + m) now.
Proof using K W Nw.
  intros Hnow Hlate. pose proof delay_of_tests as Ht.
  read_hash calldata_hash 0xd23370ce64d1679fb53497b882347e25a026ba0bc54536340243ae7464d5d12d h Hh Hl Hp.
  set (s0 := generate_app_state cgroups <| sessions := [mkSession [] []] |>).
  set (s1 := mark_completed 0 (set_last_block 1 (mark_running 0 (set_last_block 1 s0)))).
  eexists. split; [unfold get_job_created_log; by rewrite (good_hex wallet_of recover_from_prehash _ _ Hh) |].
  exists s1, (timeout_task 0 user_deadline 0), (job_task 0 h (literal "{}") user_deadline 0). split.
  - apply (created_then_responded (1 + m) 0 calldata_hash h (literal "{}") owner now _ [] s0 s1 []);
      [exact Hh | exact Hl | by repeat constructor | done | |].
    { unfold get_job_created_log. by rewrite (good_hex wallet_of recover_from_prehash _ _ Hh). }
    apply handles_end.
  - destruct invalid_calldata_transaction as (calldata & Hbad & Hanswer).
    destruct (calldata_refused calldata Hbad) as (err & Herr & Hcode).
    destruct (refused_job 0 calldata_hash h (literal "{}") now s1 _ err 2 Hp Hanswer Herr Hcode Hlate)
      as (m1 & Hm1 & Hrun1).
    do 2 eexists. exists m1. split.
    + econstructor; [exact Hrun1 |].
      econstructor; [apply timeout_silent; [by rewrite Ht | done | apply bool_decide_eq_false; cbn; set_solver] | constructor].
    + by split.
Qed.

End tests.

(** C36: Nine of the thirteen unit tests of the executor pass.  For every owner
    and every gas key, whatever the rpc answers and whenever they are run, the
    four tests of the endpoints: a malformed, short or unusable parameter is
    refused with the message of the test, the first owner is kept, the gas key
    can be replaced, the details are those injected so far, and the
    registration message -- refused until both are injected -- is signed by the
    key of the enclave and starts one listener.  And the five of the nine tests
    of the event handler that run no user code: a log of deregistration ends
    the handler, a job for another environment is ignored, a job for another
    enclave that nobody answers is reported as timed out, and on a network
    with the transactions of the tests a job whose code transaction goes to
    another contract or does not exist is answered with error code 1, and one
    whose calldata is no deployment with error code 2. *)
Theorem executor_passes_unit_tests `{Cfg : ExecConfig} `{Api : ExecApi} (wallet_of : bytes -> option Client)
    (recover_from_prehash : bytes -> bytes -> Z -> option bytes) (answer : forall c, option (Response c))
    (K : TestCrates wallet_of recover_from_prehash) (W : Answering answer) (Nw : TestNetwork answer)
    (cgroups : list string) (valid_owner valid_owner_2 : Z) (key key_2 : bytes) (client client_2 : Client)
    (enclave owner owner_2 : Z) (m : nat) (now : Z) :
  0 <= valid_owner < 2 ^ 160 -> octets key -> length key = 32%nat -> wallet_of key = Some client ->
  octets key_2 -> length key_2 = 32%nat -> wallet_of key_2 = Some client_2 ->
  0 <= now -> now + secs 5010 < secs (2 ^ 63) -> 0 <= enclave < 2 ^ 160 -> enclave <> enclave_address ->
  let n := (5 + m)%nat in
  let passes l := exchanges_pass wallet_of answer n now l (generate_app_state cgroups) in
  passes (inject_immutable_config_test valid_owner valid_owner_2) /\
  passes (inject_mutable_config_test wallet_of key key_2) /\
  passes (get_executor_details_test wallet_of valid_owner key) /\
  passes (export_signed_registration_message_test wallet_of recover_from_prehash valid_owner key) /\
  executor_deregistered_test answer cgroups n now /\
  invalid_env_id_test answer cgroups owner n now /\
  timeout_job_execution_test answer cgroups enclave owner n now /\
  invalid_transaction_job_test answer cgroups owner owner_2 n now /\
  invalid_code_calldata_test answer cgroups owner n now.
Proof.
  intros Howner Hk Hl Hw Hk2 Hl2 Hw2 Hnow Hlate Henclave Hother n passes. subst n passes. cbv beta.
  assert (Hlate' : now + secs 36 < secs (2 ^ 63)) by (unfold secs in *; lia).
  split_and!.
  - by apply (immutable_config_test_passes wallet_of recover_from_prehash).
  - by apply (mutable_config_test_passes wallet_of recover_from_prehash answer _ _ _ _ _ client client_2).
  - by apply (executor_details_test_passes wallet_of recover_from_prehash answer _ _ _ _ _ client).
  - by apply (registration_test_passes wallet_of recover_from_prehash answer _ _ _ _ _ client).
  - apply deregistered_test_passes.
  - by apply (invalid_env_test_passes wallet_of recover_from_prehash).
  - by apply (timeout_test_passes wallet_of recover_from_prehash).
  - by apply (invalid_transaction_test_passes wallet_of recover_from_prehash).
  - by apply (invalid_calldata_test_passes wallet_of recover_from_prehash answer _ _ (2 + m)).
Qed.

(** ** Concrete crates *)

Module ExecTestWitnesses.

#[local] Instance test_config : ExecConfig := {|
  workerd_runtime_path := "./runtime/";
  execution_buffer_time := 10;
  http_rpc_url := "https://sepolia-rollup.arbitrum.io/rpc";
  code_contract_addr := "0x44fe06d2940b8782a0a9a9ffd09c65852c0156b1";
  num_selected_executors := 1;
  enclave_address := 42;
  enclave_public_key := replicate 64 4;
  job_capacity := 20
|}.

(** The data of a created job and of a response, and their reading. *)
Definition test_encode (tokens : list Token) : bytes :=
  match tokens with
  | [TFixedBytes a; TBytes b; TUint c; TArray [TAddress d]] => c :: d :: a ++ b
  | [TBytes []; TUint a; TUint b; TUint c] => [0]
  | _ => []
  end.
Definition test_decode (l : bytes) : option (list Token) :=
  match l with
  | c :: d :: l => Some [TFixedBytes (take 32 l); TBytes (drop 32 l); TUint c; TArray [TAddress d]]
  | [_] => Some [TBytes []; TUint 1; TUint 0; TUint 1]
  | _ => None
  end.

#[local] Instance test_api : ExecApi := {|
  keccak256 := Keccak.keccak;
  encode := test_encode;
  encode_packed := fun tokens =>
    match tokens with [TString a; TFixedBytes b; TFixedBytes c] => Some (a ++ b ++ c) | _ => None end;
  decode := fun _ => test_decode;
  hex_decode := fun s => match from_hex s with inr b => Some b | inl _ => None end;
  hex_lower := to_hex;
  sign_prehash := fun _ => Some (replicate 64 7, 1);
  encode_input := fun _ _ => [];
  to_lowercase := id;
  debug_error := fun f =>
    match f with
    | NotHex s => match from_hex s with inl e => hex_error_text e | inr _ => EmptyString end
    | BadWallet _ => "EcdsaError(signature::Error { source: None })"
    | _ => "error"
    end
|}.

Definition test_wallet (key : bytes) : option Client :=
  if list_eqb key (replicate 32 255) then None else Some (from_be (drop 12 key)).
Definition test_recover (digest signature : bytes) (v : Z) : option bytes :=
  if list_eqb signature (replicate 64 7) && (v =? 1) then Some (replicate 64 4) else None.

Lemma test_crates : TestCrates test_wallet test_recover.
Proof.
  split; try done.
  - intros s e He. cbn. by rewrite He.
  - intros b. apply length_keccak.
  - intros a b c d Ha _ _ _. cbn. by rewrite take_app_length', drop_app_length' by done.
  - intros digest _. exists (replicate 64 7), 1. split_and!; [done | done | | done | done | done].
    by apply Forall_replicate.
Qed.

Definition test_answer (c : Call) : option (Response c) :=
  match c as c return option (Response c) with
  | TransactionCount _ => Some (Some 5)
  | BlockNumber _ => Some (Some 7)
  | UnixTime => Some 1700000000
  | ChannelSlot _ => Some true
  | RandomSlug => Some "slug"%string
  | RemoveFile _ => Some false
  | GetTransactionByHash hash _ => Some (
      if String.eqb hash ("0x" +:+ foreign_hash) then Some (transaction_response "0x00" "0x")
      else if String.eqb hash ("0x" +:+ calldata_hash) then
        Some (transaction_response "0x44fe06d2940b8782a0a9a9ffd09c65852c0156b1" "0xff7cdaf3")
      else Some missing_response)
  | _ => None
  end.

Lemma test_answering : Answering test_answer.
Proof. split; intros; by try eexists. Qed.

Lemma test_network : TestNetwork test_answer.
Proof.
  split.
  - exists "0x00"%string, "0x"%string. split; [discriminate | reflexivity].
  - reflexivity.
  - exists "0xff7cdaf3"%string. split; [left; cbn; lia | reflexivity].
  - by eexists.
  - intros path. by eexists.
Qed.

Lemma executor_passes_unit_tests_witness :
  exchanges_pass test_wallet test_answer 5 0
    (export_signed_registration_message_test test_wallet test_recover 99 (replicate 32 3)) (generate_app_state ["workerd_1"]) /\
  timeout_job_execution_test test_answer ["workerd_1"] 43 99 5 0 /\
  invalid_transaction_job_test test_answer ["workerd_1"] 99 98 5 0.
Proof.
  assert (Hk : octets (replicate 32 3)) by (by apply Forall_replicate).
  destruct (executor_passes_unit_tests test_wallet test_recover test_answer test_crates test_answering test_network
              ["workerd_1"%string] 99 98 (replicate 32 3) (replicate 32 3)
              (from_be (drop 12 (replicate 32 3))) (from_be (drop 12 (replicate 32 3))) 43 99 98 0 0
              ltac:(lia) Hk eq_refl eq_refl Hk eq_refl eq_refl ltac:(lia) ltac:(done) ltac:(lia) ltac:(done))
    as (_ & _ & _ & Hregistration & _ & _ & Htimeout & Htransaction & _).
  by split_and!.
Defined.

End ExecTestWitnesses.
