(* ===== verification/VsockAddr.v ===== *)
(** * Vsock addresses on the command line

    A vsock address is a context id and a port, written with a colon between:
    [split_vsock] of networking/tcp-proxy/src/lib.rs, and the two
    [VsockAddrParser]s of networking/raw-proxy/src/lib.rs and
    initialization/init-server/src/main.rs. *)

From stdpp Require Import pretty.
From S2P Require Import Prelude Text.

Inductive VsockAddrParseError := SplitError | CidParseError | PortParseError.

Record VsockAddr := mkVsockAddr { cid : Z; vport : Z }.

Definition parse_u32 : string -> option Z := parse_unsigned 32.
Definition split_colon : string -> option (string * string) := split_once (Ascii.ascii_of_nat 58).

Definition split_vsock (addr : string) : outcome VsockAddrParseError VsockAddr :=
  '(cid, port) ← ok_or SplitError (split_colon addr);
  cid ← ok_or CidParseError (parse_u32 cid);
  port ← ok_or PortParseError (parse_u32 port);
  Ok (mkVsockAddr cid port).

(** The value parsers of clap: [value] is [None] when it is not UTF-8;
    [vsock] builds the parser's value. *)
Inductive ErrorKind := InvalidUtf8 | ValueValidation.

Definition parse_ref {A} (vsock : Z -> Z -> A) (value : option string) : outcome ErrorKind A :=
  value ← ok_or InvalidUtf8 value;
  '(cid, port) ← ok_or ValueValidation (split_colon value);
  cid ← ok_or ValueValidation (parse_u32 cid);
  port ← ok_or ValueValidation (parse_u32 port);
  Ok (vsock cid port).

(** The parser of the init server yields the pair. *)
Definition init_parse_ref : option string -> outcome ErrorKind (Z * Z) := parse_ref pair.

(** ** The round trip of an address *)

Definition colon : string := String (Ascii.ascii_of_nat 58) EmptyString.

Lemma split_colon_digits s t : digits s = true -> split_colon (s +:+ colon +:+ t) = Some (s, t).
Proof. by apply split_once_digits. Qed.

Lemma parse_u32_pretty (n : N) : parse_u32 (pretty n) = if Z.of_N n <? 2 ^ 32 then Some (Z.of_N n) else None.
Proof. by apply parse_unsigned_pretty. Qed.

Definition vsock_text (cid port : N) : string := pretty cid +:+ colon +:+ pretty port.

Lemma parse_ref_text {A} (vsock : Z -> Z -> A) (cid port : N) : (cid < 2 ^ 32)%N -> (port < 2 ^ 32)%N ->
  parse_ref vsock (Some (vsock_text cid port)) = Ok (vsock (Z.of_N cid) (Z.of_N port)).
Proof.
  intros Hc Hp. unfold parse_ref, vsock_text. cbn [ok_or mbind outcome_bind].
  rewrite split_colon_digits by apply digits_pretty. cbn [ok_or mbind outcome_bind].
  rewrite !parse_u32_pretty. by rewrite !(proj2 (Z.ltb_lt _ _)) by lia.
Qed.

(** The three parsers of vsock addresses agree and lose nothing: a context
    id and a port written with a colon between are read back as they are when
    both fit in 32 bits, and otherwise refused, the tcp proxies' parser naming
    the half at fault and the value parsers of the raw proxies and the init
    server reporting an invalid value. *)
Theorem vsock_text_roundtrip {A} (vsock : Z -> Z -> A) (cid port : N) :
  let fits n := Z.of_N n <? 2 ^ 32 in
  split_vsock (vsock_text cid port) =
    (if fits cid then if fits port then Ok (mkVsockAddr (Z.of_N cid) (Z.of_N port)) else Err PortParseError
     else Err CidParseError) /\
  parse_ref vsock (Some (vsock_text cid port)) =
    (if fits cid && fits port then Ok (vsock (Z.of_N cid) (Z.of_N port)) else Err ValueValidation) /\
  init_parse_ref (Some (vsock_text cid port)) =
    (if fits cid && fits port then Ok (Z.of_N cid, Z.of_N port) else Err ValueValidation).
Proof.
  cbn zeta. unfold init_parse_ref, parse_ref, split_vsock, vsock_text. cbn [ok_or mbind outcome_bind].
  rewrite split_colon_digits by apply digits_pretty. cbn [ok_or mbind outcome_bind]. rewrite !parse_u32_pretty.
  by destruct (Z.of_N cid <? 2 ^ 32), (Z.of_N port <? 2 ^ 32).
Qed.
