(* ===== verification/TcpProxy.v ===== *)
(** * TCP proxies: [networking/tcp-proxy/src]

    The five proxies between IP and vsock.  A transfer sets two connections up
    and then copies both ways; setting up is a function of the answers of the
    operating system, and the copying of tokio ([io::copy], then [shutdown],
    under [try_join]) a step relation in which every read and write may be
    partial and may fail.  The machine is little-endian. *)

From S2P Require Import Prelude.
From S2P Require Import ByteOrder.
From S2P Require Import VsockAddr.

(** ** Socket addresses ([addr_info.rs]) *)

Inductive SocketAddr :=
| V4 (ip : bytes) (port : Z)
| V6 (segments : list Z) (port flowinfo scope_id : Z).

Definition addr_port (a : SocketAddr) : Z := match a with V4 _ port | V6 _ port _ _ => port end.

Definition AF_INET : Z := 2.
Definition AF_INET6 : Z := 10.

(** A field of a C structure, as the machine loads it. *)
Definition load (n off : nat) (storage : bytes) : Z := from_le (take n (drop off storage)).

(** The eight segments of an IPv6 address. *)
Fixpoint segments (n : nat) (arr : bytes) : list Z :=
  match n, arr with
  | S n, a :: b :: arr => Z.lor (wrap 16 (Z.shiftl a 8)) b :: segments n arr
  | _, _ => []
  end.

(** [mk_addr]: [storage] are the bytes of a [sockaddr_storage]. *)
Definition mk_addr (storage : bytes) (len : Z) : outcome string SocketAddr :=
  let family := load 2 0 storage in
  if family =? AF_INET then
    _ ← assert_that (16 <=? len);
    let bits := ntoh32 (load 4 4 storage) in
    let ip := [wrap 8 (Z.shiftr bits 24); wrap 8 (Z.shiftr bits 16); wrap 8 (Z.shiftr bits 8); wrap 8 bits] in
    Ok (V4 ip (ntoh16 (load 2 2 storage)))
  else if family =? AF_INET6 then
    _ ← assert_that (28 <=? len);
    Ok (V6 (segments 8 (take 16 (drop 8 storage))) (ntoh16 (load 2 2 storage)) (load 4 4 storage) (load 4 24 storage))
  else Err "invalid argument"%string.

(** [so_original_dst]; [None]: getsockopt failed. *)
Definition so_original_dst (sockopt : option (bytes * Z)) : outcome string SocketAddr :=
  '(sockaddr, socklen) ← ok_or "failed to read SO_ORIGINAL_DST"%string sockopt;
  mk_addr sockaddr socklen.

(** [get_original_dst]: [r.ok()]. *)
Definition get_original_dst (sockopt : option (bytes * Z)) : outcome string (option SocketAddr) :=
  match so_original_dst sockopt with Ok a => Ok (Some a) | Err _ => Ok None | Panic => Panic end.

(** ** Setting a transfer up

    [peer]: the address of the inbound connection (the peer's, but its own in
    vsock_to_ip.rs); [connected]:
    whether the outbound one is made. *)

Section setup.
Variables (peer : option string) (connected : bool).

(** ip_to_vsock.rs and vsock_to_ip.rs: the upstream address is fixed; the
    address of the inbound connection is fetched first in the one, last in
    the other. *)
Definition setup_ip_to_vsock : outcome string unit :=
  _ ← ok_or "could not fetch inbound addr"%string peer;
  if connected then Ok tt else Err "failed to connect vsock"%string.

Definition setup_vsock_to_ip : outcome string unit :=
  if connected then _ ← ok_or "could not fetch inbound addr"%string peer; Ok tt
  else Err "failed to connect to endpoint"%string.

(** port_to_vsock_transparent.rs: the vsock address has the port of the
    original destination. *)
Definition setup_port_to_vsock (cid : Z) (sockopt : option (bytes * Z)) : outcome string VsockAddr :=
  _ ← ok_or "could not fetch inbound addr"%string peer;
  orig_dst ← get_original_dst sockopt;
  orig_dst ← ok_or "Failed to retrieve original destination"%string orig_dst;
  let proxy_addr := mkVsockAddr cid (addr_port orig_dst) in
  if connected then Ok proxy_addr else Err "failed to connect vsock"%string.

(** What ip_to_vsock_transparent.rs writes before the client's bytes. *)
Definition destination_header (orig_dst : SocketAddr) : outcome string bytes :=
  match orig_dst with
  | V4 ip port => Ok (le_bytes 4 (from_be ip) ++ le_bytes 2 port)
  | V6 _ _ _ _ => Err "Received ipv6 address"%string
  end.

Definition setup_ip_to_vsock_transparent (sockopt : option (bytes * Z)) : outcome string bytes :=
  _ ← ok_or "could not fetch inbound addr"%string peer;
  orig_dst ← get_original_dst sockopt;
  orig_dst ← ok_or "Failed to retrieve original destination"%string orig_dst;
  if connected then destination_header orig_dst else Err "failed to connect to endpoint"%string.

(** The address that vsock_to_ip_transparent.rs reads. *)
Definition proxy_addr (header : bytes) : SocketAddr :=
  V4 (be_bytes 4 (from_le (take 4 header))) (from_le (take 2 (drop 4 header))).

End setup.

(** ** Copying

    One direction of a proxy: what its reader will yield, whether it ends
    there, what has been read and not yet written, and what its writer has
    taken, and whether it has been shut down. *)

Inductive CopyState := Copying | Closed.

Record Copy := mkCopy {
  source : bytes;
  source_eof : bool;
  held : bytes;
  sink : bytes;
  sink_eof : bool;
  copy_state : CopyState
}.

Inductive copy_step : Copy -> Copy -> Prop :=
| copy_read chunk source eof held sink :
    copy_step (mkCopy (chunk ++ source) eof held sink false Copying) (mkCopy source eof (held ++ chunk) sink false Copying)
| copy_write source eof chunk held sink :
    copy_step (mkCopy source eof (chunk ++ held) sink false Copying) (mkCopy source eof held (sink ++ chunk) false Copying)
| copy_shutdown sink :
    copy_step (mkCopy [] true [] sink false Copying) (mkCopy [] true [] sink true Closed).

(** ** The proxies with one connection on each side

    [up] and [down] are the two halves of [try_join]; the transfer ends when
    both have returned or one has failed, and drops both connections. *)

Record Relay := mkRelay { up_sent : bytes; down_sent : bytes; up : Copy; down : Copy; running : bool }.

#[export] Instance eta_Relay : Settable Relay := fun r =>
  mkRelay (up_sent r) (down_sent r) (up r) (down r) (running r).

Definition idle : Copy := mkCopy [] false [] [] false Copying.
Definition relay_start : Relay := mkRelay [] [] idle idle true.

Definition receive (b : bytes) (c : Copy) : Copy :=
  mkCopy (source c ++ b) (source_eof c) (held c) (sink c) (sink_eof c) (copy_state c).
Definition receive_eof (c : Copy) : Copy :=
  mkCopy (source c) true (held c) (sink c) (sink_eof c) (copy_state c).

Inductive relay_step : Relay -> Relay -> Prop :=
| up_arrives b r : source_eof (up r) = false ->
    relay_step r (r <| up_sent := up_sent r ++ b |> <| up := receive b (up r) |>)
| up_ends r : relay_step r (r <| up := receive_eof (up r) |>)
| down_arrives b r : source_eof (down r) = false ->
    relay_step r (r <| down_sent := down_sent r ++ b |> <| down := receive b (down r) |>)
| down_ends r : relay_step r (r <| down := receive_eof (down r) |>)
| up_copies c r : running r = true -> copy_step (up r) c -> relay_step r (r <| up := c |>)
| down_copies c r : running r = true -> copy_step (down r) c -> relay_step r (r <| down := c |>)
| relay_fails r : running r = true -> relay_step r (r <| running := false |>)
| relay_finishes r : running r = true -> copy_state (up r) = Closed -> copy_state (down r) = Closed ->
    relay_step r (r <| running := false |>).

(** [transfer] of ip_to_vsock.rs, vsock_to_ip.rs and
    port_to_vsock_transparent.rs: the state the copying starts in, if it does. *)
Definition transfer_ip_to_vsock (peer : option string) (connected : bool) : outcome string Relay :=
  _ ← setup_ip_to_vsock peer connected; Ok relay_start.
Definition transfer_vsock_to_ip (peer : option string) (connected : bool) : outcome string Relay :=
  _ ← setup_vsock_to_ip peer connected; Ok relay_start.
Definition transfer_port_to_vsock (peer : option string) (connected : bool) (cid : Z) (sockopt : option (bytes * Z))
    : outcome string (VsockAddr * Relay) :=
  proxy_addr ← setup_port_to_vsock peer connected cid sockopt; Ok (proxy_addr, relay_start).

(** [proxy]: the connections that get a transfer of their own, and whether
    the loop has ended, which the first failure to accept ([None]) makes it. *)
Fixpoint proxy {A} (accepts : list (option A)) : list A * bool :=
  match accepts with
  | [] => ([], false)
  | None :: _ => ([], true)
  | Some inbound :: accepts => let '(spawned, ended) := proxy accepts in (inbound :: spawned, ended)
  end.

(** ** The two transparent proxies in line

    [up] carries the client's bytes, [down] the server's; the sink of one
    proxy is the source of the next.  [sink_eof] is a shutdown by the copy; a
    proxy that fails drops its two connections, which ends the source of the
    other proxy, and what the client or the server sees of it is not in
    [sink_eof]. *)

Record Tunnel := mkTunnel {
  (* what the peers have sent *)
  client_sent : bytes;
  server_sent : bytes;
  (* ip_to_vsock_transparent: its two copies, what is left to write of its
     header, and whether it still runs *)
  entry_up : Copy;
  entry_down : Copy;
  header_left : bytes;
  entry_runs : bool;
  (* vsock_to_ip_transparent: its copies, the header read so far, and the
     address it has connected to *)
  exit_up : Copy;
  exit_down : Copy;
  header_read : bytes;
  target : option SocketAddr;
  exit_runs : bool
}.

#[export] Instance eta_Tunnel : Settable Tunnel := fun t =>
  mkTunnel (client_sent t) (server_sent t) (entry_up t) (entry_down t) (header_left t) (entry_runs t)
    (exit_up t) (exit_down t) (header_read t) (target t) (exit_runs t).
#[export] Instance eta_Copy : Settable Copy := fun c =>
  mkCopy (source c) (source_eof c) (held c) (sink c) (sink_eof c) (copy_state c).

(** The entry has accepted a client, and the exit the entry. *)
Definition tunnel_start (header : bytes) : Tunnel :=
  mkTunnel [] [] idle idle header true idle idle [] None true.

Inductive tunnel_step : Tunnel -> Tunnel -> Prop :=
(* the peers send, and close *)
| client_sends b t : source_eof (entry_up t) = false ->
    tunnel_step t (t <| client_sent := client_sent t ++ b |>
                     <| entry_up := entry_up t <| source := source (entry_up t) ++ b |> |>)
| client_closes t : tunnel_step t (t <| entry_up := entry_up t <| source_eof := true |> |>)
| server_sends b t : is_Some (target t) -> source_eof (exit_down t) = false ->
    tunnel_step t (t <| server_sent := server_sent t ++ b |>
                     <| exit_down := exit_down t <| source := source (exit_down t) ++ b |> |>)
| server_closes t : is_Some (target t) ->
    tunnel_step t (t <| exit_down := exit_down t <| source_eof := true |> |>)
(* the entry: header, copies, the vsock between *)
| entry_header b rest t : entry_runs t = true -> header_left t = b ++ rest ->
    tunnel_step t (t <| header_left := rest |> <| exit_up := exit_up t <| source := source (exit_up t) ++ b |> |>)
| entry_copies_up c t : entry_runs t = true -> header_left t = [] -> copy_step (entry_up t) c ->
    tunnel_step t (t <| entry_up := c <| sink := [] |> |>
                     <| exit_up := exit_up t <| source := source (exit_up t) ++ sink c |>
                                             <| source_eof := source_eof (exit_up t) || sink_eof c |> |>)
| entry_copies_down c t : entry_runs t = true -> header_left t = [] -> copy_step (entry_down t) c ->
    tunnel_step t (t <| entry_down := c |>)
| entry_fails t : entry_runs t = true ->
    tunnel_step t (t <| entry_runs := false |> <| exit_up := exit_up t <| source_eof := true |> |>)
(* the exit: header, connection, copies *)
| exit_reads b rest t : exit_runs t = true -> target t = None -> source (exit_up t) = b ++ rest ->
    (length (header_read t ++ b) <= 6)%nat ->
    tunnel_step t (t <| header_read := header_read t ++ b |> <| exit_up := exit_up t <| source := rest |> |>)
| exit_connects t : exit_runs t = true -> target t = None -> length (header_read t) = 6%nat ->
    tunnel_step t (t <| target := Some (proxy_addr (header_read t)) |>)
| exit_copies_up c t : exit_runs t = true -> is_Some (target t) -> copy_step (exit_up t) c ->
    tunnel_step t (t <| exit_up := c |>)
| exit_copies_down c t : exit_runs t = true -> is_Some (target t) -> copy_step (exit_down t) c ->
    tunnel_step t (t <| exit_down := c <| sink := [] |> |>
                     <| entry_down := entry_down t <| source := source (entry_down t) ++ sink c |>
                                                 <| source_eof := source_eof (entry_down t) || sink_eof c |> |>)
| exit_fails t : exit_runs t = true ->
    tunnel_step t (t <| exit_runs := false |> <| entry_down := entry_down t <| source_eof := true |> |>).
