(* ===== verification/TcpProxyProps.v ===== *)
(** * TCP proxies: the two transparent proxies in line carry the bytes of a
    connection, in order, to the destination the client has dialled *)

From S2P Require Import Prelude.
From S2P Require Import ByteOrder.
From S2P Require Import VsockAddr.
From S2P Require Import TcpProxy.

(** ** Socket addresses *)

(** The bytes of a [sockaddr_in] as the kernel fills a [sockaddr_storage]:
    port and address in network order. *)
Definition sockaddr_in (ip : bytes) (port : Z) : bytes :=
  le_bytes 2 AF_INET ++ be_bytes 2 port ++ ip ++ replicate 120 0.

Lemma mk_addr_sockaddr_in ip port : length ip = 4%nat -> octets ip -> 0 <= port < 65536 ->
  mk_addr (sockaddr_in ip port) 16 = Ok (V4 ip port).
Proof.
  intros Hl Ho Hp. destruct ip as [| a [| b [| c [| d [|]]]]]; try discriminate Hl.
  pose proof (octets_be_bytes 2 port) as Hob. pose proof (from_be_octets 2 port Hp) as Hfb.
  unfold mk_addr, sockaddr_in, load. destruct (be_bytes 2 port) as [| x [| y [|]]] eqn:Hb;
    try (apply (f_equal length) in Hb; rewrite length_be_bytes in Hb; discriminate Hb).
  change (le_bytes 2 AF_INET) with [2; 0]. cbn [app take drop].
  change (from_le [2; 0] =? AF_INET) with true. cbn [negb]. change (16 <=? 16) with true.
  cbn [assert_that mbind outcome_bind].
  unfold ntoh16, ntoh32. rewrite !swap_load, Hfb by done. by rewrite bytes_of_word.
Qed.

Lemma proxy_addr_header ip port header : length ip = 4%nat -> octets ip -> 0 <= port < 65536 ->
  destination_header (V4 ip port) = Ok header -> length header = 6%nat /\ proxy_addr header = V4 ip port.
Proof.
  intros Hl Ho Hp H. assert (header = le_bytes 4 (from_be ip) ++ le_bytes 2 port) as -> by by injection H. split; [lengths |]. unfold proxy_addr.
  rewrite take_app_length', drop_app_length', take_ge by lengths. rewrite !from_le_le_bytes.
  pose proof (from_be_range ip Ho) as Hr. rewrite Hl in Hr.
  rewrite !Z.mod_small by (cbn in *; lia). rewrite <- Hl, be_bytes_from_be by done. done.
Qed.

(** ** One copy: what a reader yields is what its writer has taken, in order *)

Definition carried (c : Copy) : bytes := sink c ++ held c ++ source c.

(** A writer is shut down only after the end of the source. *)
Definition drained (c : Copy) : Prop := sink_eof c = true -> held c = [] /\ source c = [] /\ source_eof c = true.

Lemma copy_step_inv c c' : copy_step c c' ->
  sink_eof c = false /\ source_eof c' = source_eof c /\ carried c' = carried c /\ sink c `prefix_of` sink c' /\
  drained c'.
Proof.
  unfold carried, drained. destruct 1; cbn; (repeat split; try done); rewrite ?app_nil_r, <- ?(assoc_L (++)); try done.
  by apply prefix_app_r.
Qed.

(** ** The proxies with one connection on each side *)

Definition half_ok (sent : bytes) (c : Copy) : Prop := carried c = sent /\ drained c.

Lemma half_receive sent b c : source_eof c = false -> half_ok sent c -> half_ok (sent ++ b) (receive b c).
Proof.
  unfold half_ok, carried, drained, receive. cbn. intros He [<- Hd]. rewrite <- !(assoc_L (++)). split; [done |].
  intros Hs. destruct (Hd Hs) as (_ & _ & ?). congruence.
Qed.

Lemma half_eof sent c : half_ok sent c -> half_ok sent (receive_eof c).
Proof. unfold half_ok, carried, drained, receive_eof. cbn. intuition. Qed.

Lemma half_copy sent c c' : copy_step c c' -> half_ok sent c -> half_ok sent c'.
Proof. unfold half_ok. intros (_ & _ & -> & _ & ?)%copy_step_inv [? _]. done. Qed.

#[local] Hint Resolve half_receive half_eof half_copy : core.

Lemma relay_step_inv r r' : relay_step r r' -> half_ok (up_sent r) (up r) /\ half_ok (down_sent r) (down r) ->
  half_ok (up_sent r') (up r') /\ half_ok (down_sent r') (down r').
Proof. destruct 1; cbn; intros []; split; eauto. Qed.

(** A proxy with one connection on each side writes a prefix of what it is
    sent, each way, and shuts a writer down only after all of it. *)
Lemma relay_delivers r : rtc relay_step relay_start r ->
  sink (up r) `prefix_of` up_sent r /\ sink (down r) `prefix_of` down_sent r /\
  (sink_eof (up r) = true -> sink (up r) = up_sent r) /\ (sink_eof (down r) = true -> sink (down r) = down_sent r).
Proof.
  intros H. assert (Hi : half_ok (up_sent r) (up r) /\ half_ok (down_sent r) (down r)).
  { refine (rtc_ind_r (R := relay_step) (fun r => half_ok (up_sent r) (up r) /\ half_ok (down_sent r) (down r))
      relay_start _ _ r H); [split; split; done |]. intros r1 r2 _. apply relay_step_inv. }
  destruct Hi as [[Hu Hdu] [Hd Hdd]]. unfold carried, drained in *. rewrite <- Hu, <- Hd.
  split_and!; [by apply prefix_app_r | by apply prefix_app_r | |].
  - intros He. destruct (Hdu He) as (-> & -> & _). by rewrite !app_nil_r.
  - intros He. destruct (Hdd He) as (-> & -> & _). by rewrite !app_nil_r.
Qed.

(** A failure to accept ends a proxy, whatever would come after it. *)
Lemma proxy_stops {A} (l : list A) rest : proxy (map Some l ++ None :: rest) = (l, true).
Proof. induction l as [| x l IH]; [done |]. cbn. by rewrite IH. Qed.

(** ** The invariant of the tunnel *)

Record tunnel_inv (header : bytes) (t : Tunnel) : Prop := {
  up_bytes : header_read t ++ carried (exit_up t) ++ header_left t ++ held (entry_up t) ++ source (entry_up t)
    = header ++ client_sent t;
  down_bytes : carried (entry_down t) ++ held (exit_down t) ++ source (exit_down t) = server_sent t;
  no_sinks : sink (entry_up t) = [] /\ sink (exit_down t) = [];
  all_drained : drained (entry_up t) /\ drained (exit_up t) /\ drained (entry_down t) /\ drained (exit_down t);
  (* the header comes first, on both sides *)
  header_first : header_left t <> [] -> held (entry_up t) = [] /\ sink_eof (entry_up t) = false;
  unconnected : target t = None ->
    (length (header_read t) <= 6)%nat /\ sink (exit_up t) = [] /\ held (exit_up t) = [] /\ sink_eof (exit_up t) = false /\
    held (exit_down t) = [] /\ source (exit_down t) = [];
  connected_to a : target t = Some a -> length (header_read t) = 6%nat /\ a = proxy_addr (header_read t);
  (* the vsock connection between ends where the other side has ended it *)
  up_end : source_eof (exit_up t) = true -> entry_runs t = false \/ sink_eof (entry_up t) = true /\ header_left t = [];
  down_end : source_eof (entry_down t) = true -> exit_runs t = false \/ sink_eof (exit_down t) = true
}.

Lemma tunnel_start_inv header : tunnel_inv header (tunnel_start header).
Proof. constructor; unfold drained; cbn; try done. intros _. repeat split; lia. Qed.

(** Equations between concatenations, up to association. *)
Ltac concat := cbn [app]; rewrite <- ?(assoc_L (++)); cbn [app]; try reflexivity.

Lemma tunnel_step_inv header t t' : tunnel_step t t' -> tunnel_inv header t -> tunnel_inv header t'.
Proof.
  intros Hs [Hup Hdown [Hs1 Hs2] (Hd1 & Hd2 & Hd3 & Hd4) Hfirst Hun Hto Huend Hdend].
  destruct Hs as [b t He | t | b t [a Ha] He | t [a Ha] | b rest t Hr Hl | c t Hr Hl Hc | c t Hr Hl Hc | t Hr
    | b rest t Hr Ht Hsrc Hlen | t Hr Ht Hlen | c t Hr [a Ha] Hc | c t Hr [a Ha] Hc | t Hr];
    try apply copy_step_inv in Hc as (Hc1 & Hc2 & Hc3 & _ & Hc4);
    constructor; unfold carried, drained in *; cbn in *; try assumption; try solve [intuition congruence | rewrite Hc2; assumption].
  - rewrite (assoc_L (++) header), <- Hup. concat.
  - rewrite <- Hdown. concat.
  - rewrite <- Hup, Hl. concat.
  - rewrite Hl in *. destruct b; [rewrite app_nil_r; tauto |]. destruct Hfirst; [done |]. intuition congruence.
  - intros Hne. apply Hfirst. rewrite Hl. destruct b; [exact Hne | done].
  - intros [? | [He Hn]]%Huend; [tauto |]. rewrite Hl in Hn. apply app_eq_nil in Hn. tauto.
  - rewrite <- Hup, Hl. rewrite Hs1 in Hc3. cbn in *. rewrite <- Hc3. concat.
  - intros [He | He]%orb_true_iff; intuition congruence.
  - destruct (Hun Ht) as (_ & -> & -> & _). rewrite <- Hup, Hsrc. destruct (Hun Ht) as (_ & -> & -> & _). concat.
  - rewrite Hs2 in Hc3. cbn in *. rewrite <- Hdown, <- Hc3. concat.
  - intros [He | He]%orb_true_iff; intuition congruence.
Qed.

Lemma tunnel_reachable_inv header t : rtc tunnel_step (tunnel_start header) t -> tunnel_inv header t.
Proof.
  intros H. refine (rtc_ind_r (R := tunnel_step) (tunnel_inv header) (tunnel_start header) (tunnel_start_inv header) _ t H).
  intros t1 t2 _ Hs. by apply tunnel_step_inv.
Qed.

(** Once the exit has connected, it has read the header and no more. *)
Lemma header_read_whole header t a : tunnel_inv header t -> length header = 6%nat -> target t = Some a ->
  a = proxy_addr header /\ sink (exit_up t) `prefix_of` client_sent t /\
  (sink_eof (exit_up t) = true -> entry_runs t = true -> sink (exit_up t) = client_sent t).
Proof.
  intros [Hup _ _ (Hd1 & Hd2 & _) _ _ Hto Huend _] Hlen Ha. destruct (Hto a Ha) as [Hr ->].
  unfold carried, drained in *. apply app_inj_1 in Hup as [Hh Hs]; [| congruence]. subst header.
  split; [done |]. rewrite <- Hs, <- !(assoc_L (++)). split; [by apply prefix_app_r |].
  intros He Hrun. destruct (Hd2 He) as (-> & -> & Heof). destruct (Huend Heof) as [? | [He1 ->]]; [congruence |].
  destruct (Hd1 He1) as (-> & -> & _). by rewrite !app_nil_r.
Qed.

Lemma up_complete header t : length header = 6%nat -> rtc tunnel_step (tunnel_start header) t ->
  sink_eof (exit_up t) = true -> entry_runs t = true -> sink (exit_up t) = client_sent t.
Proof.
  intros Hl Hi%tunnel_reachable_inv Hse He. destruct (target t) as [a |] eqn:Ht.
  - by apply (header_read_whole _ _ a Hi Hl Ht).
  - destruct (unconnected _ _ Hi Ht) as (_ & _ & _ & Hn & _). congruence.
Qed.

Lemma down_delivery header t : tunnel_inv header t ->
  sink (entry_down t) `prefix_of` server_sent t /\
  (sink_eof (entry_down t) = true -> exit_runs t = true -> sink (entry_down t) = server_sent t).
Proof.
  intros [_ Hdown _ (_ & _ & Hd3 & Hd4) _ _ _ _ Hdend]. unfold carried, drained in *.
  rewrite <- Hdown, <- !(assoc_L (++)). split; [by apply prefix_app_r |].
  intros He Hrun. destruct (Hd3 He) as (-> & -> & Heof). destruct (Hdend Heof) as [? | He1]; [congruence |].
  destruct (Hd4 He1) as (-> & -> & _). by rewrite !app_nil_r.
Qed.

(** ** Delivery: no state is stuck *)

(** A copy is polled until it has shut its writer down, and then its peer
    reads the end. *)
Definition live (t : Tunnel) : Prop :=
  (sink_eof (entry_up t) = false -> copy_state (entry_up t) = Copying) /\
  (sink_eof (exit_up t) = false -> copy_state (exit_up t) = Copying) /\
  (sink_eof (entry_up t) = true -> source_eof (exit_up t) = true).

Lemma copy_step_live c c' : copy_step c c' -> sink_eof c' = false -> copy_state c' = Copying.
Proof. by destruct 1. Qed.

Lemma tunnel_live header t : rtc tunnel_step (tunnel_start header) t -> live t.
Proof.
  intros H. refine (rtc_ind_r (R := tunnel_step) live (tunnel_start header) _ _ t H); [done |].
  intros t1 t2 _ Hs (H1 & H2 & H3). destruct Hs as [| | | | | c t1 Hr Hl Hc | | | | | c t1 Hr Ha Hc | |];
    unfold live in *; cbn; try (pose proof (copy_step_live _ _ Hc); apply copy_step_inv in Hc as (? & ? & _));
    rewrite ?orb_true_iff; intuition congruence.
Qed.

Lemma read_all src hd sk : copy_step (mkCopy src true hd sk false Copying) (mkCopy [] true (hd ++ src) sk false Copying).
Proof. pose proof (copy_read src [] true hd sk) as H. by rewrite app_nil_r in H. Qed.
Lemma write_all hd sk : copy_step (mkCopy [] true hd sk false Copying) (mkCopy [] true [] (sk ++ hd) false Copying).
Proof. pose proof (copy_write [] true hd [] sk) as H. by rewrite app_nil_r in H. Qed.

Section delivery.
Variable header : bytes.
Hypothesis Hheader : length header = 6%nat.

Abbreviation reach := (rtc tunnel_step (tunnel_start header)).

(** [t] can run on, with what has been sent, to the end of the stream. *)
Definition delivers (t : Tunnel) : Prop := exists t', rtc tunnel_step t t' /\
  sink_eof (exit_up t') = true /\ entry_runs t' = true /\ client_sent t' = client_sent t.

Lemma delivers_step t t' : rtc tunnel_step t t' -> client_sent t' = client_sent t -> delivers t' -> delivers t.
Proof. intros H Hc (t'' & Hs & ? & ? & ?). exists t''. split_and!; [by etrans | done | done | congruence]. Qed.

Lemma exit_delivers t a : reach t -> entry_runs t = true -> exit_runs t = true -> target t = Some a ->
  source_eof (exit_up t) = true -> delivers t.
Proof.
  intros (_ & Hl & _)%tunnel_live He Hx Ha Hs. destruct (sink_eof (exit_up t)) eqn:Hse; [by exists t |].
  destruct t as [? ? ? ? ? ? [src eof hd sk se st] ? ? ? ?]. cbn in *. subst. specialize (Hl eq_refl) as ->.
  eexists. split; [| shelve].
  eapply rtc_l; [apply exit_copies_up; [done | by eexists | apply read_all] |].
  eapply rtc_l; [apply exit_copies_up; [done | by eexists | apply write_all] |].
  eapply rtc_l; [apply exit_copies_up; [done | by eexists | apply copy_shutdown] |]. reflexivity.
  Unshelve. done.
Qed.

Lemma entry_done_delivers t : reach t -> entry_runs t = true -> exit_runs t = true ->
  sink_eof (entry_up t) = true -> delivers t.
Proof using Hheader.
  intros Hr He Hx Hse. pose proof (tunnel_reachable_inv _ _ Hr) as Hi. pose proof (tunnel_live _ _ Hr) as (_ & _ & Hl).
  specialize (Hl Hse). destruct (target t) as [a |] eqn:Ht; [by apply (exit_delivers t a) |].
  destruct (unconnected _ _ Hi Ht) as (H6 & Hsk & Hh & _). pose proof (up_bytes _ _ Hi) as Hup.
  destruct (up_end _ _ Hi Hl) as [? | [_ Hleft]]; [congruence |].
  destruct (all_drained _ _ Hi) as (Hd & _). destruct (Hd Hse) as (Hh' & Hs' & _).
  unfold carried in Hup. rewrite Hsk, Hh, Hleft, Hh', Hs' in Hup. cbn in Hup. rewrite !app_nil_r in Hup.
  set (n := (6 - length (header_read t))%nat).
  assert (Hlen : length (header_read t ++ take n (source (exit_up t))) = 6%nat).
  { apply (f_equal length) in Hup. rewrite !length_app in Hup. rewrite length_app, length_take. lia. }
  pose proof (exit_reads (take n (source (exit_up t))) (drop n (source (exit_up t))) t Hx Ht
    (eq_sym (take_drop _ _)) ltac:(lia)) as S1.
  match type of S1 with tunnel_step _ ?u => set (t1 := u) in S1 end.
  pose proof (exit_connects t1 Hx Ht Hlen) as S2.
  match type of S2 with tunnel_step _ ?u => set (t2 := u) in S2 end.
  apply (delivers_step t t2); [by eapply rtc_l, rtc_once | done |].
  apply (exit_delivers t2 (proxy_addr (header_read t1))); try done. by eapply rtc_r; [eapply rtc_r |].
Qed.

Lemma entry_delivers t : reach t -> entry_runs t = true -> exit_runs t = true -> header_left t = [] ->
  source_eof (entry_up t) = true -> delivers t.
Proof using Hheader.
  intros Hr He Hx Hh Hs. destruct (sink_eof (entry_up t)) eqn:Hse; [by apply entry_done_delivers |].
  pose proof (tunnel_live _ _ Hr) as (Hl & _). destruct (no_sinks _ _ (tunnel_reachable_inv _ _ Hr)) as [Hk _].
  assert (Hto : exists t', rtc tunnel_step t t' /\ client_sent t' = client_sent t /\ entry_runs t' = true /\
    exit_runs t' = true /\ sink_eof (entry_up t') = true).
  { destruct t as [? ? [src eof hd sk se st] ? ? ? ? ? ? ? ?]. cbn in *. subst. specialize (Hl eq_refl) as ->.
    eexists. split; [| shelve].
    eapply rtc_l; [apply entry_copies_up; [done | done | apply read_all] |].
    eapply rtc_l; [apply entry_copies_up; [done | done | apply write_all] |].
    eapply rtc_l; [apply entry_copies_up; [done | done | apply copy_shutdown] |]. reflexivity.
    Unshelve. done. }
  destruct Hto as (t' & Hst & Hc & He' & Hx' & Hse'). apply (delivers_step t t' Hst Hc).
  apply entry_done_delivers; [by etrans | done ..].
Qed.

Lemma tunnel_delivers t : reach t -> entry_runs t = true -> exit_runs t = true ->
  source_eof (entry_up t) = true -> delivers t.
Proof using Hheader.
  intros Hr He Hx Hs. pose proof (entry_header (header_left t) [] t He (eq_sym (app_nil_r _))) as S1.
  match type of S1 with tunnel_step _ ?u => set (t1 := u) in S1 end.
  apply (delivers_step t t1); [by apply rtc_once | done |]. apply entry_delivers; try done. by eapply rtc_r.
Qed.
End delivery.

Section transparency.
Context (peer : option string) (connected : bool) (ip : bytes) (port : Z) (header : bytes).
Hypothesis Hip : length ip = 4%nat /\ octets ip.
Hypothesis Hport : 0 <= port < 65536.
Hypothesis Hsetup : setup_ip_to_vsock_transparent peer connected (Some (sockaddr_in ip port, 16)) = Ok header.

Lemma setup_header : length header = 6%nat /\ proxy_addr header = V4 ip port.
Proof using Hip Hport Hsetup.
  destruct Hip as [Hl Ho]. pose proof Hsetup as H.
  unfold setup_ip_to_vsock_transparent, get_original_dst, so_original_dst in H.
  apply bind_Ok in H as (_ & _ & H). cbn [ok_or mbind outcome_bind] in H. rewrite mk_addr_sockaddr_in in H by done.
  cbn [ok_or mbind outcome_bind] in H. destruct connected; [| done]. by apply proxy_addr_header.
Qed.

(** C18: whatever is written partially, read partially or fails on the way, the
    two transparent proxies in line (ip_to_vsock_transparent in the enclave,
    vsock_to_ip_transparent on the host) connect only to the IPv4 address and
    port that the client has dialled; the bytes the server receives are a
    prefix of the bytes the client has sent, and the bytes the client receives
    of those the server has sent; an end of stream that a proxy has written --
    its shutdown, not what the peer of a dropped connection sees -- means that
    everything sent has been delivered, as long as the proxy on the other side
    still runs; and
    no state is stuck: once the client has ended its stream, and while both
    proxies run, they can run on to deliver it whole. *)
Theorem transparent_tunnel t : rtc tunnel_step (tunnel_start header) t ->
  (forall a, target t = Some a -> a = V4 ip port) /\
  sink (exit_up t) `prefix_of` client_sent t /\
  sink (entry_down t) `prefix_of` server_sent t /\
  (sink_eof (exit_up t) = true -> entry_runs t = true -> sink (exit_up t) = client_sent t) /\
  (sink_eof (entry_down t) = true -> exit_runs t = true -> sink (entry_down t) = server_sent t) /\
  (entry_runs t = true -> exit_runs t = true -> source_eof (entry_up t) = true ->
     exists t', rtc tunnel_step t t' /\ sink_eof (exit_up t') = true /\ sink (exit_up t') = client_sent t).
Proof using Hip Hport Hsetup.
  intros Hr. destruct setup_header as [Hl <-]. pose proof (tunnel_reachable_inv _ _ Hr) as Hi.
  destruct (down_delivery _ _ Hi) as [Hd1 Hd2].
  assert (Hdeliver : entry_runs t = true -> exit_runs t = true -> source_eof (entry_up t) = true ->
     exists t', rtc tunnel_step t t' /\ sink_eof (exit_up t') = true /\ sink (exit_up t') = client_sent t).
  { intros He Hx Hs. destruct (tunnel_delivers header Hl t Hr He Hx Hs) as (t' & Hst & Hse & He' & Hc).
    exists t'. split_and!; [done | done |]. rewrite <- Hc. apply (up_complete header); [done | by etrans | done | done]. }
  destruct (target t) as [a |] eqn:Ht.
  - destruct (header_read_whole _ _ a Hi Hl Ht) as (-> & ? & ?). split; [by intros b [=] |]. done.
  - destruct (unconnected _ _ Hi Ht) as (_ & -> & _ & -> & _). split; [done |]. split; [apply prefix_nil |]. done.
Qed.
End transparency.

(** A client dials 10.0.0.1:80 and sends two bytes, which are delivered, and
    the exit then fails. *)
Module TcpWitnesses.

Lemma octets_witness : octets [10; 0; 0; 1].
Proof. repeat constructor. Defined.

Definition dialled : bytes := [1; 0; 0; 10; 80; 0].

Definition delivered : Tunnel :=
  mkTunnel [104; 105] [] (mkCopy [] true [] [] true Closed) (mkCopy [] false [] [] false Copying) [] true
    (mkCopy [] true [] [104; 105] true Closed) idle dialled (Some (V4 [10; 0; 0; 1] 80)) true.

Ltac step rule := eapply rtc_l; [eapply rule; cbn; eauto |]; cbn.

Lemma delivering_run : rtc tunnel_step (tunnel_start dialled) delivered.
Proof.
  unfold tunnel_start, idle.
  step (client_sends [104; 105]). step client_closes. step (entry_header [1; 0; 0; 10; 80; 0] []).
  step (exit_reads [1; 0; 0] [10; 80; 0]). step (exit_reads [10; 80; 0] []). step exit_connects.
  step entry_copies_up. { apply (copy_read [104; 105] []). }
  step entry_copies_up. { apply (copy_write [] true [104] [105]). }
  step exit_copies_up. { apply (copy_read [104] []). }
  step entry_copies_up. { apply (copy_write [] true [105] []). }
  step entry_copies_up. { apply copy_shutdown. }
  step exit_copies_up. { apply (copy_write [105] true [104] []). }
  step exit_copies_up. { apply (copy_read [105] []). }
  step exit_copies_up. { apply (copy_write [] true [105] []). }
  step exit_copies_up. { apply copy_shutdown. }
  reflexivity.
Defined.

Lemma transparent_tunnel_witness :
  sink (exit_up delivered) = [104; 105] /\ sink (entry_down delivered) `prefix_of` server_sent delivered /\
  forall a, target delivered = Some a -> a = V4 [10; 0; 0; 1] 80.
Proof.
  assert (Hip : length [10; 0; 0; 1] = 4%nat /\ octets [10; 0; 0; 1]) by (split; [done | apply octets_witness]).
  assert (Hport : 0 <= 80 < 65536) by lia.
  assert (Hsetup : setup_ip_to_vsock_transparent (Some EmptyString) true (Some (sockaddr_in [10; 0; 0; 1] 80, 16)) = Ok dialled)
    by (vm_compute; reflexivity).
  destruct (transparent_tunnel _ _ _ _ _ Hip Hport Hsetup _ delivering_run) as (Ha & _ & Hd & Hs & _ & _).
  split; [apply Hs; reflexivity |]. split; [exact Hd | exact Ha].
Defined.

End TcpWitnesses.
