(* ===== verification/Initialization.v ===== *)
(** * Initialization: [initialization/init-server] on the host and
    [initialization/vet] in the enclave

    The init server listens on a vsock address and answers two paths with the
    job and the address of the instance; vet fetches one URL over vsock and
    prints the body, which the set-up script of an enclave writes to a file.
    hyper, axum and the parser of URIs are parameters. *)

From S2P Require Import Prelude Text.
From S2P Require Import ByteOrder.
From S2P Require Import RawProxy.
From S2P Require Import VsockAddr.

(** ** The init server *)

(** [get_eth_interface]: as the raw proxies', but the address is put in host
    order. *)
Definition init_eth_interface (ifap : option (list ifaddrs)) : outcome string (string * Z) :=
  '(ifname, ifaddr) ← get_eth_interface ifap;
  Ok (ifname, ntoh32 ifaddr).

(** [Ipv4Addr::from(ip).to_string()] *)
Definition ipv4_text (ip : Z) : string := dotted (be_bytes 4 ip).

Record InitServer := mkInitServer { vsock_addr : Z * Z; routes : list (string * string) }.

(** [main], up to [serve]; [bound]: whether the listener is created.  A value
    that does not parse ends the program in clap. *)
Definition init_main (ifap : option (list ifaddrs)) (bound : bool) (addr : option string) (job_id : string)
    : outcome string InitServer :=
  vsock_addr ← map_err (fun _ => "invalid value"%string) (init_parse_ref addr);
  '(_, ip) ← map_err (fun _ => "failed to get ethernet ip"%string) (init_eth_interface ifap);
  let ip := ipv4_text ip in
  let app := [("/oyster/job"%string, job_id); ("/instance/ip"%string, ip)] in
  if bound then Ok (mkInitServer vsock_addr app) else Err "failed to create vsock listener"%string.

(** ** vet *)

(** URIs of the http crate: a scheme, compared as the crate compares it, an
    authority (its host and, when there is one that fits, its port), a path. *)
Class UriApi (U : Type) := {
  uri_parse : string -> option U;
  uri_scheme : U -> option string;
  scheme_eqb : string -> string -> bool;
  uri_authority : U -> option (string * option Z);
  uri_path : U -> string
}.

(** A server on the other side of a connection: the body it answers a path
    with, [None] when the request fails, [Some None] when the body is not
    UTF-8. *)
Definition Peer : Type := string -> option (option string).

Section vet.
Context {U : Type} `{Uri : UriApi U}.

(** The servers that accept connections, by context id and port. *)
Variable listening : Z * Z -> option Peer.

(** [vsock_connector] *)
Definition vsock_connector (dst : U) : outcome string Peer :=
  scheme ← ok_or "uri should have a scheme"%string (uri_scheme dst);
  if negb (scheme_eqb scheme "vsock") then Err "only vsock uris supported"%string else
  '(host, port_u16) ← ok_or "uri should have an authority"%string (uri_authority dst);
  host ← ok_or "uri should have a u32 host"%string (parse_u32 host);
  port ← ok_or "uri should have a u16 port"%string port_u16;
  ok_or "connect"%string (listening (host, port)).

(** [main]: what it prints. *)
Definition vet_main (url : string) : outcome string string :=
  dst ← ok_or "invalid uri"%string (uri_parse url);
  conn ← vsock_connector dst;
  response_bytes ← ok_or "request failed"%string (conn (uri_path dst));
  res ← ok_or "invalid utf8"%string response_bytes;
  Ok (res +:+ newline).

End vet.

(** ** The reader of the address *)

(** vsock_to_ip_raw_incoming.rs reads its address from the file. *)
Definition proxied_ip (ip_txt : string) : string := trim ip_txt.
