(* ===== verification/InitProps.v ===== *)
(** * Initialization: the enclave is told the address that the raw proxies
    carry *)

From stdpp Require Import pretty.
From S2P Require Import Prelude Text.
From S2P Require Import ByteOrder.
From S2P Require Import RawProxy.
From S2P Require Import RawProxyProps.
From S2P Require Import VsockAddr.
From S2P Require Import Initialization.

(** ** Trimming the text of an address *)

Definition byte_trims (b : Z) : bool :=
  String.eqb (trim_start (dec b)) (dec b) && String.eqb (trim_end (dec b +:+ newline)) (dec b).

Lemma byte_trim b : is_byte b = true -> trim_start (dec b) = dec b /\ trim_end (dec b +:+ newline) = dec b.
Proof.
  assert (Hall : forallb byte_trims (seqZ 0 256) = true) by (vm_compute; reflexivity).
  intros [? ?]%is_byte_range. rewrite forallb_forall in Hall.
  assert (Hin : List.In b (seqZ 0 256)) by (apply list_elem_of_In, elem_of_seqZ; lia).
  apply Hall, andb_true_iff in Hin as [?%String.eqb_eq ?%String.eqb_eq]. done.
Qed.

(** What vet prints is read back without its newline. *)
Lemma proxied_ip_dotted a b c d : octets [a; b; c; d] ->
  proxied_ip (dotted [a; b; c; d] +:+ newline) = dotted [a; b; c; d].
Proof.
  rewrite !Forall_cons. intros (Ha & Hb & Hc & Hd & _). destruct (byte_text a Ha) as [_ Hna]. destruct (byte_text d Hd) as [_ Hnd].
  destruct (byte_trim a Ha) as [Hta _]. destruct (byte_trim d Hd) as [_ Htd].
  unfold proxied_ip, trim. rewrite dotted_text by done. rewrite !append_assoc, trim_start_app by done.
  set (front := dec a +:+ "." +:+ dec b +:+ "." +:+ dec c +:+ ".").
  assert (Hsplit : forall t, dec a +:+ "." +:+ dec b +:+ "." +:+ dec c +:+ "." +:+ t = front +:+ t)
    by (intros t; unfold front; by rewrite !append_assoc).
  rewrite !Hsplit, trim_end_app by by rewrite Htd. by rewrite Htd.
Qed.

(** ** From the interface of the host to the filters of the proxies *)

(** The text of a vsock URL. *)
Definition vsock_url (cid port : N) (path : string) : string := "vsock://" +:+ vsock_text cid port +:+ path.

(** Paths that need no escape: a slash, then unreserved characters (RFC 3986,
    2.3) and slashes, well within the length the parser takes. *)
Definition unreserved (c : Ascii.ascii) : bool :=
  let n := Ascii.nat_of_ascii c in
  (Nat.leb 48 n && Nat.leb n 57 || Nat.leb 65 n && Nat.leb n 90 || Nat.leb 97 n && Nat.leb n 122
   || Nat.eqb n 45 || Nat.eqb n 46 || Nat.eqb n 95 || Nat.eqb n 126)%bool.
Definition is_slash (c : Ascii.ascii) : bool := Nat.eqb (Ascii.nat_of_ascii c) 47.

Definition plain_path (path : string) : bool :=
  match path with
  | String c rest => is_slash c && forallb (fun c => unreserved c || is_slash c) (String.list_ascii_of_string rest)
      && Nat.leb (String.length rest) 1024
  | EmptyString => false
  end.

(** The documented behaviour of the parser of URIs on vsock URLs with a plain
    path: it gives the parts as written. *)
Class UriLaws (U : Type) `{UriApi U} := {
  uri_parse_vsock : forall cid port path, (cid < 2 ^ 32)%N -> (port < 2 ^ 16)%N -> plain_path path = true ->
    exists u,
      uri_parse (vsock_url cid port path) = Some u /\
      uri_scheme u = Some "vsock"%string /\
      uri_authority u = Some (pretty cid, Some (Z.of_N port)) /\
      uri_path u = path;
  scheme_eqb_vsock : scheme_eqb "vsock" "vsock" = true
}.

Section provisioning.
Context {U : Type} `{Laws : UriLaws U}.
Variable listening : Z * Z -> option Peer.

(** hyper and axum: the server listens on its address, and answers each of its
    routes with the body of its handler. *)
Definition serves (srv : InitServer) : Prop := exists peer, listening (vsock_addr srv) = Some peer /\
  forall path body, (path, body) ∈ routes srv -> peer path = Some (Some body).

Lemma vet_fetches srv cid port path body : serves srv -> vsock_addr srv = (Z.of_N cid, Z.of_N port) ->
  (cid < 2 ^ 32)%N -> (port < 2 ^ 16)%N -> plain_path path = true -> (path, body) ∈ routes srv ->
  vet_main listening (vsock_url cid port path) = Ok (body +:+ newline).
Proof using Laws.
  intros (peer & Hl & Hr) Ha Hc Hp Hpl Hin. destruct (uri_parse_vsock cid port path Hc Hp Hpl) as (u & Hu & Hs & Hau & Hpath).
  unfold vet_main, vsock_connector. rewrite Hu. cbn [ok_or mbind outcome_bind]. rewrite Hs. cbn [ok_or mbind outcome_bind].
  rewrite scheme_eqb_vsock. cbn [negb]. rewrite Hau. cbn [ok_or mbind outcome_bind]. rewrite parse_u32_pretty.
  rewrite (proj2 (Z.ltb_lt _ _)) by lia. cbn [ok_or mbind outcome_bind]. rewrite <- Ha, Hl.
  cbn [ok_or mbind outcome_bind]. by rewrite Hpath, (Hr _ _ Hin).
Qed.
End provisioning.

(** The address that the init server tells is that of the raw proxies. *)
Lemma init_ip_text ifap name ip : length ip = 4%nat -> octets ip -> get_eth_interface ifap = Ok (name, from_le ip) ->
  (fst_ip ← init_eth_interface ifap; Ok (ipv4_text fst_ip.2)) = Ok (dotted ip).
Proof.
  intros Hl Ho H. unfold init_eth_interface. rewrite H. cbn [mbind outcome_bind]. cbn [snd].
  unfold ipv4_text, ntoh32. rewrite swap_load by done. rewrite <- Hl at 1. by rewrite be_bytes_from_be.
Qed.

(** C26: the address of an instance travels unchanged from the interface of the
    host to the enclave and back to the filters: when the init server starts
    on a host whose first eth or ens interface has the address [ip], what vet
    prints for the URL of /instance/ip is the dotted text of [ip]; with it
    (less the newline) the incoming proxy passes exactly the packets whose
    destination is [ip], and the outgoing proxy, which looks the interface up
    for itself, passes only packets whose source is [ip]. *)
Theorem instance_address_agrees {U} `{UriLaws U} listening ifap name ip job cid port srv junk p :
  length ip = 4%nat -> octets ip -> (cid < 2 ^ 32)%N -> (port < 2 ^ 16)%N ->
  get_eth_interface ifap = Ok (name, from_le ip) ->
  init_main ifap true (Some (vsock_text cid port)) job = Ok srv ->
  serves listening srv -> well_formed p ->
  exists ip_txt,
    vet_main listening (vsock_url cid port "/instance/ip") = Ok ip_txt /\
    vet_main listening (vsock_url cid port "/oyster/job") = Ok (job +:+ newline) /\
    verdict_incoming (proxied_ip ip_txt) (p ++ junk) = Ok (bool_decide (field p 16 4 = ip)) /\
    (verdict_outgoing (from_le ip) (p ++ junk) = Ok true -> field p 12 4 = ip).
Proof.
  intros Hl Ho Hc Hp Hif Hm Hs Hwf. unfold init_main in Hm. unfold init_parse_ref in Hm.
  rewrite parse_ref_text in Hm by lia. cbn [map_err mbind outcome_bind] in Hm.
  pose proof (init_ip_text ifap name ip Hl Ho Hif) as Hip.
  destruct (init_eth_interface ifap) as [[nm a] | |]; try discriminate Hip. cbn [mbind outcome_bind snd] in Hip.
  injection Hip as Hip. cbn [map_err mbind outcome_bind] in Hm. rewrite Hip in Hm. injection Hm as <-.
  exists (dotted ip +:+ newline). split_and!.
  - apply (vet_fetches listening _ cid port "/instance/ip" (dotted ip) Hs); [done | done | done | done | set_solver].
  - apply (vet_fetches listening _ cid port "/oyster/job" job Hs); [done | done | done | done | set_solver].
  - destruct ip as [| a' [| b [| c [| d [|]]]]]; try discriminate Hl. rewrite proxied_ip_dotted by done.
    rewrite verdict_incoming_permitted by done. f_equal. destruct Hwf as (H20 & _ & _ & Hb & _).
    unfold permitted_incoming, dst_of, ipv4. apply eq_true_iff_eq. rewrite Z.eqb_eq, bool_decide_eq_true.
    split; [| congruence]. apply from_be_inj4; [by apply length_field; lia | done | by apply Forall_field | done].
  - rewrite verdict_outgoing_permitted by done. intros [= Hv]. unfold permitted_outgoing in Hv.
    rewrite !andb_true_iff, Z.eqb_eq in Hv. destruct Hv as [[Hv _] _]. destruct Hwf as (H20 & _ & _ & Hb & _).
    apply rev_inj, from_be_inj4; [rewrite length_rev; apply length_field; lia | by rewrite length_rev
      | by apply Forall_rev, Forall_field | by apply Forall_rev | exact Hv].
Qed.

(** ** A parser of URLs with a scheme, a host, a port and a path *)
Module InitWitnesses.

Record Url := mkUrl { url_scheme : string; url_host : string; url_port : option Z; url_path : string }.

Definition slash : Ascii.ascii := Ascii.ascii_of_nat 47.

Definition drop_slashes (s : string) : string := match s with String _ (String _ t) => t | _ => s end.

Definition url_parse (s : string) : option Url :=
  '(scheme, rest) ← split_colon s;
  if negb (String.prefix "//" rest) then None else
  '(host, rest) ← split_colon (drop_slashes rest);
  '(port, path) ← split_once slash rest;
  Some (mkUrl scheme host (parse_unsigned 16 port) (String slash path)).

#[local] Instance url_api : UriApi Url := {
  uri_parse := url_parse;
  uri_scheme u := Some (url_scheme u);
  scheme_eqb := String.eqb;
  uri_authority u := Some (url_host u, url_port u);
  uri_path := url_path
}.

#[local] Instance url_laws : UriLaws Url.
Proof.
  constructor; [| reflexivity]. intros cid port [| c path] _ Hp Hpl; [done |].
  assert (c = slash) as ->.
  { cbn [plain_path] in Hpl. rewrite !andb_true_iff in Hpl. destruct Hpl as [[Hc%Nat.eqb_eq _] _].
    rewrite <- (Ascii.ascii_nat_embedding c), Hc. reflexivity. }
  exists (mkUrl "vsock" (pretty cid) (Some (Z.of_N port)) (String slash path)).
  split; [| done]. cbn [uri_parse url_api]. unfold url_parse, vsock_url, vsock_text.
  change ("vsock://" +:+ ?t) with ("vsock" +:+ colon +:+ ("//" +:+ t)).
  assert (Hs : forall s t, s = "vsock"%string -> split_colon (s +:+ colon +:+ t) = Some (s, t)) by (by intros s t ->).
  rewrite Hs by done. cbn [mbind option_bind]. rewrite prefix_append. cbn [negb].
  change (drop_slashes ("//" +:+ ?t)) with t.
  rewrite !append_assoc, split_colon_digits by apply digits_pretty. cbn [mbind option_bind].
  rewrite (split_once_digits slash) by (try apply digits_pretty; done). cbn [mbind option_bind]. rewrite parse_unsigned_pretty by lia.
  by rewrite (proj2 (Z.ltb_lt _ _)) by lia.
Qed.

(** A host with a loopback and an ethernet interface, at 10.0.0.7. *)
Definition toy_ifaces : list ifaddrs :=
  [mkIfaddrs "lo" true (Some (2, 16777343)); mkIfaddrs "ens5" true (Some (2, from_le [10; 0; 0; 7]))].

Definition toy_server : InitServer :=
  mkInitServer (3, 1300) [("/oyster/job"%string, "0x12"%string); ("/instance/ip"%string, "10.0.0.7"%string)].

Definition toy_listening (a : Z * Z) : option Peer :=
  if bool_decide (a = (3, 1300)) then
    Some (fun path => Some (Some (if String.eqb path "/oyster/job" then "0x12"
                                  else if String.eqb path "/instance/ip" then "10.0.0.7" else EmptyString)%string))
  else None.

Definition toy_packet : bytes := [69; 0; 0; 22; 0; 0; 0; 0; 64; 6; 0; 0; 93; 184; 216; 34; 10; 0; 0; 7; 4; 0].

Lemma instance_address_agrees_witness :
  exists ip_txt, vet_main toy_listening "vsock://3:1300/instance/ip" = Ok ip_txt /\
    verdict_incoming (proxied_ip ip_txt) (toy_packet ++ []) = Ok true.
Proof.
  assert (Hserves : serves toy_listening toy_server).
  { eexists. split; [reflexivity |]. intros path body H. cbn in H.
    rewrite !elem_of_cons, elem_of_nil in H. destruct H as [[=-> ->] | [[=-> ->] | []]]; reflexivity. }
  assert (Ho : octets [10; 0; 0; 7]) by repeat constructor.
  assert (Hif : get_eth_interface (Some toy_ifaces) = Ok ("ens5"%string, from_le [10; 0; 0; 7])) by reflexivity.
  assert (Hm : init_main (Some toy_ifaces) true (Some (vsock_text 3 1300)) "0x12" = Ok toy_server)
    by (vm_compute; reflexivity).
  assert (Hp : well_formed toy_packet).
  { unfold well_formed, MAX_PACKET. split_and!; [vm_compute; lia | cbn [toy_packet length]; lia | vm_compute; lia
      | by repeat constructor | reflexivity]. }
  destruct (instance_address_agrees toy_listening _ _ [10; 0; 0; 7] _ 3 1300 _ [] toy_packet eq_refl Ho
    ltac:(lia) ltac:(lia) Hif Hm Hserves Hp) as (t & Ht & _ & Hv & _).
  exists t. split; [exact Ht | exact Hv].
Defined.

End InitWitnesses.
