(* ===== verification/Quota.v ===== *)
(** * The quota monitor: [operator/quota-monitor-aws/src]

    A command that prints, for regions and quotas, the usage of a quota or the
    state of the request to raise it.  The answers of AWS are a function of
    the client and the request; integers of the process are 64 bits wide and
    wrap, as in a release build. *)

From Stdlib Require Import Floats.SpecFloat.
From stdpp Require Import pretty.
From S2P Require Import Prelude.

(** ** Quotas ([utils.rs]) *)

Inductive Quota := Vcpu | Eip.

Definition from_name (name : string) : outcome string Quota :=
  if String.eqb name "vcpus" then Ok Vcpu
  else if String.eqb name "eips" then Ok Eip
  else Err "invalid quota, should be vcpus or eips"%string.

Definition to_code (q : Quota) : string :=
  match q with Vcpu => "L-1216C47A" | Eip => "L-0263D0A3" end.

Definition quota_text (q : Quota) : string := match q with Vcpu => "vcpus" | Eip => "eips" end.

(** ** Machine numbers *)

(** [as usize] of an i32, and of an f64, which truncates and saturates. *)
Definition usize_of_i32 (z : Z) : Z := wrap 64 z.

Definition usize_of_f64 (f : spec_float) : Z :=
  match f with
  | S754_finite false m e => Z.min (umax 64) (if 0 <=? e then Zpos m * 2 ^ e else Zpos m / 2 ^ (- e))
  | S754_infinity false => umax 64
  | _ => 0
  end.

(** ** The answers of AWS *)

Record CpuOptions := mkCpuOptions { core_count : option Z; threads_per_core : option Z }.

Inductive AwsRequestStatus := Pending | CaseOpened | CaseClosed | Approved | Denied | NotApproved | InvalidRequest.

Record QuotaChange := mkQuotaChange {
  id : option string;
  created : option Z;  (* nanoseconds *)
  desired_value : option spec_float;
  status : option AwsRequestStatus
}.

(** [None] on the outside: the call failed; the other options are the optional
    fields of the answers. *)
Class QuotaApi (Client : Type) := {
  load_client : string -> string -> Client;  (* profile and region *)
  running_instances : Client -> option (option (list (option (list (option CpuOptions)))));
  addresses : Client -> option (option Z);
  service_quota : Client -> string -> option (option (option spec_float));
  change_history : Client -> string -> option (option (list QuotaChange));
  now : Client -> Z  (* [chrono::Local::now().timestamp()] when the answer is used *)
}.

Section monitor.
Context {Client : Type} `{Api : QuotaApi Client}.

(** ** Usage ([current_usage.rs]) *)

Fixpoint count_instances (no_of_vcpus : Z) (instances : list (option CpuOptions)) : outcome string Z :=
  match instances with
  | [] => Ok no_of_vcpus
  | instance :: instances =>
      cpu_options ← ok_or "Could not parse cpu options from instance"%string instance;
      cores ← ok_or "Could not parse core count from cpu options"%string (core_count cpu_options);
      threads ← ok_or "Could not parse threads per core from cpu options"%string (threads_per_core cpu_options);
      count_instances (wrap 64 (no_of_vcpus + wrap 64 (usize_of_i32 cores * usize_of_i32 threads))) instances
  end.

Fixpoint count_reservations (no_of_vcpus : Z) (reservations : list (option (list (option CpuOptions))))
    : outcome string Z :=
  match reservations with
  | [] => Ok no_of_vcpus
  | reservation :: reservations =>
      instances ← ok_or "Could not parse instances from reservation"%string reservation;
      no_of_vcpus ← count_instances no_of_vcpus instances;
      count_reservations no_of_vcpus reservations
  end.

Definition get_no_of_vcpus (client : Client) : outcome string Z :=
  res ← ok_or "Error occurred while describing instances from AWS client"%string (running_instances client);
  reservations ← ok_or "Could not parse reservations from AWS response"%string res;
  count_reservations 0 reservations.

Definition get_no_of_elastic_ips (client : Client) : outcome string Z :=
  res ← ok_or "Error occurred while describing addresses from AWS client"%string (addresses client);
  ok_or "Could not parse addresses from AWS response"%string res.

Definition get_current_usage (client : Client) (quota : Quota) : outcome string Z :=
  match quota with Vcpu => get_no_of_vcpus client | Eip => get_no_of_elastic_ips client end.

(** ** Limits and requests ([service_quotas.rs]) *)

Definition get_service_quota_limit (client : Client) (quota : Quota) : outcome string Z :=
  res ← ok_or "Error getting service quota from AWS client"%string (service_quota client (to_code quota));
  quota ← ok_or "Could not parse service quota from AWS response"%string res;
  value ← ok_or "Could not parse service quota value"%string quota;
  Ok (usize_of_f64 value).

(** The order of [Option<DateTime>]: [None] is least. *)
Definition created_le (x y : QuotaChange) : bool :=
  match created x, created y with
  | None, _ => true
  | Some _, None => false
  | Some a, Some b => a <=? b
  end.

(** [min_by_key(|x| x.created)]: the first of the least elements. *)
Definition min_by_created (l : list QuotaChange) : option QuotaChange :=
  match l with
  | [] => None
  | x :: l => Some (foldl (fun m y => if created_le m y then m else y) x l)
  end.

Definition last_request (client : Client) (quota : Quota) : outcome string (option QuotaChange) :=
  res ← ok_or "Error getting service quota from AWS client"%string (change_history client (to_code quota));
  requested_quotas ← ok_or "Could not parse requested quotas from AWS response"%string res;
  Ok (min_by_created requested_quotas).

(** ** Reports ([main.rs]) *)

Definition get_quota_status (client : Client) (quota : Quota) : outcome string (Z * Z) :=
  current_usage ← get_current_usage client quota;
  quota_limit ← get_service_quota_limit client quota;
  Ok (current_usage, quota_limit).

Inductive RequestStatus := NoRequest | Unnecessary | Open | Stuck | RequestApproved | Rejected.

(** [DateTime::secs] *)
Definition secs (t : Z) : Z := t / 10 ^ 9.

(** The state of one request, at a time and under a limit. *)
Definition classify (too_old is_needed is_open : bool) : RequestStatus :=
  match is_needed, is_open with
  | true, true => if too_old then Stuck else Open
  | true, false => Rejected
  | false, true => Unnecessary
  | false, false => RequestApproved
  end.

Definition get_request_status (client : Client) (quota : Quota) : outcome string RequestStatus :=
  last_request ← last_request client quota;
  match last_request with
  | None => Ok NoRequest
  | Some last_request =>
      quota_limit ← get_service_quota_limit client quota;
      created ← ok_or "failed to get creation time of request"%string (created last_request);
      let too_old := secs created <? now client - 86400 in
      desired_value ← ok_or "failed to get desired value of request"%string (desired_value last_request);
      let is_needed := quota_limit <? usize_of_f64 desired_value in
      status ← ok_or "failed to get status of request"%string (status last_request);
      let is_open := match status with CaseOpened | Pending => true | _ => false end in
      Ok (classify too_old is_needed is_open)
  end.

Definition status_text (s : RequestStatus) : string :=
  match s with
  | NoRequest => "None" | Unnecessary => "Unnecessary" | Open => "Open"
  | Stuck => "Stuck" | RequestApproved => "Approved" | Rejected => "Rejected"
  end.

Definition tab : string := String (Ascii.ascii_of_nat 9) EmptyString.

Definition quota_status (quota : Quota) (region profile : string) : outcome string string :=
  '(current_usage, quota_limit) ← get_quota_status (load_client profile region) quota;
  Ok (region +:+ ":" +:+ tab +:+ quota_text quota +:+ ":" +:+ tab +:+ pretty current_usage +:+ "/" +:+ pretty quota_limit).

Definition request_status (quota : Quota) (region profile : string) : outcome string string :=
  status ← get_request_status (load_client profile region) quota;
  Ok (region +:+ ":" +:+ tab +:+ quota_text quota +:+ ":" +:+ tab +:+ status_text status).

(** The loops of [main]: the lines printed, and how it ends; the first failure
    ends the program. *)
Fixpoint report (line : string -> Quota -> outcome string string) (todo : list (string * Quota))
    : list string * outcome string unit :=
  match todo with
  | [] => ([], Ok tt)
  | (region, quota) :: todo =>
      match line region quota with
      | Ok l => let '(ls, r) := report line todo in (l :: ls, r)
      | Err e => ([], Err e)
      | Panic => ([], Panic)
      end
  end.

Inductive Commands :=
| Usage (quotas : list Quota) (regions : list string) (profile : string)
| Requests (quotas : list Quota) (regions : list string) (profile : string).

Definition quota_main (cmd : Commands) : list string * outcome string unit :=
  match cmd with
  | Usage quotas regions profile =>
      report (fun region quota => quota_status quota region profile) (region ← regions; quota ← quotas; [(region, quota)])
  | Requests quotas regions profile =>
      report (fun region quota => request_status quota region profile) (region ← regions; quota ← quotas; [(region, quota)])
  end.

End monitor.

(** ** Theorems *)

(** The fold keeps a least element. *)
Lemma created_le_trans x y z : created_le x y = true -> created_le y z = true -> created_le x z = true.
Proof.
  unfold created_le. destruct (created x), (created y), (created z); try done.
  rewrite !Z.leb_le. lia.
Qed.

Lemma created_le_total x y : created_le x y = false -> created_le y x = true.
Proof. unfold created_le. destruct (created x), (created y); try done. rewrite Z.leb_gt, Z.leb_le. lia. Qed.

Lemma created_le_refl x : created_le x x = true.
Proof. unfold created_le. destruct (created x); [apply Z.leb_refl | done]. Qed.

Lemma fold_min_spec l x :
  let m := foldl (fun m y => if created_le m y then m else y) x l in
  m ∈ x :: l /\ (forall y, y ∈ x :: l -> created_le m y = true).
Proof.
  revert x. induction l as [| z l IH]; intros x.
  - cbn. split; [by left |]. intros y ->%list_elem_of_singleton. apply created_le_refl.
  - cbn [foldl]. cbn zeta. destruct (created_le x z) eqn:Hle.
    + destruct (IH x) as [Hin Hmin]. split; [set_solver |]. intros y [-> | [-> | Hy]%elem_of_cons]%elem_of_cons.
      * apply Hmin. by left.
      * apply (created_le_trans _ x); [apply Hmin; by left | done].
      * apply Hmin. by right.
    + destruct (IH z) as [Hin Hmin]. split; [set_solver |]. intros y [-> | Hy]%elem_of_cons; [| by apply Hmin].
      apply (created_le_trans _ z); [apply Hmin; by left | by apply created_le_total].
Qed.

(** A request with all its fields. *)
Definition complete (r : QuotaChange) : Prop := is_Some (created r) /\ is_Some (desired_value r) /\ is_Some (status r).

Section monitor_props.
Context {Client : Type} `{Api : QuotaApi Client} (client : Client) (quota : Quota).

(** What the monitor reports for a quota is the state of the oldest
    request of the history, whatever has been requested since: stuck when it
    asks for more than the limit and is open for over a day, open when for
    less, rejected when it is closed; unnecessary or approved, when the limit
    has reached it. *)
Theorem oldest_request_reported h v :
  change_history client (to_code quota) = Some (Some h) -> h <> [] -> Forall complete h ->
  service_quota client (to_code quota) = Some (Some (Some v)) ->
  exists r t d s, r ∈ h /\ created r = Some t /\ desired_value r = Some d /\ status r = Some s /\
    (forall x t', x ∈ h -> created x = Some t' -> t <= t') /\
    get_request_status client quota =
      Ok (classify (secs t <? now client - 86400) (usize_of_f64 v <? usize_of_f64 d)
            (match s with CaseOpened | Pending => true | _ => false end)).
Proof.
  intros Hh Hne Hc Hv. unfold get_request_status, last_request, get_service_quota_limit.
  rewrite Hh, Hv. cbn [ok_or mbind outcome_bind]. destruct h as [| x h]; [done |]. cbn [min_by_created].
  destruct (fold_min_spec h x) as [Hin Hmin]. set (r := foldl _ x h) in *. clearbody r.
  destruct (proj1 (Forall_forall _ _) Hc r Hin) as ([t Ht] & [d Hd] & [s Hs]).
  exists r, t, d, s. rewrite Ht, Hd, Hs. split_and!; try done.
  intros y t' Hy Hyt. specialize (Hmin y Hy). unfold created_le in Hmin. rewrite Ht, Hyt in Hmin. by apply Z.leb_le.
Qed.

(** The usage of vcpus: the threads of the running instances, as long as their
    number fits. *)
Definition vcpus (instance : option CpuOptions) : Z :=
  match instance with
  | Some (mkCpuOptions (Some cores) (Some threads)) => cores * threads
  | _ => 0
  end.

Definition sane (instance : option CpuOptions) : Prop :=
  exists cores threads, instance = Some (mkCpuOptions (Some cores) (Some threads)) /\
    0 <= cores < 2 ^ 31 /\ 0 <= threads < 2 ^ 31.

Lemma sane_vcpus i : sane i -> 0 <= vcpus i < 2 ^ 62.
Proof. intros (c & t & -> & ? & ?). cbn. nia. Qed.

Definition total (insts : list (option CpuOptions)) : Z := foldr (fun i n => vcpus i + n) 0 insts.

Lemma total_app insts js : total (insts ++ js) = total insts + total js.
Proof. induction insts as [| i insts IH]; [done |]. cbn. unfold total in *. lia. Qed.

Lemma total_nonneg insts : Forall sane insts -> 0 <= total insts.
Proof. induction 1 as [| i insts Hi _ IH]; cbn; [lia |]. apply sane_vcpus in Hi. unfold total in *. lia. Qed.

Lemma count_instances_total n insts : Forall sane insts -> 0 <= n -> n + total insts < 2 ^ 64 ->
  count_instances n insts = Ok (n + total insts).
Proof.
  intros H. revert n. induction H as [| i insts Hi His IH]; intros n Hn Hb; cbn; [f_equal; lia |].
  pose proof (sane_vcpus i Hi) as Hv. pose proof (total_nonneg insts His) as Ht.
  destruct Hi as (c & t & -> & Hc & Hth). cbn [ok_or core_count threads_per_core mbind outcome_bind vcpus foldr total] in *.
  unfold usize_of_i32, wrap. rewrite (Z.mod_small c), (Z.mod_small t), (Z.mod_small (c * t)) by lia.
  unfold total in *. cbn [foldr vcpus] in Hb. rewrite Z.mod_small by lia. rewrite IH by lia. f_equal. lia.
Qed.

Lemma count_reservations_total n rs : Forall (fun r => exists insts, r = Some insts /\ Forall sane insts) rs -> 0 <= n ->
  n + total (concat (omap (fun r => r) rs)) < 2 ^ 64 ->
  count_reservations n rs = Ok (n + total (concat (omap (fun r => r) rs))).
Proof.
  intros H. revert n. induction H as [| r rs (insts & -> & His) Hrs IH]; intros n Hn Hb; cbn in *; [f_equal; lia |].
  rewrite total_app in *. pose proof (total_nonneg insts His).
  assert (0 <= total (concat (omap (fun r => r) rs))).
  { apply total_nonneg, Forall_concat, Forall_forall. intros l Hl. apply list_elem_of_omap in Hl as (r & Hr & ->).
    rewrite Forall_forall in Hrs. destruct (Hrs _ Hr) as (insts' & [= ->] & ?). done. }
  rewrite count_instances_total by (try done; lia). cbn [mbind outcome_bind]. rewrite IH by lia. f_equal. lia.
Qed.

Lemma vcpu_usage rs : running_instances client = Some (Some rs) ->
  Forall (fun r => exists insts, r = Some insts /\ Forall sane insts) rs -> total (concat (omap (fun r => r) rs)) < 2 ^ 64 ->
  get_current_usage client Vcpu = Ok (total (concat (omap (fun r => r) rs))).
Proof.
  intros Hr Hs Hb. cbn. unfold get_no_of_vcpus. rewrite Hr. cbn [ok_or mbind outcome_bind].
  by rewrite count_reservations_total by done.
Qed.

End monitor_props.

(** A report ends at the first line that fails. *)
Lemma report_prefix line todo ls r : report line todo = (ls, r) ->
  Forall2 (fun '(region, quota) l => line region quota = Ok l) (take (length ls) todo) ls /\
  (r = Ok tt <-> length ls = length todo).
Proof.
  revert ls. induction todo as [| [region quota] todo IH]; intros ls; cbn; [by intros [= <- <-] |].
  destruct (line region quota) as [l | e |] eqn:Hl; [| by intros [= <- <-] ..].
  destruct (report line todo) as [ls' r'] eqn:Hr. intros [= <- <-]. destruct (IH ls' eq_refl) as [Hf Hiff]. cbn.
  split; [by constructor |]. rewrite Hiff. lia.
Qed.

(** An old request that has been granted hides a newer one that is open. *)
Module QuotaWitnesses.

Definition f64 (n : positive) : spec_float := S754_finite false n 0.

Definition granted : QuotaChange := mkQuotaChange (Some "a"%string) (Some (1000 * 10 ^ 9)) (Some (f64 64)) (Some CaseClosed).
Definition asked : QuotaChange := mkQuotaChange (Some "b"%string) (Some (900000 * 10 ^ 9)) (Some (f64 128)) (Some CaseOpened).

#[local] Instance toy_aws : QuotaApi unit := {
  load_client _ _ := tt;
  running_instances _ := Some (Some [Some [Some (mkCpuOptions (Some 2) (Some 2))]]);
  addresses _ := Some (Some 3);
  service_quota _ _ := Some (Some (Some (f64 64)));
  change_history _ _ := Some (Some [asked; granted]);
  now _ := 1000000
}.

Lemma oldest_request_reported_witness :
  created granted = Some (1000 * 10 ^ 9) /\ get_request_status tt Vcpu = Ok RequestApproved.
Proof.
  split; [reflexivity |].
  assert (Hc : Forall complete [asked; granted]) by (repeat constructor; by eexists).
  assert (Hh : change_history tt (to_code Vcpu) = Some (Some [asked; granted])) by reflexivity.
  assert (Hv : service_quota tt (to_code Vcpu) = Some (Some (Some (f64 64)))) by reflexivity.
  destruct (oldest_request_reported tt Vcpu [asked; granted] (f64 64) Hh ltac:(done) Hc Hv)
    as (r & t & d & s & Hin & Ht & Hd & Hs & Hmin & ->).
  specialize (Hmin granted (1000 * 10 ^ 9) ltac:(by right; left) eq_refl).
  apply elem_of_cons in Hin as [-> | ->%list_elem_of_singleton].
  - exfalso. assert (Ht' : Some (900000 * 10 ^ 9) = Some t) by exact Ht. injection Ht' as <-. lia.
  - assert (Hd' : Some (f64 64) = Some d) by exact Hd. assert (Hs' : Some CaseClosed = Some s) by exact Hs.
    injection Hd' as <-. by injection Hs' as <-.
Defined.

End QuotaWitnesses.
