(* ===== verification/AttServers.v ===== *)
(** * Attestation documents: the servers and the command lines

    attestation/server (one key), attestation/server-custom (fields from the
    query), the handlers of attestation/server-custom-mock, and
    the command lines
    cli_attestation_verifier.rs and sdks/rs/src/main.rs.  The nitro security module is the class
    [Nsm], hexadecimal that of the verifier service. *)

From S2P Require Import Prelude Io.
From S2P Require Import Attestation.
From S2P Require Import Verifier.
From S2P Require NitroGuest.

(** ** The security module *)

Record AttestationRequest := mkAttestationRequest {
  req_public_key : option bytes;
  req_user_data : option bytes;
  req_nonce : option bytes
}.

Inductive Response := DocumentResponse (document : bytes) | OtherResponse.

Class Nsm (W : Type) := {
  nsm_init : W -> W * Z;
  nsm_process_request : Z -> AttestationRequest -> W -> W * Response;
  nsm_exit : Z -> W -> W
}.

Section servers.
Context {W : Type} `{N : Nsm W} `{V : VerifierCrypto}.

(** The three calls to the driver. *)
Definition nsm_attest (request : AttestationRequest) : W -> W * Response := fun w =>
  let '(w, nsm_fd) := nsm_init w in
  let '(w, response) := nsm_process_request nsm_fd request w in
  (nsm_exit nsm_fd w, response).

(** ** attestation/server *)

Definition get_attestation_doc (pub_key : bytes) : io W Empty_set bytes := fun w =>
  match nsm_attest (mkAttestationRequest (Some pub_key) None None) w with
  | (w, DocumentResponse document) => (w, Some (Ok document))
  | (w, OtherResponse) => (w, Some Panic)
  end.

Definition get_hex_attestation_doc (pub_key : bytes) : io W Empty_set string :=
  attestation ← get_attestation_doc pub_key;
  mret (hex_encode attestation).

(** The routes of [main]; the bodies as bytes. *)
Definition server_routes (pub_key : bytes) (path : string) : option (io W Empty_set bytes) :=
  if String.eqb path "/attestation/raw" then Some (get_attestation_doc pub_key)
  else if String.eqb path "/attestation/hex" then
    Some (text ← get_hex_attestation_doc pub_key; mret (bytes_of_string text))
  else None.

(** ** attestation/server-custom *)

Definition custom_attestation_doc (public_key user_data nonce : option bytes) : io W string bytes := fun w =>
  match nsm_attest (mkAttestationRequest public_key user_data nonce) w with
  | (w, DocumentResponse document) => (w, Some (Ok document))
  | (w, OtherResponse) => (w, Some (Err "nsm driver returned invalid response"%string))
  end.

Definition custom_hex_attestation_doc (public_key user_data nonce : option bytes) : io W string string :=
  attestation ← custom_attestation_doc public_key user_data nonce;
  mret (hex_encode attestation).

Definition BAD_REQUEST : Z := 400.
Definition INTERNAL_SERVER_ERROR : Z := 500.

Definition extract (query : gmap string string) (key : string) : outcome (Z * string) (option bytes) :=
  match query !! key with
  | None => Ok None
  | Some x =>
      match hex_decode (bytes_of_string x) with
      | Some b => Ok (Some b)
      | None => Err (BAD_REQUEST, "Failed to decode " +:+ key)
      end
  end.

(** [map_err] on a computation *)
Definition io_map_err {E F A} (f : E -> F) (m : io W E A) : io W F A := fun w =>
  let '(w, r) := m w in (w, match r with Some r => Some (map_err f r) | None => None end).

Definition server_error (e : string) : Z * string := (INTERNAL_SERVER_ERROR, "Failed to generate attestation doc: " +:+ e).

(** [handle_raw] and [handle_hex], over the server's own documents. *)
Definition handle {A} (doc : option bytes -> option bytes -> option bytes -> io W string A) (query : gmap string string)
    : io W (Z * string) A :=
  public_key ← lift (extract query "public_key");
  user_data ← lift (extract query "user_data");
  nonce ← lift (extract query "nonce");
  io_map_err server_error (doc public_key user_data nonce).

Definition handle_raw (query : gmap string string) : io W (Z * string) bytes := handle custom_attestation_doc query.
Definition handle_hex (query : gmap string string) : io W (Z * string) string := handle custom_hex_attestation_doc query.

(** ** attestation/server-custom-mock *)

Section mock.
Context `{Cr : NitroGuest.Crypto} (ROOT_CERT LEAF_CERT LEAF_KEY : bytes) (timestamp_ms : Z).

Definition mock_doc (public_key user_data nonce : option bytes) : io W string bytes :=
  lift (NitroGuest.get_attestation_doc ROOT_CERT LEAF_CERT LEAF_KEY timestamp_ms public_key user_data nonce).

Definition mock_hex_doc (public_key user_data nonce : option bytes) : io W string string :=
  attestation ← mock_doc public_key user_data nonce;
  mret (hex_encode attestation).

Definition mock_handle_raw (query : gmap string string) : io W (Z * string) bytes := handle mock_doc query.
Definition mock_handle_hex (query : gmap string string) : io W (Z * string) string := handle mock_hex_doc query.
End mock.

End servers.

(** ** cli_attestation_verifier.rs *)

Section cli.
Context `{O : Openssl} `{V : VerifierCrypto}.

(** [main]: the contents of the file ([None]: it cannot be read), and what is
    printed. *)
Definition cli_main (now : nat -> option Z) (file : option string) : outcome string AttestationDecoded :=
  attestation ← ok_or "Failed to read attestation hex string"%string file;
  attestation ← ok_or "Failed to decode attestation hex string"%string (hex_decode (bytes_of_string attestation));
  parsed_attestation ← map_err (fun _ => "Failed to decode the attestation doc"%string) (decode_attestation attestation);
  _ ← map_err (fun _ => "Failed to verify the attestation doc"%string)
        (verify_with_timestamp now attestation (pcrs parsed_attestation) (timestamp parsed_attestation));
  Ok parsed_attestation.

(** sdks/rs/src/main.rs: [fetched] is the answer of the endpoint, [saved]
    whether the key is written; the result is the key. *)
Definition pcr_arg (text : string) : outcome string bytes :=
  b ← ok_or "invalid hex"%string (hex_decode (bytes_of_string text));
  if (length b =? 48)%nat then Ok b else Err "could not convert slice to array"%string.

Definition sdk_main (now : nat -> option Z) (millis : Z) (fetched : option bytes) (pcr0 pcr1 pcr2 : string)
    (max_age : Z) (saved : bool) : outcome string bytes :=
  p0 ← pcr_arg pcr0;
  p1 ← pcr_arg pcr1;
  p2 ← pcr_arg pcr2;
  attestation_doc ← ok_or "failed to fetch"%string fetched;
  pub_key ← map_err (fun _ => "verification failed"%string)
              (Attestation.verify now millis attestation_doc [p0; p1; p2] max_age);
  if saved then Ok pub_key else Err "failed to write"%string.

End cli.
