(* ===== verification/AttServersProps.v ===== *)
(** * Attestation documents: from the enclave's server to the signature

    The documents that the servers hand out are those that the verifier
    service signs, with the key of the server. *)

From S2P Require Import Prelude Io.
From S2P Require Import ByteOrder.
From S2P Require Import Attestation.
From S2P Require Import AttestationProps.
From S2P Require Import Verifier.
From S2P Require Import VerifierProps.
From S2P Require Import AttServers.

(** What is relied on of hexadecimal and of the digests of the verifier. *)
Class HexLaws `{V : VerifierCrypto} := {
  hex_decode_encode : forall b, octets b -> hex_decode (bytes_of_string (hex_encode b)) = Some b;
  keccak_length : forall b, length (keccak256 b) = 32%nat;
  recovery_id : forall m, 0 <= (sign_ecdsa_recoverable m).1 <= 3
}.

(** The documented sizes of a request: a public key of at most 1024 bytes,
    user data and nonce of at most 512. *)
Definition at_most (n : nat) (o : option bytes) : Prop := forall b, o = Some b -> (length b <= n)%nat.
Definition within_limits (req : AttestationRequest) : Prop :=
  at_most 1024 (req_public_key req) /\ at_most 512 (req_user_data req) /\ at_most 512 (req_nonce req).

(** The security module of an enclave with measurements [p0], [p1], [p2].  It
    may answer any request with an error, and must when the request exceeds
    the sizes; a document it does hand out for a public key is genuine at
    [now] and carries that key. *)
Class NsmLaws (W : Type) `{O : Openssl} `{N : Nsm W} (now : nat -> option Z) (p0 p1 p2 : bytes) :=
  nsm_attests : forall fd req pk w w' document,
    nsm_process_request fd req w = (w', DocumentResponse document) ->
    req_public_key req = Some pk -> pk <> [] -> octets pk ->
    within_limits req /\ octets document /\
    exists ts, genuine now document (mkAttestationDecoded [p0; p1; p2] ts pk).

(** The module is up: it answers every request of a documented size with a
    document. *)
Definition answers `{N : Nsm W} (w : W) : Prop :=
  let '(w, fd) := nsm_init w in
  forall req, within_limits req -> exists w' document,
    nsm_process_request fd req w = (w', DocumentResponse document).

Section end_to_end.
Context {W : Type} {O : Openssl} {V : VerifierCrypto} {HL : HexLaws} {N : Nsm W}.
Context (now : nat -> option Z) (p0 p1 p2 : bytes) {NL : NsmLaws W now p0 p1 p2}.

(** The outcomes of a request with a public key. *)
Lemma nsm_attest_cases req w pk : req_public_key req = Some pk -> pk <> [] -> octets pk ->
  (exists w', nsm_attest req w = (w', OtherResponse) /\ ~ (answers w /\ within_limits req)) \/
  (exists w' document ts, nsm_attest req w = (w', DocumentResponse document) /\ within_limits req /\
     octets document /\ genuine now document (mkAttestationDecoded [p0; p1; p2] ts pk)).
Proof using NL.
  intros Hpk Hne Ho. unfold nsm_attest, answers. destruct (nsm_init w) as [w1 fd].
  destruct (nsm_process_request fd req w1) as [w2 [document |]] eqn:Hr.
  - right. destruct (nsm_attests _ _ _ _ _ _ Hr Hpk Hne Ho) as (Hl & Hod & ts & Hg). eauto 8.
  - left. eexists. split; [reflexivity |]. intros [Hup (w' & document & Hd)%Hup]. congruence.
Qed.

Lemma signs_hex document ts pk : octets document -> genuine now document (mkAttestationDecoded [p0; p1; p2] ts pk) ->
  verify_hex now (bytes_of_string (hex_encode document)) = Ok (signed_response p0 p1 p2 ts pk).
Proof using HL.
  intros Ho Hg. unfold verify_hex. rewrite hex_decode_encode by done. cbn [ok_or mbind outcome_bind].
  apply verify_genuine; [apply keccak_length | apply recovery_id | done].
Qed.

(** The command line prints the fields of exactly the genuine documents. *)
Lemma cli_prints_genuine document d : octets document ->
  cli_main now (Some (hex_encode document)) = Ok d <-> genuine now document d.
Proof using HL.
  intros Ho. unfold cli_main. cbn [ok_or mbind outcome_bind]. rewrite hex_decode_encode by done.
  cbn [ok_or mbind outcome_bind]. split.
  - intros H. destruct (decode_attestation document) as [d' | |] eqn:Hd; [| done ..]. cbn in H.
    destruct (verify_with_timestamp _ _ _ _) as [pk | |] eqn:Hv; [| done ..]. cbn in H. injection H as <-.
    apply (verify_own_fields now _ _ Hd). by exists pk.
  - intros Hg. pose proof (genuine_decodes _ _ _ Hg) as Hd. rewrite Hd. cbn.
    apply (verify_own_fields now _ _ Hd) in Hg as [pk ->]. done.
Qed.

Lemma pcr_arg_hex p : octets p -> length p = 48%nat -> pcr_arg (hex_encode p) = Ok p.
Proof using HL. intros Ho Hl. unfold pcr_arg. rewrite hex_decode_encode by done. cbn. by rewrite Hl. Qed.

Lemma genuine_pcr_lengths document ts pk : genuine now document (mkAttestationDecoded [p0; p1; p2] ts pk) ->
  length p0 = 48%nat /\ length p1 = 48%nat /\ length p2 = 48%nat.
Proof.
  intros (cose & m & _ & ((p & _ & Hp) & _) & _). cbn in Hp.
  repeat match goal with H : Forall2 _ (_ :: _) _ |- _ => apply Forall2_cons in H as [[_ ?] H] end. done.
Qed.

(** The SDK, asked with the measurements, returns the key of a document that
    is young enough. *)
Lemma sdk_returns_key document ts pk millis max_age : octets p0 -> octets p1 -> octets p2 ->
  genuine now document (mkAttestationDecoded [p0; p1; p2] ts pk) ->
  0 <= max_age <= millis -> millis < 2 ^ 63 -> millis - ts <= max_age ->
  sdk_main now millis (Some document) (hex_encode p0) (hex_encode p1) (hex_encode p2) max_age true = Ok pk.
Proof using HL.
  intros H0 H1 H2 Hg Hage Hmillis Hts. destruct (genuine_pcr_lengths _ _ _ Hg) as (L0 & L1 & L2).
  unfold sdk_main. rewrite !pcr_arg_hex by done. cbn [ok_or mbind outcome_bind].
  by rewrite (verify_young now millis document [p0; p1; p2] max_age pk ts).
Qed.

Lemma extract_hex query key b : query !! key = Some (hex_encode b) -> octets b -> extract query key = Ok (Some b).
Proof using HL. intros Hq Hb. unfold extract. by rewrite Hq, hex_decode_encode. Qed.

Lemma extract_cases query key : (exists o, extract query key = Ok o) \/
  (exists x, query !! key = Some x /\ hex_decode (bytes_of_string x) = None) /\
  extract query key = Err (BAD_REQUEST, "Failed to decode " +:+ key).
Proof.
  unfold extract. destruct (query !! key) as [x |]; [| by left; eexists].
  destruct (hex_decode (bytes_of_string x)) eqn:Hd; [by left; eexists | right; eauto].
Qed.

(** A query that does not decode is refused before the module is asked. *)
Lemma handle_malformed {A} (doc : option bytes -> option bytes -> option bytes -> io W string A) query w :
  (exists pk ud nonce, extract query "public_key" = Ok pk /\ extract query "user_data" = Ok ud /\
     extract query "nonce" = Ok nonce /\ handle doc query w = io_map_err server_error (doc pk ud nonce) w) \/
  (exists key x e, key ∈ ["public_key"; "user_data"; "nonce"]%string /\ query !! key = Some x /\
     hex_decode (bytes_of_string x) = None /\ handle doc query w = (w, Some (Err (BAD_REQUEST, e)))).
Proof.
  unfold handle, mbind, io_bind, lift.
  destruct (extract_cases query "public_key") as [[pk ->] | [(x & Hx & Hd) ->]]; [| right; eexists _, x, _; split_and!; [| exact Hx | exact Hd | reflexivity]; repeat constructor].
  destruct (extract_cases query "user_data") as [[ud ->] | [(x & Hx & Hd) ->]]; [| right; eexists _, x, _; split_and!; [| exact Hx | exact Hd | reflexivity]; repeat constructor].
  destruct (extract_cases query "nonce") as [[nonce ->] | [(x & Hx & Hd) ->]]; [| right; eexists _, x, _; split_and!; [| exact Hx | exact Hd | reflexivity]; repeat constructor].
  left. exists pk, ud, nonce. done.
Qed.

Lemma server_attests w pk : octets pk -> pk <> [] -> octets p0 -> octets p1 -> octets p2 ->
  (exists w', get_attestation_doc pk w = (w', Some Panic) /\ get_hex_attestation_doc pk w = (w', Some Panic) /\
     ~ (answers w /\ (length pk <= 1024)%nat)) \/
  (exists w' document ts,
     let text := hex_encode document in
     get_attestation_doc pk w = (w', Some (Ok document)) /\ get_hex_attestation_doc pk w = (w', Some (Ok text)) /\
     verify_hex now (bytes_of_string text) = Ok (signed_response p0 p1 p2 ts pk) /\
     cli_main now (Some text) = Ok (mkAttestationDecoded [p0; p1; p2] ts pk) /\
     forall millis max_age, 0 <= max_age <= millis -> millis < 2 ^ 63 -> millis - ts <= max_age ->
       sdk_main now millis (Some document) (hex_encode p0) (hex_encode p1) (hex_encode p2) max_age true = Ok pk).
Proof using HL NL.
  intros Ho Hne H0 H1 H2. unfold get_hex_attestation_doc, get_attestation_doc, mbind, io_bind.
  destruct (nsm_attest_cases (mkAttestationRequest (Some pk) None None) w pk eq_refl Hne Ho)
    as [(w' & -> & Hno) | (w' & document & ts & -> & _ & Hod & Hg)].
  - left. exists w'. split_and!; [done | done |]. intros [Hup Hlen]. apply Hno. split; [done |].
    split; [by intros b [= <-] | split; by intros b [=]].
  - right. exists w', document, ts.
    split_and!; [done | done | by apply signs_hex | by apply cli_prints_genuine |].
    intros millis max_age ? ? ?. by apply (sdk_returns_key document ts).
Qed.

Lemma custom_server_attests w pk query : octets pk -> pk <> [] ->
  query !! "public_key"%string = Some (hex_encode pk) ->
  (exists key x e, key ∈ ["user_data"; "nonce"]%string /\ query !! key = Some x /\
     hex_decode (bytes_of_string x) = None /\ handle_hex query w = (w, Some (Err (BAD_REQUEST, e)))) \/
  (exists user_data nonce,
     extract query "user_data" = Ok user_data /\ extract query "nonce" = Ok nonce /\
     let sized := within_limits (mkAttestationRequest (Some pk) user_data nonce) in
     ((exists w' e, handle_hex query w = (w', Some (Err (INTERNAL_SERVER_ERROR, e))) /\ ~ (answers w /\ sized)) \/
      (exists w' text ts, handle_hex query w = (w', Some (Ok text)) /\ sized /\
         verify_hex now (bytes_of_string text) = Ok (signed_response p0 p1 p2 ts pk)))).
Proof using HL NL.
  intros Ho Hne Hq. pose proof (hex_decode_encode pk Ho) as Hpk.
  unfold handle_hex. destruct (handle_malformed custom_hex_attestation_doc query w)
    as [(o & ud & nonce & Hx & Hud & Hno & ->) | (key & x & e & Hkey & Hx & Hd & ->)].
  - right. rewrite (extract_hex query "public_key" pk) in Hx by done. injection Hx as <-.
    exists ud, nonce. split; [exact Hud |]. split; [exact Hno |].
    unfold custom_hex_attestation_doc, custom_attestation_doc, io_map_err, mbind, io_bind. cbn zeta.
    destruct (nsm_attest_cases (mkAttestationRequest (Some pk) ud nonce) w pk eq_refl Hne Ho)
      as [(w' & -> & Hdown) | (w' & document & ts & -> & Hsized & Hod & Hg)].
    + left. eexists w', _. by split.
    + right. exists w', (hex_encode document), ts. split; [done |]. split; [done |]. by apply signs_hex.
  - left. exists key, x, e. split; [| done]. by apply elem_of_cons in Hkey as [-> | Hkey]; [congruence |].
Qed.

(** C33: a key in an enclave ends in a signature over that key, or in an error
    that says so.  The attestation server, asked for its public key, and the
    custom server, asked for a public key in the query, panic respectively
    answer 500 only when the security module is not up or the request exceeds
    the documented sizes; a query with a field that is not hexadecimal is
    refused with 400, before the module is asked.  In every other case the
    hexadecimal document they hand out is answered by the verifier service
    with the response signed for the measurements of the enclave and that
    key; the command line verifier prints those fields, and the command line
    of the SDK, given the measurements, returns the key while the document is
    young enough. *)
Theorem attested_key_is_signed w pk query :
  octets pk -> pk <> [] -> octets p0 -> octets p1 -> octets p2 ->
  query !! "public_key"%string = Some (hex_encode pk) ->
  ((exists w', get_attestation_doc pk w = (w', Some Panic) /\ get_hex_attestation_doc pk w = (w', Some Panic) /\
      ~ (answers w /\ (length pk <= 1024)%nat)) \/
   (exists w' document ts,
     let text := hex_encode document in
     get_attestation_doc pk w = (w', Some (Ok document)) /\ get_hex_attestation_doc pk w = (w', Some (Ok text)) /\
     verify_hex now (bytes_of_string text) = Ok (signed_response p0 p1 p2 ts pk) /\
     cli_main now (Some text) = Ok (mkAttestationDecoded [p0; p1; p2] ts pk) /\
     forall millis max_age, 0 <= max_age <= millis -> millis < 2 ^ 63 -> millis - ts <= max_age ->
       sdk_main now millis (Some document) (hex_encode p0) (hex_encode p1) (hex_encode p2) max_age true = Ok pk)) /\
  ((exists key x e, key ∈ ["user_data"; "nonce"]%string /\ query !! key = Some x /\
      hex_decode (bytes_of_string x) = None /\ handle_hex query w = (w, Some (Err (BAD_REQUEST, e)))) \/
   (exists user_data nonce,
      extract query "user_data" = Ok user_data /\ extract query "nonce" = Ok nonce /\
      let sized := within_limits (mkAttestationRequest (Some pk) user_data nonce) in
      ((exists w' e, handle_hex query w = (w', Some (Err (INTERNAL_SERVER_ERROR, e))) /\ ~ (answers w /\ sized)) \/
       (exists w' text ts, handle_hex query w = (w', Some (Ok text)) /\ sized /\
          verify_hex now (bytes_of_string text) = Ok (signed_response p0 p1 p2 ts pk))))).
Proof using HL NL.
  intros Ho Hne H0 H1 H2 Hq. split.
  - apply server_attests; [done ..].
  - by apply custom_server_attests.
Qed.

End end_to_end.

(** ** An enclave with hexadecimal as it is *)
Module AttServersWitnesses.

Definition digit (z : Z) : Ascii.ascii := Ascii.ascii_of_N (Z.to_N (if z <? 10 then 48 + z else 87 + z)).
Definition value (c : Z) : option Z :=
  if (48 <=? c) && (c <=? 57) then Some (c - 48) else if (97 <=? c) && (c <=? 102) then Some (c - 87) else None.

Fixpoint to_hex (b : bytes) : string :=
  match b with [] => EmptyString | x :: b => String (digit (x / 16)) (String (digit (x mod 16)) (to_hex b)) end.
Fixpoint of_hex (l : bytes) : option bytes :=
  match l with
  | [] => Some []
  | [_] => None
  | x :: y :: l => x ← value x; y ← value y; b ← of_hex l; Some (16 * x + y :: b)
  end.

Definition pair_ok (x : Z) : bool :=
  bool_decide (of_hex (bytes_of_string (to_hex [x])) = Some [x]).

Lemma of_hex_to_hex b : octets b -> of_hex (bytes_of_string (to_hex b)) = Some b.
Proof.
  assert (Hall : forallb pair_ok (seqZ 0 256) = true) by (vm_compute; reflexivity).
  rewrite forallb_forall in Hall. induction 1 as [| x b Hx%is_byte_range _ IH]; [done |].
  assert (Hin : List.In x (seqZ 0 256)) by (apply list_elem_of_In, elem_of_seqZ; lia).
  apply Hall, bool_decide_eq_true in Hin. cbn [to_hex bytes_of_string of_hex] in *.
  revert Hin. rewrite IH. repeat (destruct (value _); cbn; try done). by intros [= ->].
Qed.

#[local] Instance toy_crypto : VerifierCrypto := {|
  keccak256 := fun b => take 32 (b ++ replicate 32 0);
  sign_ecdsa_recoverable := fun _ => (1, [5]);
  hex_encode := to_hex;
  hex_decode := of_hex;
  verifier_public := []
|}.

#[local] Instance toy_hex_laws : HexLaws.
Proof.
  constructor; [exact of_hex_to_hex | | done]. intros b. change (length (take 32 (b ++ replicate 32 0)) = 32%nat). rewrite length_take, length_app, length_replicate. lia.
Qed.

(** A document is its public key; the certificate is the root itself. *)
#[local] Instance toy_openssl : Openssl := {|
  CoseSign1 := bytes;
  cose_from_bytes := Some;
  get_payload := Some;
  cbor_from_slice := fun pk => Some (VMap
    [(VText "certificate", VBytes [3]); (VText "cabundle", VArray []);
     (VText "pcrs", VMap [(VInteger 0, VBytes (replicate 48 10)); (VInteger 1, VBytes (replicate 48 11));
                          (VInteger 2, VBytes (replicate 48 12))]);
     (VText "public_key", VBytes pk); (VText "timestamp", VInteger 900)]);
  X509 := Z;
  PKey := Z;
  x509_from_der := head;
  x509_from_pem := head;
  x509_eqb := Z.eqb;
  public_key_of := Some;
  x509_verify := fun cert key => Some (key =? cert);
  issued := fun issuer cert => issuer =? cert;
  x509_not_before := fun _ => 0;
  x509_not_after := fun _ => 100;
  verify_signature := fun _ key => Some (key =? 3);
  aws_cert := [3]
|}.

#[local] Instance at_most_dec n o : Decision (at_most n o).
Proof.
  refine (match o with
          | Some b => match decide (length b <= n)%nat with left H => left _ | right H => right _ end
          | None => left _
          end).
  - by intros b' [= <-].
  - intros Hm. by apply H, Hm.
  - by intros b [=].
Defined.

#[local] Instance within_limits_dec req : Decision (within_limits req).
Proof. unfold within_limits. apply _. Defined.

(** A module that refuses what is too large. *)
#[local] Instance toy_nsm : Nsm nat := {|
  nsm_init := fun w => (S w, 7);
  nsm_process_request := fun _ req w =>
    (w, match req_public_key req with
        | Some pk => if bool_decide (within_limits req) then DocumentResponse pk else OtherResponse
        | None => OtherResponse
        end);
  nsm_exit := fun _ w => pred w
|}.

Definition toy_now : nat -> option Z := fun _ => Some 50.

Lemma toy_genuine pk : genuine toy_now pk
  (mkAttestationDecoded [replicate 48 10; replicate 48 11; replicate 48 12] 900 pk).
Proof. apply verify_and_decode_iff. by vm_compute. Qed.

#[local] Instance toy_nsm_laws : NsmLaws nat toy_now (replicate 48 10) (replicate 48 11) (replicate 48 12).
Proof.
  intros fd req pk w w' document Hr Hpk _ Ho. cbn in Hr. rewrite Hpk in Hr.
  case_bool_decide as Hl; [| done]. injection Hr as <- <-.
  split; [done |]. split; [done |]. exists 900. apply toy_genuine.
Qed.

Lemma attested_key_is_signed_witness :
  let text p := hex_encode (replicate 48 p) in
  exists w' document, get_attestation_doc [7; 8] 0%nat = (w', Some (Ok document)) /\ document = [7; 8] /\
    sdk_main toy_now 1000 (Some document) (text 10) (text 11) (text 12) 500 true = Ok [7; 8].
Proof.
  assert (Ho : octets [7; 8]) by repeat constructor.
  assert (Hpcr : forall p, is_byte p = true -> octets (replicate 48 p)) by (intros p Hp; by apply Forall_replicate).
  assert (Hq : ({["public_key"%string := "0708"%string]} : gmap string string) !! "public_key"%string = Some (hex_encode [7; 8]))
    by (vm_compute; reflexivity).
  assert (Hrun : get_attestation_doc [7; 8] 0%nat = (0%nat, Some (Ok [7; 8]))) by (vm_compute; reflexivity).
  destruct (attested_key_is_signed toy_now (replicate 48 10) (replicate 48 11) (replicate 48 12) 0%nat [7; 8] _ Ho
    ltac:(discriminate) (Hpcr 10 eq_refl) (Hpcr 11 eq_refl) (Hpcr 12 eq_refl) Hq)
    as [[(w' & Hpanic & _) | (w' & document & ts & Hdoc & Hhex & _ & Hcli & Hsdk)] _]; [congruence |].
  assert (document = [7; 8]) as -> by congruence.
  assert (Hts : cli_main toy_now (Some (hex_encode [7; 8])) =
    Ok (mkAttestationDecoded [replicate 48 10; replicate 48 11; replicate 48 12] 900 [7; 8])) by (vm_compute; reflexivity).
  exists w', [7; 8]. split; [exact Hdoc |]. split; [done |]. apply Hsdk; [lia | lia |].
  assert (ts = 900) as -> by congruence. lia.
Defined.
End AttServersWitnesses.
